(* ===== verification/_CoqProject ===== *)
-Q . S2P
Prelude.v
CxxString.v
Version.v
CompSpec.v
Device.v
Mmap.v
Bus.v
Devicetree.v
DevicetreeSpec.v
DevicetreeTest.v
Json.v
OwningBus.v
Cli.v
Wire.v
Protocol.v
Address.v
Client.v
DeviceRemote.v
Objects.v
ObjectsSpec.v
HwioInit.v
ObjectsTest.v
Typed.v
RemoteTyped.v
ClientSpec.v
RemoteSpec.v
Server.v
ServerHandlers.v
ServerFrame.v
ServerSpec.v
ServerQuery.v
ServerSafety.v
ServerLoop.v
ServerLoopSpec.v
ServerStream.v
ServerFrames.v
ServerRun.v
ServerSingle.v
ServerRounds.v
ServerProgress.v
ServerLiveness.v
ServerFairness.v
MmapServer.v
ServerTest.v
ServerLivenessTest.v
EndToEnd.v
RemoteProgram.v
RemoteSession.v
RemoteMmap.v
RemoteTest.v
RemoteInit.v
RemoteInitTest.v
