(* ===== verification/Prelude.v ===== *)
(** * libhwio: a verification development

    libhwio gives programs registers of hardware components: devices of a
    local memory file or of a server reached over TCP, found by name, vendor,
    type and version.  This development models the C++ program in [src/src]:
    the device and bus classes, the client of the protocol, the server, the
    readers of device trees and JSON descriptions, and the command line.

    ** How the program is modelled

    C++ code becomes functions in the state and exception monad [ST] of this
    file: a value, a C++ exception with its class and text, or a [fault],
    which stands for behaviour outside the language (an access outside an
    object, a use of a deleted object, a [memcpy] between ranges that overlap,
    a failed [assert], a call that never returns, an exception that leaves a
    destructor).  A theorem that an operation returns thus also shows that it
    stays inside its buffers.  There is one exception: [parse_msgs] reads the
    descriptor of a client after deleting the object, whenever a request ends
    the connection.  As a fault this would leave nothing to say about a server
    after the first goodbye, so the value read is the parameter [freed_fd],
    about which no theorem assumes anything; the only use of the value is to
    stop polling that descriptor.
    Integers are [Z] with the wrap-around of their width written out ([u16],
    [u32], [u64], [s32]); memory and messages are lists of bytes; a
    [std::string] is a [string].  The operating system and the libraries are
    class parameters with the contract the code relies on ([Posix],
    [PosixPages], [FileSystem], [StdSort], [Resolver], [ConApi], [JsonFiles],
    [UserFiles], [Getopt], [Build], [VectorGrowth], [Platform], [PointerBytes],
    [Dial]); the test modules give an executable instance of each.

    ** The files and what they model

    - [Prelude]: the monad, its lemmas, frames ([within], the hint database
      [frame] and the tactic of this name), triples, little-endian integers,
      lists in pieces.
    - [CxxString]: [strlen], [strncpy], [std::stoi], [std::stoul], output of
      numbers.
    - [Version], [CompSpec]: [hwio_version.cpp], [hwio_comp_spec.cpp].
    - [Device]: [device/ihwio_dev.h]; the interfaces [RegAccess], [IDev] and
      [ByteDevice], the default block transfers, device equality.
    - [Mmap]: [device/hwio_device_mmap.cpp]; devices on shared memory files,
      and a concrete machine ([TestMachine]).
    - [Bus]: [bus/ihwio_bus.h], [hwio_bus_primitive], [hwio_bus_composite];
      the interface [IBus] and the selection of devices.
    - [Devicetree], [DevicetreeSpec], [DevicetreeTest]:
      [bus/hwio_bus_devicetree.cpp]; the walk with the members [path_stack],
      [dir_stack] and [top_dir_checked_for_dev] as the record [dt_state].
    - [Json]: [bus/hwio_bus_json.cpp] on property trees.  [OwningBus]: the
      device objects of these two buses, their lookup and their destructors.
    - [Cli]: [hwio_cli.cpp].
    - [Objects]: the objects of a process.  A bus is a pointer to an object of
      one of the five classes, a device a pointer to one of the two; calls
      through [ihwio_bus] and [ihwio_dev] select the method by the class; the
      constructors and destructors.  [ObjectsSpec]: trees of buses, their
      lookups and deletion.  [HwioInit], [RemoteInit]: from the command line
      to a local register and to a server.  [ObjectsTest], [RemoteInitTest]:
      concrete processes and the witnesses.
    - [Typed], [RemoteTyped]: the types of the methods of devices and of a
      remote bus.
    - [Wire]: [hwio_remote.h]; the packed structures as bytes.  [Protocol]:
      requests as data and the bytes of each.
    - [Address]: [hwio_remote_utils.cpp].
    - [Client]: [bus/hwio_client_to_server_con.cpp]; a [Link] is the
      connection object with the events its socket has in store and the peer
      behind it ([Peer]).
    - [DeviceRemote]: [device/hwio_device_remote.{h,cpp}] and
      [bus/hwio_bus_remote.cpp]; a remote device is an [IDev], a remote bus
      an [IBus].  [ClientSpec]: what the loops of a connection do with a
      peer.  [RemoteSpec]: every remote operation, proved against the
      interface [Served], the promise of a server.
    - [Server]: [server/hwio_server.{h,cpp}] and
      [server/hwio_server_utils.cpp]; the state record [HwioServer], the
      client objects on a heap that [clients] and [fd_to_client] point into,
      the client table, the destructor.
    - [ServerHandlers]: [handle_msg] and the handlers of
      [hwio_server_rw.cpp], [hwio_server_query.cpp] and
      [hwio_server_remote_call.cpp].
    - [ServerLoop]: [prepare_server_socket], [read_from_socket],
      [parse_msgs], [handle_multiple_client_requests] and
      [pool_client_msgs]; the network is a record of events to come and bytes
      sent.
    - [ServerFrame], [ServerSpec], [ServerQuery], [ServerSafety],
      [ServerLoopSpec]: what each handler and loop changes and answers.
    - [ServerStream]: the protocol as an abstract server ([serves]) and its
      refinement by [handle_msg].  [ServerFrames]: all messages the protocol
      answers, refused ones too ([replies]).  [ServerRun]: the refinement on
      the stream of one client.  [ServerRounds]: an abstract server of many
      clients ([hub], [turn], [rounds]) and its refinement by rounds of
      [pool_client_msgs].  [ServerProgress]: that a round returns, from the
      interface [Answering], the promise of the devices.
      [ServerLiveness]: what a client is sent in the end.  [ServerFairness]:
      a client whose socket is reported often enough ([attended]) is answered,
      and with a [ppoll] that tells the truth ([honest]) every round returns.
      [ServerSingle]: [handle_client_requests], which nothing calls.
    - [MmapServer]: the devices of [Mmap] on buses of the process
      ([LocalBus]) keep the promise [Answering].
    - [ServerTest], [ServerLivenessTest]: a concrete server with two clients
      and the witnesses.
    - [EndToEnd]: the server as the peer of a client; it keeps the promise
      [Served].  [RemoteProgram]: programs over devices, machines that run
      them, simulation of machines, and the remote machine.
      [RemoteSession]: a session from the constructor of the bus to its
      destructor.  [RemoteMmap]: such a session with memory mapped devices,
      down to the bytes of the memory file.  [RemoteTest]: a concrete session
      and the witnesses.

    ** How the parts meet

    The handlers of the server call devices through [IDev] and buses through
    [IBus], so its theorems hold for every device and bus class.  The client
    is proved against [Served] and does not mention the server; [EndToEnd]
    instantiates [Served] with a round of [pool_client_msgs] on the bytes that
    one [send] delivers.  The bus classes of [OwningBus] and of
    [DeviceRemote] are instances of [IBus], and so are the pointers of
    [Objects], which dispatch to them.  [Cli] creates buses through
    [BusFactory]; [process_factory] implements it with the constructors of the
    program, and [RemoteInit] joins command line, client and server.

    ** What the theorems show

    - End to end (C1-C3, C10, C24, C25): a program that starts with a
      configuration gives the same result on a remote bus as on the devices of
      the server, from connection to goodbye, and reads the bytes of the
      memory file on a local one; a block written through the network arrives
      in the memory file of the server and is read back; a device the client
      does not hold is refused and how this is reported; what a call by name
      loses.
    - The server (C4-C9, C11-C17, C26, C31-C33): its handlers and loops refine
      the abstract protocol however the bytes arrive and whatever other
      clients do, in any number of rounds; a round returns when the devices
      keep their promise, and memory mapped devices keep it; a client whose
      socket is attended is answered or has left; messages without a
      right to a device, of a wrong size or too large are refused and touch no
      device; answers stay in their buffer; clients do not disturb each other;
      the client table keeps its invariant through connections, messages,
      removals and destruction.
    - Buses (C18, C19, C22, C23, C29): lookup and deletion through nested
      composite buses; the walk over a device tree ends and finds the devices
      of all directories; a directory becomes the device its files describe;
      JSON descriptions.
    - Types (C20, C21): devices and pointers stay well typed and results are
      machine words, whatever the memory holds or the server answers.
    - Command line and addresses (C27, C28, C30).
    - Devices (C34-C36): block transfers of any length and alignment.
    - Versions and specifications (C37-C40): the language each parser
      accepts, round trips, errors.

    The relations of C4, C5 and C6 say what the protocol answers ([replies])
    and which turn each ready descriptor takes; the theorems show that the
    code takes it, C6 that there is one, and C7 from which devices this
    follows.  C5 joins them: with a [ppoll] that tells the truth the rounds
    return and every client is answered.  A client has a turn only when its
    partial message can be moved to the front of the buffer without an overlap
    ([apart]); C8 decides from the chunks of one client whether all moves are
    of this kind, and shows that the run is undefined when one is not.  In the
    sessions of C1, C2, C3 and C24 a partial message is always at the front.
    After a refused request or a goodbye the server stops polling [freed_fd] of
    the descriptor, so C4 to C6 keep a list of the descriptors to stop polling
    ([hub_removed]) beside the clients, and C5 says when a client that stays
    might not be polled.  A
    [HWIO_CMD_MSG] with a text shorter than 128 bytes, whose terminator the
    server writes behind the message, and requests whose device misbehaves
    have no answer in [replies]; C12, C13 and C17 cover them.

    Where the code does not do what it is meant to, the theorem states what
    it does: C8 (the overlapping [memcpy]), C10 and C29 (base and size
    exchanged), C15, C25, C27, C28, C30 (the form [[ipv6]:port]), C31 (sizes
    accepted that are one byte too small), C32, C39, C40 (a vendor and a type
    without version) and the lemmas [mmap_attach_after_failed_map],
    [dev_specs_eq_spec], [failed_connect_terminates],
    [short_text_damages_next].

    ** Bounds and fuel

    - [parse_msgs] runs with the length of the buffered bytes: each message
      has three bytes at least ([parse_msgs_unroll]: the bound does not show).
    - [device_next] and [collect] take fuel; three steps for each directory
      are enough (C22).  [compat_loop] runs with the length of the file.
    - [to_dec] and [to_hex] print up to 20 and 16 digits, enough for 64 bits.
    - [object_find] and [object_delete] go as deep as there are buses; a path
      through a tree meets each bus once ([depth_bound]).
    - C1, C2 and C3 are about programs whose operations fit the buffers of the
      protocol (2048 bytes): reads of up to 2045 bytes, writes of up to 2037,
      five specifications in a query, 256 devices for a client, because the
      server refuses a write to an id above 255.

    ** Not modelled

    Log output.  The messages READ_MULTIPLE, WRITE_MULTIPLE
    and WRITE_KEYHOLE, which the code declares and never uses.  What [munmap],
    [close] and [freeaddrinfo] do to the kernel.  Symbolic links that make a
    device tree infinite: the walk then does not end, C22 is about finite
    trees.  Signals: a [send] on a closed socket is an error here, not a
    signal.  In [Objects] each connection has its own peer, so two
    connections of one process to the same server do not see each other. *)

From Stdlib Require Import ZArith Lia Ascii String.
From stdpp Require Import base tactics list numbers strings gmap fin_maps.

#[global] Open Scope Z_scope.
#[global] Open Scope list_scope.

(** ** Outcomes: values, C++ exceptions, and behaviour outside the language *)

(** The exception classes the sources throw, with the [what()] text.
    [runtime_error] is the base of the four hwio classes; [invalid_argument]
    and [out_of_range] are [std::logic_error]s thrown by the C++ library;
    [EX_exception] is an object of the base class [std::exception] itself. *)
Inductive exn_class :=
  | EX_runtime_error
  | EX_error_rw
  | EX_dev_init_fail
  | EX_wrong_format
  | EX_device_tree_format
  | EX_invalid_argument
  | EX_out_of_range
  | EX_exception.

#[export] Instance exn_class_eq_dec : EqDecision exn_class.
Proof. solve_decision. Defined.

Record exn := Exn { exn_kind : exn_class; exn_what : string }.

(** Is the exception caught by [catch (std::runtime_error &)]? *)
Definition is_runtime_error (e : exn) : bool :=
  match exn_kind e with
  | EX_invalid_argument | EX_out_of_range | EX_exception => false
  | _ => true
  end.

(** Executions that leave the language: an access outside an object, a use of
    a deleted object, a [memcpy] between ranges that overlap, a failed
    [assert], a call that never returns, or an exception that leaves a
    destructor. *)
Inductive fault :=
  OutOfBounds | UseAfterFree | OverlappingCopy | AssertFailed | Hang | Terminated.

Inductive outcome (A : Type) :=
  | Ret (a : A)
  | Throw (e : exn)
  | Undef (f : fault).
Arguments Ret {A} a.
Arguments Throw {A} e.
Arguments Undef {A} f.

#[export] Instance outcome_ret : MRet outcome := @Ret.
#[export] Instance outcome_bind : MBind outcome := fun A B f m =>
  match m with
  | Ret a => f a
  | Throw e => Throw e
  | Undef x => Undef x
  end.

#[export] Instance outcome_fmap : FMap outcome := fun A B f m => m ≫= fun a => mret (f a).

(** Stateful code: the state is kept when an exception is thrown. *)
Definition ST (S A : Type) : Type := S -> outcome A * S.

#[export] Instance ST_ret {S} : MRet (ST S) := fun A a s => (Ret a, s).
#[export] Instance ST_bind {S} : MBind (ST S) := fun A B f m s =>
  match m s with
  | (Ret a, s') => f a s'
  | (Throw e, s') => (Throw e, s')
  | (Undef x, s') => (Undef x, s')
  end.

Definition st_throw {S A} (e : exn) : ST S A := fun s => (Throw e, s).
Definition st_undef {S A} (f : fault) : ST S A := fun s => (Undef f, s).
Definition st_get {S} : ST S S := fun s => (Ret s, s).
Definition st_put {S} (s : S) : ST S unit := fun _ => (Ret tt, s).
Definition st_modify {S} (f : S -> S) : ST S unit := fun s => (Ret tt, f s).
Definition st_lift {S A} (m : outcome A) : ST S A := fun s => (m, s).

(** [try { m } catch (std::runtime_error & err) { h(err) }] *)
Definition st_try {S A} (m : ST S A) (h : exn -> ST S A) : ST S A := fun s =>
  match m s with
  | (Throw e, s') => if is_runtime_error e then h e s' else (Throw e, s')
  | r => r
  end.

(** Run a computation on the second (first) half of a pair of states. *)
Definition st_snd {S T A} (m : ST T A) : ST (S * T) A := fun st =>
  let '(r, t) := m st.2 in (r, (st.1, t)).
Definition st_fst {S T A} (m : ST S A) : ST (S * T) A := fun st =>
  let '(r, s) := m st.1 in (r, (s, st.2)).

(** [for (auto x : l) body(x)] *)
Fixpoint st_iter {S A} (body : A -> ST S unit) (l : list A) : ST S unit :=
  match l with
  | [] => mret tt
  | x :: l' => body x ≫= fun _ => st_iter body l'
  end.

(** [for (auto x : l) res.push_back(f(x))] *)
Fixpoint st_mapM {S A B} (f : A -> ST S B) (l : list A) : ST S (list B) :=
  match l with
  | [] => mret []
  | x :: l' => f x ≫= fun y => st_mapM f l' ≫= fun ys => mret (y :: ys)
  end.

Section monad_lemmas.
Context {S : Type}.

Lemma st_bind_ret {A B} (m : ST S A) (f : A -> ST S B) s a s' :
  m s = (Ret a, s') -> (m ≫= f) s = f a s'.
Proof. intros H. unfold mbind, ST_bind. by rewrite H. Qed.

Lemma st_bind_throw {A B} (m : ST S A) (f : A -> ST S B) s e s' :
  m s = (Throw e, s') -> (m ≫= f) s = (Throw e, s').
Proof. intros H. unfold mbind, ST_bind. by rewrite H. Qed.

Lemma st_bind_undef {A B} (m : ST S A) (f : A -> ST S B) s x s' :
  m s = (Undef x, s') -> (m ≫= f) s = (Undef x, s').
Proof. intros H. unfold mbind, ST_bind. by rewrite H. Qed.

Lemma st_bind_assoc {A B C} (m : ST S A) (f : A -> ST S B) (g : B -> ST S C) s :
  ((m ≫= f) ≫= g) s = (m ≫= fun a => f a ≫= g) s.
Proof. unfold mbind, ST_bind. by destruct (m s) as [[a|e|x] s']. Qed.

Lemma st_try_ret {A} (m : ST S A) h s a s' :
  m s = (Ret a, s') -> st_try m h s = (Ret a, s').
Proof. intros H. unfold st_try. by rewrite H. Qed.

Lemma st_try_throw {A} (m : ST S A) h s e s' :
  m s = (Throw e, s') -> is_runtime_error e = true -> st_try m h s = h e s'.
Proof. intros H He. unfold st_try. by rewrite H, He. Qed.

Lemma st_try_undef {A} (m : ST S A) h s x s' :
  m s = (Undef x, s') -> st_try m h s = (Undef x, s').
Proof. intros H. unfold st_try. by rewrite H. Qed.

Lemma st_bind_inv {A B} (m : ST S A) (f : A -> ST S B) s b s'' :
  (m ≫= f) s = (Ret b, s'') ->
  exists a s', m s = (Ret a, s') /\ f a s' = (Ret b, s'').
Proof.
  unfold mbind, ST_bind. destruct (m s) as [[a|e|x] s'] eqn:E; intros H;
    [eauto | discriminate | discriminate].
Qed.

Lemma st_ret_inv {A} (a b : A) (s s' : S) :
  (mret a : ST S A) s = (Ret b, s') -> a = b /\ s = s'.
Proof. unfold mret, ST_ret. by intros [= -> ->]. Qed.

Lemma st_mapM_length {A B} (f : A -> ST S B) l ys s s' :
  st_mapM f l s = (Ret ys, s') -> length ys = length l.
Proof.
  revert s s' ys. induction l as [|x l IH]; intros s s' ys H; cbn in H.
  - by apply st_ret_inv in H as [<- _].
  - apply st_bind_inv in H as (y & s1 & _ & H).
    apply st_bind_inv in H as (ys1 & s2 & H & Hr).
    apply st_ret_inv in Hr as [<- _]. cbn. f_equal. eauto.
Qed.

(** An invariant kept by every body of a loop is kept by the loop. *)
Lemma st_iter_invariant {A} (P : S -> Prop) (body : A -> ST S unit) l s s' :
  (forall x s1 s2, x ∈ l -> P s1 -> body x s1 = (Ret tt, s2) -> P s2) ->
  P s -> st_iter body l s = (Ret tt, s') -> P s'.
Proof.
  revert s. induction l as [|x l IH]; intros s Hb Hs H; cbn in H.
  - by apply st_ret_inv in H as [_ <-].
  - apply st_bind_inv in H as ([] & s1 & Hx & H).
    eapply IH; [|eapply Hb; [left|exact Hs|exact Hx]|exact H].
    intros y s2 s3 Hy. apply Hb. by right.
Qed.
End monad_lemmas.

(** ** Frames: what a computation may change, on every outcome *)

(** Every step of [m], also one that throws, relates the states by [R]. *)
Definition within {S A} (R : relation S) (m : ST S A) : Prop := forall s, R s (m s).2.

Create HintDb frame discriminated.

Section within.
Context {S : Type} (R : relation S) `{!PreOrder R}.

Lemma within_ret {A} (a : A) : within R (mret a : ST S A).
Proof. intros s. cbn. reflexivity. Qed.

Lemma within_bind {A B} (m : ST S A) (f : A -> ST S B) :
  within R m -> (forall a, within R (f a)) -> within R (m ≫= f).
Proof.
  intros Hm Hf s. specialize (Hm s). unfold mbind, ST_bind.
  destruct (m s) as [[a|e|x] s']; [|done..]. etransitivity; [exact Hm|apply Hf].
Qed.

Lemma within_throw {A} e : within R (st_throw e : ST S A).
Proof. intros s. cbn. reflexivity. Qed.
Lemma within_undef {A} f : within R (st_undef f : ST S A).
Proof. intros s. cbn. reflexivity. Qed.
Lemma within_get : within R (st_get : ST S S).
Proof. intros s. cbn. reflexivity. Qed.

Lemma within_try {A} (m : ST S A) (h : exn -> ST S A) :
  within R m -> (forall e, within R (h e)) -> within R (st_try m h).
Proof.
  intros Hm Hh s. specialize (Hm s). unfold st_try.
  destruct (m s) as [[a|e|x] s']; [done| |done].
  destruct (is_runtime_error e); [|done]. etransitivity; [exact Hm|apply Hh].
Qed.

Lemma within_bool {A} (b : bool) (m1 m2 : ST S A) :
  within R m1 -> within R m2 -> within R (if b then m1 else m2).
Proof. by destruct b. Qed.

End within.

#[export] Hint Resolve within_ret within_throw within_undef within_get : frame.
#[export] Hint Extern 1 (PreOrder _) => apply _ : frame.

(** Decompose a computation into its primitive steps. *)
Ltac frame_step :=
  match goal with
  | |- within _ (@mbind _ _ _ _ _ _) => apply within_bind; [apply _| |intros ?]
  | |- within _ (if _ then _ else _) => apply within_bool
  | |- within _ (match ?o with Some _ => _ | None => _ end) => destruct o
  | |- within _ (st_try _ _) => apply within_try; [apply _| |intros ?]
  end.

Ltac frame := repeat first [ solve [eauto 2 with frame] | frame_step ].

(** ** Triples: a precondition, what holds with the result, and what holds after
    an exception; nothing is claimed once the execution left the language *)

Definition triple {S A} (E P : S -> Prop) (m : ST S A) (Q : A -> S -> Prop) : Prop :=
  forall s, P s ->
  match m s with (Ret a, s') => Q a s' | (Throw _, s') => E s' | (Undef _, _) => True end.

Section triple.
Context {S : Type} (E : S -> Prop).

Lemma triple_ret {A} (P : S -> Prop) (a : A) : triple E P (mret a) (fun _ => P).
Proof. by intros s Hs. Qed.

Lemma triple_bind {A B} P Q R (m : ST S A) (f : A -> ST S B) :
  triple E P m Q -> (forall a, triple E (Q a) (f a) R) -> triple E P (m ≫= f) R.
Proof.
  intros Hm Hf s Hs. specialize (Hm s Hs). unfold mbind, ST_bind.
  destruct (m s) as [[a|e|x] s']; [by apply Hf|done|done].
Qed.

Lemma triple_conseq {A} (P P' : S -> Prop) (Q Q' : A -> S -> Prop) m :
  triple E P' m Q' -> (forall s, P s -> P' s) -> (forall a s, Q' a s -> Q a s) -> triple E P m Q.
Proof.
  intros Hm HP HQ s Hs. specialize (Hm s (HP s Hs)). destruct (m s) as [[a|e|x] s']; auto.
Qed.

Lemma triple_throw {A} P e (Q : A -> S -> Prop) :
  (forall s, P s -> E s) -> triple E P (st_throw e) Q.
Proof. intros H s Hs. by apply H. Qed.

Lemma triple_undef {A} P f (Q : A -> S -> Prop) : triple E P (st_undef f) Q.
Proof. by intros s Hs. Qed.

Lemma triple_bool {A} (b : bool) P (m1 m2 : ST S A) Q :
  triple E P m1 Q -> triple E P m2 Q -> triple E P (if b then m1 else m2) Q.
Proof. by destruct b. Qed.

(** A fact about the state before the computation can be used in it. *)
Lemma triple_at {A} P (m : ST S A) Q :
  (forall s, P s -> triple E (eq s) m Q) -> triple E P m Q.
Proof. intros H s Hs. by apply (H s Hs). Qed.
End triple.

(** ** Bytes, little-endian integers and machine widths *)

(** A C [char] or [uint8_t]; a [std::string] is Rocq's [string]. *)
Abbreviation byte := ascii.

Definition Z_of_byte (b : byte) : Z := Z.of_N (N_of_ascii b).
Definition byte_of_Z (z : Z) : byte := ascii_of_N (Z.to_N (z mod 256)).

(** Conversion to the unsigned types and to [int]. *)
Definition u8 (z : Z) : Z := z mod 2 ^ 8.
Definition u16 (z : Z) : Z := z mod 2 ^ 16.
Definition u32 (z : Z) : Z := z mod 2 ^ 32.
Definition u64 (z : Z) : Z := z mod 2 ^ 64.
Definition s32 (z : Z) : Z := (z + 2 ^ 31) mod 2 ^ 32 - 2 ^ 31.

Definition INT_MAX : Z := 2 ^ 31 - 1.
Definition INT_MIN : Z := - 2 ^ 31.

Fixpoint le_to_Z (bs : list byte) : Z :=
  match bs with
  | [] => 0
  | b :: t => Z_of_byte b + 256 * le_to_Z t
  end.

Fixpoint le_of_Z (n : nat) (z : Z) : list byte :=
  match n with
  | O => []
  | S m => byte_of_Z z :: le_of_Z m (z / 256)
  end.

Lemma Z_of_byte_range b : 0 <= Z_of_byte b < 256.
Proof.
  unfold Z_of_byte. pose proof (N_ascii_bounded b). lia.
Qed.

Lemma byte_of_Z_of_byte b : byte_of_Z (Z_of_byte b) = b.
Proof.
  unfold byte_of_Z. rewrite Z.mod_small by apply Z_of_byte_range.
  unfold Z_of_byte. rewrite N2Z.id. apply ascii_N_embedding.
Qed.

Lemma Z_of_byte_of_Z z : Z_of_byte (byte_of_Z z) = z mod 256.
Proof.
  unfold byte_of_Z, Z_of_byte. pose proof (Z.mod_pos_bound z 256).
  rewrite N_ascii_embedding by lia. lia.
Qed.

Lemma Z_of_byte_inj a b : Z_of_byte a = Z_of_byte b -> a = b.
Proof.
  intros H. rewrite <-(byte_of_Z_of_byte a), <-(byte_of_Z_of_byte b). by rewrite H.
Qed.

Lemma le_of_Z_length n z : length (le_of_Z n z) = n.
Proof. revert z. induction n; intros z; cbn; [done | by rewrite IHn]. Qed.

Lemma pow256_succ n : 256 ^ Z.of_nat (S n) = 256 * 256 ^ Z.of_nat n.
Proof. rewrite Nat2Z.inj_succ, Z.pow_succ_r; lia. Qed.

Lemma pow256_pos n : 0 < 256 ^ Z.of_nat n.
Proof. apply Z.pow_pos_nonneg; lia. Qed.

Lemma le_to_Z_of_Z n z : le_to_Z (le_of_Z n z) = z mod 256 ^ Z.of_nat n.
Proof.
  revert z. induction n as [|n IH]; intros z; cbn [le_of_Z le_to_Z].
  - by rewrite Z.mod_1_r.
  - rewrite IH, Z_of_byte_of_Z, pow256_succ.
    rewrite Z.rem_mul_r; [done | lia | apply pow256_pos].
Qed.

Lemma le_to_Z_bound bs : 0 <= le_to_Z bs < 256 ^ Z.of_nat (length bs).
Proof.
  induction bs as [|b bs IH]; cbn [le_to_Z length]; [by vm_compute|].
  rewrite pow256_succ. pose proof (Z_of_byte_range b). lia.
Qed.

Lemma le_of_Z_to_Z bs : le_of_Z (length bs) (le_to_Z bs) = bs.
Proof.
  induction bs as [|b bs IH]; cbn [le_to_Z le_of_Z length]; [done|].
  pose proof (Z_of_byte_range b) as Hb. f_equal.
  - apply Z_of_byte_inj. rewrite Z_of_byte_of_Z.
    rewrite (Z.mul_comm 256), Z.mod_add by lia. by apply Z.mod_small.
  - rewrite (Z.mul_comm 256), Z.div_add by lia.
    rewrite Z.div_small by lia. by rewrite Z.add_0_l, IH.
Qed.

Lemma le_to_Z_small n z : 0 <= z < 256 ^ Z.of_nat n -> le_to_Z (le_of_Z n z) = z.
Proof. intros. rewrite le_to_Z_of_Z. by apply Z.mod_small. Qed.

Lemma le_to_Z_u16 z : le_to_Z (le_of_Z 2 z) = u16 z.
Proof. by rewrite le_to_Z_of_Z. Qed.
Lemma le_to_Z_u32 z : le_to_Z (le_of_Z 4 z) = u32 z.
Proof. by rewrite le_to_Z_of_Z. Qed.

Lemma le_to_Z_app a b : le_to_Z (a ++ b) = le_to_Z a + 256 ^ Z.of_nat (length a) * le_to_Z b.
Proof.
  induction a as [|x a IH]; cbn [app length le_to_Z].
  - change (256 ^ Z.of_nat 0) with 1. lia.
  - rewrite IH, pow256_succ. lia.
Qed.

Lemma le_of_Z_app n m z : le_of_Z (n + m) z = le_of_Z n z ++ le_of_Z m (z / 256 ^ Z.of_nat n).
Proof.
  revert z. induction n as [|n IH]; intros z; cbn [Nat.add le_of_Z app].
  - change (256 ^ Z.of_nat 0) with 1. by rewrite Z.div_1_r.
  - rewrite IH, pow256_succ, Z.div_div; [done | lia | apply pow256_pos].
Qed.

Lemma le_of_Z_mod n z : le_of_Z n (z mod 256 ^ Z.of_nat n) = le_of_Z n z.
Proof.
  rewrite <-le_to_Z_of_Z, <-(le_of_Z_length n z) at 1. apply le_of_Z_to_Z.
Qed.

(** [lo | hi << k] is the sum when [lo] has at most [k] bits. *)
Lemma lor_shiftl_add lo hi k :
  0 <= k -> 0 <= lo < 2 ^ k -> Z.lor lo (Z.shiftl hi k) = lo + hi * 2 ^ k.
Proof.
  intros Hk Hlo. rewrite <-Z.shiftl_mul_pow2 by done.
  assert (Z.land lo (Z.shiftl hi k) = 0) as E.
  { apply Z.bits_inj'. intros n Hn. rewrite Z.land_spec, Z.bits_0.
    destruct (Z.lt_ge_cases n k); [by rewrite Z.shiftl_spec_low, andb_false_r by lia|].
    rewrite <-(Z.mod_small lo (2 ^ k)) by lia. by rewrite Z.mod_pow2_bits_high by lia. }
  pose proof (Z.add_lor_land lo (Z.shiftl hi k)). lia.
Qed.

Lemma u16_small z : 0 <= z < 65536 -> u16 z = z.
Proof. apply Z.mod_small. Qed.
Lemma u32_small z : 0 <= z < 4294967296 -> u32 z = z.
Proof. apply Z.mod_small. Qed.
Lemma u64_small z : 0 <= z < 2 ^ 64 -> u64 z = z.
Proof. apply Z.mod_small. Qed.
Lemma u16_range z : 0 <= u16 z < 65536.
Proof. by apply Z.mod_pos_bound. Qed.
Lemma u32_range z : 0 <= u32 z < 4294967296.
Proof. by apply Z.mod_pos_bound. Qed.
Lemma s32_small z : INT_MIN <= z <= INT_MAX -> s32 z = z.
Proof. unfold INT_MIN, INT_MAX, s32. intros. rewrite Z.mod_small; lia. Qed.
Lemma s32_range z : INT_MIN <= s32 z <= INT_MAX.
Proof.
  unfold INT_MIN, INT_MAX, s32. pose proof (Z.mod_pos_bound (z + 2 ^ 31) (2 ^ 32)). lia.
Qed.
(** Storing an [int] and loading it back. *)
Lemma s32_u32 z : s32 (u32 z) = s32 z.
Proof. unfold s32, u32. f_equal. by rewrite Zplus_mod_idemp_l. Qed.

(** ** Arrays: reading and overwriting a range *)

Section arrays.
Context {A : Type}.
Implicit Types l bs : list A.

Definition slice (off n : nat) l : list A := take n (drop off l).

(** Overwrite [length bs] elements from [off]; the caller checks the bound. *)
Definition splice (off : nat) bs l : list A :=
  take off l ++ bs ++ drop (off + length bs) l.

Lemma slice_length off n l : (off + n <= length l)%nat -> length (slice off n l) = n.
Proof. intros. unfold slice. rewrite length_take, length_drop. lia. Qed.

Lemma splice_length off bs l :
  (off + length bs <= length l)%nat -> length (splice off bs l) = length l.
Proof.
  intros. unfold splice. rewrite !length_app, length_take, length_drop. lia.
Qed.

Lemma slice_app_l off n l1 l2 :
  (off + n <= length l1)%nat -> slice off n (l1 ++ l2) = slice off n l1.
Proof.
  intros. unfold slice. rewrite drop_app_le by lia.
  rewrite take_app_le; [done|]. rewrite length_drop. lia.
Qed.

Lemma slice_app_r off n l1 l2 :
  (length l1 <= off)%nat -> slice off n (l1 ++ l2) = slice (off - length l1) n l2.
Proof. intros. unfold slice. by rewrite drop_app_ge by lia. Qed.

Lemma slice_slice o1 n1 o2 n2 l :
  (o2 + n2 <= n1)%nat -> slice o2 n2 (slice o1 n1 l) = slice (o1 + o2) n2 l.
Proof.
  intros. unfold slice. rewrite skipn_firstn_comm, drop_drop, take_take.
  f_equal. lia.
Qed.

Lemma slice_all l : slice 0 (length l) l = l.
Proof. unfold slice. by rewrite drop_0, firstn_all. Qed.

Lemma slice_0_take n l : slice 0 n l = take n l.
Proof. unfold slice. by rewrite drop_0. Qed.

Lemma slice_split off n m l : slice off (n + m) l = slice off n l ++ slice (off + n) m l.
Proof. unfold slice. by rewrite <-drop_drop, take_take_drop. Qed.

Lemma slice_splice_same off bs l :
  (off + length bs <= length l)%nat -> slice off (length bs) (splice off bs l) = bs.
Proof.
  intros. unfold slice, splice.
  rewrite drop_app_length' by (rewrite length_take; lia).
  by rewrite take_app_length.
Qed.

Lemma slice_splice_below off n o bs l :
  (off + n <= o)%nat -> (o <= length l)%nat ->
  slice off n (splice o bs l) = slice off n l.
Proof.
  intros. unfold splice. rewrite slice_app_l by (rewrite length_take; lia).
  unfold slice. rewrite skipn_firstn_comm, take_take. f_equal. lia.
Qed.

Lemma slice_splice_above off n o bs l :
  (o + length bs <= off)%nat -> (o + length bs <= length l)%nat ->
  slice off n (splice o bs l) = slice off n l.
Proof.
  intros. unfold splice. rewrite app_assoc.
  rewrite slice_app_r by (rewrite length_app, length_take; lia).
  rewrite length_app, length_take. unfold slice. rewrite drop_drop. do 2 f_equal. lia.
Qed.

Lemma slice_lookup off n l i :
  (i < n)%nat -> slice off n l !! i = l !! (off + i)%nat.
Proof.
  intros. unfold slice. rewrite lookup_take_lt by lia. by rewrite lookup_drop.
Qed.
End arrays.

(** Filters that keep everything. *)
Section filters.
Context {A : Type} (P : A -> Prop) `{!forall x, Decision (P x)}.

Lemma filter_all (xs : list A) : (forall x, x ∈ xs -> P x) -> base.filter P xs = xs.
Proof.
  induction xs as [|x xs IH]; intros HP; [done|].
  rewrite filter_cons_True by (apply HP; left). f_equal. apply IH. intros y Hy. apply HP. by right.
Qed.

Lemma filter_all_length (xs : list A) :
  length (base.filter P xs) = length xs -> forall x, x ∈ xs -> P x.
Proof.
  intros Hlen x Hx. apply dec_stable. intros Hn.
  pose proof (length_filter_lt P xs x Hx Hn). lia.
Qed.
End filters.

(** Induction on the length of a list. *)
Lemma list_len_ind {A} (P : list A -> Prop) :
  (forall l, (forall l', (length l' < length l)%nat -> P l') -> P l) -> forall l, P l.
Proof.
  intros H l. remember (length l) as n eqn:En. revert l En.
  induction (lt_wf n) as [n _ IH]. intros l ->. apply H. intros l' Hl'. by eapply IH.
Qed.

(** ** Overwriting parts of a buffer *)

Section pieces.
Context {A : Type}.
Implicit Types a b c bs l : list A.

Lemma splice_mid off bs a b c :
  length a = off -> length b = length bs -> splice off bs (a ++ b ++ c) = a ++ bs ++ c.
Proof.
  intros <- Hb. unfold splice. rewrite take_app_length. do 2 f_equal.
  by rewrite <-Hb, <-length_app, (app_assoc a), drop_app_length.
Qed.

Lemma splice_prefix off bs a c :
  length a = off -> splice off bs (a ++ c) = a ++ bs ++ drop (length bs) c.
Proof.
  intros <-. unfold splice. rewrite take_app_length. do 2 f_equal.
  by rewrite <-drop_drop, drop_app_length.
Qed.

Lemma splice_nil off l : splice off [] l = l.
Proof. unfold splice. cbn [length app]. by rewrite Nat.add_0_r, take_drop. Qed.

Lemma splice_0 bs l : splice 0 bs l = bs ++ drop (length bs) l.
Proof. done. Qed.

(** A prefix of known length. *)
Lemma split_at n l : (n <= length l)%nat -> exists a b, l = a ++ b /\ length a = n.
Proof.
  intros H. exists (take n l), (drop n l). by rewrite take_drop, length_take, Nat.min_l.
Qed.
End pieces.
