(* ===== verification/CxxString.v ===== *)
(** * The C and C++ library functions on strings the sources call

    NUL-terminated buffers ([strlen], [strncpy], [std::string] from [char*]),
    [std::string::find_last_of]/[substr], character classes in the "C" locale,
    decimal output of [int]s and [std::stoi].  A [std::string] is a [string],
    a [char] array a [list byte]. *)

From Stdlib Require Import ZArith Lia Ascii String.
From stdpp Require Import base tactics list numbers strings gmap fin_maps.
From S2P Require Import Prelude.

Abbreviation chars := list_ascii_of_string.
Abbreviation of_chars := string_of_list_ascii.

Definition NUL : byte := byte_of_Z 0.

Lemma chars_of_chars l : chars (of_chars l) = l.
Proof. apply list_ascii_of_string_of_list_ascii. Qed.
Lemma of_chars_chars s : of_chars (chars s) = s.
Proof. apply string_of_list_ascii_of_string. Qed.
Lemma chars_inj s t : chars s = chars t -> s = t.
Proof. intros H. rewrite <-(of_chars_chars s), <-(of_chars_chars t). by rewrite H. Qed.
Lemma chars_app s t : chars (s +:+ t) = chars s ++ chars t.
Proof. induction s as [|c s IH]; [done|].
  change (String c s +:+ t) with (String c (s +:+ t)). cbn. by rewrite IH.
Qed.
Lemma chars_length s : length (chars s) = String.length s.
Proof. induction s as [|c s IH]; cbn; [done | by rewrite IH]. Qed.

Lemma string_app_assoc s t u : ((s +:+ t) +:+ u)%string = (s +:+ t +:+ u)%string.
Proof. apply chars_inj. by rewrite !chars_app, app_assoc. Qed.
Lemma string_app_nil_r s : (s +:+ "")%string = s.
Proof. apply chars_inj. rewrite chars_app. apply app_nil_r. Qed.
Lemma substring_prefix s t : String.substring 0 (String.length s) (s +:+ t) = s.
Proof.
  induction s as [|c s IH]; [by destruct t|].
  change (String c s +:+ t)%string with (String c (s +:+ t)%string). cbn. by rewrite IH.
Qed.

(** [std::endl] *)
Definition endl : string := String (byte_of_Z 10) "".

(** ** NUL-terminated strings *)

(** The characters before the first NUL; [None] when there is no NUL. *)
Fixpoint cstr (bs : list byte) : option (list byte) :=
  match bs with
  | [] => None
  | b :: t => if bool_decide (b = NUL) then Some [] else (cons b) <$> cstr t
  end.

(** The characters [strlen(s.c_str())] counts: up to the first NUL of [s]. *)
Fixpoint upto_nul (l : list byte) : list byte :=
  match l with
  | [] => []
  | b :: t => if bool_decide (b = NUL) then [] else b :: upto_nul t
  end.

(** The [n] bytes [strncpy(dst, s.c_str(), n)] writes: no terminator when the
    string is [n] characters long or longer, zero padding when it is shorter. *)
Definition strncpy (n : nat) (s : string) : list byte :=
  let c := take n (upto_nul (chars s)) in c ++ replicate (n - length c) NUL.

(** No character of the string is NUL. *)
Definition no_nul (s : string) : Prop := Forall (fun b => b <> NUL) (chars s).

Lemma upto_nul_id l : Forall (fun b => b <> NUL) l -> upto_nul l = l.
Proof.
  induction 1 as [|b l Hb _ IH]; cbn; [done|].
  by rewrite bool_decide_eq_false_2, IH.
Qed.

Lemma strncpy_length n s : length (strncpy n s) = n.
Proof.
  unfold strncpy. rewrite length_app, length_replicate.
  rewrite length_take. lia.
Qed.

Lemma cstr_app_nul l rest :
  Forall (fun b => b <> NUL) l -> cstr (l ++ NUL :: rest) = Some l.
Proof.
  induction 1 as [|b l Hb _ IH]; cbn; [done|].
  rewrite bool_decide_eq_false_2 by done. by rewrite IH.
Qed.

Lemma cstr_no_nul_app l k :
  Forall (fun b => b <> NUL) l -> cstr (l ++ k) = (fun r => l ++ r) <$> cstr k.
Proof.
  induction 1 as [|b l Hb _ IH]; cbn; [by destruct (cstr k)|].
  rewrite bool_decide_eq_false_2 by done. rewrite IH. by destruct (cstr k).
Qed.

Lemma cstr_Some_inv bs l :
  cstr bs = Some l -> Forall (fun b => b <> NUL) l /\ exists rest, bs = l ++ NUL :: rest.
Proof.
  revert l. induction bs as [|b bs IH]; intros l H; cbn in H; [done|].
  case_bool_decide as Hb; simplify_eq.
  - split; [constructor | by exists bs].
  - apply fmap_Some in H as (l' & H & ->). apply IH in H as (Hl & rest & ->).
    split; [by constructor | by exists rest].
Qed.

(** What a reader of the buffer gets back, with a terminator and without. *)
Lemma cstr_strncpy n s rest :
  no_nul s -> (String.length s < n)%nat -> cstr (strncpy n s ++ rest) = Some (chars s).
Proof.
  intros Hs Hn. unfold strncpy. rewrite upto_nul_id by done.
  rewrite take_ge by (rewrite chars_length; lia). rewrite chars_length.
  destruct (n - String.length s)%nat as [|k] eqn:E; [lia|].
  cbn [replicate]. rewrite <-app_assoc. cbn. by apply cstr_app_nul.
Qed.

Lemma cstr_strncpy_full n s rest :
  no_nul s -> (n <= String.length s)%nat ->
  cstr (strncpy n s ++ rest) = (fun r => take n (chars s) ++ r) <$> cstr rest.
Proof.
  intros Hs Hn. unfold strncpy. rewrite upto_nul_id by done.
  rewrite length_take, chars_length, Nat.min_l, Nat.sub_diag by lia.
  rewrite app_nil_r. apply cstr_no_nul_app. by apply Forall_take.
Qed.

Lemma upto_nul_length l : (length (upto_nul l) <= length l)%nat.
Proof. induction l as [|b t IH]; cbn; [done|]. case_bool_decide; cbn; lia. Qed.

Lemma upto_nul_no_nul l : Forall (fun b => b <> NUL) (upto_nul l).
Proof. induction l as [|b t IH]; cbn; [constructor|]. case_bool_decide; by constructor. Qed.

Lemma cstr_strncpy_short n s rest :
  (length (upto_nul (chars s)) < n)%nat -> cstr (strncpy n s ++ rest) = Some (upto_nul (chars s)).
Proof.
  intros Hn. unfold strncpy. rewrite take_ge by lia.
  destruct (n - length (upto_nul (chars s)))%nat as [|k] eqn:E; [lia|].
  cbn [replicate]. rewrite <-app_assoc. cbn [app]. apply cstr_app_nul, upto_nul_no_nul.
Qed.

(** ** Character classes, "C" locale *)

Definition in_range (lo hi : Z) (c : byte) : bool :=
  (lo <=? Z_of_byte c) && (Z_of_byte c <=? hi).
Definition is_digit (c : byte) : bool := in_range 48 57 c.
Definition is_alpha (c : byte) : bool := in_range 65 90 c || in_range 97 122 c.
(** The class [\w] of a regular expression: [A-Za-z0-9_]. *)
Definition is_word (c : byte) : bool := is_alpha c || is_digit c || (Z_of_byte c =? 95).
Definition is_space (c : byte) : bool := (Z_of_byte c =? 32) || in_range 9 13 c.

Definition digit_val (c : byte) : Z := Z_of_byte c - 48.

(** The longest prefix of digits and the rest. *)
Fixpoint span_digits (l : list byte) : list byte * list byte :=
  match l with
  | [] => ([], [])
  | c :: t => if is_digit c then let '(d, r) := span_digits t in (c :: d, r) else ([], l)
  end.

Definition dec_value (ds : list byte) : Z :=
  fold_left (fun acc c => acc * 10 + digit_val c) ds 0.

Lemma span_digits_app l r :
  Forall (fun c => is_digit c = true) l ->
  (forall c t, r = c :: t -> is_digit c = false) ->
  span_digits (l ++ r) = (l, r).
Proof.
  intros Hl Hr. induction Hl as [|c l Hc _ IH]; cbn.
  - destruct r as [|c t]; [done|]. cbn. by rewrite (Hr c t).
  - by rewrite Hc, IH.
Qed.

Lemma span_digits_spec l d r :
  span_digits l = (d, r) ->
  l = d ++ r /\ Forall (fun c => is_digit c = true) d /\
  (forall c t, r = c :: t -> is_digit c = false).
Proof.
  revert d r. induction l as [|c l IH]; intros d r H; cbn in H; simplify_eq.
  - done.
  - destruct (is_digit c) eqn:Hc.
    + destruct (span_digits l) as [d' r'] eqn:E. simplify_eq.
      destruct (IH _ _ eq_refl) as (-> & Hd & Hr). repeat split; [by constructor|done].
    + simplify_eq. repeat split; [constructor|]. by intros ?? [= <- <-].
Qed.

(** ** Decimal output: [std::to_string(int)], [ostream << int] *)

Fixpoint dec_digits (fuel : nat) (n : Z) (acc : list byte) : list byte :=
  match fuel with
  | O => acc
  | S f =>
      let acc' := byte_of_Z (48 + n mod 10) :: acc in
      if n <? 10 then acc' else dec_digits f (n / 10) acc'
  end.

(** 20 digits are enough for the 64-bit integers printed by the sources. *)
Definition to_dec (n : Z) : string :=
  of_chars (if n <? 0 then "-"%char :: dec_digits 20 (- n) [] else dec_digits 20 n []).

Lemma digit_char n :
  0 <= n -> let c := byte_of_Z (48 + n mod 10) in
  is_digit c = true /\ digit_val c = n mod 10.
Proof.
  intros Hn c. pose proof (Z.mod_pos_bound n 10).
  assert (Z_of_byte c = 48 + n mod 10) as Hc.
  { unfold c. rewrite Z_of_byte_of_Z. apply Z.mod_small. lia. }
  unfold is_digit, in_range, digit_val. rewrite Hc. split; [|lia].
  apply andb_true_intro. split; apply Z.leb_le; lia.
Qed.

Lemma dec_digits_digits fuel n acc :
  0 <= n -> Forall (fun c => is_digit c = true) acc ->
  Forall (fun c => is_digit c = true) (dec_digits fuel n acc).
Proof.
  revert n acc. induction fuel as [|f IH]; intros n acc Hn Hacc; cbn; [done|].
  assert (Forall (fun c => is_digit c = true) (byte_of_Z (48 + n mod 10) :: acc)).
  { constructor; [by apply digit_char | done]. }
  destruct (n <? 10); [done|]. apply IH; [|done]. apply Z.div_pos; lia.
Qed.

Lemma dec_digits_value fuel n acc :
  0 <= n < 10 ^ Z.of_nat fuel ->
  dec_value (dec_digits fuel n acc) =
  fold_left (fun a c => a * 10 + digit_val c) acc n.
Proof.
  revert n acc. induction fuel as [|f IH]; intros n acc Hn.
  - assert (n = 0) as -> by (change (10 ^ Z.of_nat 0) with 1 in Hn; lia). done.
  - rewrite Nat2Z.inj_succ, Z.pow_succ_r in Hn by lia.
    destruct (digit_char n) as [_ Hc]; [lia|]. cbn [dec_digits].
    destruct (n <? 10) eqn:E.
    + apply Z.ltb_lt in E. unfold dec_value. cbn [fold_left]. rewrite Hc.
      by rewrite Z.mod_small by lia.
    + rewrite IH by (split; [apply Z.div_pos; lia | apply Z.div_lt_upper_bound; lia]).
      cbn [fold_left]. rewrite Hc. f_equal. rewrite Z.mul_comm. symmetry. by apply Z.div_mod.
Qed.

Lemma dec_digits_nonnil fuel n acc : fuel <> 0%nat -> dec_digits fuel n acc <> [].
Proof.
  assert (forall f m a, a <> [] -> dec_digits f m a <> []) as H.
  { induction f as [|f IH]; intros m a Ha; cbn; [done|]. destruct (m <? 10); [done | by apply IH]. }
  destruct fuel; [done|]. intros _. cbn. destruct (n <? 10); [done | by apply H].
Qed.

Lemma to_dec_digits n :
  0 <= n < 10 ^ 20 ->
  exists ds, chars (to_dec n) = ds /\ ds <> [] /\
    Forall (fun c => is_digit c = true) ds /\ dec_value ds = n.
Proof.
  intros Hn. exists (dec_digits 20 n []). unfold to_dec.
  assert ((n <? 0) = false) as -> by (apply Z.ltb_ge; lia). rewrite chars_of_chars.
  repeat split; [by apply dec_digits_nonnil | apply dec_digits_digits; [lia|done] |].
  by rewrite dec_digits_value.
Qed.

(** ** Hexadecimal output and input: [ostream << std::hex], [std::stoul] *)

Definition hex_char (d : Z) : byte := byte_of_Z (if d <? 10 then 48 + d else 87 + d).

Fixpoint hex_digits (fuel : nat) (n : Z) (acc : list byte) : list byte :=
  match fuel with
  | O => acc
  | S f =>
      let acc' := hex_char (n mod 16) :: acc in
      if n <? 16 then acc' else hex_digits f (n / 16) acc'
  end.

(** 16 digits are enough for 64 bits. *)
Definition to_hex (n : Z) : string := of_chars (hex_digits 16 n []).

Definition hex_val (c : byte) : option Z :=
  if is_digit c then Some (digit_val c)
  else if in_range 97 102 c then Some (Z_of_byte c - 87)
  else if in_range 65 70 c then Some (Z_of_byte c - 55)
  else None.

(** The values of the longest prefix of hexadecimal digits. *)
Fixpoint span_hex (l : list byte) : list Z :=
  match l with
  | [] => []
  | c :: t => match hex_val c with Some v => v :: span_hex t | None => [] end
  end.

Definition hex_value (ds : list Z) : Z := fold_left (fun acc d => acc * 16 + d) ds 0.

Lemma hex_val_char d : 0 <= d < 16 -> hex_val (hex_char d) = Some d.
Proof.
  intros Hd. unfold hex_val, hex_char, is_digit, in_range, digit_val. rewrite Z_of_byte_of_Z.
  destruct (Z.ltb_spec d 10) as [H|H]; rewrite Z.mod_small by lia.
  - rewrite (proj2 (Z.leb_le 48 _)), (proj2 (Z.leb_le _ 57)) by lia. cbn [andb]. f_equal. lia.
  - rewrite (proj2 (Z.leb_gt _ 57)), andb_false_r by lia.
    rewrite (proj2 (Z.leb_le 97 _)), (proj2 (Z.leb_le _ 102)) by lia. cbn [andb]. f_equal. lia.
Qed.

Lemma hex_digits_value fuel n acc :
  0 <= n < 16 ^ Z.of_nat fuel ->
  hex_value (span_hex (hex_digits fuel n acc)) = fold_left (fun a d => a * 16 + d) (span_hex acc) n.
Proof.
  revert n acc. induction fuel as [|f IH]; intros n acc Hn.
  - assert (n = 0) as -> by (change (16 ^ Z.of_nat 0) with 1 in Hn; lia). done.
  - rewrite Nat2Z.inj_succ, Z.pow_succ_r in Hn by lia. cbn [hex_digits].
    pose proof (Z.mod_pos_bound n 16).
    destruct (n <? 16) eqn:E.
    + apply Z.ltb_lt in E. unfold hex_value. cbn [span_hex]. rewrite hex_val_char by lia.
      cbn [fold_left]. by rewrite Z.mod_small by lia.
    + rewrite IH by (split; [apply Z.div_pos; lia | apply Z.div_lt_upper_bound; lia]).
      cbn [span_hex]. rewrite hex_val_char by lia. cbn [fold_left]. f_equal.
      rewrite Z.mul_comm. symmetry. by apply Z.div_mod.
Qed.

(** The digits start with a digit. *)
Lemma hex_digits_head fuel n acc :
  0 <= n -> exists d t, 0 <= d < 16 /\ hex_digits (S fuel) n acc = hex_char d :: t.
Proof.
  revert n acc. induction fuel as [|f IH]; intros n acc Hn; cbn [hex_digits];
    pose proof (Z.mod_pos_bound n 16); destruct (n <? 16); try (exists (n mod 16); eexists; split; [lia|done]).
  apply IH. apply Z.div_pos; lia.
Qed.

(** ** [std::stoi]: leading space, an optional sign, decimal digits *)

Fixpoint skip_space (l : list byte) : list byte :=
  match l with
  | c :: t => if is_space c then skip_space t else l
  | [] => []
  end.

Definition stoi (s : string) : outcome Z :=
  let l := skip_space (chars s) in
  let '(sign, l) :=
    match l with
    | c :: t => if Z_of_byte c =? 45 then (-1, t) else if Z_of_byte c =? 43 then (1, t) else (1, l)
    | [] => (1, [])
    end in
  let '(ds, _) := span_digits l in
  match ds with
  | [] => Throw (Exn EX_invalid_argument "stoi")
  | _ =>
      let v := sign * dec_value ds in
      if (INT_MIN <=? v) && (v <=? INT_MAX) then Ret v
      else Throw (Exn EX_out_of_range "stoi")
  end.

(** The digits after an optional ["0x"], which needs a digit after it. *)
Definition skip_0x (l : list byte) : list byte :=
  match l with
  | z :: x :: c :: t =>
      if (Z_of_byte z =? 48) && ((Z_of_byte x =? 120) || (Z_of_byte x =? 88)) &&
         bool_decide (hex_val c <> None)
      then c :: t else l
  | _ => l
  end.

(** [std::stoul(s, nullptr, 16)]: a sign is accepted, a negative value wraps. *)
Definition stoul16 (s : string) : outcome Z :=
  let l := skip_space (chars s) in
  let '(sign, l) :=
    match l with
    | c :: t => if Z_of_byte c =? 45 then (-1, t) else if Z_of_byte c =? 43 then (1, t) else (1, l)
    | [] => (1, [])
    end in
  match span_hex (skip_0x l) with
  | [] => Throw (Exn EX_invalid_argument "stoul")
  | ds =>
      let v := hex_value ds in
      if 2 ^ 64 <=? v then Throw (Exn EX_out_of_range "stoul") else Ret (u64 (sign * v))
  end.

Lemma stoul16_hex n : 0 <= n < 2 ^ 64 -> stoul16 ("0x" +:+ to_hex n) = Ret n.
Proof.
  intros Hn. unfold stoul16, to_hex. rewrite chars_app, chars_of_chars.
  destruct (hex_digits_head 15 n [] ltac:(lia)) as (d & t & Hd & E).
  pose proof (hex_digits_value 16 n [] Hn) as Hv. change (span_hex []) with (@nil Z) in Hv. cbn [fold_left] in Hv.
  rewrite E in *. change (chars "0x" ++ hex_char d :: t) with ("0"%char :: "x"%char :: hex_char d :: t).
  set (r := hex_char d :: t) in *.
  change (skip_space ("0"%char :: "x"%char :: r)) with ("0"%char :: "x"%char :: r).
  cbv iota beta. replace (Z_of_byte "0"%char =? 45) with false by done.
  replace (Z_of_byte "0"%char =? 43) with false by done. cbv iota beta.
  assert (skip_0x ("0"%char :: "x"%char :: r) = r) as ->.
  { unfold skip_0x, r. by rewrite (bool_decide_eq_true_2 (hex_val _ <> None)) by by rewrite hex_val_char. }
  destruct (span_hex r) as [|v vs] eqn:Es.
  { unfold r in Es. cbn [span_hex] in Es. by rewrite hex_val_char in Es. }
  rewrite Hv, (proj2 (Z.leb_gt _ _)), Z.mul_1_l by lia. unfold u64. by rewrite Z.mod_small.
Qed.

Lemma is_digit_not_special c :
  is_digit c = true ->
  is_space c = false /\ (Z_of_byte c =? 45) = false /\ (Z_of_byte c =? 43) = false.
Proof.
  unfold is_digit, is_space, in_range. intros [H1%Z.leb_le H2%Z.leb_le]%andb_true_iff.
  rewrite (proj2 (Z.eqb_neq _ 32)), (proj2 (Z.leb_gt _ 13)), andb_false_r by lia.
  split_and!; [done | apply Z.eqb_neq; lia..].
Qed.

(** On a string of digits [stoi] is the value, or [out_of_range] above [INT_MAX]. *)
Lemma stoi_digits ds :
  ds <> [] -> Forall (fun c => is_digit c = true) ds ->
  stoi (of_chars ds) =
  if dec_value ds <=? INT_MAX then Ret (dec_value ds) else Throw (Exn EX_out_of_range "stoi").
Proof.
  intros Hne Hds. unfold stoi. rewrite chars_of_chars.
  destruct ds as [|c ds]; [done|].
  pose proof (Forall_inv Hds) as Hc. destruct (is_digit_not_special _ Hc) as (Hs & H1 & H2).
  cbn [skip_space]. rewrite Hs. rewrite H1, H2.
  pose proof (span_digits_app (c :: ds) [] Hds) as Hsp. rewrite app_nil_r in Hsp.
  rewrite Hsp by done. rewrite Z.mul_1_l.
  assert (forall l a, 0 <= a -> Forall (fun c => is_digit c = true) l ->
    0 <= fold_left (fun acc c => acc * 10 + digit_val c) l a) as Hpos.
  { induction l as [|x l IH]; intros a Ha Hl; cbn; [done|].
    apply IH; [|by inversion Hl]. apply Forall_inv in Hl.
    unfold is_digit, in_range in Hl. apply andb_true_iff in Hl as [Hl%Z.leb_le _].
    unfold digit_val. lia. }
  specialize (Hpos (c :: ds) 0 ltac:(done) Hds). fold (dec_value (c :: ds)) in Hpos.
  rewrite (proj2 (Z.leb_le INT_MIN _)) by (unfold INT_MIN; lia). done.
Qed.
