(* ===== verification/Version.v ===== *)
(** * hwio_version: parsing, printing and matching of version numbers

    Models [src/hwio_version.cpp] and [src/hwio_version.h]: the three [int]
    fields, the constructor from a string with its regular expression, the
    wildcard [operator==] and [to_str]. *)

From Stdlib Require Import ZArith Lia Ascii String.
From stdpp Require Import base tactics list numbers strings gmap fin_maps.
From S2P Require Import Prelude CxxString.

(** [HWIO_VERSION_NA]: the field matches anything. *)
Definition HWIO_VERSION_NA : Z := -1.

Record hwio_version := Version { major : Z; minor : Z; subminor : Z }.

#[export] Instance hwio_version_eq_dec : EqDecision hwio_version.
Proof. solve_decision. Defined.

(** The fields are C [int]s. *)
Definition version_wf (v : hwio_version) : Prop :=
  INT_MIN <= major v <= INT_MAX /\ INT_MIN <= minor v <= INT_MAX /\
  INT_MIN <= subminor v <= INT_MAX.

(** [hwio_version::operator==]: [other] is the pattern. *)
Definition version_matches (this other : hwio_version) : bool :=
  if negb (major other =? HWIO_VERSION_NA) && negb (major other =? major this) then false
  else if negb (minor other =? HWIO_VERSION_NA) && negb (minor other =? minor this) then false
  else if negb (subminor other =? HWIO_VERSION_NA) && negb (subminor other =? subminor this)
  then false
  else true.

(** [hwio_version::operator!=] *)
Definition version_differs (this other : hwio_version) : bool :=
  negb (version_matches this other).

Definition field_to_str (f : Z) : string :=
  if f =? HWIO_VERSION_NA then "<NA>" else to_dec f.

(** [hwio_version::to_str] *)
Definition version_to_str (v : hwio_version) : string :=
  field_to_str (major v) +:+ "." +:+ field_to_str (minor v) +:+ "." +:+
  field_to_str (subminor v).

(** ** The regular expression ["^(\\d+)\\.(\\d+)(\\.(\\w|\\d+))?"] *)

Definition DOT : byte := "."%char.

(** [std::regex_match]: groups 1, 2 and 4 of a match of the whole string;
    an unmatched group 4 is empty. *)
Definition hwio_version_regex (l : list byte) : option (list byte * list byte * list byte) :=
  let '(m1, r1) := span_digits l in
  match m1, r1 with
  | _ :: _, c1 :: r1' =>
      if bool_decide (c1 = DOT) then
        let '(m2, r2) := span_digits r1' in
        match m2, r2 with
        | _ :: _, [] => Some (m1, m2, [])
        | _ :: _, c2 :: r2' =>
            if bool_decide (c2 = DOT) then
              match r2' with
              | [] => None
              | [c] => if is_word c then Some (m1, m2, [c]) else None
              | _ => if forallb is_digit r2' then Some (m1, m2, r2') else None
              end
            else None
        | [], _ => None
        end
      else None
  | _, _ => None
  end.

(** [hwio_version::hwio_version(const std::string &)] *)
Definition hwio_version_of_str (version_str : string) : outcome hwio_version :=
  match hwio_version_regex (chars version_str) with
  | Some (m1, m2, m4) =>
      stoi (of_chars m1) ≫= fun maj =>
      stoi (of_chars m2) ≫= fun min =>
      match m4 with
      | [] => Ret (Version maj min HWIO_VERSION_NA)
      | c :: _ =>
          if is_alpha c then Ret (Version maj min (Z_of_byte c))
          else stoi (of_chars m4) ≫= fun sub => Ret (Version maj min sub)
      end
  | None => Throw (Exn EX_runtime_error "[HWIO] Wrong hwio_version format")
  end.

(** ** The language of the regular expression *)

Definition digits1 (l : list byte) : Prop := l <> [] /\ Forall (fun c => is_digit c = true) l.

(** Derivations of the expression: [version_match l m1 m2 m4]. *)
Inductive version_match : list byte -> list byte -> list byte -> list byte -> Prop :=
  | VM_short m1 m2 :
      digits1 m1 -> digits1 m2 -> version_match (m1 ++ DOT :: m2) m1 m2 []
  | VM_word m1 m2 c :
      digits1 m1 -> digits1 m2 -> is_word c = true ->
      version_match (m1 ++ DOT :: m2 ++ DOT :: [c]) m1 m2 [c]
  | VM_digits m1 m2 m4 :
      digits1 m1 -> digits1 m2 -> digits1 m4 ->
      version_match (m1 ++ DOT :: m2 ++ DOT :: m4) m1 m2 m4.

Lemma span_digits_dot m r :
  digits1 m -> span_digits (m ++ DOT :: r) = (m, DOT :: r).
Proof. intros [_ Hm]. apply span_digits_app; [done|]. by intros c t [= <- <-]. Qed.

Lemma span_digits_all m : digits1 m -> span_digits m = (m, []).
Proof. intros [_ Hm]. rewrite <-(app_nil_r m) at 1. by apply span_digits_app. Qed.

Lemma digits1_cons m : digits1 m -> exists c t, m = c :: t.
Proof. intros [Hne _]. destruct m; [done | eauto]. Qed.

Lemma hwio_version_regex_complete l m1 m2 m4 :
  version_match l m1 m2 m4 -> hwio_version_regex l = Some (m1, m2, m4).
Proof.
  intros Hm. unfold hwio_version_regex.
  destruct Hm as [m1 m2 H1 H2|m1 m2 c H1 H2 Hc|m1 m2 m4 H1 H2 H4];
    rewrite span_digits_dot by done;
    destruct (digits1_cons _ H1) as (c1 & t1 & ->);
    rewrite bool_decide_eq_true_2 by done;
    first [rewrite span_digits_all by done | rewrite span_digits_dot by done];
    destruct (digits1_cons _ H2) as (c2 & t2 & ->); [done | |];
    rewrite bool_decide_eq_true_2 by done.
  - by rewrite Hc.
  - destruct (digits1_cons _ H4) as (c & t & ->). destruct H4 as [_ H4].
    destruct t as [|c' t].
    + apply Forall_inv in H4. unfold is_word. by rewrite H4, orb_true_r.
    + rewrite (proj2 (forallb_forall _ _)); [done|].
      intros x Hx. apply (proj1 (Forall_forall _ _) H4). by apply list_elem_of_In.
Qed.

Lemma hwio_version_regex_sound l m1 m2 m4 :
  hwio_version_regex l = Some (m1, m2, m4) -> version_match l m1 m2 m4.
Proof.
  unfold hwio_version_regex.
  destruct (span_digits l) as [d1 r1] eqn:E1. apply span_digits_spec in E1 as (-> & H1 & _).
  destruct d1 as [|c1 d1]; [done|]. destruct r1 as [|x1 r1]; [done|].
  case_bool_decide as Hx1; [subst x1|done].
  destruct (span_digits r1) as [d2 r2] eqn:E2. apply span_digits_spec in E2 as (-> & H2 & _).
  destruct d2 as [|c2 d2]; [done|]. destruct r2 as [|x2 r2].
  { intros [= <- <- <-]. rewrite app_nil_r. by constructor. }
  case_bool_decide as Hx2; [subst x2|done].
  destruct r2 as [|c [|c' r2]]; [done| |].
  - destruct (is_word c) eqn:Hc; [|done]. intros [= <- <- <-]. by constructor.
  - destruct (forallb is_digit (c :: c' :: r2)) eqn:Hf; [|done].
    intros [= <- <- <-]. constructor; [done|done|split; [done|]].
    apply Forall_forall. intros x Hx. apply list_elem_of_In in Hx.
    by apply (proj1 (forallb_forall _ _) Hf).
Qed.

(** ** What the constructor computes *)

(** The value of group 4: nothing, a letter (its character code) or a number. *)
Inductive subminor_value : list byte -> Z -> Prop :=
  | SV_none : subminor_value [] HWIO_VERSION_NA
  | SV_letter c : is_alpha c = true -> subminor_value [c] (Z_of_byte c)
  | SV_number m4 : digits1 m4 -> dec_value m4 <= INT_MAX -> subminor_value m4 (dec_value m4).

Lemma digits1_not_alpha c t : digits1 (c :: t) -> is_alpha c = false.
Proof.
  intros [_ H%Forall_inv]. unfold is_digit, is_alpha, in_range in *.
  apply andb_true_iff in H as [H1%Z.leb_le H2%Z.leb_le].
  by rewrite !(proj2 (Z.leb_gt _ (Z_of_byte c))) by lia.
Qed.

Lemma stoi_digits1 m :
  digits1 m ->
  stoi (of_chars m) =
  if dec_value m <=? INT_MAX then Ret (dec_value m) else Throw (Exn EX_out_of_range "stoi").
Proof. intros [Hne Hd]. by apply stoi_digits. Qed.

Lemma stoi_Ret_digits1 m v :
  digits1 m -> stoi (of_chars m) = Ret v -> v = dec_value m /\ dec_value m <= INT_MAX.
Proof.
  intros Hm. rewrite stoi_digits1 by done. destruct (_ <=? _) eqn:E; intros; simplify_eq.
  by apply Z.leb_le in E.
Qed.

Lemma stoi_digits1_Ret m : digits1 m -> dec_value m <= INT_MAX -> stoi (of_chars m) = Ret (dec_value m).
Proof. intros Hm Hle. rewrite stoi_digits1 by done. by rewrite (proj2 (Z.leb_le _ _)). Qed.

(** The word character that is neither a letter nor a digit makes [stoi] fail. *)
Lemma stoi_underscore c :
  is_word c = true -> is_alpha c = false -> is_digit c = false ->
  stoi (of_chars [c]) = Throw (Exn EX_invalid_argument "stoi").
Proof.
  unfold is_word. intros Hw Ha Hd. rewrite Ha, Hd in Hw. apply Z.eqb_eq in Hw.
  by rewrite (Z_of_byte_inj c "_"%char) by done.
Qed.

Lemma version_match_groups l m1 m2 m4 :
  version_match l m1 m2 m4 -> digits1 m1 /\ digits1 m2.
Proof. by destruct 1. Qed.

Lemma version_match_group4 l m1 m2 m4 :
  version_match l m1 m2 m4 ->
  m4 = [] \/ digits1 m4 \/ exists c, m4 = [c] /\ is_word c = true /\ is_digit c = false.
Proof.
  destruct 1 as [| m1 m2 c H1 H2 Hc |]; [by left | | by right; left].
  right. destruct (is_digit c) eqn:Hd; [left | right; eauto].
  split; [done|]. by repeat constructor.
Qed.

(** Constructor on a matching string. *)
Lemma hwio_version_of_str_match s m1 m2 m4 :
  version_match (chars s) m1 m2 m4 ->
  hwio_version_of_str s =
    (stoi (of_chars m1) ≫= fun maj =>
     stoi (of_chars m2) ≫= fun min =>
     match m4 with
     | [] => Ret (Version maj min HWIO_VERSION_NA)
     | c :: _ =>
         if is_alpha c then Ret (Version maj min (Z_of_byte c))
         else stoi (of_chars m4) ≫= fun sub => Ret (Version maj min sub)
     end).
Proof.
  intros H%hwio_version_regex_complete. unfold hwio_version_of_str. by rewrite H.
Qed.

Lemma hwio_version_of_str_no_match s :
  (forall m1 m2 m4, ~ version_match (chars s) m1 m2 m4) ->
  hwio_version_of_str s = Throw (Exn EX_runtime_error "[HWIO] Wrong hwio_version format").
Proof.
  intros H. unfold hwio_version_of_str.
  destruct (hwio_version_regex (chars s)) as [[[m1 m2] m4]|] eqn:E; [|done].
  by apply hwio_version_regex_sound, H in E.
Qed.

Lemma version_match_dec s :
  {m | version_match (chars s) m.1.1 m.1.2 m.2} +
  {forall m1 m2 m4, ~ version_match (chars s) m1 m2 m4}.
Proof.
  destruct (hwio_version_regex (chars s)) as [[[m1 m2] m4]|] eqn:E.
  - left. exists (m1, m2, m4). by apply hwio_version_regex_sound.
  - right. intros m1 m2 m4 H%hwio_version_regex_complete. by rewrite E in H.
Qed.

(** The decimal text of a non-negative [int] is a digit group with its value. *)
Lemma to_dec_digits1 n :
  0 <= n <= INT_MAX -> exists m, chars (to_dec n) = m /\ digits1 m /\ dec_value m = n.
Proof.
  intros Hn. destruct (to_dec_digits n) as (ds & E & Hne & Hd & Hv); [unfold INT_MAX in Hn; lia|].
  exists ds. by repeat split.
Qed.

Lemma field_to_str_nonneg f : 0 <= f -> field_to_str f = to_dec f.
Proof. intros. unfold field_to_str, HWIO_VERSION_NA. by rewrite (proj2 (Z.eqb_neq _ _)) by lia. Qed.

Lemma field_mismatch p m :
  negb (p =? HWIO_VERSION_NA) && negb (p =? m) = false <-> p = HWIO_VERSION_NA \/ p = m.
Proof.
  rewrite andb_false_iff, !negb_false_iff, !Z.eqb_eq. done.
Qed.

Lemma version_matches_iff this other :
  version_matches this other = true <->
  (major other = HWIO_VERSION_NA \/ major other = major this) /\
  (minor other = HWIO_VERSION_NA \/ minor other = minor this) /\
  (subminor other = HWIO_VERSION_NA \/ subminor other = subminor this).
Proof.
  rewrite <-!field_mismatch. unfold version_matches.
  repeat match goal with |- context [if ?b then _ else _] => destruct b end; naive_solver.
Qed.

Lemma hwio_version_of_str_Ret s v :
  hwio_version_of_str s = Ret v <->
  exists m1 m2 m4,
    version_match (chars s) m1 m2 m4 /\
    dec_value m1 <= INT_MAX /\ dec_value m2 <= INT_MAX /\
    major v = dec_value m1 /\ minor v = dec_value m2 /\ subminor_value m4 (subminor v).
Proof.
  split.
  - intros H. destruct (version_match_dec s) as [[[[m1 m2] m4] Hm]|Hn]; cbn in *;
      [|by rewrite hwio_version_of_str_no_match in H].
    rewrite (hwio_version_of_str_match _ _ _ _ Hm) in H.
    destruct (version_match_groups _ _ _ _ Hm) as [H1 H2].
    destruct (stoi (of_chars m1)) as [maj| |] eqn:E1; try done.
    destruct (stoi (of_chars m2)) as [min| |] eqn:E2; try done. cbn in H.
    apply stoi_Ret_digits1 in E1 as [-> Hle1]; [|done].
    apply stoi_Ret_digits1 in E2 as [-> Hle2]; [|done].
    exists m1, m2, m4.
    destruct (version_match_group4 _ _ _ _ Hm) as [->|[H4|(c & -> & Hw & Hd)]].
    + simplify_eq. by repeat (constructor || split).
    + destruct m4 as [|c t]; [by destruct H4|]. rewrite (digits1_not_alpha _ _ H4) in H.
      destruct (stoi _) as [sub| |] eqn:E4; try done. cbn in H. simplify_eq.
      apply stoi_Ret_digits1 in E4 as [-> Hle4]; [|done]. by split_and!; try constructor.
    + destruct (is_alpha c) eqn:Ha; [|by rewrite stoi_underscore in H].
      simplify_eq. by split_and!; try constructor.
  - intros (m1 & m2 & m4 & Hm & Hle1 & Hle2 & Hv1 & Hv2 & Hv4).
    rewrite (hwio_version_of_str_match _ _ _ _ Hm).
    destruct (version_match_groups _ _ _ _ Hm) as [H1 H2].
    rewrite (stoi_digits1_Ret m1), (stoi_digits1_Ret m2) by done. cbn. rewrite <-Hv1, <-Hv2.
    destruct v as [maj min sub]; cbn in *.
    destruct Hv4 as [|c Ha|m4 H4 Hle4]; [done | by rewrite Ha |].
    destruct m4 as [|c t]; [by destruct H4|]. rewrite (digits1_not_alpha _ _ H4).
    by rewrite stoi_digits1_Ret.
Qed.


(** What is wrong with the groups of a match. *)
Definition group_error (m1 m2 m4 : list byte) (e : exn) : Prop :=
  (e = Exn EX_out_of_range "stoi" /\
    (INT_MAX < dec_value m1 \/ INT_MAX < dec_value m2 \/ (digits1 m4 /\ INT_MAX < dec_value m4))) \/
  (e = Exn EX_invalid_argument "stoi" /\
    dec_value m1 <= INT_MAX /\ dec_value m2 <= INT_MAX /\ m4 = ["_"%char]).

Lemma word_underscore c : is_word c = true -> is_alpha c = false -> is_digit c = false -> c = "_"%char.
Proof.
  unfold is_word. intros Hw Ha Hd. rewrite Ha, Hd in Hw. apply Z.eqb_eq in Hw. by apply Z_of_byte_inj.
Qed.

(** A matching string is parsed, or one of its groups is wrong. *)
Lemma version_match_outcome s m1 m2 m4 :
  version_match (chars s) m1 m2 m4 ->
  (exists v, hwio_version_of_str s = Ret v) \/
  exists e, hwio_version_of_str s = Throw e /\ group_error m1 m2 m4 e.
Proof.
  intros Hm. rewrite (hwio_version_of_str_match _ _ _ _ Hm). unfold group_error.
  destruct (version_match_groups _ _ _ _ Hm) as [H1 H2]. rewrite (stoi_digits1 m1), (stoi_digits1 m2) by done.
  destruct (Z.leb_spec (dec_value m1) INT_MAX) as [L1|L1]; cbn [mbind outcome_bind].
  2: { right. eexists. split; [done|]. left. by split; [|left]. }
  destruct (Z.leb_spec (dec_value m2) INT_MAX) as [L2|L2]; cbn [mbind outcome_bind].
  2: { right. eexists. split; [done|]. left. by split; [|right; left]. }
  destruct (version_match_group4 _ _ _ _ Hm) as [->|[H4|(c & -> & Hw & Hd)]]; [left; by eexists| |].
  - rewrite (stoi_digits1 m4) by done. destruct m4 as [|c t]; [by destruct H4|].
    rewrite (digits1_not_alpha _ _ H4). destruct (Z.leb_spec (dec_value (c :: t)) INT_MAX) as [L4|L4].
    + left. by eexists.
    + right. eexists. split; [done|]. left. split; [done|]. by right; right.
  - destruct (is_alpha c) eqn:Ha; [left; by eexists|]. rewrite stoi_underscore by done.
    right. eexists. split; [done|]. right. by rewrite (word_underscore c).
Qed.

(** The error of a match is determined, and excludes a result. *)
Lemma group_error_unique m1 m2 m4 e e' : group_error m1 m2 m4 e -> group_error m1 m2 m4 e' -> e = e'.
Proof.
  assert (~ digits1 ["_"%char]) as Hu by by intros [_ ?%Forall_inv].
  intros [(-> & H)|(-> & ? & ? & ->)] [(-> & H')|(-> & ? & ? & E)]; try done; exfalso.
  - subst. destruct H as [?|[?|[? _]]]; [lia|lia|done].
  - destruct H' as [?|[?|[? _]]]; [lia|lia|done].
Qed.

Lemma group_error_no_value m1 m2 m4 sub e :
  dec_value m1 <= INT_MAX -> dec_value m2 <= INT_MAX -> subminor_value m4 sub -> ~ group_error m1 m2 m4 e.
Proof.
  assert (~ digits1 ["_"%char]) as Hu by by intros [_ ?%Forall_inv].
  intros L1 L2 H4 [(_ & [?|[?|[Hd ?]]])|(_ & _ & _ & E)]; [lia|lia| |].
  - destruct H4 as [|c Ha|m4 _ ?]; [by destruct Hd| |lia]. by rewrite (digits1_not_alpha c []) in Ha.
  - destruct H4 as [|c Ha|m4 ? _]; [done| |by subst]. by injection E as ->.
Qed.

Lemma version_to_str_parses v :
  0 <= major v <= INT_MAX -> 0 <= minor v <= INT_MAX -> 0 <= subminor v <= INT_MAX ->
  exists m1 m2 m4, version_match (chars (version_to_str v)) m1 m2 m4 /\
    hwio_version_of_str (version_to_str v) = Ret v.
Proof.
  intros Hj Hn Hs. unfold version_to_str. rewrite !field_to_str_nonneg by lia.
  destruct (to_dec_digits1 _ Hj) as (m1 & E1 & Hd1 & V1).
  destruct (to_dec_digits1 _ Hn) as (m2 & E2 & Hd2 & V2).
  destruct (to_dec_digits1 _ Hs) as (m4 & E4 & Hd4 & V4).
  exists m1, m2, m4. rewrite hwio_version_of_str_Ret, !chars_app, E1, E2, E4.
  split; [by apply VM_digits|]. exists m1, m2, m4.
  split; [by apply VM_digits|]. rewrite V1, V2. split_and!; try done; try lia.
  rewrite <-V4. constructor; [done | lia].
Qed.

(** ** Properties *)

(** C37: the constructor of [hwio_version] from a string succeeds exactly on the
    strings the regular expression derives whose numbers fit an [int] and whose
    third part is absent, a letter or a number; the fields are the values of
    the groups, the code of the letter for a letter, and [HWIO_VERSION_NA] for
    an absent third part. *)
Theorem version_parse_correct s v :
  hwio_version_of_str s = Ret v <->
  exists m1 m2 m4,
    version_match (chars s) m1 m2 m4 /\
    dec_value m1 <= INT_MAX /\ dec_value m2 <= INT_MAX /\
    major v = dec_value m1 /\ minor v = dec_value m2 /\ subminor_value m4 (subminor v).
Proof. apply hwio_version_of_str_Ret. Qed.

(** C38: printing a version without wildcards and parsing the text gives the
    version back. *)
Theorem version_roundtrip v :
  0 <= major v <= INT_MAX -> 0 <= minor v <= INT_MAX -> 0 <= subminor v <= INT_MAX ->
  hwio_version_of_str (version_to_str v) = Ret v.
Proof. intros Hj Hn Hs. by destruct (version_to_str_parses v Hj Hn Hs) as (? & ? & ? & _ & ?). Qed.

(** C39: the errors of the constructor, exactly.  A string the regular
    expression does not match makes it throw [std::runtime_error].  A matching
    string with a number above [INT_MAX] makes [std::stoi] throw
    [std::out_of_range]; one whose third part is an underscore (a word
    character that is neither a letter nor a digit) and whose numbers fit,
    [std::invalid_argument].  Both are [std::logic_error]s, which the handlers
    for [std::runtime_error] in [hwio_comp_spec] do not catch.  Nothing else is
    thrown, and the constructor always ends. *)
Theorem version_parse_errors s :
  (forall f, hwio_version_of_str s <> Undef f) /\
  forall e, hwio_version_of_str s = Throw e <->
    (e = Exn EX_runtime_error "[HWIO] Wrong hwio_version format" /\
     forall m1 m2 m4, ~ version_match (chars s) m1 m2 m4) \/
    (exists m1 m2 m4, version_match (chars s) m1 m2 m4 /\
      ((e = Exn EX_out_of_range "stoi" /\
        (INT_MAX < dec_value m1 \/ INT_MAX < dec_value m2 \/ (digits1 m4 /\ INT_MAX < dec_value m4))) \/
       (e = Exn EX_invalid_argument "stoi" /\
        dec_value m1 <= INT_MAX /\ dec_value m2 <= INT_MAX /\ m4 = ["_"%char]))).
Proof.
  destruct (version_match_dec s) as [[[[m1 m2] m4] Hm]|Hn]; cbn [fst snd] in *.
  - pose proof (version_match_outcome s m1 m2 m4 Hm) as H. split.
    + intros f. destruct H as [(v & ->)|(e' & -> & _)]; done.
    + intros e. split.
      * intros He. right. exists m1, m2, m4. split; [done|].
        destruct H as [(v & E)|(e' & E & H)]; [congruence|]. rewrite E in He. by injection He as <-.
      * intros [(_ & Hno)|(n1 & n2 & n4 & Hm' & H')]; [by apply Hno in Hm|].
        apply hwio_version_regex_complete in Hm. apply hwio_version_regex_complete in Hm'.
        rewrite Hm in Hm'. injection Hm' as <- <- <-. destruct H as [(v & E)|(e' & E & H)].
        -- apply hwio_version_of_str_Ret in E as (n1 & n2 & n4 & Hn & H1 & H2 & _ & _ & H4).
           apply hwio_version_regex_complete in Hn. rewrite Hm in Hn. injection Hn as <- <- <-.
           by destruct (group_error_no_value _ _ _ _ e H1 H2 H4).
        -- rewrite E. f_equal. by eapply group_error_unique.
  - rewrite (hwio_version_of_str_no_match s Hn). split; [done|]. intros e. split.
    + intros [= <-]. by left.
    + intros [(-> & _)|(m1 & m2 & m4 & Hm & _)]; [done|by apply Hn in Hm].
Qed.

(** Matching is a partial order from the concrete version to the pattern:
    reflexive, transitive, and two versions matching each other are equal. *)
Theorem version_matches_partial_order (a b c : hwio_version) :
  version_matches a a = true /\
  (version_matches a b = true -> version_matches b c = true -> version_matches a c = true) /\
  (version_matches a b = true -> version_matches b a = true -> a = b).
Proof.
  rewrite !version_matches_iff. destruct a, b, c; cbn. split_and!; [naive_solver..|].
  intros (H1 & H2 & H3) (H4 & H5 & H6). f_equal; naive_solver congruence.
Qed.

(** ** Witnesses *)

Lemma version_roundtrip_witness :
  hwio_version_of_str (version_to_str (Version 12 0 97)) = Ret (Version 12 0 97).
Proof. apply version_roundtrip; vm_compute; split; discriminate. Defined.

(** The strings of [tests/test_hwio_version.cpp]. *)
Example parse_tests :
  map hwio_version_of_str
    ["1.00.a"; "2.00.c"; "3.00.0"; "4.00"; "5.0"; "6.0.1"; "12.12.c"]%string =
  map Ret
    [Version 1 0 97; Version 2 0 99; Version 3 0 0; Version 4 0 (-1);
     Version 5 0 (-1); Version 6 0 1; Version 12 12 99].
Proof. vm_compute. reflexivity. Qed.

Example parse_not_runtime_error :
  hwio_version_of_str "1.0._" = Throw (Exn EX_invalid_argument "stoi") /\
  hwio_version_of_str "99999999999.0" = Throw (Exn EX_out_of_range "stoi") /\
  hwio_version_of_str "1.0.<NA>" = Throw (Exn EX_runtime_error "[HWIO] Wrong hwio_version format").
Proof. vm_compute. auto. Qed.
