(* ===== verification/CompSpec.v ===== *)
(** * hwio_comp_spec: compatibility strings and their matching

    Models [src/hwio_comp_spec.cpp] and [src/hwio_comp_spec.h]: the parser of
    [<vendor>,<type>-<version>] strings with its [size_t] positions, the
    wildcard [operator==] and [to_str].  [compat_ref] is the reference reading
    of such a string. *)

From Stdlib Require Import ZArith Lia Ascii String.
From stdpp Require Import base tactics list numbers strings gmap fin_maps.
From S2P Require Import Prelude CxxString Version.

Record hwio_comp_spec := CompSpec {
  cs_name : string;
  cs_vendor : string;
  cs_type : string;
  cs_version : hwio_version
}.

#[export] Instance hwio_comp_spec_eq_dec : EqDecision hwio_comp_spec.
Proof. solve_decision. Defined.

(** The default arguments of the [hwio_version] constructor. *)
Definition default_version : hwio_version :=
  Version HWIO_VERSION_NA HWIO_VERSION_NA HWIO_VERSION_NA.

(** [hwio_comp_spec::hwio_comp_spec()] *)
Definition empty_spec : hwio_comp_spec := CompSpec "" "" "" default_version.

(** [hwio_comp_spec(vendor, type, version)] *)
Definition make_spec (vendor type : string) (version : hwio_version) : hwio_comp_spec :=
  CompSpec "" vendor type version.

(** [hwio_comp_spec::name_set] *)
Definition name_set (name : string) (s : hwio_comp_spec) : hwio_comp_spec :=
  CompSpec name (cs_vendor s) (cs_type s) (cs_version s).

(** The copy constructor delegates and then sets the name. *)
Definition copy_spec (s : hwio_comp_spec) : hwio_comp_spec :=
  name_set (cs_name s) (make_spec (cs_vendor s) (cs_type s) (cs_version s)).

(** [hwio_comp_spec::to_str] *)
Definition comp_spec_to_str (s : hwio_comp_spec) : string :=
  cs_name s +:+ ":" +:+ cs_vendor s +:+ "," +:+ cs_type s +:+ "-" +:+
  version_to_str (cs_version s).

(** [hwio_comp_spec::operator==] *)
Definition comp_spec_eq (this other : hwio_comp_spec) : bool :=
  if bool_decide (cs_name this <> "") && bool_decide (cs_name other <> "") then
    bool_decide (cs_name this = cs_name other)
  else if bool_decide (cs_vendor this <> "") && bool_decide (cs_vendor other <> "")
    && bool_decide (cs_vendor this <> cs_vendor other) then false
  else if bool_decide (cs_type this <> "") && bool_decide (cs_type other <> "")
    && bool_decide (cs_type this <> cs_type other) then false
  else version_matches (cs_version this) (cs_version other).

(** [hwio_comp_spec::operator!=] *)
Definition comp_spec_ne (this other : hwio_comp_spec) : bool := negb (comp_spec_eq this other).

(** ** [std::string] positions *)

(** [std::string::npos], the largest [size_t]. *)
Definition npos : Z := 2 ^ 64 - 1.

Definition size (s : string) : Z := Z.of_nat (String.length s).

Fixpoint last_index (c : byte) (l : list byte) : option nat :=
  match l with
  | [] => None
  | x :: t =>
      match last_index c t with
      | Some i => Some (S i)
      | None => if bool_decide (x = c) then Some O else None
      end
  end.

Definition find_last_of (s : string) (c : byte) : Z :=
  match last_index c (chars s) with
  | Some i => Z.of_nat i
  | None => npos
  end.

Definition substr (s : string) (pos count : Z) : outcome string :=
  if size s <? pos then Throw (Exn EX_out_of_range "basic_string::substr")
  else Ret (of_chars (take (Z.to_nat (Z.min count (size s - pos)))
                           (drop (Z.to_nat pos) (chars s)))).

Definition COMMA : byte := ","%char.
Definition HYPHEN : byte := "-"%char.

(** [try { version = hwio_version(...substr...); } catch (runtime_error) { type_end = len; }] *)
Definition try_version (s : string) (version_begin type_end : Z) : outcome (hwio_version * Z) :=
  substr s version_begin (size s) ≫= fun vs =>
  match hwio_version_of_str vs with
  | Ret v => Ret (v, type_end)
  | Throw e => if is_runtime_error e then Ret (default_version, size s) else Throw e
  | Undef f => Undef f
  end.

(** [hwio_comp_spec::hwio_comp_spec(const std::string & compatibility_str)];
    [type = type_begin] assigns a [size_t] to a [std::string]: the position is
    converted to one [char]. *)
Definition hwio_comp_spec_of_str (compatibility_str : string) : outcome hwio_comp_spec :=
  let s := compatibility_str in
  let comma := find_last_of s COMMA in
  let hyphen := find_last_of s HYPHEN in
  let type_begin := u64 (comma + 1) in
  let version_begin := u64 (hyphen + 1) in
  if bool_decide (comma = npos) && bool_decide (hyphen = npos) then
    Ret (CompSpec "" "" s default_version)
  else if bool_decide (comma <> npos) && bool_decide (hyphen = npos) then
    substr s 0 comma ≫= fun vendor =>
    Ret (CompSpec "" vendor (String (byte_of_Z type_begin) "") default_version)
  else if bool_decide (comma = npos) && bool_decide (hyphen <> npos) then
    try_version s version_begin hyphen ≫= fun '(version, type_end) =>
    substr s 0 type_end ≫= fun type =>
    Ret (CompSpec "" "" type version)
  else
    try_version s version_begin (u64 (hyphen - type_begin)) ≫= fun '(version, type_end) =>
    substr s type_begin type_end ≫= fun type =>
    substr s 0 comma ≫= fun vendor =>
    Ret (CompSpec "" vendor type version).

(** ** The reference reading of a compatibility string *)

(** Split at the last occurrence of a character. *)
Definition split_last (c : byte) (l : list byte) : option (list byte * list byte) :=
  (fun i => (take i l, drop (S i) l)) <$> last_index c l.

(** Everything before the last comma is the vendor; what follows the last
    hyphen of the remaining text is the version when it is one. *)
Definition compat_ref (compatibility_str : string) : outcome hwio_comp_spec :=
  let '(vendor, rest) := default ([], chars compatibility_str)
                                 (split_last COMMA (chars compatibility_str)) in
  match split_last HYPHEN rest with
  | None => Ret (CompSpec "" (of_chars vendor) (of_chars rest) default_version)
  | Some (type, vs) =>
      match hwio_version_of_str (of_chars vs) with
      | Ret v => Ret (CompSpec "" (of_chars vendor) (of_chars type) v)
      | Throw e =>
          if is_runtime_error e
          then Ret (CompSpec "" (of_chars vendor) (of_chars rest) default_version)
          else Throw e
      | Undef f => Undef f
      end
  end.

(** ** Lemmas on positions *)

Lemma last_index_None c l : last_index c l = None <-> c ∉ l.
Proof.
  induction l as [|x l IH]; cbn; [set_solver|].
  destruct (last_index c l) as [i|].
  - split; [done|]. intros Hn. exfalso. apply Hn. right.
    destruct (decide (c ∈ l)) as [|Hn']; [done|]. apply IH in Hn'. done.
  - case_bool_decide; set_solver.
Qed.

Lemma last_index_app c l1 l2 :
  last_index c (l1 ++ c :: l2) =
  match last_index c l2 with
  | Some i => Some (S (length l1 + i))
  | None => Some (length l1)
  end.
Proof.
  induction l1 as [|x l1 IH]; cbn.
  - rewrite bool_decide_eq_true_2 by done. by destruct (last_index c l2).
  - rewrite IH. by destruct (last_index c l2).
Qed.

Lemma last_index_Some c l i :
  last_index c l = Some i ->
  l = take i l ++ c :: drop (S i) l /\ c ∉ drop (S i) l /\ (i < length l)%nat.
Proof.
  revert i. induction l as [|x l IH]; intros i H; cbn in H; [done|].
  destruct (last_index c l) as [j|] eqn:E; simplify_eq.
  - destruct (IH _ eq_refl) as (H1 & H2 & H3). cbn. split_and!; [by f_equal|done|lia].
  - case_bool_decide; simplify_eq. cbn. rewrite drop_0.
    split_and!; [done | by apply last_index_None | lia].
Qed.

Lemma last_index_lookup c l i : last_index c l = Some i -> l !! i = Some c.
Proof.
  intros H. destruct (last_index_Some _ _ _ H) as (Hl & _ & Hi).
  rewrite Hl, lookup_app_r by (rewrite length_take; lia).
  by rewrite length_take, Nat.min_l, Nat.sub_diag by lia.
Qed.

Lemma take_app_exact {A} (l1 l2 : list A) : take (length l1) (l1 ++ l2) = l1.
Proof. by rewrite take_app_length. Qed.

Lemma substr_ok s pos count :
  0 <= pos <= size s ->
  substr s pos count =
  Ret (of_chars (take (Z.to_nat (Z.min count (size s - pos))) (drop (Z.to_nat pos) (chars s)))).
Proof. intros. unfold substr. by rewrite (proj2 (Z.ltb_ge _ _)) by lia. Qed.

(** [substr] up to the end of the string. *)
Lemma substr_rest s pos count :
  0 <= pos <= size s -> size s <= count ->
  substr s pos count = Ret (of_chars (drop (Z.to_nat pos) (chars s))).
Proof.
  intros Hp Hc. rewrite substr_ok by lia. rewrite take_ge; [done|].
  rewrite length_drop, chars_length. unfold size in *. lia.
Qed.

Lemma substr_mid s pos count :
  0 <= pos -> 0 <= count -> pos + count <= size s ->
  substr s pos count =
  Ret (of_chars (take (Z.to_nat count) (drop (Z.to_nat pos) (chars s)))).
Proof. intros. rewrite substr_ok by lia. by rewrite Z.min_l by lia. Qed.

Lemma last_index_drop c l i j :
  last_index c l = Some i ->
  last_index c (drop j l) = if decide (j <= i)%nat then Some (i - j)%nat else None.
Proof.
  intros H. destruct (last_index_Some _ _ _ H) as (Hl & Hn & Hi). case_decide as Hj.
  - assert (drop j l = drop j (take i l) ++ c :: drop (S i) l) as ->.
    { rewrite Hl at 1. by rewrite drop_app_le by (rewrite length_take; lia). }
    rewrite last_index_app. rewrite (proj2 (last_index_None _ _)) by done.
    rewrite length_drop, length_take. f_equal. lia.
  - apply last_index_None. intros Hin. apply Hn.
    replace j with (S i + (j - S i))%nat in Hin by lia.
    rewrite <-drop_drop in Hin. rewrite <-(take_drop (j - S i) (drop (S i) l)).
    apply elem_of_app. by right.
Qed.

Lemma find_last_of_None s c : c ∉ chars s -> find_last_of s c = npos.
Proof. intros H. unfold find_last_of. by rewrite (proj2 (last_index_None _ _)). Qed.

Lemma find_last_of_Some s c i : last_index c (chars s) = Some i -> find_last_of s c = Z.of_nat i.
Proof. intros H. unfold find_last_of. by rewrite H. Qed.

(** The regular expression derives only dots and word characters. *)
Lemma version_match_chars c l m1 m2 m4 :
  version_match l m1 m2 m4 -> c <> DOT -> is_word c = false -> c ∉ l.
Proof.
  intros Hm Hdot Hw Hin.
  assert (is_digit c = false) as Hnd.
  { unfold is_word in Hw. apply orb_false_iff in Hw as [[_ ?]%orb_false_iff _]. done. }
  assert (forall m, digits1 m -> c ∉ m) as Hd.
  { intros m [_ Hm'] Hin'. apply (proj1 (Forall_forall _ _) Hm') in Hin'. congruence. }
  destruct Hm as [m1 m2 H1 H2|m1 m2 c' H1 H2 Hc|m1 m2 m4 H1 H2 H4];
    repeat (rewrite ?elem_of_app, ?elem_of_cons in Hin);
    pose proof (Hd _ H1); pose proof (Hd _ H2).
  - set_solver.
  - destruct Hin as [|[|[|[|[<-|]]]]]; [set_solver..|congruence|set_solver].
  - pose proof (Hd _ H4). naive_solver.
Qed.

Lemma version_of_str_comma s :
  COMMA ∈ chars s ->
  hwio_version_of_str s = Throw (Exn EX_runtime_error "[HWIO] Wrong hwio_version format").
Proof.
  intros Hin. apply hwio_version_of_str_no_match.
  intros m1 m2 m4 H. by apply (version_match_chars COMMA) in H.
Qed.

(** Trying the text after the hyphen at position [i]. *)
Lemma try_version_at s i type_end :
  (i < length (chars s))%nat -> size s < npos ->
  try_version s (u64 (Z.of_nat i + 1)) type_end =
  match hwio_version_of_str (of_chars (drop (S i) (chars s))) with
  | Ret v => Ret (v, type_end)
  | Throw e => if is_runtime_error e then Ret (default_version, size s) else Throw e
  | Undef f => Undef f
  end.
Proof.
  intros Hi Hs. unfold try_version. rewrite chars_length in Hi.
  unfold size, npos in *. rewrite u64_small by lia.
  rewrite substr_rest by (unfold size; lia). cbn.
  by replace (Z.to_nat (Z.of_nat i + 1)) with (S i) by lia.
Qed.

Lemma split_last_app c l1 l2 : c ∉ l2 -> split_last c (l1 ++ c :: l2) = Some (l1, l2).
Proof.
  intros H. unfold split_last. rewrite last_index_app, (proj2 (last_index_None _ _)) by done.
  cbn. rewrite take_app_length. do 2 f_equal.
  change (c :: l2) with ([c] ++ l2). rewrite app_assoc.
  rewrite drop_app_length' by (rewrite length_app; cbn; lia). done.
Qed.

Section cases.
Context (s : string) (Hs : size s < npos).

Lemma index_not_npos c i : last_index c (chars s) = Some i -> Z.of_nat i <> npos.
Proof using Hs.
  intros (_ & _ & Hi)%last_index_Some. rewrite chars_length in Hi. unfold size in Hs. lia.
Qed.

Lemma comp_spec_parse_type_only :
  last_index COMMA (chars s) = None -> last_index HYPHEN (chars s) = None ->
  hwio_comp_spec_of_str s = compat_ref s.
Proof using.
  intros Ej Ei. unfold hwio_comp_spec_of_str, compat_ref, split_last, find_last_of.
  rewrite Ej, Ei. cbn. rewrite Ei. cbn. by rewrite of_chars_chars.
Qed.

Lemma comp_spec_parse_no_comma i :
  last_index COMMA (chars s) = None -> last_index HYPHEN (chars s) = Some i ->
  hwio_comp_spec_of_str s = compat_ref s.
Proof using Hs.
  intros Ej Ei. pose proof (index_not_npos _ _ Ei) as Hi.
  destruct (last_index_Some _ _ _ Ei) as (_ & _ & Hil).
  assert (0 <= size s /\ Z.of_nat i < size s) as [Hs0 Hi1].
  { rewrite chars_length in Hil. unfold size. lia. }
  unfold hwio_comp_spec_of_str, compat_ref, split_last, find_last_of.
  rewrite Ej, Ei. cbn -[u64 npos size]. rewrite Ei. cbn -[u64 npos size].
  rewrite (bool_decide_eq_false_2 _ Hi), andb_false_r, andb_false_l.
  cbn -[u64 npos size]. rewrite bool_decide_eq_true_2 by done. cbn -[u64 npos size].
  rewrite (bool_decide_eq_true_2 (Z.of_nat i <> npos)) by done.
  rewrite try_version_at by done.
  destruct (hwio_version_of_str _) as [v|e|f]; cbn -[u64 npos size]; [| |done].
  - rewrite substr_mid by lia. cbn. by rewrite drop_0, Nat2Z.id.
  - destruct (is_runtime_error e); [|done]. cbn. rewrite substr_rest by lia.
    cbn. by rewrite drop_0.
Qed.

Lemma comp_spec_parse_full i j :
  last_index COMMA (chars s) = Some j -> last_index HYPHEN (chars s) = Some i ->
  hwio_comp_spec_of_str s = compat_ref s.
Proof using Hs.
  intros Ej Ei.
  destruct (last_index_Some _ _ _ Ei) as (Hl1 & _ & Hil).
  destruct (last_index_Some _ _ _ Ej) as (Hl2 & _ & Hjl).
  assert (0 <= size s /\ Z.of_nat i < size s /\ Z.of_nat j < size s) as (Hs0 & Hi1 & Hj1).
  { rewrite chars_length in Hil, Hjl. unfold size. lia. }
  unfold hwio_comp_spec_of_str, compat_ref, split_last, find_last_of.
  rewrite Ej, Ei. cbn -[u64 npos drop size].
  rewrite (last_index_drop _ _ _ _ Ei).
  rewrite !(bool_decide_eq_false_2 (Z.of_nat _ = npos)) by eauto using index_not_npos.
  cbn -[u64 npos drop size]. rewrite (bool_decide_eq_true_2 (_ <> _)) by eauto using index_not_npos.
  cbn -[u64 npos drop size]. rewrite try_version_at by done.
  rewrite (u64_small (Z.of_nat j + 1)) by (unfold npos in Hs; lia).
  case_decide as Hij.
  - cbn -[u64 npos drop size]. rewrite drop_drop.
    replace (S j + S (i - S j))%nat with (S i) by lia.
    destruct (hwio_version_of_str _) as [v|e|f]; cbn -[u64 npos drop size]; [| |done].
    + rewrite u64_small by (unfold npos in Hs; lia).
      rewrite !substr_mid by lia. cbn -[drop size]. rewrite drop_0.
      replace (Z.to_nat (Z.of_nat j + 1)) with (S j) by lia.
      replace (Z.to_nat (Z.of_nat i - (Z.of_nat j + 1))) with (i - S j)%nat by lia.
      by rewrite Nat2Z.id.
    + destruct (is_runtime_error e); [|done]. cbn -[drop size].
      rewrite (substr_rest _ (Z.of_nat j + 1)), substr_mid by lia. cbn -[drop size]. rewrite drop_0, Nat2Z.id.
      by replace (Z.to_nat (Z.of_nat j + 1)) with (S j) by lia.
  - rewrite version_of_str_comma.
    + cbn -[u64 npos drop size]. rewrite (substr_rest _ (Z.of_nat j + 1)), substr_mid by lia.
      cbn -[drop size]. rewrite drop_0, Nat2Z.id.
      by replace (Z.to_nat (Z.of_nat j + 1)) with (S j) by lia.
    + rewrite chars_of_chars. pose proof (last_index_lookup _ _ _ Ei).
      pose proof (last_index_lookup _ _ _ Ej).
      assert (HYPHEN <> COMMA) by done.
      assert (i <> j) by (intros ->; congruence).
      apply list_elem_of_lookup. exists (j - S i)%nat. rewrite lookup_drop.
      by replace (S i + (j - S i))%nat with j by lia.
Qed.
End cases.

Lemma compat_ref_plain s :
  last_index COMMA (chars s) = None -> last_index HYPHEN (chars s) = None ->
  compat_ref s = Ret (make_spec "" s default_version).
Proof.
  intros Ej Ei. unfold compat_ref, split_last. rewrite Ej. cbn. rewrite Ei. cbn. by rewrite of_chars_chars.
Qed.

(** The parser agrees with the reference. *)
Lemma comp_spec_parse_compat s :
  HYPHEN ∈ chars s \/ COMMA ∉ chars s -> size s < npos ->
  hwio_comp_spec_of_str s = compat_ref s.
Proof.
  intros Hc Hs. destruct (last_index COMMA (chars s)) as [j|] eqn:Ej;
    destruct (last_index HYPHEN (chars s)) as [i|] eqn:Ei.
  - by eapply comp_spec_parse_full.
  - exfalso. apply last_index_None in Ei. destruct Hc as [|Hc]; [done|].
    apply last_index_None in Hc. by rewrite Ej in Hc.
  - by eapply comp_spec_parse_no_comma.
  - by apply comp_spec_parse_type_only.
Qed.

(** A string with a comma and no hyphen is read with the right vendor, but
    its type is the single character whose code is the position after the
    comma (modulo 256), whatever the text after the comma is. *)
Lemma comp_spec_vendor_type_only vendor type :
  COMMA ∉ chars type -> HYPHEN ∉ chars vendor -> HYPHEN ∉ chars type ->
  size (vendor +:+ "," +:+ type) < npos ->
  hwio_comp_spec_of_str (vendor +:+ "," +:+ type) =
  Ret (CompSpec "" vendor (String (byte_of_Z (size vendor + 1)) "") default_version).
Proof.
  intros Hc Hv Ht Hs. set (s := vendor +:+ "," +:+ type) in *.
  assert (chars s = chars vendor ++ COMMA :: chars type) as Hl by (unfold s; by rewrite !chars_app).
  assert (last_index COMMA (chars s) = Some (String.length vendor)) as Ej.
  { rewrite Hl, last_index_app, (proj2 (last_index_None _ _)) by done. by rewrite chars_length. }
  assert (last_index HYPHEN (chars s) = None) as Ei.
  { apply last_index_None. rewrite Hl. set_solver. }
  pose proof (last_index_Some _ _ _ Ej) as (_ & _ & Hj). rewrite chars_length in Hj.
  unfold hwio_comp_spec_of_str, find_last_of. rewrite Ej, Ei.
  rewrite (bool_decide_eq_false_2 (Z.of_nat _ = npos)) by (unfold size, npos in *; lia).
  rewrite (bool_decide_eq_true_2 (Z.of_nat _ <> npos)) by (unfold size, npos in *; lia).
  rewrite bool_decide_eq_true_2 by done. cbn -[u64 npos size drop].
  rewrite substr_mid by (unfold size, npos in *; lia). cbn -[u64 npos size].
  rewrite drop_0, Nat2Z.id, Hl, <-(chars_length vendor), take_app_length, of_chars_chars.
  rewrite u64_small by (unfold size, npos in *; rewrite chars_length; lia).
  unfold size. by rewrite chars_length.
Qed.

(** ** Properties *)

(** C40: the parser of compatibility strings on every string.  When it has a
    hyphen, or has no comma, the result is the reference reading: vendor before
    the last comma, version after the last hyphen of the rest when that text is
    a version, and everything else is the type; a number that does not fit an
    [int] makes both throw.  A string with neither comma nor hyphen is thus a
    type, although the comment of that branch calls it a vendor.  A string with
    a comma and no hyphen gets the right vendor and a wrong type: the single
    character whose code is the position after the comma. *)
Theorem comp_spec_parse_reference s :
  size s < npos ->
  (HYPHEN ∈ chars s \/ COMMA ∉ chars s -> hwio_comp_spec_of_str s = compat_ref s) /\
  (HYPHEN ∉ chars s -> COMMA ∉ chars s ->
    hwio_comp_spec_of_str s = Ret (make_spec "" s default_version)) /\
  (forall vendor type, s = (vendor +:+ "," +:+ type)%string -> COMMA ∉ chars type -> HYPHEN ∉ chars s ->
    hwio_comp_spec_of_str s =
    Ret (CompSpec "" vendor (String (byte_of_Z (size vendor + 1)) "") default_version)).
Proof.
  intros Hs. split_and!.
  - intros Hc. by apply comp_spec_parse_compat.
  - intros Hh Hc. rewrite comp_spec_parse_compat by (try done; by right).
    by apply compat_ref_plain; apply last_index_None.
  - intros vendor type -> Hc Hh. rewrite !chars_app in Hh. apply comp_spec_vendor_type_only; [done|set_solver..|done].
Qed.

(** A vendor, a type without comma and a version without wildcards, written
    as [<vendor>,<type>-<version>], are parsed back unchanged. *)
Theorem comp_spec_roundtrip vendor type v :
  COMMA ∉ chars type ->
  0 <= major v <= INT_MAX -> 0 <= minor v <= INT_MAX -> 0 <= subminor v <= INT_MAX ->
  size (vendor +:+ "," +:+ type +:+ "-" +:+ version_to_str v) < npos ->
  hwio_comp_spec_of_str (vendor +:+ "," +:+ type +:+ "-" +:+ version_to_str v) =
  Ret (make_spec vendor type v).
Proof.
  intros Hc Hj Hn Hm Hs.
  pose proof (version_to_str_parses v Hj Hn Hm) as (m1 & m2 & m4 & Hvm & Hrt).
  pose proof (version_match_chars COMMA _ _ _ _ Hvm) as Hvc.
  pose proof (version_match_chars HYPHEN _ _ _ _ Hvm) as Hvh.
  set (s := vendor +:+ _) in *.
  assert (chars s = chars vendor ++ COMMA :: chars type ++ HYPHEN :: chars (version_to_str v))
    as Hl by (unfold s; by rewrite !chars_app).
  assert (COMMA ∉ chars type ++ HYPHEN :: chars (version_to_str v)) as Hnc by set_solver.
  rewrite comp_spec_parse_compat by (try done; left; rewrite Hl; set_solver).
  unfold compat_ref. rewrite Hl, split_last_app by done. cbn [from_option id].
  rewrite split_last_app by set_solver.
  by rewrite !of_chars_chars, Hrt.
Qed.

(** Two names are compatible when one of them is missing or they are equal. *)
Definition wild (a b : string) : Prop := a = ""%string \/ b = ""%string \/ a = b.

Lemma wild_test a b :
  bool_decide (a <> ""%string) && bool_decide (b <> ""%string) && bool_decide (a <> b) = false <->
  wild a b.
Proof. unfold wild. repeat case_bool_decide; cbn; naive_solver. Qed.

Lemma comp_spec_eq_iff this other :
  comp_spec_eq this other = true <->
  (cs_name this <> ""%string /\ cs_name other <> ""%string /\ cs_name this = cs_name other) \/
  ((cs_name this = ""%string \/ cs_name other = ""%string) /\
   wild (cs_vendor this) (cs_vendor other) /\ wild (cs_type this) (cs_type other) /\
   version_matches (cs_version this) (cs_version other) = true).
Proof.
  rewrite <-!wild_test. unfold comp_spec_eq.
  destruct (bool_decide (cs_name this <> ""%string) && bool_decide (cs_name other <> ""%string)) eqn:En.
  - apply andb_true_iff in En as [H1%bool_decide_eq_true H2%bool_decide_eq_true].
    rewrite bool_decide_eq_true. naive_solver.
  - apply andb_false_iff in En as [En|En]; apply bool_decide_eq_false, dec_stable in En;
      repeat match goal with |- context [if ?b then _ else _] => destruct b end; naive_solver.
Qed.

(** [operator==] of specifications: two named ones match by name alone;
    otherwise vendor and type match when missing or equal and the version
    matches field by field with the right operand as the pattern.  The relation
    is reflexive, and the empty specification as the pattern matches all. *)
Theorem comp_spec_match_correct this other :
  (comp_spec_eq this other = true <->
   (cs_name this <> ""%string /\ cs_name other <> ""%string /\ cs_name this = cs_name other) \/
   ((cs_name this = ""%string \/ cs_name other = ""%string) /\
    wild (cs_vendor this) (cs_vendor other) /\ wild (cs_type this) (cs_type other) /\
    version_matches (cs_version this) (cs_version other) = true)) /\
  comp_spec_eq this this = true /\ comp_spec_eq this empty_spec = true.
Proof.
  split; [apply comp_spec_eq_iff|]. rewrite !comp_spec_eq_iff, !version_matches_iff.
  unfold wild. cbn. destruct (decide (cs_name this = ""%string)); naive_solver.
Qed.

(** ** Witnesses *)

(** Strings of [tests/test_hwio_comp_spec.cpp], and the reference reading of
    the first. *)
Lemma comp_spec_parse_reference_witness :
  hwio_comp_spec_of_str "test-vendor,testing-type-1.0.a" =
    compat_ref "test-vendor,testing-type-1.0.a" /\
  compat_ref "test-vendor,testing-type-1.0.a" =
    Ret (CompSpec "" "test-vendor" "testing-type" (Version 1 0 97)) /\
  hwio_comp_spec_of_str "xlnx" = Ret (make_spec "" "xlnx" default_version) /\
  hwio_comp_spec_of_str "xlnx,uart" = Ret (CompSpec "" "xlnx" (String (byte_of_Z 5) "") default_version).
Proof.
  split; [|split; [vm_compute; reflexivity|split]].
  - apply (comp_spec_parse_reference "test-vendor,testing-type-1.0.a"); [vm_compute; reflexivity|].
    left. eapply (bool_decide_unpack _). vm_compute. exact I.
  - apply (comp_spec_parse_reference "xlnx"); [vm_compute; reflexivity|..];
      eapply (bool_decide_unpack _); vm_compute; exact I.
  - apply (proj2 (proj2 (comp_spec_parse_reference "xlnx,uart" ltac:(vm_compute; reflexivity))) "xlnx"%string "uart"%string);
      [reflexivity|..]; eapply (bool_decide_unpack _); vm_compute; exact I.
Defined.

Example comp_spec_tests :
  hwio_comp_spec_of_str "testing-type" = Ret (CompSpec "" "" "testing-type" default_version) /\
  hwio_comp_spec_of_str "test-vendor,testing-type" =
    Ret (CompSpec "" "test-vendor" "testing-type" default_version) /\
  hwio_comp_spec_of_str "testing-type-1.0.a" =
    Ret (CompSpec "" "" "testing-type" (Version 1 0 97)) /\
  hwio_comp_spec_of_str "dev-1.0._" = Throw (Exn EX_invalid_argument "stoi").
Proof. vm_compute. auto. Qed.

Lemma comp_spec_roundtrip_witness :
  hwio_comp_spec_of_str ("test-vendor" +:+ "," +:+ "test-type" +:+ "-" +:+
                         version_to_str (Version 1 2 0)) =
  Ret (make_spec "test-vendor" "test-type" (Version 1 2 0)).
Proof.
  apply (comp_spec_roundtrip "test-vendor" "test-type" (Version 1 2 0));
    first [apply (bool_decide_unpack _); vm_compute; exact I
          | vm_compute; split; discriminate | vm_compute; reflexivity].
Defined.
