(* ===== verification/Device.v ===== *)
(** * ihwio_dev: the device interface and its block transfers

    Models [src/device/ihwio_dev.h].  [RegAccess] is the part of the interface
    every device class implements (the fixed-width register accesses), [IDev]
    adds the virtual methods clients of a device call.  The default [read],
    [write] and [memset] of the base class are defined from the register
    accesses; they are proved correct for every device that satisfies
    [ByteDevice], the contract of a byte-addressable register file.

    [W] is the state device objects live in and [D] the pointers to them. *)

From Stdlib Require Import ZArith Lia Ascii String.
From stdpp Require Import base tactics list numbers strings gmap fin_maps.
From S2P Require Import Prelude CxxString Version CompSpec.

(** The pure virtual accesses of [ihwio_dev]; values are unsigned integers. *)
Class RegAccess (W D : Type) := {
  read8 : D -> Z -> ST W Z;
  read32 : D -> Z -> ST W Z;
  read64 : D -> Z -> ST W Z;
  write8 : D -> Z -> Z -> ST W unit;
  write32 : D -> Z -> Z -> ST W unit;
  write64 : D -> Z -> Z -> ST W unit
}.

(** The virtual methods of [ihwio_dev] other code calls.  [dev_read] appends
    the bytes it stores through [dst] to the second component of its state, so
    the bytes stored before an exception are kept. *)
Class IDev (W D : Type) := {
  dev_eq_dec :: EqDecision D;
  get_spec : W -> D -> list hwio_comp_spec;
  dev_name : W -> D -> string;
  attach : D -> ST W unit;
  dev_read : D -> Z -> nat -> ST (W * list byte) unit;
  dev_memset : D -> Z -> Z -> nat -> ST W unit;
  dev_write : D -> Z -> list byte -> ST W unit
}.

(** The block an [ihwio_dev::read] stores. *)
Definition read_block {W D} `{!IDev W D} (d : D) (off : Z) (n : nat) : ST W (list byte) := fun w =>
  let '(r, (w', bs)) := dev_read d off n (w, []) in (r ≫= fun _ => mret bs, w').

(** ** The default block transfers *)

Section block_transfers.
Context {W D : Type} `{!RegAccess W D}.

(** Store bytes through the destination pointer. *)
Definition emit (bs : list byte) : ST (W * list byte) unit :=
  st_modify (fun st => (st.1, st.2 ++ bs)).

(** [for (unsigned i = 0; i < n; i++) dst[i] = read8(offset + i);] *)
Fixpoint read8_loop (d : D) (offset : Z) (i n : nat) : ST (W * list byte) unit :=
  match n with
  | O => mret tt
  | S m =>
      st_fst (read8 d (u32 (offset + Z.of_nat i))) ≫= fun v =>
      emit [byte_of_Z v] ≫= fun _ => read8_loop d offset (S i) m
  end.

(** [ihwio_dev::read]: 32-bit accesses while at least four bytes remain
    (stored as the little-endian host does), then single bytes. *)
Fixpoint ihwio_dev_read (d : D) (offset : Z) (n : nat) : ST (W * list byte) unit :=
  match n with
  | S (S (S (S m))) =>
      st_fst (read32 d offset) ≫= fun v =>
      emit (le_of_Z 4 v) ≫= fun _ => ihwio_dev_read d (u32 (offset + 4)) m
  | _ => read8_loop d offset 0 n
  end.

Fixpoint write8_loop (d : D) (offset : Z) (i : nat) (data : list byte) : ST W unit :=
  match data with
  | [] => mret tt
  | b :: t =>
      write8 d (u32 (offset + Z.of_nat i)) (Z_of_byte b) ≫= fun _ =>
      write8_loop d offset (S i) t
  end.

(** [ihwio_dev::write] *)
Fixpoint ihwio_dev_write (d : D) (offset : Z) (data : list byte) : ST W unit :=
  match data with
  | b0 :: b1 :: b2 :: b3 :: t =>
      write32 d offset (le_to_Z [b0; b1; b2; b3]) ≫= fun _ =>
      ihwio_dev_write d (u32 (offset + 4)) t
  | _ => write8_loop d offset 0 data
  end.

(** The word [memset] writes for the fill byte [c]. *)
Definition fill32 (c : Z) : Z :=
  let f := u32 c in
  let f := u32 (Z.lor f (Z.lor (Z.shiftl c 8) c)) in
  u32 (Z.lor f (Z.shiftl f (2 * 8))).

Fixpoint memset8_loop (d : D) (offset : Z) (c : Z) (i n : nat) : ST W unit :=
  match n with
  | O => mret tt
  | S m =>
      write8 d (u32 (offset + Z.of_nat i)) c ≫= fun _ => memset8_loop d offset c (S i) m
  end.

(** [ihwio_dev::memset] *)
Fixpoint ihwio_dev_memset (d : D) (offset c : Z) (n : nat) : ST W unit :=
  match n with
  | S (S (S (S m))) =>
      write32 d offset (fill32 c) ≫= fun _ => ihwio_dev_memset d (u32 (offset + 4)) c m
  | _ => memset8_loop d offset c 0 n
  end.

(** A read that returns has stored as many bytes as were asked for. *)
Lemma read8_loop_length d off i n w dst w' bs :
  read8_loop d off i n (w, dst) = (Ret tt, (w', bs)) -> length bs = (length dst + n)%nat.
Proof.
  revert i w dst. induction n as [|n IH]; intros i w dst H; cbn [read8_loop] in H.
  - apply st_ret_inv in H as [_ [= _ ->]]. lia.
  - apply st_bind_inv in H as (v & [w1 dst1] & H1 & H).
    apply st_bind_inv in H as ([] & [w2 dst2] & H2 & H). injection H2 as <- <-.
    apply IH in H. cbn [fst snd] in H. rewrite length_app in H. cbn in H.
    unfold st_fst in H1. cbn [fst snd] in H1.
    destruct (read8 d _ w) as [r w3]. injection H1 as -> <- <-. lia.
Qed.

Lemma ihwio_dev_read_length d off n w dst w' bs :
  ihwio_dev_read d off n (w, dst) = (Ret tt, (w', bs)) -> length bs = (length dst + n)%nat.
Proof.
  revert off w dst. induction (lt_wf n) as [n _ IH]. intros off w dst H.
  destruct n as [|[|[|[|n]]]]; try by apply read8_loop_length in H.
  cbn [ihwio_dev_read] in H.
  apply st_bind_inv in H as (v & [w1 dst1] & H1 & H).
  apply st_bind_inv in H as ([] & [w2 dst2] & H2 & H). injection H2 as <- <-.
  apply IH in H; [|lia]. cbn [fst snd] in H. rewrite length_app in H. cbn [length] in H.
  unfold st_fst in H1. cbn [fst snd] in H1.
  destruct (read32 d _ w) as [r w3]. injection H1 as -> <- <-. lia.
Qed.
End block_transfers.

(** [ihwio_dev::operator==] on two devices given by their pointers and specs:
    [specB.at(i)] throws when the second list is shorter. *)
Fixpoint dev_specs_eq (specA specB : list hwio_comp_spec) : outcome bool :=
  match specA with
  | [] => Ret true
  | s :: specA' =>
      match specB with
      | [] => Throw (Exn EX_out_of_range "vector::_M_range_check")
      | t :: specB' => if comp_spec_ne s t then Ret false else dev_specs_eq specA' specB'
      end
  end.

Definition ihwio_dev_eq {W D} `{!IDev W D} (w : W) (a b : D) : outcome bool :=
  if bool_decide (a = b) then Ret true else dev_specs_eq (get_spec w a) (get_spec w b).

(** [ihwio_dev::operator!=] *)
Definition ihwio_dev_ne {W D} `{!IDev W D} (w : W) (a b : D) : outcome bool :=
  ihwio_dev_eq w a b ≫= fun same => mret (negb same).

(** Device equality compares the specifications one by one, as queries: a
    device is equal to every device that has more of them, and comparing the
    other way round throws. *)
Lemma dev_specs_eq_spec specA specB :
  dev_specs_eq specA specB =
  match List.find (fun p => comp_spec_ne p.1 p.2) (zip specA specB) with
  | Some _ => Ret false
  | None => if (length specA <=? length specB)%nat then Ret true
            else Throw (Exn EX_out_of_range "vector::_M_range_check")
  end.
Proof.
  revert specB. induction specA as [|s specA IH]; intros [|t specB]; [done..|].
  cbn [dev_specs_eq zip zip_with List.find fst snd length Nat.leb].
  change (zip_with pair specA specB) with (zip specA specB). by destruct (comp_spec_ne s t).
Qed.

(** ** The contract of a register file *)

Class ByteDevice (W D : Type) `{!RegAccess W D} := {
  (** The byte a read at an offset gives, when the offset is accessible. *)
  peek : W -> D -> Z -> option byte;
  peek_read8 w d off b :
    0 <= off < 2 ^ 32 -> peek w d off = Some b -> read8 d off w = (Ret (Z_of_byte b), w);
  peek_read32 w d off bs :
    0 <= off < 2 ^ 32 -> length bs = 4%nat ->
    (forall i b, bs !! i = Some b -> peek w d (off + Z.of_nat i) = Some b) ->
    read32 d off w = (Ret (le_to_Z bs), w);
  peek_write8 w d off b0 b :
    0 <= off < 2 ^ 32 -> peek w d off = Some b0 ->
    exists w', write8 d off (Z_of_byte b) w = (Ret tt, w') /\
      forall x, peek w' d x = if decide (x = off) then Some b else peek w d x;
  peek_write32 w d off bs :
    0 <= off < 2 ^ 32 -> length bs = 4%nat ->
    (forall i, (i < 4)%nat -> is_Some (peek w d (off + Z.of_nat i))) ->
    exists w', write32 d off (le_to_Z bs) w = (Ret tt, w') /\
      forall x, peek w' d x =
        if decide (off <= x < off + 4) then bs !! Z.to_nat (x - off) else peek w d x
}.

Section register_file.
Context {W D : Type} `{!RegAccess W D} `{!ByteDevice W D}.
Implicit Types (w : W) (d : D) (bs : list byte).

(** The device shows the bytes [bs] from the offset [off] on. *)
Definition shows w d (off : Z) bs : Prop :=
  forall i b, bs !! i = Some b -> peek w d (off + Z.of_nat i) = Some b.

Definition accessible w d (off : Z) (n : nat) : Prop :=
  forall i, (i < n)%nat -> is_Some (peek w d (off + Z.of_nat i)).

(** [w'] differs from [w] on the device only in the bytes [bs] from [off] on. *)
Definition updated w d (off : Z) bs w' : Prop :=
  forall x, peek w' d x =
    if decide (off <= x < off + Z.of_nat (length bs)) then bs !! Z.to_nat (x - off)
    else peek w d x.

Lemma shows_app w d off bs1 bs2 :
  shows w d off (bs1 ++ bs2) ->
  shows w d off bs1 /\ shows w d (off + Z.of_nat (length bs1)) bs2.
Proof.
  intros H. split; intros i b Hi.
  - apply H. by apply lookup_app_l_Some.
  - rewrite <-Z.add_assoc, <-Nat2Z.inj_add. apply H.
    by rewrite lookup_app_r, Nat.add_comm, Nat.add_sub by lia.
Qed.

Lemma shows_cons w d off b bs :
  shows w d off (b :: bs) -> peek w d off = Some b /\ shows w d (off + 1) bs.
Proof.
  intros H. split.
  - specialize (H 0%nat b eq_refl). by rewrite Z.add_0_r in H.
  - intros i x Hi. specialize (H (S i) x Hi).
    by replace (off + 1 + Z.of_nat i) with (off + Z.of_nat (S i)) by lia.
Qed.

Lemma accessible_split w d off n m :
  accessible w d off (n + m) ->
  accessible w d off n /\ accessible w d (off + Z.of_nat n) m.
Proof.
  intros H. split; intros i Hi; [apply H; lia|].
  rewrite <-Z.add_assoc, <-Nat2Z.inj_add. apply H. lia.
Qed.

Lemma updated_accessible w d off bs w' o n :
  updated w d off bs w' -> accessible w d o n -> accessible w' d o n.
Proof.
  intros Hu Ha i Hi. rewrite Hu. case_decide; [|by apply Ha].
  apply lookup_lt_is_Some. lia.
Qed.

Lemma updated_app w d off bs1 bs2 w1 w2 :
  updated w d off bs1 w1 ->
  updated w1 d (off + Z.of_nat (length bs1)) bs2 w2 ->
  updated w d off (bs1 ++ bs2) w2.
Proof.
  intros H1 H2 x. rewrite H2, H1, length_app.
  repeat case_decide; try lia.
  - rewrite lookup_app_r by lia. f_equal. lia.
  - rewrite lookup_app_l by lia. done.
  - done.
Qed.

Lemma updated_nil w d off : updated w d off [] w.
Proof. intros x. cbn. by rewrite decide_False by lia. Qed.

Lemma updated_shows w d off bs w' : updated w d off bs w' -> shows w' d off bs.
Proof.
  intros H i b Hi. pose proof (lookup_lt_Some _ _ _ Hi). rewrite H, decide_True by lia.
  by replace (Z.to_nat (off + Z.of_nat i - off)) with i by lia.
Qed.

(** *** Reading *)

Lemma st_fst_run {S T A} (m : ST S A) (s : S) (t : T) r s' :
  m s = (r, s') -> st_fst m (s, t) = (r, (s', t)).
Proof. intros H. unfold st_fst. cbn. by rewrite H. Qed.

Lemma read8_loop_shows w d off bs i dst :
  0 <= off -> off + Z.of_nat i + Z.of_nat (length bs) <= 2 ^ 32 ->
  shows w d (off + Z.of_nat i) bs ->
  read8_loop d off i (length bs) (w, dst) = (Ret tt, (w, dst ++ bs)).
Proof.
  revert i dst. induction bs as [|b bs IH]; intros i dst Ho Hb Hs.
  - cbn. by rewrite app_nil_r.
  - cbn [length read8_loop]. cbn [length] in Hb.
    apply shows_cons in Hs as [Hp Hs]. rewrite u32_small by lia.
    erewrite st_bind_ret; [|by apply st_fst_run, peek_read8; [lia|]].
    erewrite st_bind_ret by reflexivity. cbn. rewrite byte_of_Z_of_byte.
    rewrite IH by (try lia; replace (off + Z.of_nat (S i)) with (off + Z.of_nat i + 1) by lia; done).
    by rewrite <-app_assoc.
Qed.

Lemma ihwio_dev_read_short d off n :
  (n < 4)%nat -> ihwio_dev_read d off n = read8_loop d off 0 n.
Proof. intros. by destruct n as [|[|[|[|n]]]]; [..|lia]. Qed.

Lemma short_or_cons4 (bs : list byte) :
  (length bs < 4)%nat \/ exists b0 b1 b2 b3 t, bs = b0 :: b1 :: b2 :: b3 :: t.
Proof.
  destruct bs as [|b0 [|b1 [|b2 [|b3 t]]]]; [left; cbn; lia..|].
  right. by exists b0, b1, b2, b3, t.
Qed.

Lemma ihwio_dev_read_shows w d off bs dst :
  0 <= off -> off + Z.of_nat (length bs) <= 2 ^ 32 -> shows w d off bs ->
  ihwio_dev_read d off (length bs) (w, dst) = (Ret tt, (w, dst ++ bs)).
Proof.
  revert off dst. induction bs as [bs IH] using list_len_ind.
  intros off dst Ho Hb Hs.
  destruct (short_or_cons4 bs) as [Hlt|(b0 & b1 & b2 & b3 & t & ->)].
  { rewrite ihwio_dev_read_short by done. apply read8_loop_shows; [done|lia|].
    by rewrite Z.add_0_r. }
  cbn [length ihwio_dev_read].
  apply (shows_app w d off [b0; b1; b2; b3] t) in Hs as [Hs Ht].
  cbn [length] in Hb, Ht.
  erewrite st_bind_ret; [|by apply st_fst_run, (peek_read32 _ _ _ [b0; b1; b2; b3]); [lia|..]].
  cbn beta. pose proof (le_of_Z_to_Z [b0; b1; b2; b3]) as E.
  change (length [b0; b1; b2; b3]) with 4%nat in E. rewrite E.
  erewrite st_bind_ret by reflexivity. cbn [fst snd].
  destruct t as [|b4 t]; [done|].
  rewrite u32_small by (cbn in *; lia).
  rewrite IH by (cbn in *; try lia; done). by rewrite <-app_assoc.
Qed.

(** *** Writing *)

Lemma write8_loop_updates w d off i data :
  0 <= off -> off + Z.of_nat i + Z.of_nat (length data) <= 2 ^ 32 ->
  accessible w d (off + Z.of_nat i) (length data) ->
  exists w', write8_loop d off i data w = (Ret tt, w') /\
    updated w d (off + Z.of_nat i) data w'.
Proof.
  revert w i. induction data as [|b t IH]; intros w i Ho Hb Ha.
  - exists w. split; [done | apply updated_nil].
  - cbn [length write8_loop] in *. rewrite u32_small by lia.
    destruct (Ha 0%nat) as [b0 Hb0]; [lia|]. rewrite Z.add_0_r in Hb0.
    destruct (peek_write8 w d (off + Z.of_nat i) b0 b) as (w1 & H1 & Hu1); [lia|done|].
    erewrite st_bind_ret by exact H1.
    assert (updated w d (off + Z.of_nat i) [b] w1) as Hu.
    { intros x. rewrite Hu1. cbn. repeat case_decide; try lia; [|done].
      subst. by rewrite Z.sub_diag. }
    destruct (IH w1 (S i)) as (w2 & H2 & Hu2); [done|lia| |].
    { eapply updated_accessible; [exact Hu|].
      replace (off + Z.of_nat (S i)) with (off + Z.of_nat i + Z.of_nat 1) by lia.
      by apply (accessible_split w d _ 1). }
    exists w2. split; [done|]. apply (updated_app w d _ [b] t w1 w2); [done|]. cbn.
    by replace (off + Z.of_nat i + Z.of_nat 1) with (off + Z.of_nat (S i)) by lia.
Qed.

Lemma ihwio_dev_write_short d off data :
  (length data < 4)%nat -> ihwio_dev_write d off data = write8_loop d off 0 data.
Proof. intros. by destruct data as [|b0 [|b1 [|b2 [|b3 t]]]]; [..|cbn in *; lia]. Qed.

Lemma ihwio_dev_write_updates w d off data :
  0 <= off -> off + Z.of_nat (length data) <= 2 ^ 32 ->
  accessible w d off (length data) ->
  exists w', ihwio_dev_write d off data w = (Ret tt, w') /\ updated w d off data w'.
Proof.
  revert w off. induction data as [data IH] using list_len_ind.
  intros w off Ho Hb Ha.
  destruct (short_or_cons4 data) as [Hlt|(b0 & b1 & b2 & b3 & t & ->)].
  { rewrite ihwio_dev_write_short by done.
    destruct (write8_loop_updates w d off 0 data) as (w' & H1 & H2);
      [done | lia | by rewrite Z.add_0_r |].
    rewrite Z.add_0_r in H2. by exists w'. }
  cbn [length ihwio_dev_write].
  apply (accessible_split w d off 4) in Ha as [Ha Ht]. cbn [length] in Hb.
  destruct (peek_write32 w d off [b0; b1; b2; b3]) as (w1 & H1 & Hu1); [lia|done|done|].
  erewrite st_bind_ret by exact H1.
  assert (updated w d off [b0; b1; b2; b3] w1) as Hu by exact Hu1.
  destruct t as [|b4 t]; [by exists w1|]. rewrite u32_small by (cbn in *; lia).
  destruct (IH (b4 :: t) ltac:(cbn; lia) w1 (off + 4))
    as (w2 & H2 & Hu2); [lia | cbn in *; lia | by eapply updated_accessible |].
  exists w2. split; [done|]. by apply (updated_app w d off [b0; b1; b2; b3] (b4 :: t) w1 w2).
Qed.

(** *** Filling *)

Lemma byte_pow_cases (P : Z -> Prop) :
  Forall P (seqZ 0 256) -> forall c, 0 <= c < 256 -> P c.
Proof. intros H c Hc. apply (proj1 (Forall_forall _ _) H). apply elem_of_seqZ. lia. Qed.

Lemma fill32_bytes c : 0 <= c < 256 -> fill32 c = le_to_Z (replicate 4 (byte_of_Z c)).
Proof.
  revert c. apply byte_pow_cases. apply (bool_decide_unpack _). vm_compute. exact I.
Qed.

Lemma memset8_loop_write d off c i n s :
  0 <= c < 256 -> memset8_loop d off c i n s = write8_loop d off i (replicate n (byte_of_Z c)) s.
Proof.
  intros Hc. revert i s. induction n as [|n IH]; intros i s; [done|].
  cbn [replicate memset8_loop write8_loop]. rewrite Z_of_byte_of_Z, Z.mod_small by done.
  unfold mbind, ST_bind. by destruct (write8 _ _ _ _) as [[] s'].
Qed.

Lemma ihwio_dev_memset_write d off c n s :
  0 <= c < 256 ->
  ihwio_dev_memset d off c n s = ihwio_dev_write d off (replicate n (byte_of_Z c)) s.
Proof.
  intros Hc. revert off s. induction (lt_wf n) as [n _ IH]; intros off s.
  destruct n as [|[|[|[|n]]]]; try by apply (memset8_loop_write d off c 0).
  cbn [replicate ihwio_dev_write ihwio_dev_memset]. rewrite fill32_bytes by done.
  unfold mbind, ST_bind. cbn [replicate].
  destruct (write32 _ _ _ _) as [[] s']; [|done|done]. apply IH. lia.
Qed.

(** ** Properties *)

(** C34: the default [read] of [n] bytes returns, stores at the destination
    exactly the [n] bytes the device shows from [offset] on, and leaves the
    device state as it was. *)
Theorem ihwio_dev_read_correct w d offset bs dst :
  0 <= offset -> offset + Z.of_nat (length bs) <= 2 ^ 32 -> shows w d offset bs ->
  ihwio_dev_read d offset (length bs) (w, dst) = (Ret tt, (w, dst ++ bs)).
Proof. apply ihwio_dev_read_shows. Qed.

(** C35: the default [write] to an accessible range returns and changes the
    bytes of that range to the data and no other byte of the device, so that
    a [read] of the range gives the data back. *)
Theorem ihwio_dev_write_correct w d offset data dst :
  0 <= offset -> offset + Z.of_nat (length data) <= 2 ^ 32 ->
  accessible w d offset (length data) ->
  exists w', ihwio_dev_write d offset data w = (Ret tt, w') /\
    updated w d offset data w' /\
    ihwio_dev_read d offset (length data) (w', dst) = (Ret tt, (w', dst ++ data)).
Proof.
  intros Ho Hb Ha. destruct (ihwio_dev_write_updates w d offset data Ho Hb Ha) as (w' & H & Hu).
  exists w'. split_and!; [done..|].
  apply ihwio_dev_read_shows; [done..|]. eapply updated_shows, Hu.
Qed.

(** C36: [memset] with a byte [c] is the [write] of [n] copies of [c]: the
    32-bit fill word consists of four copies of the byte. *)
Theorem ihwio_dev_memset_correct w d offset c n :
  0 <= c < 256 ->
  ihwio_dev_memset d offset c n w = ihwio_dev_write d offset (replicate n (byte_of_Z c)) w.
Proof. apply ihwio_dev_memset_write. Qed.
End register_file.
