(* ===== verification/Mmap.v ===== *)
(** * hwio_device_mmap: devices mapped from a memory file

    Models [src/device/hwio_device_mmap.cpp] and its header.  The memory files
    ([/dev/mem] or a plain file) are shared by all devices and mapped
    [MAP_SHARED], so two devices whose windows overlap see each other's
    writes.  [open] and [mmap] are the operating system's: their results are
    the parameters of [Posix].  An access outside the mapping, or to a byte the
    file does not have, leaves the language ([Undef OutOfBounds]). *)

From Stdlib Require Import ZArith Lia Ascii String.
From stdpp Require Import base tactics list numbers strings gmap fin_maps.
From S2P Require Import Prelude CxxString Version CompSpec Device.

(** The system calls the device uses: [sysconf(_SC_PAGESIZE)], the descriptor
    [open(path, O_RDWR)] returns (negative on failure), whether
    [mmap(path, length, offset)] succeeds and the text of [strerror(errno)]. *)
Class Posix := {
  os_page_size : Z;
  os_open : string -> Z;
  os_mmap : string -> Z -> Z -> bool;
  os_strerror : string
}.

(** Pages are powers of two smaller than the 32-bit address space. *)
Class PosixPages `{!Posix} := {
  os_page_log : Z;
  os_page_log_range : 0 <= os_page_log < 32;
  os_page_size_pow : os_page_size = 2 ^ os_page_log
}.

(** An object of class [hwio_device_mmap]; [dev_mapped] is
    [dev_mem != MAP_FAILED]. *)
Record hwio_device_mmap := MmapDev {
  md_name : string;
  mem_file_name : string;
  md_spec : list hwio_comp_spec;
  md_fd : Z;
  page_addr : Z;
  page_offset : Z;
  addr_space_size : Z;
  dev_mapped : bool;
  on_bus_base_addr : Z;
  on_bus_size : Z
}.

(** The bytes of the memory files, and the device objects by their address. *)
Record MmapWorld := MWorld {
  mw_mem : gmap (string * Z) byte;
  mw_devs : gmap nat hwio_device_mmap
}.

Definition DEFAULT_MEM_PATH : string := "/dev/mem".

Section mmap.
Context {OS : Posix}.

(** [hwio_device_mmap(std::vector<hwio_comp_spec>, base, size, mem_file_name)] *)
Definition new_mmap_device (spec : list hwio_comp_spec) (base_addr size : Z)
    (mem_file : string) : hwio_device_mmap :=
  let page_size := u32 os_page_size in
  let s := size in
  let s := if s <? page_size then page_size else s in
  let s := if s / page_size <? s then u64 (s + page_size) else s in
  let page := Z.land base_addr (u32 (Z.lnot (u32 (page_size - 1)))) in
  {| md_name := ""; mem_file_name := mem_file; md_spec := map copy_spec spec;
     md_fd := -1; page_addr := page; page_offset := u32 (base_addr - page);
     addr_space_size := s; dev_mapped := false;
     on_bus_base_addr := base_addr; on_bus_size := size |}.

(** [hwio_device_mmap(hwio_comp_spec, base, size, mem_path)] delegates without
    its last argument. *)
Definition new_mmap_device1 (spec : hwio_comp_spec) (base_addr size : Z)
    (mem_path : string) : hwio_device_mmap :=
  new_mmap_device [spec] base_addr size DEFAULT_MEM_PATH.

(** [hwio_device_mmap::name(const std::string &)] *)
Definition set_dev_name (name : string) (dev : hwio_device_mmap) : hwio_device_mmap :=
  {| md_name := name; mem_file_name := mem_file_name dev;
     md_spec := map (name_set name) (md_spec dev);
     md_fd := md_fd dev; page_addr := page_addr dev; page_offset := page_offset dev;
     addr_space_size := addr_space_size dev; dev_mapped := dev_mapped dev;
     on_bus_base_addr := on_bus_base_addr dev; on_bus_size := on_bus_size dev |}.

Definition set_fd (fd : Z) (mapped : bool) (dev : hwio_device_mmap) : hwio_device_mmap :=
  {| md_name := md_name dev; mem_file_name := mem_file_name dev; md_spec := md_spec dev;
     md_fd := fd; page_addr := page_addr dev; page_offset := page_offset dev;
     addr_space_size := addr_space_size dev; dev_mapped := mapped;
     on_bus_base_addr := on_bus_base_addr dev; on_bus_size := on_bus_size dev |}.

Definition get_dev (d : nat) : ST MmapWorld hwio_device_mmap := fun w =>
  match mw_devs w !! d with
  | Some dev => (Ret dev, w)
  | None => (Undef UseAfterFree, w)
  end.

Definition put_dev (d : nat) (dev : hwio_device_mmap) : ST MmapWorld unit :=
  st_modify (fun w => MWorld (mw_mem w) (<[d := dev]> (mw_devs w))).

(** [hwio_device_mmap::attach] *)
Definition mmap_attach (d : nat) : ST MmapWorld unit :=
  get_dev d ≫= fun dev =>
  if md_fd dev <? 0 then
    let fd := os_open (mem_file_name dev) in
    put_dev d (set_fd fd (dev_mapped dev) dev) ≫= fun _ =>
    if fd <=? 0 then
      st_throw (Exn EX_dev_init_fail
        ("Can not open memory file: " +:+ mem_file_name dev +:+ ", " +:+ os_strerror))
    else
      let ok := os_mmap (mem_file_name dev) (addr_space_size dev) (page_addr dev) in
      put_dev d (set_fd fd ok dev) ≫= fun _ =>
      if negb ok then st_throw (Exn EX_dev_init_fail "Can not mmap memory") else mret tt
  else mret tt.

(** [hwio_device_mmap::to_str] *)
Definition mmap_to_str (dev : hwio_device_mmap) : string :=
  "hwio_device_mmap: (base: 0x" +:+ to_hex (on_bus_base_addr dev) +:+
  ", size:0x" +:+ to_hex (on_bus_size dev) +:+ ", attached:" +:+
  (if 0 <? md_fd dev then "yes" else "no") +:+ ", page:0x" +:+ to_hex (page_addr dev) +:+
  ", page_offset:0x" +:+ to_hex (page_offset dev) +:+ ")" +:+ endl +:+
  "    spec:" +:+ endl +:+
  foldr (fun s acc => "        " +:+ comp_spec_to_str s +:+ endl +:+ acc) "" (md_spec dev).

(** [new hwio_device_mmap(...)] *)
Definition new_dev (dev : hwio_device_mmap) : ST MmapWorld nat := fun w =>
  let d := fresh (dom (mw_devs w)) in (Ret d, MWorld (mw_mem w) (<[d := dev]> (mw_devs w))).

(** [delete dev]: [~hwio_device_mmap] unmaps and closes, both only known to
    the kernel, and the object is gone. *)
Definition delete_dev (d : nat) : ST MmapWorld unit :=
  get_dev d ≫= fun _ => st_modify (fun w => MWorld (mw_mem w) (delete d (mw_devs w))).

(** The byte at [(char * ) dev_mem + page_offset + offset]. *)
Definition map_key (dev : hwio_device_mmap) (offset : Z) : string * Z :=
  (mem_file_name dev, page_addr dev + page_offset dev + offset).

Definition in_mapping (dev : hwio_device_mmap) (offset : Z) : bool :=
  dev_mapped dev && (0 <=? page_offset dev + offset) &&
  (page_offset dev + offset <? addr_space_size dev).

Definition map_byte (w : MmapWorld) (dev : hwio_device_mmap) (offset : Z) : option byte :=
  if in_mapping dev offset then mw_mem w !! map_key dev offset else None.

(** Load and store [n] consecutive bytes of the mapping. *)
Fixpoint load (dev : hwio_device_mmap) (offset : Z) (n : nat) : ST MmapWorld (list byte) :=
  match n with
  | O => mret []
  | S m => fun w =>
      match map_byte w dev offset with
      | Some b => (load dev (offset + 1) m ≫= fun bs => mret (b :: bs)) w
      | None => (Undef OutOfBounds, w)
      end
  end.

Fixpoint store (dev : hwio_device_mmap) (offset : Z) (bs : list byte) : ST MmapWorld unit :=
  match bs with
  | [] => mret tt
  | b :: bs' => fun w =>
      match map_byte w dev offset with
      | Some _ =>
          store dev (offset + 1) bs'
            (MWorld (<[map_key dev offset := b]> (mw_mem w)) (mw_devs w))
      | None => (Undef OutOfBounds, w)
      end
  end.

(** [read8], [read32]: one access of the width, in the byte order of the
    little-endian host. *)
Definition mmap_read (n : nat) (d : nat) (offset : Z) : ST MmapWorld Z :=
  get_dev d ≫= fun dev => load dev offset n ≫= fun bs => mret (le_to_Z bs).

(** [read64]: two 32-bit accesses, low word first. *)
Definition mmap_read64 (d : nat) (offset : Z) : ST MmapWorld Z :=
  get_dev d ≫= fun dev =>
  load dev offset 4 ≫= fun lo =>
  load dev (offset + 4) 4 ≫= fun hi =>
  mret (Z.lor (le_to_Z lo) (u64 (Z.shiftl (le_to_Z hi) (4 * 8)))).

Definition mmap_write (n : nat) (d : nat) (offset val : Z) : ST MmapWorld unit :=
  get_dev d ≫= fun dev => store dev offset (le_of_Z n val).

(** [write64]: two 32-bit accesses, low word first. *)
Definition mmap_write64 (d : nat) (offset val : Z) : ST MmapWorld unit :=
  get_dev d ≫= fun dev =>
  store dev offset (le_of_Z 4 (u32 val)) ≫= fun _ =>
  store dev (offset + 4) (le_of_Z 4 (u32 (Z.shiftr val (4 * 8)))).

#[export] Instance mmap_regs : RegAccess MmapWorld nat := {|
  read8 := mmap_read 1; read32 := mmap_read 4; read64 := mmap_read64;
  write8 := mmap_write 1; write32 := mmap_write 4; write64 := mmap_write64
|}.

(** The class keeps the block transfers of [ihwio_dev]. *)
#[export] Instance mmap_dev : IDev MmapWorld nat := {|
  dev_eq_dec := _;
  get_spec w d := from_option md_spec [] (mw_devs w !! d);
  dev_name w d := from_option md_name EmptyString (mw_devs w !! d);
  attach := mmap_attach;
  dev_read := ihwio_dev_read;
  dev_memset := ihwio_dev_memset;
  dev_write := ihwio_dev_write
|}.

(** ** Loads and stores *)

(** The memory after storing [bs] from [offset] on. *)
Fixpoint store_mem (dev : hwio_device_mmap) (offset : Z) (bs : list byte)
    (m : gmap (string * Z) byte) : gmap (string * Z) byte :=
  match bs with
  | [] => m
  | b :: bs' => store_mem dev (offset + 1) bs' (<[map_key dev offset := b]> m)
  end.

Definition dev_base (dev : hwio_device_mmap) : Z := page_addr dev + page_offset dev.

Lemma lookup_store_mem dev offset bs m f a :
  store_mem dev offset bs m !! (f, a) =
  if decide (f = mem_file_name dev /\
             dev_base dev + offset <= a < dev_base dev + offset + Z.of_nat (length bs))
  then bs !! Z.to_nat (a - (dev_base dev + offset)) else m !! (f, a).
Proof.
  unfold dev_base.
  revert offset m. induction bs as [|b bs IH]; intros offset m; cbn [store_mem length].
  - rewrite decide_False by lia. done.
  - rewrite IH. unfold map_key.
    destruct (decide (f = mem_file_name dev)) as [->|Hf].
    2: { rewrite !decide_False by naive_solver. apply lookup_insert_ne. naive_solver. }
    destruct (decide (a = page_addr dev + page_offset dev + offset)) as [->|Ha].
    + rewrite decide_False by lia. rewrite decide_True by (split; [done|lia]).
      rewrite Z.sub_diag. apply lookup_insert_eq.
    + rewrite lookup_insert_ne by naive_solver. repeat case_decide; try naive_solver lia.
      replace (Z.to_nat (a - (page_addr dev + page_offset dev + offset)))
        with (S (Z.to_nat (a - (page_addr dev + page_offset dev + (offset + 1))))) by lia.
      done.
Qed.

Lemma map_byte_mem w dev offset :
  in_mapping dev offset = true -> map_byte w dev offset = mw_mem w !! map_key dev offset.
Proof. intros H. unfold map_byte. by rewrite H. Qed.

Lemma load_ok w dev offset bs :
  (forall i b, bs !! i = Some b -> map_byte w dev (offset + Z.of_nat i) = Some b) ->
  load dev offset (length bs) w = (Ret bs, w).
Proof.
  revert offset. induction bs as [|b bs IH]; intros offset H; [done|].
  cbn [length load]. pose proof (H 0%nat b eq_refl) as Hb. rewrite Z.add_0_r in Hb.
  rewrite Hb. erewrite st_bind_ret; [done|]. apply IH. intros i x Hi.
  rewrite <-(H (S i) x Hi). f_equal. lia.
Qed.

Lemma store_ok w dev offset bs :
  (forall i, (i < length bs)%nat -> is_Some (map_byte w dev (offset + Z.of_nat i))) ->
  store dev offset bs w =
    (Ret tt, MWorld (store_mem dev offset bs (mw_mem w)) (mw_devs w)).
Proof.
  revert w offset. induction bs as [|b bs IH]; intros w offset H; [by destruct w|].
  cbn [length store]. destruct (H 0%nat) as [b0 Hb]; [cbn; lia|]. rewrite Z.add_0_r in Hb.
  rewrite Hb. rewrite IH; [done|]. intros i Hi.
  destruct (H (S i)) as [x Hx]; [cbn; lia|].
  replace (offset + Z.of_nat (S i)) with (offset + 1 + Z.of_nat i) in Hx by lia.
  unfold map_byte in *. destruct (in_mapping dev (offset + 1 + Z.of_nat i)); [|done]. cbn.
  destruct (decide (map_key dev offset = map_key dev (offset + 1 + Z.of_nat i))) as [<-|Hne].
  - rewrite lookup_insert_eq. by eexists.
  - rewrite lookup_insert_ne by done. by eexists.
Qed.

(** The byte a device shows at an offset. *)
Definition mmap_peek (w : MmapWorld) (d : nat) (offset : Z) : option byte :=
  mw_devs w !! d ≫= fun dev => map_byte w dev offset.

Lemma get_dev_ok w d dev : mw_devs w !! d = Some dev -> get_dev d w = (Ret dev, w).
Proof. intros H. unfold get_dev. by rewrite H. Qed.

Lemma mmap_peek_Some w d offset b :
  mmap_peek w d offset = Some b ->
  exists dev, mw_devs w !! d = Some dev /\ map_byte w dev offset = Some b.
Proof. unfold mmap_peek. intros (dev & ? & ?)%bind_Some. eauto. Qed.

Lemma mmap_read_peek w d offset bs :
  bs <> [] ->
  (forall i b, bs !! i = Some b -> mmap_peek w d (offset + Z.of_nat i) = Some b) ->
  mmap_read (length bs) d offset w = (Ret (le_to_Z bs), w).
Proof.
  intros Hne H. unfold mmap_read. destruct bs as [|b0 bs]; [done|].
  destruct (mmap_peek_Some w d _ b0 (H 0%nat b0 eq_refl)) as (dev & Hd & _).
  erewrite st_bind_ret by by apply get_dev_ok.
  erewrite st_bind_ret; [reflexivity|]. apply load_ok. intros i b Hi.
  specialize (H i b Hi). unfold mmap_peek in H. by rewrite Hd in H.
Qed.

(** What every device shows after a store through the device [d]. *)
Lemma mmap_write_peek w d dev offset n val :
  mw_devs w !! d = Some dev ->
  (forall i, (i < n)%nat -> is_Some (mmap_peek w d (offset + Z.of_nat i))) ->
  mmap_write n d offset val w =
    (Ret tt, MWorld (store_mem dev offset (le_of_Z n val) (mw_mem w)) (mw_devs w)).
Proof.
  intros Hd H. unfold mmap_write. erewrite st_bind_ret by by apply get_dev_ok.
  apply store_ok. rewrite le_of_Z_length. intros i Hi. specialize (H i Hi).
  unfold mmap_peek in H. by rewrite Hd in H.
Qed.

Lemma mmap_peek_store w d dev offset bs x :
  mw_devs w !! d = Some dev ->
  (forall i, (i < length bs)%nat -> is_Some (mmap_peek w d (offset + Z.of_nat i))) ->
  mmap_peek (MWorld (store_mem dev offset bs (mw_mem w)) (mw_devs w)) d x =
  if decide (offset <= x < offset + Z.of_nat (length bs)) then bs !! Z.to_nat (x - offset)
  else mmap_peek w d x.
Proof.
  intros Hd Ha. unfold mmap_peek in *. cbn [mw_devs mw_mem]. rewrite Hd in *. cbn in *.
  unfold map_byte at 1. cbn [mw_mem]. unfold map_key at 1.
  rewrite lookup_store_mem. unfold dev_base.
  case_decide as H1; case_decide as H2; try lia.
  - destruct (Ha (Z.to_nat (x - offset))) as [b Hb]; [lia|].
    replace (offset + Z.of_nat (Z.to_nat (x - offset))) with x in Hb by lia.
    unfold map_byte in Hb. destruct (in_mapping dev x); [|done]. f_equal. lia.
  - exfalso. apply H1. split; [done|lia].
  - done.
Qed.

#[export] Program Instance mmap_byte_device : ByteDevice MmapWorld nat := {| peek := mmap_peek |}.
Next Obligation.
  intros w d off b Ho Hp. cbn.
  pose proof (mmap_read_peek w d off [b]) as H. cbn [length le_to_Z] in H.
  replace (Z_of_byte b + 256 * 0) with (Z_of_byte b) in H by lia.
  apply H; [done|]. intros [|i] x Hx; cbn in Hx; simplify_eq.
  by replace (off + Z.of_nat 0) with off by lia.
Qed.
Next Obligation.
  intros w d off bs Ho Hl Hs. cbn. rewrite <-Hl. apply mmap_read_peek; [|done].
  by destruct bs.
Qed.
Next Obligation.
  intros w d off b0 b Ho Hp. cbn. destruct (mmap_peek_Some _ _ _ _ Hp) as (dev & Hd & _).
  assert (forall i, (i < 1)%nat -> is_Some (mmap_peek w d (off + Z.of_nat i))) as Ha.
  { intros i Hi. replace (off + Z.of_nat i) with off by lia. eauto. }
  eexists. split; [by apply mmap_write_peek|]. intros x.
  rewrite mmap_peek_store by done. cbn [le_of_Z length]. rewrite byte_of_Z_of_byte.
  repeat case_decide; try lia; [|done]. subst. by rewrite Z.sub_diag.
Qed.
Next Obligation.
  intros w d off bs Ho Hl Ha. cbn.
  destruct (Ha 0%nat) as [b Hb]; [lia|]. destruct (mmap_peek_Some _ _ _ _ Hb) as (dev & Hd & _).
  eexists. split; [by apply mmap_write_peek|]. intros x.
  replace 4%nat with (length bs) by done. rewrite le_of_Z_to_Z.
  rewrite mmap_peek_store by (try done; by rewrite Hl). by rewrite Hl.
Qed.

(** ** Block writes as one store *)

Lemma store_mem_app dev offset bs1 bs2 m :
  store_mem dev offset (bs1 ++ bs2) m =
  store_mem dev (offset + Z.of_nat (length bs1)) bs2 (store_mem dev offset bs1 m).
Proof.
  revert offset m. induction bs1 as [|b bs1 IH]; intros offset m; cbn [app store_mem length].
  - by rewrite Z.add_0_r.
  - rewrite IH. f_equal. lia.
Qed.

(** The accessibility of a range does not depend on the bytes stored. *)
Lemma accessible_store w d dev offset bs o n :
  mw_devs w !! d = Some dev -> accessible w d o n ->
  accessible (MWorld (store_mem dev offset bs (mw_mem w)) (mw_devs w)) d o n.
Proof.
  intros Hd Ha i Hi. specialize (Ha i Hi). cbn in *. unfold mmap_peek in *. cbn [mw_devs].
  rewrite Hd in *. cbn in *. unfold map_byte in *.
  destruct (in_mapping dev (o + Z.of_nat i)); [|done]. cbn [mw_mem]. unfold map_key at 1.
  rewrite lookup_store_mem. case_decide; [|done]. apply lookup_lt_is_Some. lia.
Qed.

Lemma mmap_write8_loop w d dev off i data :
  mw_devs w !! d = Some dev -> 0 <= off ->
  off + Z.of_nat i + Z.of_nat (length data) <= 2 ^ 32 ->
  accessible w d (off + Z.of_nat i) (length data) ->
  write8_loop d off i data w =
    (Ret tt, MWorld (store_mem dev (off + Z.of_nat i) data (mw_mem w)) (mw_devs w)).
Proof.
  revert w i. induction data as [|b t IH]; intros w i Hd Ho Hb Ha; [by destruct w|].
  cbn [length write8_loop] in *. rewrite u32_small by lia.
  pose proof (accessible_split w d _ 1 _ Ha) as [Ha1 Ha2].
  erewrite st_bind_ret by (by apply (mmap_write_peek w d dev _ 1)).
  replace (le_of_Z 1 (Z_of_byte b)) with [b] by (cbn; by rewrite byte_of_Z_of_byte).
  rewrite IH; [|done..|cbn; lia|].
  - cbn [mw_mem mw_devs store_mem]. do 3 f_equal. lia.
  - apply accessible_store; [done|].
    by replace (off + Z.of_nat (S i)) with (off + Z.of_nat i + Z.of_nat 1) by lia.
Qed.

Lemma mmap_block_write w d dev off data :
  mw_devs w !! d = Some dev -> 0 <= off -> off + Z.of_nat (length data) <= 2 ^ 32 ->
  accessible w d off (length data) ->
  ihwio_dev_write d off data w =
    (Ret tt, MWorld (store_mem dev off data (mw_mem w)) (mw_devs w)).
Proof.
  revert w off. induction data as [data IH] using list_len_ind. intros w off Hd Ho Hb Ha.
  destruct (short_or_cons4 data) as [Hlt|(b0 & b1 & b2 & b3 & t & ->)].
  { rewrite ihwio_dev_write_short by done.
    rewrite (mmap_write8_loop w d dev off 0); rewrite ?Z.add_0_r; [done..|lia|done]. }
  cbn [length] in Hb. pose proof (accessible_split w d off 4 _ Ha) as [Ha1 Ha2].
  cbn [ihwio_dev_write].
  erewrite st_bind_ret by (by apply (mmap_write_peek w d dev off 4)).
  replace (le_of_Z 4 (le_to_Z [b0; b1; b2; b3])) with [b0; b1; b2; b3]
    by (symmetry; apply (le_of_Z_to_Z [b0; b1; b2; b3])).
  destruct t as [|b4 t]; [done|]. rewrite u32_small by (cbn in *; lia).
  rewrite IH; [|cbn; lia|done|lia|cbn in *; lia|by apply accessible_store].
  by rewrite (store_mem_app dev off [b0; b1; b2; b3] (b4 :: t)).
Qed.

Lemma accessible_map_byte w d dev off n :
  mw_devs w !! d = Some dev -> accessible w d off n ->
  forall i, (i < n)%nat -> is_Some (map_byte w dev (off + Z.of_nat i)).
Proof. intros Hd Ha i Hi. specialize (Ha i Hi). cbn in Ha. unfold mmap_peek in Ha. by rewrite Hd in Ha. Qed.

Lemma shows_map_byte w d dev off bs :
  mw_devs w !! d = Some dev -> shows w d off bs ->
  forall i b, bs !! i = Some b -> map_byte w dev (off + Z.of_nat i) = Some b.
Proof. intros Hd Ha i b Hi. specialize (Ha i b Hi). cbn in Ha. unfold mmap_peek in Ha. by rewrite Hd in Ha. Qed.

(** ** Geometry of the mapping *)

Lemma land_page k b :
  0 <= k <= 32 -> 0 <= b < 2 ^ 32 -> Z.land b (2 ^ 32 - 2 ^ k) = b / 2 ^ k * 2 ^ k.
Proof.
  intros Hk Hb.
  replace (2 ^ 32 - 2 ^ k) with (Z.shiftl (Z.ones (32 - k)) k).
  2: { rewrite Z.shiftl_mul_pow2, Z.ones_equiv by lia.
       rewrite <-Z.sub_1_r, Z.mul_sub_distr_r, <-Z.pow_add_r by lia.
       by rewrite Z.mul_1_l, Z.sub_add. }
  rewrite <-Z.shiftl_mul_pow2, <-Z.shiftr_div_pow2 by lia.
  apply Z.bits_inj'. intros n Hn. rewrite Z.land_spec.
  destruct (Z.lt_ge_cases n k).
  - by rewrite !Z.shiftl_spec_low, andb_false_r by lia.
  - rewrite !Z.shiftl_spec_high, Z.shiftr_spec by lia. rewrite Z.sub_add.
    destruct (Z.lt_ge_cases n 32).
    + rewrite Z.ones_spec_low by lia. apply andb_true_r.
    + rewrite <-(Z.mod_small b (2 ^ 32)) by lia. by rewrite Z.mod_pow2_bits_high by lia.
Qed.

Lemma page_mask {P : PosixPages} base :
  0 <= base < 2 ^ 32 ->
  Z.land base (u32 (Z.lnot (u32 (u32 os_page_size - 1)))) = base / os_page_size * os_page_size.
Proof.
  intros Hb. destruct P as [k Hk ->]. rewrite <-land_page by lia.
  assert (0 < 2 ^ k < 2 ^ 32) by (split; [lia | apply Z.pow_lt_mono_r; lia]).
  rewrite (u32_small (2 ^ k)), (u32_small (2 ^ k - 1)) by lia.
  unfold Z.lnot. f_equal. unfold u32.
  replace (Z.pred (- (2 ^ k - 1))) with (2 ^ 32 - 2 ^ k + (-1) * 2 ^ 32) by lia.
  rewrite Z.mod_add by lia. apply Z.mod_small. lia.
Qed.

Lemma page_size_bounds {P : PosixPages} : 0 < os_page_size < 2 ^ 32.
Proof. destruct P as [k Hk ->]. split; [lia | apply Z.pow_lt_mono_r; lia]. Qed.

Lemma mmap_window_geometry {P : PosixPages} spec base size file :
  0 <= base < 2 ^ 32 -> 0 <= size < 2 ^ 32 ->
  let dev := new_mmap_device spec base size file in
  page_addr dev mod os_page_size = 0 /\
  page_addr dev + page_offset dev = base /\
  0 <= page_offset dev < os_page_size /\
  page_offset dev + size <= addr_space_size dev.
Proof.
  intros Hb Hs dev. pose proof page_size_bounds as Hp.
  unfold dev, new_mmap_device. cbn [page_addr page_offset addr_space_size].
  rewrite page_mask by done. rewrite (u32_small os_page_size) by lia.
  pose proof (Z.div_mod base os_page_size) as Hdm.
  pose proof (Z.mod_pos_bound base os_page_size) as Hm.
  rewrite u32_small by lia.
  split_and!; [apply Z.mod_mul; lia | lia | lia | lia |].
  set (s := if size <? os_page_size then os_page_size else size).
  assert (size <= s < 2 ^ 32 /\ os_page_size <= s) as [Hs1 Hs2].
  { unfold s. destruct (Z.ltb_spec size os_page_size); lia. }
  destruct (Z.ltb_spec (s / os_page_size) s) as [Hlt|Hge].
  - rewrite u64_small; lia.
  - assert (os_page_size = 1) as Hone.
    { destruct (Z.eq_dec os_page_size 1); [done|].
      pose proof (Z.div_lt s os_page_size). lia. }
    lia.
Qed.

(** The object after an [attach] that opened and mapped the file. *)
Definition attached_world (w : MmapWorld) (d : nat) (dev : hwio_device_mmap) (fd : Z)
    (mapped : bool) : MmapWorld :=
  MWorld (mw_mem w) (<[d := set_fd fd mapped dev]> (mw_devs w)).

Lemma mmap_attach_run w d dev :
  mw_devs w !! d = Some dev ->
  mmap_attach d w =
  (let fd := os_open (mem_file_name dev) in
   let ok := os_mmap (mem_file_name dev) (addr_space_size dev) (page_addr dev) in
   if 0 <=? md_fd dev then (Ret tt, w)
   else if fd <=? 0 then
     (Throw (Exn EX_dev_init_fail
        ("Can not open memory file: " +:+ mem_file_name dev +:+ ", " +:+ os_strerror)),
      attached_world w d dev fd (dev_mapped dev))
   else if ok then (Ret tt, attached_world w d dev fd true)
   else (Throw (Exn EX_dev_init_fail "Can not mmap memory"), attached_world w d dev fd false)).
Proof.
  intros Hd. unfold mmap_attach. erewrite st_bind_ret by by apply get_dev_ok.
  rewrite Z.ltb_antisym. destruct (0 <=? md_fd dev); [done|]. cbn [negb].
  erewrite st_bind_ret by done. destruct (os_open _ <=? 0); [done|].
  erewrite st_bind_ret by done. unfold attached_world. cbn [mw_mem mw_devs].
  rewrite insert_insert_eq. by destruct (os_mmap _ _ _).
Qed.

(** The byte a mapped device shows at an offset of its on-bus range. *)
Lemma mmap_device_peek {P : PosixPages} w d spec base size file fd offset :
  0 <= base < 2 ^ 32 -> 0 <= size < 2 ^ 32 ->
  mw_devs w !! d = Some (set_fd fd true (new_mmap_device spec base size file)) ->
  0 <= offset < size -> mmap_peek w d offset = mw_mem w !! (file, base + offset).
Proof.
  intros Hb Hs Hd Ho.
  destruct (mmap_window_geometry spec base size file Hb Hs) as (_ & Hbase & Hpo & Hsz).
  unfold mmap_peek. rewrite Hd. cbn [mbind option_bind]. rewrite map_byte_mem.
  - unfold map_key. cbn [set_fd mem_file_name page_addr page_offset]. by rewrite Hbase.
  - unfold in_mapping. cbn [set_fd dev_mapped page_offset addr_space_size].
    rewrite (proj2 (Z.leb_le _ _)), (proj2 (Z.ltb_lt _ _)) by lia. done.
Qed.

(** ** Properties *)

(** For every base and size the mapping of a new device starts at a page
    boundary, its base address is [page_addr + page_offset] and the whole
    on-bus range lies inside the mapped size. *)
Theorem mmap_window_covers_device {P : PosixPages} spec base size file :
  0 <= base < 2 ^ 32 -> 0 <= size < 2 ^ 32 ->
  let dev := new_mmap_device spec base size file in
  page_addr dev mod os_page_size = 0 /\
  page_addr dev + page_offset dev = base /\
  0 <= page_offset dev < os_page_size /\
  page_offset dev + size <= addr_space_size dev.
Proof. apply mmap_window_geometry. Qed.

(** [attach] on every branch: nothing when a descriptor is held; an
    exception and the failed descriptor when [open] returns none; otherwise
    the descriptor is kept and [attach] throws exactly when [mmap] fails. *)
Theorem mmap_attach_correct w d dev :
  mw_devs w !! d = Some dev ->
  mmap_attach d w =
  (let fd := os_open (mem_file_name dev) in
   let ok := os_mmap (mem_file_name dev) (addr_space_size dev) (page_addr dev) in
   if 0 <=? md_fd dev then (Ret tt, w)
   else if fd <=? 0 then
     (Throw (Exn EX_dev_init_fail
        ("Can not open memory file: " +:+ mem_file_name dev +:+ ", " +:+ os_strerror)),
      attached_world w d dev fd (dev_mapped dev))
   else if ok then (Ret tt, attached_world w d dev fd true)
   else (Throw (Exn EX_dev_init_fail "Can not mmap memory"), attached_world w d dev fd false)).
Proof. apply mmap_attach_run. Qed.

(** When [open] succeeds and [mmap] fails, the first [attach] throws, but
    the descriptor is kept, so a second [attach] returns normally without a
    mapping and every access through it is outside any mapping. *)
Theorem mmap_attach_after_failed_map w d dev offset :
  mw_devs w !! d = Some dev -> md_fd dev < 0 -> 0 < os_open (mem_file_name dev) ->
  os_mmap (mem_file_name dev) (addr_space_size dev) (page_addr dev) = false ->
  exists w1,
    mmap_attach d w = (Throw (Exn EX_dev_init_fail "Can not mmap memory"), w1) /\
    mmap_attach d w1 = (Ret tt, w1) /\
    mmap_read 4 d offset w1 = (Undef OutOfBounds, w1).
Proof.
  intros Hd Hfd Ho Hm. exists (attached_world w d dev (os_open (mem_file_name dev)) false).
  assert (mw_devs (attached_world w d dev (os_open (mem_file_name dev)) false) !! d =
          Some (set_fd (os_open (mem_file_name dev)) false dev)) as Hd1
    by apply lookup_insert_eq.
  split_and!.
  - unfold mmap_attach. erewrite st_bind_ret by by apply get_dev_ok.
    rewrite (proj2 (Z.ltb_lt _ _)) by done. erewrite st_bind_ret by done.
    rewrite (proj2 (Z.leb_gt _ _)) by done. erewrite st_bind_ret by done.
    rewrite Hm. unfold attached_world. cbn [mw_mem mw_devs negb]. by rewrite insert_insert_eq.
  - unfold mmap_attach. erewrite st_bind_ret by by apply get_dev_ok.
    cbn [md_fd set_fd]. by rewrite (proj2 (Z.ltb_ge _ _)) by lia.
  - unfold mmap_read. erewrite st_bind_ret by by apply get_dev_ok. done.
Qed.

(** Every offset of the on-bus range of a mapped device whose bytes the
    memory file has is accessible, at the file position base + offset. *)
Theorem mmap_device_accessible {P : PosixPages} w d spec base size file fd :
  0 <= base < 2 ^ 32 -> 0 <= size < 2 ^ 32 ->
  mw_devs w !! d = Some (set_fd fd true (new_mmap_device spec base size file)) ->
  (forall a, base <= a < base + size -> is_Some (mw_mem w !! (file, a))) ->
  forall offset, 0 <= offset < size ->
    mmap_peek w d offset = mw_mem w !! (file, base + offset) /\
    is_Some (mmap_peek w d offset).
Proof.
  intros Hb Hs Hd Hmem offset Ho. rewrite (mmap_device_peek w d spec base size file fd) by done.
  split; [done|]. apply Hmem. lia.
Qed.

(** A block write through one device changes the memory file at the
    written addresses only: a device mapping the same file shows the new
    bytes wherever its window covers those addresses, and every other byte of
    every device is unchanged. *)
Theorem mmap_write_shared w d dev offset data :
  mw_devs w !! d = Some dev -> 0 <= offset -> offset + Z.of_nat (length data) <= 2 ^ 32 ->
  accessible w d offset (length data) ->
  exists w', ihwio_dev_write d offset data w = (Ret tt, w') /\ mw_devs w' = mw_devs w /\
    forall d2 dev2 x, mw_devs w !! d2 = Some dev2 ->
      let a := dev_base dev2 + x - (dev_base dev + offset) in
      mmap_peek w' d2 x =
      if decide (mem_file_name dev2 = mem_file_name dev /\ 0 <= a < Z.of_nat (length data) /\
                 in_mapping dev2 x = true)
      then data !! Z.to_nat a else mmap_peek w d2 x.
Proof.
  intros Hd Ho Hb Ha. eexists. split; [by apply mmap_block_write|]. split; [done|].
  intros d2 dev2 x Hd2 a. unfold mmap_peek. cbn [mw_devs]. rewrite Hd2. cbn [mbind option_bind].
  unfold map_byte. destruct (in_mapping dev2 x) eqn:Em.
  - cbn [mw_mem]. unfold map_key at 1. rewrite lookup_store_mem. unfold a, dev_base.
    repeat case_decide; naive_solver lia.
  - by rewrite decide_False by naive_solver.
Qed.

(** [write64] to eight accessible bytes returns, changes exactly those
    bytes to the little-endian bytes of the value, and [read64] then gives
    the value back. *)
Theorem mmap_write64_read64 w d offset val :
  0 <= val < 2 ^ 64 -> accessible w d offset 8 ->
  exists w', mmap_write64 d offset val w = (Ret tt, w') /\
    updated w d offset (le_of_Z 8 val) w' /\ mmap_read64 d offset w' = (Ret val, w').
Proof.
  intros Hv Ha. destruct (Ha 0%nat) as [b Hb]; [lia|].
  destruct (mmap_peek_Some _ _ _ _ Hb) as (dev & Hd & _).
  set (lo := le_of_Z 4 (u32 val)). set (hi := le_of_Z 4 (u32 (Z.shiftr val (4 * 8)))).
  assert (le_of_Z 8 val = lo ++ hi) as E8.
  { unfold lo, hi. rewrite (le_of_Z_app 4 4), Z.shiftr_div_pow2 by lia.
    unfold u32. change (2 ^ 32) with (256 ^ Z.of_nat 4).
    rewrite !le_of_Z_mod. done. }
  set (w1 := MWorld (store_mem dev offset lo (mw_mem w)) (mw_devs w)).
  set (w2 := MWorld (store_mem dev (offset + 4) hi (mw_mem w1)) (mw_devs w1)).
  pose proof (accessible_split w d offset 4 4 Ha) as [Ha1 Ha2].
  assert (accessible w1 d (offset + 4) 4) as Ha3 by by apply accessible_store.
  assert (updated w d offset (lo ++ hi) w2) as Hu.
  { apply (updated_app w d offset lo hi w1 w2); intros x; by apply mmap_peek_store. }
  assert (mmap_write64 d offset val w = (Ret tt, w2)) as Hw.
  { unfold mmap_write64. erewrite st_bind_ret by by apply get_dev_ok.
    erewrite st_bind_ret by (apply store_ok; by eapply accessible_map_byte).
    apply (store_ok w1). by eapply accessible_map_byte. }
  exists w2. rewrite E8. split_and!; [done..|].
  pose proof (updated_shows w d offset _ w2 Hu) as Hs.
  apply (shows_app w2 d offset lo hi) in Hs as [Hs1 Hs2].
  unfold mmap_read64. erewrite st_bind_ret by by apply get_dev_ok.
  erewrite st_bind_ret by (apply (load_ok w2 dev offset lo); by eapply shows_map_byte).
  erewrite st_bind_ret by (apply (load_ok w2 dev (offset + 4) hi); by eapply shows_map_byte).
  unfold mret, ST_ret. do 2 f_equal.
  rewrite <-(Z.mod_small val (256 ^ Z.of_nat 8)), <-le_to_Z_of_Z, E8, le_to_Z_app by done.
  pose proof (le_to_Z_bound lo) as Hlo. pose proof (le_to_Z_bound hi) as Hhi.
  change (length lo) with 4%nat in *. change (length hi) with 4%nat in *.
  change (256 ^ Z.of_nat 4) with (2 ^ 32) in *.
  rewrite u64_small by (rewrite Z.shiftl_mul_pow2; lia).
  change (4 * 8) with 32. rewrite lor_shiftl_add by lia. lia.
Qed.
End mmap.

(** ** A small machine, and the witnesses of this file and of [Device] *)

Module TestMachine.
(** 4 KiB pages; every path opens except ["missing"], every mapping succeeds
    except that of ["nomap"]. *)
#[export] Instance test_posix : Posix := {|
  os_page_size := 4096;
  os_open p := if bool_decide (p = "missing"%string) then -1 else 3;
  os_mmap p _ _ := negb (bool_decide (p = "nomap"%string));
  os_strerror := "No such file or directory"
|}.

#[export] Program Instance test_pages : PosixPages := {| os_page_log := 12 |}.
Next Obligation. done. Qed.
Next Obligation. done. Qed.

(** A memory file with [n] zero bytes from address [a] on. *)
Definition zero_file (file : string) (a : Z) (n : nat) : gmap (string * Z) byte :=
  list_to_map (map (fun i => ((file, a + Z.of_nat i), NUL)) (seq 0 n)).

Definition test_dev : hwio_device_mmap :=
  new_mmap_device [empty_spec] 4104 16 "mem0.dat".

(** The device [0] is attached, [1] overlaps it by eight bytes, [2] is new. *)
Definition test_world : MmapWorld :=
  MWorld (zero_file "mem0.dat" 4104 24)
    (list_to_map [(0%nat, set_fd 3 true test_dev);
                  (1%nat, set_fd 3 true (new_mmap_device [] 4112 16 "mem0.dat"));
                  (2%nat, new_mmap_device [] 0 16 "nomap")]).

Ltac by_index i :=
  repeat (destruct i as [|i]; [vm_compute; first [reflexivity | eexists; reflexivity]|]);
  first [exfalso; lia | done].

Lemma test_accessible : accessible test_world 0%nat 2 7.
Proof. intros i Hi. by_index i. Qed.

Lemma ihwio_dev_read_correct_witness :
  ihwio_dev_read 0%nat 3 (length (replicate 6 NUL)) (test_world, []) =
    (Ret tt, (test_world, replicate 6 NUL)).
Proof.
  apply (ihwio_dev_read_correct test_world 0%nat 3 (replicate 6 NUL) []); [done|done|].
  intros i b Hi. do 6 (destruct i as [|i]; [injection Hi as <-; vm_compute; reflexivity|]).
  discriminate.
Defined.

Lemma ihwio_dev_write_correct_witness :
  exists w', ihwio_dev_write 0%nat 2 (chars "ABCDEFG") test_world = (Ret tt, w') /\
    updated test_world 0%nat 2 (chars "ABCDEFG") w' /\
    ihwio_dev_read 0%nat 2 (length (chars "ABCDEFG")) (w', []) =
      (Ret tt, (w', [] ++ chars "ABCDEFG")).
Proof.
  apply (ihwio_dev_write_correct test_world 0%nat 2 (chars "ABCDEFG") []);
    [done | done | exact test_accessible].
Defined.

Lemma ihwio_dev_memset_correct_witness :
  ihwio_dev_memset 0%nat 2 165 7 test_world =
  ihwio_dev_write 0%nat 2 (replicate 7 (byte_of_Z 165)) test_world.
Proof. apply (ihwio_dev_memset_correct test_world 0%nat 2 165 7). done. Defined.

Lemma mmap_window_covers_device_witness :
  page_addr test_dev mod os_page_size = 0 /\
  page_addr test_dev + page_offset test_dev = 4104 /\
  0 <= page_offset test_dev < os_page_size /\
  page_offset test_dev + 16 <= addr_space_size test_dev.
Proof. apply (mmap_window_covers_device [empty_spec] 4104 16 "mem0.dat"); done. Defined.

Lemma mmap_attach_correct_witness :
  mmap_attach 2%nat test_world =
  (Throw (Exn EX_dev_init_fail "Can not mmap memory"),
   attached_world test_world 2%nat (new_mmap_device [] 0 16 "nomap") 3 false).
Proof.
  etransitivity.
  - apply (mmap_attach_correct test_world 2%nat (new_mmap_device [] 0 16 "nomap")).
    vm_compute. reflexivity.
  - vm_compute. reflexivity.
Defined.

Lemma mmap_attach_after_failed_map_witness :
  exists w1,
    mmap_attach 2%nat test_world = (Throw (Exn EX_dev_init_fail "Can not mmap memory"), w1) /\
    mmap_attach 2%nat w1 = (Ret tt, w1) /\ mmap_read 4 2%nat 0 w1 = (Undef OutOfBounds, w1).
Proof.
  apply (mmap_attach_after_failed_map test_world 2%nat (new_mmap_device [] 0 16 "nomap"));
    vm_compute; reflexivity.
Defined.

Lemma mmap_device_accessible_witness :
  mmap_peek test_world 0%nat 5 = mw_mem test_world !! ("mem0.dat"%string, 4104 + 5) /\
  is_Some (mmap_peek test_world 0%nat 5).
Proof.
  apply (mmap_device_accessible test_world 0%nat [empty_spec] 4104 16 "mem0.dat" 3); try done.
  intros a Ha. replace a with (4104 + Z.of_nat (Z.to_nat (a - 4104))) by lia.
  assert (Z.to_nat (a - 4104) < 16)%nat as Hi by lia.
  generalize (Z.to_nat (a - 4104)) Hi. intros i Hi'. by_index i.
Defined.

(** Four bytes written through device 0 at offset 6: device 1 sees the last two. *)
Lemma mmap_write_shared_witness :
  exists w', ihwio_dev_write 0%nat 6 (chars "ABCD") test_world = (Ret tt, w') /\
    mw_devs w' = mw_devs test_world /\
    forall d2 dev2 x, mw_devs test_world !! d2 = Some dev2 ->
      let a := dev_base dev2 + x - (dev_base (set_fd 3 true test_dev) + 6) in
      mmap_peek w' d2 x =
      if decide (mem_file_name dev2 = mem_file_name (set_fd 3 true test_dev) /\
                 0 <= a < Z.of_nat (length (chars "ABCD")) /\ in_mapping dev2 x = true)
      then chars "ABCD" !! Z.to_nat a else mmap_peek test_world d2 x.
Proof.
  apply (mmap_write_shared test_world 0%nat (set_fd 3 true test_dev) 6 (chars "ABCD")); try done.
  intros i Hi. cbn in Hi. by_index i.
Defined.

Lemma mmap_write64_read64_witness :
  exists w', mmap_write64 0%nat 1 81985529216486895 test_world = (Ret tt, w') /\
    updated test_world 0%nat 1 (le_of_Z 8 81985529216486895) w' /\
    mmap_read64 0%nat 1 w' = (Ret 81985529216486895, w').
Proof.
  apply (mmap_write64_read64 test_world 0%nat 1 81985529216486895); [done|].
  intros i Hi. by_index i.
Defined.
End TestMachine.
