(* ===== verification/Bus.v ===== *)
(** * Device lookup: the bus interface, primitive and composite buses

    Models [src/bus/ihwio_bus.h], [src/bus/hwio_bus_primitive.cpp] and
    [src/bus/hwio_bus_composite.cpp].  [IBus] is the interface [ihwio_bus]: a
    lookup that may act on the state [W] (a remote bus talks to its server). *)

From Stdlib Require Import ZArith Lia Ascii String.
From stdpp Require Import base tactics list numbers strings gmap fin_maps.
From S2P Require Import Prelude CxxString Version CompSpec Device.

(** [ihwio_bus::find_devices] *)
Class IBus (W D B : Type) := {
  find_devices : B -> list hwio_comp_spec -> ST W (list D)
}.

Section filter.
Context {W D : Type} `{!IDev W D}.

(** [for (auto & ds : dev_specs) if (ds == s) { ... break; }] *)
Fixpoint ds_loop (dev_specs : list hwio_comp_spec) (s : hwio_comp_spec) : bool :=
  match dev_specs with
  | [] => false
  | ds :: t => if comp_spec_eq ds s then true else ds_loop t s
  end.

(** [for (auto & s : spec) { ds_loop; if (matched) break; }] *)
Fixpoint spec_loop (spec dev_specs : list hwio_comp_spec) : bool :=
  match spec with
  | [] => false
  | s :: t => if ds_loop dev_specs s then true else spec_loop t dev_specs
  end.

(** The lookup by name, for devices without specifications. *)
Fixpoint name_loop (spec : list hwio_comp_spec) (name : string) : bool :=
  match spec with
  | [] => false
  | s :: t =>
      if bool_decide (cs_name s <> ""%string) && bool_decide (name = cs_name s) then true
      else name_loop t name
  end.

(** Is the device pushed to the result? *)
Definition device_selected (w : W) (spec : list hwio_comp_spec) (dev : D) : bool :=
  let dev_specs := get_spec w dev in
  match dev_specs with
  | [] =>
      let name := dev_name w dev in
      if bool_decide (name <> ""%string) then name_loop spec name else false
  | _ => spec_loop spec dev_specs
  end.

(** [ihwio_bus::filter_device_by_spec] *)
Fixpoint filter_device_by_spec (w : W) (devices : list D) (spec : list hwio_comp_spec) : list D :=
  match devices with
  | [] => []
  | dev :: t =>
      if device_selected w spec dev then dev :: filter_device_by_spec w t spec
      else filter_device_by_spec w t spec
  end.

(** [hwio_bus_primitive] *)
Record hwio_bus_primitive := BusPrimitive { _all_devices : list D }.

(** [hwio_bus_primitive::find_devices] *)
Definition primitive_find_devices (b : hwio_bus_primitive) (spec : list hwio_comp_spec) :
    ST W (list D) :=
  fun w => (Ret (filter_device_by_spec w (_all_devices b) spec), w).

#[export] Instance primitive_bus : IBus W D hwio_bus_primitive :=
  {| find_devices := primitive_find_devices |}.

(** [hwio_bus_composite::find_devices] over the buses of any class. *)
Fixpoint composite_find_devices {B} `{!IBus W D B} (_buses : list B)
    (spec : list hwio_comp_spec) : ST W (list D) :=
  match _buses with
  | [] => mret []
  | b :: t =>
      find_devices b spec ≫= fun ds =>
      composite_find_devices t spec ≫= fun res => mret (ds ++ res)
  end.

(** ** The devices a query selects *)

Definition device_matches (w : W) (spec : list hwio_comp_spec) (dev : D) : Prop :=
  match get_spec w dev with
  | [] => dev_name w dev <> ""%string /\ exists s, s ∈ spec /\ cs_name s = dev_name w dev
  | dev_specs => exists s ds, s ∈ spec /\ ds ∈ dev_specs /\ comp_spec_eq ds s = true
  end.

Lemma ds_loop_true dev_specs s :
  ds_loop dev_specs s = true <-> exists ds, ds ∈ dev_specs /\ comp_spec_eq ds s = true.
Proof.
  induction dev_specs as [|ds t IH]; cbn.
  - split; [done|]. intros (ds & H & _). by apply elem_of_nil in H.
  - destruct (comp_spec_eq ds s) eqn:E.
    + split; [|done]. intros _. exists ds. split; [left|done].
    + rewrite IH. split; intros (x & Hx & Hm); exists x; (split; [|done]); [by right|].
      apply elem_of_cons in Hx as [->|Hx]; [congruence|done].
Qed.

Lemma spec_loop_true spec dev_specs :
  spec_loop spec dev_specs = true <->
  exists s, s ∈ spec /\ ds_loop dev_specs s = true.
Proof.
  induction spec as [|s t IH]; cbn.
  - split; [done|]. intros (s & H & _). by apply elem_of_nil in H.
  - destruct (ds_loop dev_specs s) eqn:E.
    + split; [|done]. intros _. exists s. split; [left|done].
    + rewrite IH. split; intros (x & Hx & Hm); exists x; (split; [|done]); [by right|].
      apply elem_of_cons in Hx as [->|Hx]; [congruence|done].
Qed.

Lemma name_loop_true spec name :
  name <> ""%string -> name_loop spec name = true <-> exists s, s ∈ spec /\ cs_name s = name.
Proof.
  intros Hn. induction spec as [|s t IH]; cbn.
  - split; [done|]. intros (s & H & _). by apply elem_of_nil in H.
  - destruct (decide (cs_name s = name)) as [E|E].
    + rewrite !bool_decide_eq_true_2 by congruence. split; [|done]. intros _.
      exists s. split; [left|done].
    + rewrite (bool_decide_eq_false_2 (name = _)), andb_false_r by congruence. rewrite IH.
      split; intros (x & Hx & Hm); exists x; (split; [|done]); [by right|].
      apply elem_of_cons in Hx as [->|Hx]; [congruence|done].
Qed.

Lemma device_selected_matches w spec dev :
  device_selected w spec dev = true <-> device_matches w spec dev.
Proof.
  unfold device_selected, device_matches. destruct (get_spec w dev) as [|ds t].
  - case_bool_decide as Hn; [rewrite name_loop_true by done; naive_solver|].
    split; [done|]. by intros [? _].
  - rewrite spec_loop_true. setoid_rewrite ds_loop_true. naive_solver.
Qed.

#[export] Instance device_matches_dec w spec dev : Decision (device_matches w spec dev).
Proof.
  refine (cast_if (decide (device_selected w spec dev = true)));
    by rewrite <-device_selected_matches.
Defined.

Lemma filter_device_by_spec_filter w devices spec :
  filter_device_by_spec w devices spec = filter (device_matches w spec) devices.
Proof.
  induction devices as [|d t IH]; [done|]. cbn [filter_device_by_spec].
  rewrite filter_cons, IH.
  destruct (device_selected w spec d) eqn:E; case_decide as Hd; [done| | |done];
    rewrite <-device_selected_matches in Hd; congruence.
Qed.

(** ** Properties *)

(** The lookup of a primitive bus returns its matching devices, each as
    often and in the order in which the bus lists them: a device with
    specifications matches when one of them equals a queried one, a device
    without specifications when its non-empty name is queried; the state is
    unchanged. *)
Theorem find_devices_filter w (b : hwio_bus_primitive) spec :
  find_devices b spec w = (Ret (filter (device_matches w spec) (_all_devices b)), w).
Proof.
  unfold find_devices, primitive_bus, primitive_find_devices.
  by rewrite filter_device_by_spec_filter.
Qed.

(** A composite of primitive buses finds what one primitive bus with all
    the devices, in the order of the buses, finds. *)
Theorem composite_find_devices_flatten w (buses : list hwio_bus_primitive) spec :
  composite_find_devices buses spec w =
  find_devices (BusPrimitive (concat (map _all_devices buses))) spec w.
Proof.
  induction buses as [|b buses IH]; [done|].
  cbn [composite_find_devices map concat]. erewrite st_bind_ret by reflexivity.
  rewrite (st_bind_ret _ _ w _ w IH). cbn. unfold primitive_find_devices.
  cbn [_all_devices]. rewrite !filter_device_by_spec_filter, filter_app. done.
Qed.
End filter.
Arguments hwio_bus_primitive D : clear implicits.
