(* ===== verification/DevicetreeSpec.v ===== *)
(** * hwio_bus_devicetree: the walk and the files of a device

    A directory tree as data ([dtree]) and what it has on the file system
    ([on_disk]); the devices of the tree in preorder ([tree_devices]).  The
    two stacks of the code visit exactly these; the fuel of the definitions is
    three steps for each directory: it is entered, checked and left. *)

From Stdlib Require Import ZArith Lia Ascii String.
From stdpp Require Import base tactics list sorting numbers strings gmap fin_maps.
From S2P Require Import Prelude CxxString Version CompSpec Device Mmap Bus Devicetree.

(** ** Integers in the order of the network *)

Lemma reverse_step n tmp b hi :
  0 <= tmp < 2 ^ 24 -> 0 <= b < 256 ->
  reverse_loop (S n) tmp (b + 256 * hi) = reverse_loop n (256 * tmp + b) hi.
Proof.
  intros Ht Hb. cbn [reverse_loop]. f_equal.
  - assert (Z.land (b + 256 * hi) 255 = b) as ->.
    { change 255 with (Z.ones 8). rewrite Z.land_ones by lia. change (2 ^ 8) with 256.
      rewrite Z.mul_comm, Z.mod_add by lia. apply Z.mod_small. lia. }
    rewrite u32_small by (rewrite Z.shiftl_mul_pow2; lia).
    rewrite Z.lor_comm, lor_shiftl_add by lia. lia.
  - rewrite Z.shiftr_div_pow2 by lia. change (2 ^ 8) with 256.
    rewrite Z.mul_comm, Z.div_add by lia. by rewrite Z.div_small.
Qed.

Lemma byte_range b : 0 <= Z_of_byte b < 256.
Proof. pose proof (le_to_Z_bound [b]) as H. cbn in H. lia. Qed.

(** [reverse_endianity] of four bytes. *)
Lemma reverse_endianity_rev bs :
  length bs = 4%nat -> reverse_endianity (le_to_Z bs) = le_to_Z (rev bs).
Proof.
  intros Hl. destruct bs as [|a [|b [|c [|d [|]]]]]; try discriminate.
  pose proof (byte_range a); pose proof (byte_range b); pose proof (byte_range c); pose proof (byte_range d).
  unfold reverse_endianity, sizeof_phys_addr. cbn [rev app le_to_Z].
  rewrite !reverse_step by lia. cbn [reverse_loop]. lia.
Qed.

(** A number as the device tree stores it. *)
Definition be32 (z : Z) : list byte := rev (le_of_Z 4 z).

Lemma be32_length z : length (be32 z) = 4%nat.
Proof. unfold be32. by rewrite length_rev, le_of_Z_length. Qed.

Lemma reverse_be32 z : 0 <= z < 2 ^ 32 -> reverse_endianity (le_to_Z (be32 z)) = z.
Proof.
  intros Hz. rewrite reverse_endianity_rev by apply be32_length. unfold be32.
  rewrite rev_involutive. apply le_to_Z_small. by change (256 ^ Z.of_nat 4) with (2 ^ 32).
Qed.

(** ** Lists of strings *)

(** The content of a ["compatible"] file. *)
Definition compat_file (css : list string) : list byte := concat (map (fun cs => chars cs ++ [NUL]) css).

Lemma upto_nul_app l rest : Forall (fun b => b <> NUL) l -> upto_nul (l ++ NUL :: rest) = l.
Proof.
  induction 1 as [|b l Hb _ IH]; cbn; [done|]. by rewrite bool_decide_eq_false_2, IH.
Qed.

Lemma compat_loop_file css fuel :
  Forall no_nul css -> (length (compat_file css) <= fuel)%nat ->
  compat_loop fuel (compat_file css) = css.
Proof.
  intros H. revert fuel. induction H as [|cs css Hcs _ IH]; intros fuel Hl; [by destruct fuel|].
  change (compat_file (cs :: css)) with ((chars cs ++ [NUL]) ++ compat_file css) in *.
  rewrite <-app_assoc in *. cbn [app] in *. rewrite length_app in Hl. cbn [length] in Hl.
  destruct fuel as [|f]; [lia|]. cbn [compat_loop].
  destruct (chars cs ++ NUL :: compat_file css) eqn:E; [by destruct (chars cs)|]. rewrite <-E.
  rewrite upto_nul_app by done. rewrite of_chars_chars. f_equal.
  change (NUL :: compat_file css) with ([NUL] ++ compat_file css). rewrite app_assoc.
  rewrite drop_app_length' by (rewrite length_app; done). apply IH. lia.
Qed.

(** ** Paths *)

Section paths.
Context {OS : Posix} {FS : FileSystem} {SO : StdSort}.
Implicit Types (path : list string).

Lemma path_prefix_cons name path :
  path_prefix (name :: path) = (path_prefix path +:+ name +:+ "/")%string.
Proof.
  unfold path_prefix. cbn [rev]. rewrite foldr_app. cbn [foldr].
  assert (forall l acc, foldr (fun p acc => p +:+ "/" +:+ acc)%string acc l =
    (foldr (fun p acc => p +:+ "/" +:+ acc)%string "" l +:+ acc)%string) as E.
  { induction l as [|x l IH]; intros acc; cbn [foldr]; [done|]. rewrite IH.
    by rewrite !string_app_assoc. }
  by rewrite E.
Qed.

(** The path of the directory on the stack. *)
Lemma file_path_dir name path :
  file_path_from_stack (name :: path) "" = (path_prefix path +:+ name)%string.
Proof.
  unfold file_path_from_stack. rewrite bool_decide_eq_true_2 by done. rewrite path_prefix_cons.
  rewrite <-string_app_assoc. set (s := (_ +:+ name)%string).
  replace (String.length (s +:+ "/") - 1)%nat with (String.length s); [apply substring_prefix|].
  rewrite <-(chars_length (s +:+ "/")), chars_app, length_app, chars_length. cbn. lia.
Qed.

Lemma file_path_root name : file_path_from_stack [name] "" = name.
Proof. by rewrite file_path_dir. Qed.
End paths.

(** ** The directory of a device *)

Section device_dir.
Context {OS : Posix} {FS : FileSystem} {SO : StdSort}.
Context (path : list string) (rg : list byte) (css : list string) (specs : list hwio_comp_spec).

(** The files of a device directory: ["reg"] has the bytes [rg],
    ["compatible"] the strings [css], which denote [specs]. *)
Record device_files : Prop := {
  df_reg : path_is_file path "reg" = true;
  df_reg_bytes : fs_fopen (file_path_from_stack path "reg") = Some (Some rg);
  df_compat : path_is_file path "compatible" = true;
  df_compat_bytes : fs_fopen (file_path_from_stack path "compatible") = Some (Some (compat_file css));
  df_no_nul : Forall no_nul css;
  df_specs : Forall2 (fun cs s => hwio_comp_spec_of_str cs = Ret s) css specs
}.

Context (Hf : device_files).

(** The numbers in ["reg"], when it has the size of two. *)
Definition reg_value : option (Z * Z) :=
  if (length rg =? 8)%nat then Some (le_to_Z (rev (take 4 rg)), le_to_Z (rev (drop 4 rg))) else None.

Lemma parse_reg_run :
  match reg_value with
  | Some v => dev_parse_reg path "reg" = Ret v
  | None => exists msg, dev_parse_reg path "reg" = Throw (Exn EX_device_tree_format msg)
  end.
Proof.
  unfold reg_value, dev_parse_reg, read_file. rewrite (df_reg_bytes Hf).
  cbn [mbind outcome_bind]. change (2 * sizeof_phys_addr)%nat with 8%nat. unfold sizeof_phys_addr.
  destruct (Nat.eqb_spec (length rg) 8) as [E|E]; cbn [negb].
  - rewrite E. change (8 / 2)%nat with 4%nat.
    rewrite !reverse_endianity_rev by (rewrite ?length_take, ?length_drop; lia). done.
  - by eexists.
Qed.

Lemma parse_compat_run : dev_parse_compat path "compatible" = Ret css.
Proof.
  unfold dev_parse_compat, read_file. rewrite (df_compat_bytes Hf). cbn [mbind outcome_bind].
  by rewrite compat_loop_file by (apply Hf || done).
Qed.

Lemma push_specs_run acc : push_specs css acc = Ret (acc ++ specs).
Proof.
  pose proof (df_specs Hf) as Hs. clear Hf. revert acc. induction Hs as [|cs s css' specs' Hcs _ IH]; intros acc; cbn [push_specs].
  - by rewrite app_nil_r.
  - rewrite Hcs. cbn [mbind outcome_bind]. rewrite IH, <-app_assoc. by destruct s.
Qed.

Lemma dev_loop_run names spec base size :
  NoDup names ->
  dev_from_dir_loop path names spec base size =
  if decide ("reg"%string ∈ names) then
    match reg_value with
    | Some (b, z) => Ret (Some (spec ++ (if decide ("compatible"%string ∈ names) then specs else []), b, z))
    | None => Ret None
    end
  else Ret (Some (spec ++ (if decide ("compatible"%string ∈ names) then specs else []), base, size)).
Proof.
  revert spec base size. induction names as [|d names IH]; intros spec base size Hnd.
  - cbn. by rewrite !decide_False, app_nil_r by apply not_elem_of_nil.
  - apply NoDup_cons in Hnd as [Hd Hnd]. cbn [dev_from_dir_loop].
    destruct (decide (d = "reg"%string)) as [->|Hr].
    + rewrite (df_reg Hf). cbn [negb]. rewrite !bool_decide_eq_true_2 by done.
      rewrite (decide_True (P := "reg"%string ∈ _)) by left. pose proof parse_reg_run as Hp.
      destruct reg_value as [[b z]|]; [rewrite Hp|by destruct Hp as [msg ->]].
      change (bool_decide ("reg"%string = "compatible"%string)) with false. cbv iota.
      rewrite IH, decide_False by done.
      by rewrite (decide_ext ("compatible"%string ∈ "reg"%string :: names) ("compatible"%string ∈ names))
        by (rewrite elem_of_cons; naive_solver).
    + destruct (decide (d = "compatible"%string)) as [->|Hc].
      * rewrite (df_compat Hf). cbn [negb]. rewrite bool_decide_eq_false_2 by done. cbn [mret outcome_ret].
        rewrite bool_decide_eq_true_2 by done. rewrite parse_compat_run. cbn [mbind outcome_bind].
        rewrite push_specs_run. cbn [mbind outcome_bind]. rewrite IH by done.
        rewrite (decide_False (P := "compatible"%string ∈ names)) by done.
        rewrite (decide_True (P := "compatible"%string ∈ _)) by left. rewrite app_nil_r.
        by rewrite (decide_ext ("reg"%string ∈ "compatible"%string :: names) ("reg"%string ∈ names))
          by (rewrite elem_of_cons; naive_solver).
      * rewrite IH by done. rewrite (bool_decide_eq_false_2 (d = _)) by done. cbn [mret outcome_ret].
        rewrite (bool_decide_eq_false_2 (d = _)) by done.
        rewrite (decide_ext ("reg"%string ∈ d :: names) ("reg"%string ∈ names))
          by (rewrite elem_of_cons; naive_solver).
        rewrite (decide_ext ("compatible"%string ∈ d :: names) ("compatible"%string ∈ names))
          by (rewrite elem_of_cons; naive_solver).
        destruct (path_is_file path d); cbn [negb]; [by rewrite IH|done].
Qed.
End device_dir.

(** C23: a directory with the files ["reg"] and ["compatible"] becomes a device
    with the name of the directory, the specifications of the strings in
    ["compatible"], in order, and the base address and size stored most
    significant byte first in ["reg"]; when ["reg"] has not eight bytes the
    directory is skipped.  The order and the other names of the directory do
    not matter. *)
Theorem dev_from_dir_correct {OS : Posix} {FS : FileSystem} mem_path name parent path names rest rg css specs :
  device_files (name :: parent :: path) rg css specs -> NoDup names ->
  "reg"%string ∈ names -> "compatible"%string ∈ names ->
  dev_from_dir mem_path (name :: parent :: path) (Dir names rest) =
  (Ret (if (length rg =? 8)%nat
        then Some (set_dev_name name (new_mmap_device specs (le_to_Z (rev (take 4 rg)))
                     (le_to_Z (rev (drop 4 rg))) mem_path))
        else None), Dir names names).
Proof.
  intros Hf Hnd Hr Hc. unfold dev_from_dir. cbn [d_all].
  rewrite (dev_loop_run _ rg css specs Hf) by done. rewrite !decide_True by done.
  unfold reg_value. by destruct (length rg =? 8)%nat.
Qed.

(** ** Directory trees *)

(** A directory: its name, the names [readdir] gives, its subdirectories in
    that order. *)
Inductive dtree := DTree (dt_name : string) (dt_names : list string) (dt_subs : list dtree).

Definition dt_name (t : dtree) : string := let '(DTree name _ _) := t in name.

Section dtree_ind.
Context (P : dtree -> Prop).
Context (IH : forall name names subs, Forall P subs -> P (DTree name names subs)).

Fixpoint dtree_ind' (t : dtree) : P t :=
  let '(DTree name names subs) := t in
  IH name names subs
    ((fix all (subs : list dtree) : Forall P subs :=
        match subs with
        | [] => Forall_nil_2 P
        | s :: r => Forall_cons_2 P s r (dtree_ind' s) (all r)
        end) subs).
End dtree_ind.

(** The number of directories. *)
Fixpoint dirs (t : dtree) : nat :=
  let '(DTree _ _ subs) := t in S (foldr (fun s n => dirs s + n)%nat 0%nat subs).

Section walk.
Context {OS : Posix} {FS : FileSystem}.
Implicit Types (path names rest : list string) (t : dtree) (subs : list dtree) (st : dt_state).

Definition is_subdir path (n : string) : bool :=
  negb (bool_decide (n = "."%string) || bool_decide (n = ".."%string)) && path_is_dir path n.

(** The tree is what the file system has below [path]. *)
Fixpoint on_disk path t : Prop :=
  let '(DTree name names subs) := t in
  fs_opendir (file_path_from_stack (name :: path) "") = Some names /\
  map dt_name subs = List.filter (is_subdir (name :: path)) names /\
  foldr (fun s P => on_disk (name :: path) s /\ P) True subs.

(** The device of one directory, if it is one. *)
Definition own_device (mem_path : string) path names : outcome (option hwio_device_mmap) :=
  if (dir_has_file path (Dir names names) "reg").1
  then (dev_from_dir mem_path path (Dir names names)).1 else Ret None.

(** The devices of a tree: a directory before its subdirectories. *)
Fixpoint tree_devices (mem_path : string) path t : outcome (list hwio_device_mmap) :=
  let '(DTree name names subs) := t in
  own_device mem_path (name :: path) names ≫= fun own =>
  foldr (fun s acc => tree_devices mem_path (name :: path) s ≫= fun ds => acc ≫= fun ds' => mret (ds ++ ds'))
    (mret []) subs ≫= fun below => mret (option_list own ++ below).

(** ** Runs *)

(** [n] recursive calls of [device_next] in all; the devices they return. *)
Inductive walks (mem_path : string) : nat -> dt_state -> list hwio_device_mmap -> dt_state -> Prop :=
  | walks_nil st : walks mem_path 0 st [] st
  | walks_step n st o st1 ds st2 :
      dir_stack st <> [] -> device_next_body mem_path st = (Ret o, st1) ->
      walks mem_path n st1 ds st2 -> walks mem_path (S n) st (option_list o ++ ds) st2.

Lemma walks_app mem n1 st ds1 st1 n2 ds2 st2 :
  walks mem n1 st ds1 st1 -> walks mem n2 st1 ds2 st2 -> walks mem (n1 + n2) st (ds1 ++ ds2) st2.
Proof.
  intros H1 H2. induction H1 as [|n st o st1 ds st2' Hd Hb _ IH]; [done|].
  rewrite <-app_assoc. cbn [Nat.add]. eapply walks_step; [done|exact Hb|by apply IH].
Qed.

(** A complete walk is what the calls of [device_next] give one by one. *)
Lemma device_next_walk mem n st ds st' fuel :
  walks mem n st ds st' -> dir_stack st' = [] -> (n <= fuel)%nat ->
  match ds with
  | [] => device_next fuel mem st = (Ret None, st')
  | d :: ds' => exists m st1, (m < n)%nat /\ device_next fuel mem st = (Ret (Some d), st1) /\
      walks mem m st1 ds' st'
  end.
Proof.
  intros H. revert fuel. induction H as [st|n st o st1 ds st2 Hd Hb Hw IH]; intros fuel He Hn.
  - destruct fuel; cbn [device_next]; by rewrite He.
  - destruct fuel as [|f]; [lia|].
    assert (forall r, match o with Some d => (Ret (Some d), st1) | None => device_next f mem st1 end = r ->
      device_next (S f) mem st = r) as E.
    { intros r <-. cbn [device_next]. destruct (dir_stack st) eqn:Es; [done|].
      rewrite (st_bind_ret _ _ _ _ _ Hb). by destruct o. }
    destruct o as [d|]; cbn [option_list app].
    + exists n, st1. split_and!; [lia|by apply E|done].
    + specialize (IH f He ltac:(lia)). destruct ds as [|d ds'].
      * by apply E.
      * destruct IH as (m & st3 & ? & ? & ?). exists m, st3. split_and!; [lia|by apply E|done].
Qed.

Lemma collect_walk mem n st ds st' fuel acc :
  walks mem n st ds st' -> dir_stack st' = [] -> (n < fuel)%nat ->
  collect fuel mem acc st = (Ret (acc ++ ds), st').
Proof.
  revert n st acc fuel. induction ds as [|d ds IH]; intros n st acc [|f] Hw He Hn; try lia;
    pose proof (device_next_walk mem n st _ st' (S f) Hw He ltac:(lia)) as H; cbn [collect].
  - rewrite (st_bind_ret _ _ _ _ _ H). by rewrite app_nil_r.
  - destruct H as (m & st1 & Hm & H & Hw1). rewrite (st_bind_ret _ _ _ _ _ H).
    rewrite (IH m st1 (acc ++ [d]) f Hw1 He) by lia. by rewrite <-app_assoc.
Qed.

(** ** The steps of the walk *)

Lemma next_subdir_spec path rest :
  match List.filter (is_subdir path) rest with
  | [] => next_subdir path rest = (None, [])
  | d :: more => exists rest', next_subdir path rest = (Some d, rest') /\
      List.filter (is_subdir path) rest' = more
  end.
Proof.
  induction rest as [|x rest IH]; [done|]. cbn [List.filter next_subdir]. unfold is_subdir at 1.
  destruct (bool_decide (x = "."%string) || bool_decide (x = ".."%string)); [exact IH|]. cbn [negb andb].
  destruct (path_is_dir path x); [by exists rest|exact IH].
Qed.

Lemma check_step mem path names dirs o :
  own_device mem path names = Ret o ->
  device_next_body mem (DtState path (Dir names names :: dirs) false) =
    (Ret o, DtState path (Dir names names :: dirs) true).
Proof.
  unfold own_device, device_next_body. cbn [dir_stack top_dir_checked_for_dev path_stack negb].
  unfold dir_has_file. cbn [d_all fst]. intros H. destruct (existsb _ _).
  - unfold rewinddir. cbn [d_all]. destruct (dev_from_dir mem path (Dir names names)) as [r d] eqn:E.
    cbn [fst] in H. subst r. unfold dev_from_dir in E. destruct path as [|? [|? ?]]; try discriminate.
    injection E as <- <-. done.
  - by injection H as <-.
Qed.

Lemma enter_step mem path all rest dirs name rest' names :
  next_subdir path rest = (Some name, rest') ->
  fs_opendir (file_path_from_stack (name :: path) "") = Some names ->
  device_next_body mem (DtState path (Dir all rest :: dirs) true) =
    (Ret None, DtState (name :: path) (Dir names names :: Dir all rest' :: dirs) false).
Proof.
  intros Hn Ho. unfold device_next_body. cbn [dir_stack top_dir_checked_for_dev negb].
  erewrite st_bind_ret.
  2:{ unfold go_next_dir. cbn [dir_stack path_stack d_rest d_all]. rewrite Hn.
      erewrite st_bind_ret. 2:{ unfold opendir_on_stack. cbn [path_stack]. rewrite Ho. done. }
      done. }
  done.
Qed.

Lemma leave_step mem name path all rest dirs :
  next_subdir (name :: path) rest = (None, []) ->
  device_next_body mem (DtState (name :: path) (Dir all rest :: dirs) true) =
    (Ret None, DtState path dirs true).
Proof.
  intros Hn. unfold device_next_body. cbn [dir_stack top_dir_checked_for_dev negb].
  erewrite st_bind_ret.
  2:{ unfold go_next_dir. cbn [dir_stack path_stack d_rest d_all]. rewrite Hn. done. }
  done.
Qed.

(** A directory that was just opened is walked and left. *)
Definition walked mem path t : Prop := forall ds stack,
  on_disk path t -> tree_devices mem path t = Ret ds ->
  let '(DTree name names _) := t in
  walks mem (3 * dirs t - 1) (DtState (name :: path) (Dir names names :: stack) false) ds
    (DtState path stack true).

(** The subdirectories from [rest] on, and the end of the directory. *)
Lemma walk_rest mem name path all subs : Forall (fun t => forall path, walked mem path t) subs ->
  forall rest stack ds,
  map dt_name subs = List.filter (is_subdir (name :: path)) rest ->
  foldr (fun s P => on_disk (name :: path) s /\ P) True subs ->
  foldr (fun s acc => tree_devices mem (name :: path) s ≫= fun ds => acc ≫= fun ds' => mret (ds ++ ds'))
    (mret []) subs = Ret ds ->
  walks mem (S (3 * foldr (fun s n => dirs s + n)%nat 0%nat subs))
    (DtState (name :: path) (Dir all rest :: stack) true) ds (DtState path stack true).
Proof.
  induction 1 as [|[sn snames ssubs] subs Hs _ IH]; intros rest stack ds Hf Hd Ht; cbn [map foldr] in *.
  - pose proof (next_subdir_spec (name :: path) rest) as H. rewrite <-Hf in H. injection Ht as <-.
    eapply (walks_step mem 0 _ None _ []); [done|by apply leave_step|constructor].
  - pose proof (next_subdir_spec (name :: path) rest) as H. rewrite <-Hf in H.
    destruct H as (rest' & Hn & Hf'). destruct Hd as [Hsub Hd]. cbn [dt_name] in Hn.
    destruct (tree_devices mem (name :: path) (DTree sn snames ssubs)) as [ds1| |] eqn:E1; try discriminate.
    cbn [mbind outcome_bind] in Ht. destruct (foldr _ (mret []) subs) as [ds2| |] eqn:E2; try discriminate.
    injection Ht as <-.
    pose proof (Hs (name :: path) ds1 (Dir all rest' :: stack) Hsub E1) as W1.
    pose proof (IH rest' stack ds2 (eq_sym Hf') Hd eq_refl) as W2.
    set (k := dirs (DTree sn snames ssubs)) in *. set (m := foldr _ 0%nat subs) in *.
    assert (1 <= k)%nat as Hk by (unfold k; cbn [dirs]; lia).
    replace (S (3 * (k + m))) with (S ((3 * k - 1) + S (3 * m))) by lia.
    eapply (walks_step mem _ _ None _ (ds1 ++ ds2)); [done| |eapply walks_app; [exact W1|exact W2]].
    apply enter_step; [done|]. by destruct Hsub.
Qed.

Lemma tree_walked mem t : forall path, walked mem path t.
Proof.
  induction t as [name names subs IH] using dtree_ind'. intros path ds stack Hd Ht.
  cbn [on_disk] in Hd. destruct Hd as (_ & Hf & Hsubs). cbn [tree_devices] in Ht.
  destruct (own_device mem (name :: path) names) as [o| |] eqn:Eo; try discriminate.
  cbn [mbind outcome_bind] in Ht. destruct (foldr _ (mret []) subs) as [below| |] eqn:Eb; try discriminate.
  injection Ht as <-. cbn [dirs]. set (m := foldr _ 0%nat subs).
  replace (3 * S m - 1)%nat with (S (S (3 * m))) by lia.
  eapply walks_step; [done|by apply check_step|]. by apply walk_rest.
Qed.

(** [devAddrCmp] orders by address. *)
Lemma devAddrCmp_order : strict_weak_order devAddrCmp.
Proof. split; unfold devAddrCmp; intros; rewrite ?Z.ltb_lt, ?Z.ltb_ge, ?Z.ltb_irrefl in *; lia. Qed.

Lemma addr_sorted {SO : StdSort} l :
  StronglySorted (fun a b => on_bus_base_addr a <= on_bus_base_addr b) (std_sort devAddrCmp l).
Proof.
  induction (std_sort_sorted devAddrCmp l devAddrCmp_order) as [|a l' Hs IH Ha]; constructor; [done|].
  eapply Forall_impl; [exact Ha|]. unfold devAddrCmp. intros b Hb. by apply Z.ltb_ge.
Qed.

(** C22: the bus has the devices of the directory tree, each directory looked
    at once and before its subdirectories, then sorted by address; the walk
    ends after at most three steps for each directory.  [tree_devices] is
    the recursive reading of the tree that the two stacks of the code stand
    for. *)
Theorem devicetree_walk_correct {SO : StdSort} fuel root mem_path t ds :
  dt_name t = root -> on_disk [] t -> tree_devices mem_path [] t = Ret ds -> (3 * dirs t <= fuel)%nat ->
  exists devs, hwio_bus_devicetree fuel root mem_path = Ret devs /\ devs ≡ₚ ds /\
    StronglySorted (fun a b => on_bus_base_addr a <= on_bus_base_addr b) devs.
Proof.
  intros <- Hd Ht Hn. destruct t as [root names subs]. cbn [dt_name].
  exists (std_sort devAddrCmp ds). split; [|split; [apply std_sort_perm|apply addr_sorted]].
  assert (fs_opendir root = Some names) as Ho.
  { destruct Hd as [H _]. by rewrite file_path_root in H. }
  pose proof (tree_walked mem_path (DTree root names subs) [] ds [] Hd Ht) as Hw. cbn iota beta in Hw.
  assert (1 <= dirs (DTree root names subs))%nat by (cbn [dirs]; lia).
  unfold hwio_bus_devicetree. rewrite Ho.
  by rewrite (collect_walk _ _ _ _ _ fuel [] Hw) by (done || lia).
Qed.
End walk.
