(* ===== verification/DevicetreeTest.v ===== *)
(** * A concrete device tree, and the witnesses of its properties

    Two serial ports below a bus, and a directory whose ["reg"] has the size
    of a 64-bit system. *)

From Stdlib Require Import ZArith Lia Ascii String.
From stdpp Require Import base tactics list sorting numbers strings gmap fin_maps.
From S2P Require Import Prelude CxxString Version CompSpec Device Mmap Bus Devicetree DevicetreeSpec.

Module TestTree.
Import TestMachine.

Definition not_after (cmp : hwio_device_mmap -> hwio_device_mmap -> bool) (a b : hwio_device_mmap) : Prop :=
  cmp b a = false.

#[export] Instance not_after_dec cmp : RelDecision (not_after cmp).
Proof. intros a b. unfold not_after. apply _. Defined.

#[export] Program Instance merge_std_sort : StdSort :=
  {| std_sort cmp l := merge_sort (not_after cmp) l |}.
Next Obligation. intros cmp l. apply merge_sort_Permutation. Qed.
Next Obligation.
  intros cmp l [Hirr Hasym Hbtw]. apply StronglySorted_merge_sort; unfold not_after.
  - intros a b c Hab Hbc. destruct (cmp c a) eqn:E; [|done]. destruct (Hbtw c a b E); congruence.
  - intros a b. destruct (cmp b a) eqn:E; [right; by apply Hasym|by left].
Qed.

Definition uart : string := "xlnx,xps-uartlite-1.1.97".

(** The directories and the files by their paths. *)
Definition test_dirs : list (string * list string) :=
  [("/dt", [".."; "."; "model"; "plb@0"; "memory@0"]);
   ("/dt/plb@0", ["."; ".."; "serial@88000000"; "serial@84000000"]);
   ("/dt/plb@0/serial@88000000", ["."; ".."; "compatible"; "reg"]);
   ("/dt/plb@0/serial@84000000", ["."; ".."; "reg"; "clock"; "compatible"]);
   ("/dt/memory@0", ["."; ".."; "reg"])]%string.

Definition reg_file (base sz : Z) : list byte := be32 base ++ be32 sz.

Definition test_files : list (string * list byte) :=
  [("/dt/model", chars "test");
   ("/dt/plb@0/serial@88000000/compatible", compat_file [uart; "simple-bus"]);
   ("/dt/plb@0/serial@88000000/reg", reg_file 2281701376 65536);
   ("/dt/plb@0/serial@84000000/compatible", compat_file [uart]);
   ("/dt/plb@0/serial@84000000/clock", [NUL]);
   ("/dt/plb@0/serial@84000000/reg", reg_file 2214592512 65536);
   ("/dt/memory@0/reg", compat_file [uart; uart])]%string.

Definition find_path {A} (l : list (string * A)) (p : string) : option A :=
  snd <$> List.find (fun e => bool_decide (e.1 = p)) l.

#[export] Instance test_fs : FileSystem := {|
  fs_stat p :=
    match find_path test_dirs p, find_path test_files p with
    | Some _, _ => Some S_IFDIR
    | None, Some _ => Some S_IFREG
    | None, None => None
    end;
  fs_opendir p := find_path test_dirs p;
  fs_fopen p := Some <$> find_path test_files p
|}.

Definition serial (name : string) : dtree :=
  DTree name (default [] (find_path test_dirs ("/dt/plb@0/" +:+ name))) [].

Definition test_tree : dtree :=
  DTree "/dt" (default [] (find_path test_dirs "/dt"))
    [DTree "plb@0" (default [] (find_path test_dirs "/dt/plb@0"))
       [serial "serial@88000000"; serial "serial@84000000"];
     DTree "memory@0" (default [] (find_path test_dirs "/dt/memory@0")) []].

Definition test_specs : list hwio_comp_spec :=
  [make_spec "xlnx" "xps-uartlite" (Version 1 1 97)].

Definition serial_dev (name : string) (specs : list hwio_comp_spec) (base : Z) : hwio_device_mmap :=
  set_dev_name name (new_mmap_device specs base 65536 "/dev/mem").

Definition bus_spec : hwio_comp_spec := make_spec "" "simple-bus" default_version.

(** The devices in the order of the walk. *)
Definition test_devices : list hwio_device_mmap :=
  [serial_dev "serial@88000000" (test_specs ++ [bus_spec]) 2281701376;
   serial_dev "serial@84000000" test_specs 2214592512].

Lemma devicetree_walk_correct_witness :
  exists devs, hwio_bus_devicetree 15 "/dt" "/dev/mem" = Ret devs /\ devs ≡ₚ test_devices /\
    StronglySorted (fun a b => on_bus_base_addr a <= on_bus_base_addr b) devs.
Proof.
  apply (devicetree_walk_correct 15 "/dt" "/dev/mem" test_tree test_devices).
  - reflexivity.
  - vm_compute. repeat split.
  - vm_compute. reflexivity.
  - apply Nat.leb_le. reflexivity.
Defined.

Example devicetree_walk_sorted : hwio_bus_devicetree 15 "/dt" "/dev/mem" = Ret (rev test_devices).
Proof. vm_compute. reflexivity. Qed.

Lemma uart_parsed : hwio_comp_spec_of_str uart = Ret (make_spec "xlnx" "xps-uartlite" (Version 1 1 97)).
Proof. vm_compute. reflexivity. Qed.

Lemma uart_no_nul : no_nul uart.
Proof. apply (bool_decide_unpack _). vm_compute. exact I. Qed.

Definition serial_path : list string := ["serial@84000000"; "plb@0"; "/dt"]%string.

Lemma serial_files : device_files serial_path (be32 2214592512 ++ be32 65536) [uart] test_specs.
Proof.
  split.
  - vm_compute. reflexivity.
  - vm_compute. reflexivity.
  - vm_compute. reflexivity.
  - vm_compute. reflexivity.
  - constructor; [apply uart_no_nul|constructor].
  - constructor; [apply uart_parsed|constructor].
Qed.

Lemma dev_from_dir_correct_witness :
  let names := ["."; ".."; "reg"; "clock"; "compatible"]%string in
  dev_from_dir "/dev/mem" serial_path (Dir names []) =
    (Ret (Some (serial_dev "serial@84000000" test_specs 2214592512)), Dir names names).
Proof.
  intros names.
  refine (eq_trans (dev_from_dir_correct "/dev/mem" "serial@84000000" "plb@0" ["/dt"%string] names []
    (be32 2214592512 ++ be32 65536) [uart] test_specs serial_files _ _ _) _).
  - apply (bool_decide_unpack _). vm_compute. exact I.
  - apply (bool_decide_unpack _). vm_compute. exact I.
  - apply (bool_decide_unpack _). vm_compute. exact I.
  - reflexivity.
Defined.
End TestTree.
