(* ===== verification/Json.v ===== *)
(** * hwio_bus_json: devices from a JSON description

    Models [src/bus/hwio_bus_json.cpp] on property trees, the data that
    [boost::property_tree::read_json] gives; reading the file is a parameter.
    [CxxString.stoul16] is [std::stoul] in base 16. *)

From Stdlib Require Import ZArith Lia Ascii String.
From stdpp Require Import base tactics list numbers strings gmap fin_maps.
From S2P Require Import Prelude CxxString Version CompSpec Device Mmap Bus.

(** ** Property trees *)

Inductive ptree := PTree (pt_data : string) (pt_children : list (string * ptree)).

Definition pt_data (t : ptree) : string := let '(PTree d _) := t in d.
Definition pt_children (t : ptree) : list (string * ptree) := let '(PTree _ c) := t in c.

Definition pt_find (t : ptree) (key : string) : option ptree :=
  snd <$> List.find (fun c => bool_decide (c.1 = key)) (pt_children t).

(** [get<std::string>(key, def)], [get<std::string>(key)] and [get_child(key)]
    for keys without a dot; [ptree_bad_path] is a [runtime_error]. *)
Definition pt_get (t : ptree) (key def : string) : string :=
  match pt_find t key with Some c => pt_data c | None => def end.

Definition get_child (t : ptree) (key : string) : outcome ptree :=
  match pt_find t key with
  | Some c => Ret c
  | None => Throw (Exn EX_runtime_error ("No such node (" +:+ key +:+ ")"))
  end.

Definition pt_get_required (t : ptree) (key : string) : outcome string :=
  get_child t key ≫= fun c => mret (pt_data c).

Section json.
Context {OS : Posix}.

(** The loop over ["compatible"]; the names of array elements are empty. *)
Fixpoint parse_compatible (name : string) (items : list (string * ptree))
    (specs : list hwio_comp_spec) : outcome (list hwio_comp_spec) :=
  match items with
  | [] => mret specs
  | (first, second) :: t =>
      if negb (bool_decide (first = ""%string)) then Undef AssertFailed
      else
        hwio_comp_spec_of_str (of_chars (upto_nul (chars (pt_data second)))) ≫= fun spec =>
        parse_compatible name t (specs ++ [copy_spec (name_set name spec)])
  end.

Definition wrong_format {A} (msg : string) : outcome A := Throw (Exn EX_wrong_format msg).

(** [parse_device]; [_size] is made of ["base"] and [_base] of ["size"]. *)
Definition parse_device (src : ptree) (offset : Z) (mem_file_path : string) : outcome hwio_device_mmap :=
  let name := pt_get src "name" "" in
  let base := pt_get src "base" "" in
  let size := pt_get src "size" "" in
  if bool_decide (base = ""%string) then wrong_format "Missing base attribute"
  else if bool_decide (size = ""%string) then wrong_format "Missing size attribute"
  else
    get_child src "compatible" ≫= fun compatible =>
    parse_compatible name (pt_children compatible) [] ≫= fun specs =>
    stoul16 base ≫= fun sz =>
    stoul16 size ≫= fun bs =>
    let _size := u32 sz in
    let _base := u32 bs in
    mret (new_mmap_device specs (u32 (offset + _base)) _size mem_file_path).

(** The loop of [load_devices]. *)
Fixpoint parse_devices (items : list (string * ptree)) (offset : Z) (mem_file : string)
    (_all_devices : list hwio_device_mmap) : outcome (list hwio_device_mmap) :=
  match items with
  | [] => mret _all_devices
  | (_, d) :: t =>
      parse_device d offset mem_file ≫= fun dev =>
      parse_devices t offset mem_file (_all_devices ++ [dev])
  end.

(** [load_devices], and the constructor from a tree: the devices of the bus. *)
Definition load_devices (root : ptree) : outcome (list hwio_device_mmap) :=
  let mem_file := pt_get root "memfile" DEFAULT_MEM_PATH in
  let offset_str := of_chars (upto_nul (chars (pt_get root "offset" "0"))) in
  stoul16 offset_str ≫= fun off =>
  let offset := u32 off in
  get_child root "devices" ≫= fun devices =>
  parse_devices (pt_children devices) offset mem_file [].

(** The files the process can read, with the tree [read_json] makes of them. *)
Class JsonFiles := { read_json : string -> option (outcome ptree) }.

(** [hwio_bus_json(const std::string & file_name)] *)
Definition hwio_bus_json `{!JsonFiles} (file_name : string) : outcome (list hwio_device_mmap) :=
  match read_json file_name with
  | None => Throw (Exn EX_runtime_error
      ("Specified config file for hwio_bus_json does not exists " +:+ file_name))
  | Some doc => doc ≫= load_devices
  end.
End json.

(** ** Descriptions *)

(** A device of a description; the JSON text of it as a tree. *)
Record description := Description {
  jd_name : string;
  jd_base : Z;
  jd_size : Z;
  jd_compatible : list string
}.

Definition leaf (s : string) : ptree := PTree s [].
Definition json_array (l : list ptree) : ptree := PTree "" (map (pair ""%string) l).

Definition json_device (d : description) : ptree :=
  PTree "" [("name"%string, leaf (jd_name d)); ("base"%string, leaf ("0x" +:+ to_hex (jd_base d)));
            ("size"%string, leaf ("0x" +:+ to_hex (jd_size d)));
            ("compatible"%string, json_array (map leaf (jd_compatible d)))].

Definition json_document (memfile : string) (offset : Z) (ds : list description) : ptree :=
  PTree "" [("memfile"%string, leaf memfile); ("offset"%string, leaf ("0x" +:+ to_hex offset));
            ("devices"%string, json_array (map json_device ds))].

(** The description denotes the specifications [specs]. *)
Definition described (d : description) (specs : list hwio_comp_spec) : Prop :=
  0 <= jd_base d < 2 ^ 32 /\ 0 <= jd_size d < 2 ^ 32 /\
  Forall2 (fun cs s => no_nul cs /\ hwio_comp_spec_of_str cs = Ret s) (jd_compatible d) specs.

Section description.
Context {OS : Posix}.

Lemma to_hex_prefix n : ("0x" +:+ to_hex n <> "")%string.
Proof. done. Qed.

Lemma no_nul_hex n : upto_nul (chars ("0x" +:+ to_hex n)) = chars ("0x" +:+ to_hex n).
Proof.
  rewrite chars_app. unfold to_hex. rewrite chars_of_chars.
  assert (forall fuel m acc, Forall (fun b => b <> NUL) acc -> Forall (fun b => b <> NUL) (hex_digits fuel m acc)) as H.
  { induction fuel as [|f IH]; intros m acc Ha; cbn [hex_digits]; [done|].
    assert (hex_char (m mod 16) <> NUL) as Hc.
    { intros E. pose proof (hex_val_char (m mod 16) (Z.mod_pos_bound m 16 ltac:(lia))) as Hv.
      rewrite E in Hv. discriminate. }
    destruct (m <? 16); [by constructor|]. apply IH. by constructor. }
  apply upto_nul_id. apply Forall_app. split; [|by apply H]. by repeat constructor.
Qed.

Lemma parse_compatible_run name css specs acc :
  Forall2 (fun cs s => no_nul cs /\ hwio_comp_spec_of_str cs = Ret s) css specs ->
  parse_compatible name (map (pair ""%string) (map leaf css)) acc = Ret (acc ++ map (name_set name) specs).
Proof.
  intros H. revert acc. induction H as [|cs s css specs [Hn Hs] _ IH]; intros acc; cbn [map parse_compatible].
  - by rewrite app_nil_r.
  - rewrite bool_decide_eq_true_2 by done. cbn [negb pt_data leaf].
    rewrite upto_nul_id, of_chars_chars, Hs by done. cbn [mbind outcome_bind]. rewrite IH.
    by rewrite <-app_assoc.
Qed.

Lemma parse_device_run d specs offset mem :
  described d specs ->
  parse_device (json_device d) offset mem =
  Ret (new_mmap_device (map (name_set (jd_name d)) specs) (u32 (offset + jd_size d)) (jd_base d) mem).
Proof.
  intros (Hb & Hs & Hc). unfold parse_device.
  change (pt_get (json_device d) "name" "") with (jd_name d).
  change (pt_get (json_device d) "base" "") with ("0x" +:+ to_hex (jd_base d))%string.
  change (pt_get (json_device d) "size" "") with ("0x" +:+ to_hex (jd_size d))%string.
  change (get_child (json_device d) "compatible") with (Ret (json_array (map leaf (jd_compatible d)))).
  cbv zeta. rewrite !bool_decide_eq_false_2 by done. cbn [mbind outcome_bind json_array pt_children].
  rewrite (parse_compatible_run _ _ specs) by done. cbn [mbind outcome_bind app].
  rewrite !stoul16_hex by lia. cbn [mbind outcome_bind].
  by rewrite (u32_small (jd_size d)), (u32_small (jd_base d)) by lia.
Qed.

(** The devices of a description. *)
Definition described_devices (memfile : string) (offset : Z) (ds : list description)
    (specs : list (list hwio_comp_spec)) : list hwio_device_mmap :=
  zip_with (fun d sp => new_mmap_device (map (name_set (jd_name d)) sp)
    (u32 (offset + jd_size d)) (jd_base d) memfile) ds specs.

Lemma load_devices_run memfile offset ds specs :
  0 <= offset < 2 ^ 32 -> Forall2 described ds specs ->
  load_devices (json_document memfile offset ds) = Ret (described_devices memfile offset ds specs).
Proof.
  intros Ho H. unfold load_devices, described_devices.
  change (pt_get (json_document memfile offset ds) "memfile" DEFAULT_MEM_PATH) with memfile.
  change (pt_get (json_document memfile offset ds) "offset" "0") with ("0x" +:+ to_hex offset)%string.
  change (get_child (json_document memfile offset ds) "devices") with (Ret (json_array (map json_device ds))).
  cbv zeta. rewrite no_nul_hex, of_chars_chars, stoul16_hex by lia. cbn [mbind outcome_bind].
  rewrite u32_small by lia. cbn [json_array pt_children].
  assert (forall acc, parse_devices (map (pair ""%string) (map json_device ds)) offset memfile acc =
    Ret (acc ++ zip_with (fun d sp => new_mmap_device (map (name_set (jd_name d)) sp)
         (u32 (offset + jd_size d)) (jd_base d) memfile) ds specs)) as E; [|by rewrite E].
  induction H as [|d sp ds specs Hd _ IH]; intros acc; cbn [map parse_devices zip_with].
  - by rewrite app_nil_r.
  - rewrite (parse_device_run d sp) by done. cbn [mbind outcome_bind]. by rewrite IH, <-app_assoc.
Qed.
(** C29: a description file gives one device for each entry, in order, with
    the name of the entry in each of its specifications; but the base address
    of the device is the offset plus the entry's ["size"], and its size is
    the entry's ["base"]: the two attributes are exchanged. *)
Theorem load_devices_correct memfile offset ds specs :
  0 <= offset < 2 ^ 32 -> Forall2 described ds specs ->
  load_devices (json_document memfile offset ds) =
  Ret (zip_with (fun d sp => new_mmap_device (map (name_set (jd_name d)) sp)
         (u32 (offset + jd_size d)) (jd_base d) memfile) ds specs).
Proof. apply load_devices_run. Qed.
End description.

Definition test_description : description :=
  Description "uart0" 131072 65536 ["xlnx,xps-uartlite-1.1.97"%string].

Lemma load_devices_correct_witness :
  load_devices (OS := TestMachine.test_posix) (json_document "mem0.dat" 4096 [test_description]) =
  Ret [new_mmap_device (OS := TestMachine.test_posix)
         [CompSpec "uart0" "xlnx" "xps-uartlite" (Version 1 1 97)] (4096 + 65536) 131072 "mem0.dat"].
Proof.
  refine (eq_trans (load_devices_correct (OS := TestMachine.test_posix) "mem0.dat" 4096 [test_description]
    [[make_spec "xlnx" "xps-uartlite" (Version 1 1 97)]] _ _) _).
  - lia.
  - constructor; [|constructor]. split; [cbn; lia|]. split; [cbn; lia|].
    constructor; [|constructor]. split; [|vm_compute; reflexivity].
    apply (bool_decide_unpack _). vm_compute. exact I.
  - reflexivity.
Defined.
