(* ===== verification/OwningBus.v ===== *)
(** * Buses that own their devices

    The device tree bus and the JSON bus create their memory-mapped devices,
    look devices up among them, and delete them in their destructors
    ([hwio_bus_devicetree.cpp], [hwio_bus_json.cpp]). *)

From Stdlib Require Import ZArith Lia Ascii String.
From stdpp Require Import base tactics list numbers strings gmap fin_maps.
From S2P Require Import Prelude CxxString Version CompSpec Device Mmap Bus Devicetree Json.

Section owning.
Context {OS : Posix}.
Implicit Types (w : MmapWorld).

(** The devices of a bus, as pointers. *)
Record owning_bus := OwningBus { ob_devices : list nat }.

(** The constructors: from a device tree, from a JSON file. *)
Definition new_owning_bus (devs : outcome (list hwio_device_mmap)) : ST MmapWorld owning_bus :=
  st_lift devs ≫= fun ds => st_mapM new_dev ds ≫= fun ptrs => mret (OwningBus ptrs).

Definition new_bus_devicetree {FS : FileSystem} {SO : StdSort} (fuel : nat) (device_tree_path mem_path : string) :
    ST MmapWorld owning_bus := new_owning_bus (hwio_bus_devicetree fuel device_tree_path mem_path).

Definition new_bus_json `{!JsonFiles} (file_name : string) : ST MmapWorld owning_bus :=
  new_owning_bus (hwio_bus_json file_name).

(** [hwio_bus_devicetree::find_devices], which copies the list first. *)
Definition devicetree_find_devices (b : owning_bus) (spec : list hwio_comp_spec) : ST MmapWorld (list nat) :=
  fun w => (Ret (filter_device_by_spec w (foldl (fun devs d => devs ++ [d]) [] (ob_devices b)) spec), w).

(** [hwio_bus_json::find_devices] *)
Definition json_find_devices (b : owning_bus) (spec : list hwio_comp_spec) : ST MmapWorld (list nat) :=
  fun w => (Ret (filter_device_by_spec w (ob_devices b) spec), w).

(** [~hwio_bus_devicetree], [~hwio_bus_json] *)
Definition delete_owning_bus (b : owning_bus) : ST MmapWorld unit := st_iter delete_dev (ob_devices b).

#[export] Instance json_bus : IBus MmapWorld nat owning_bus := {| find_devices := json_find_devices |}.

(** ** Properties *)

(** The two lookups are the same function. *)
Lemma devicetree_find_json b spec w : devicetree_find_devices b spec w = json_find_devices b spec w.
Proof.
  unfold devicetree_find_devices, json_find_devices. do 3 f_equal.
  assert (forall (l acc : list nat), foldl (fun devs d => devs ++ [d]) acc l = acc ++ l) as E; [|by rewrite E].
  induction l as [|d l IH]; intros acc; cbn; [by rewrite app_nil_r|]. by rewrite IH, <-app_assoc.
Qed.

(** The new objects are distinct, were not in use and hold the devices. *)
Lemma new_devs_run ds w : exists ptrs w',
  st_mapM new_dev ds w = (Ret ptrs, w') /\ mw_mem w' = mw_mem w /\ NoDup ptrs /\
  Forall2 (fun p d => mw_devs w' !! p = Some d) ptrs ds /\
  (forall p, p ∈ ptrs -> mw_devs w !! p = None) /\
  (forall p, p ∉ ptrs -> mw_devs w' !! p = mw_devs w !! p).
Proof.
  revert w. induction ds as [|d ds IH]; intros w.
  - exists [], w. split_and!; [done|done|constructor|constructor|by intros p ?%not_elem_of_nil|done].
  - cbn [st_mapM]. set (p := fresh (dom (mw_devs w))).
    set (w1 := MWorld (mw_mem w) (<[p := d]> (mw_devs w))).
    assert (mw_devs w !! p = None) as Hp by apply not_elem_of_dom, is_fresh.
    destruct (IH w1) as (ptrs & w' & Hrun & Hmem & Hnd & Hall & Hnew & Hold).
    assert (p ∉ ptrs) as Hp'.
    { intros Hin. specialize (Hnew p Hin). unfold w1 in Hnew. cbn in Hnew. by rewrite lookup_insert_eq in Hnew. }
    exists (p :: ptrs), w'. split_and!; [|done|by constructor| | |].
    + erewrite (st_bind_ret (new_dev d)) by done. by rewrite (st_bind_ret _ _ _ _ _ Hrun).
    + constructor; [|done]. rewrite Hold by done. unfold w1. cbn. by rewrite lookup_insert_eq.
    + intros q [->|Hq]%elem_of_cons; [done|]. specialize (Hnew q Hq). unfold w1 in Hnew. cbn in Hnew.
      destruct (decide (q = p)) as [->|]; [by rewrite lookup_insert_eq in Hnew|]. by rewrite lookup_insert_ne in Hnew.
    + intros q [Hne Hq]%not_elem_of_cons. rewrite Hold by done. unfold w1. cbn. by rewrite lookup_insert_ne.
Qed.

(** Deleting distinct live objects succeeds and leaves the others. *)
Lemma delete_devs_run ptrs w :
  NoDup ptrs -> (forall p, p ∈ ptrs -> is_Some (mw_devs w !! p)) -> exists w',
  st_iter delete_dev ptrs w = (Ret tt, w') /\ mw_mem w' = mw_mem w /\
  forall p, mw_devs w' !! p = if decide (p ∈ ptrs) then None else mw_devs w !! p.
Proof.
  intros Hnd. revert w. induction Hnd as [|p ptrs Hp _ IH]; intros w Hlive.
  - exists w. split_and!; [done|done|]. intros q. by rewrite decide_False by apply not_elem_of_nil.
  - destruct (Hlive p ltac:(left)) as [dev Hdev]. set (w1 := MWorld (mw_mem w) (delete p (mw_devs w))).
    destruct (IH w1) as (w' & Hrun & Hmem & Hall).
    { intros q Hq. unfold w1. cbn. rewrite lookup_delete_ne by (intros ->; done). apply Hlive. by right. }
    exists w'. split_and!; [|done|].
    + cbn [st_iter]. erewrite st_bind_ret; [exact Hrun|].
      unfold delete_dev. erewrite st_bind_ret. 2:{ unfold get_dev. by rewrite Hdev. }
      done.
    + intros q. rewrite Hall. unfold w1. cbn. destruct (decide (q = p)) as [->|Hne].
      * rewrite lookup_delete_eq, (decide_True (P := p ∈ p :: ptrs)) by left. by case_decide.
      * rewrite lookup_delete_ne by done. apply decide_ext. rewrite elem_of_cons. naive_solver.
Qed.

(** A bus that was built from devices finds, for a query, those that
    match one of its specifications, in the order of the bus, as objects that
    were not in use before; its destructor leaves the world as it was. *)
Theorem owning_bus_correct ds w :
  exists b w', new_owning_bus (Ret ds) w = (Ret b, w') /\
    Forall2 (fun p d => mw_devs w !! p = None /\ mw_devs w' !! p = Some d) (ob_devices b) ds /\
    (forall spec, find_devices b spec w' =
       (Ret (filter (device_matches w' spec) (ob_devices b)), w')) /\
    (forall p, is_Some (mw_devs w !! p) -> mw_devs w' !! p = mw_devs w !! p) /\
    delete_owning_bus b w' = (Ret tt, w).
Proof.
  destruct (new_devs_run ds w) as (ptrs & w' & Hrun & Hmem & Hnd & Hall & Hnew & Hold).
  assert (forall p, p ∈ ptrs -> is_Some (mw_devs w' !! p)) as Hlive.
  { intros p [i Hi]%list_elem_of_lookup. destruct (Forall2_lookup_l _ _ _ _ _ Hall Hi) as (d & _ & Hd). by exists d. }
  destruct (delete_devs_run ptrs w' Hnd Hlive) as (w2 & Hdel & Hmem2 & Hall2).
  exists (OwningBus ptrs), w'. split_and!.
  - unfold new_owning_bus. erewrite (st_bind_ret (st_lift (Ret ds))) by done. by rewrite (st_bind_ret _ _ _ _ _ Hrun).
  - cbn [ob_devices]. eapply Forall2_impl; [|intros p d H; exact H].
    apply Forall2_same_length_lookup. split; [by eapply Forall2_length|].
    intros i p d Hp Hd. split; [|by apply (Forall2_lookup_lr _ _ _ _ _ _ Hall Hp Hd)].
    apply Hnew. by eapply list_elem_of_lookup_2.
  - intros spec. cbn [find_devices json_bus]. unfold json_find_devices. by rewrite filter_device_by_spec_filter.
  - intros p [d Hd]. apply Hold. intros Hin. specialize (Hnew p Hin). by rewrite Hd in Hnew.
  - unfold delete_owning_bus. cbn [ob_devices]. rewrite Hdel. f_equal.
    destruct w as [m devs], w2 as [m2 devs2]. cbn in *. f_equal; [by rewrite Hmem2, Hmem|].
    apply map_eq. intros p. rewrite Hall2. case_decide as Hp; [by rewrite Hnew|by apply Hold].
Qed.
End owning.
