(* ===== verification/Cli.v ===== *)
(** * hwio_cli: buses from the command line and the configuration

    Models [src/hwio_cli.cpp].  [getopt_long], the configuration files and the
    home directory are parameters; the buses are created through [BusFactory],
    the interface of their constructors. *)

From Stdlib Require Import ZArith Lia Ascii String.
From stdpp Require Import base tactics list numbers strings gmap fin_maps.
From S2P Require Import Prelude CxxString Version CompSpec Device Mmap Bus Json.

(** The constructors of the three classes of buses. *)
Class BusFactory (W B : Type) := {
  new_hwio_bus_remote : string -> ST W B;
  new_hwio_bus_json : string -> ST W B;
  new_hwio_bus_devicetree : string -> string -> ST W B
}.

(** The home directory, and the files [stat] finds. *)
Class UserFiles := { pw_dir : string; file_exists : string -> bool }.

(** What a call of [getopt_long] returns for these options: its value and
    [optarg], which points into the argument vector. *)
Record opt_event := Opt { opt_val : byte; optarg : string }.

Class Getopt := { getopt_long : list string -> list string -> list opt_event }.

Section config.
Context {W B : Type} `{!BusFactory W B} `{!JsonFiles} `{!UserFiles}.

(** [throw wrong_format("definition of ... bus in json missing ... attribute")] *)
Definition quote : string := String (byte_of_Z 34) "".
Definition missing_attribute {A} (bus attribute : string) : outcome A :=
  wrong_format ("definition of " +:+ bus +:+ " bus in json missing " +:+ quote +:+ attribute +:+
    quote +:+ " attribute").

(** [hwio_bus_from_ptree] *)
Definition hwio_bus_from_ptree (n : ptree) : ST W B :=
  st_lift (pt_get_required n "type") ≫= fun type =>
  if bool_decide (type = "remote"%string) then
    let host := pt_get n "host" "" in
    if bool_decide (host = ""%string) then
      st_lift (missing_attribute "remote" "host")
    else new_hwio_bus_remote host
  else if bool_decide (type = "json"%string) then
    let file := pt_get n "file" "" in
    if bool_decide (file = ""%string) then
      st_lift (missing_attribute "json" "file")
    else new_hwio_bus_json file
  else if bool_decide (type = "devicetree"%string) then
    let devicetree := pt_get n "devicetree" "" in
    if bool_decide (devicetree = ""%string) then
      st_lift (missing_attribute "devicetree" "devicetree")
    else
      let mem := pt_get n "mem" "" in
      if bool_decide (mem = ""%string) then
        st_lift (missing_attribute "devicetree" "mem")
      else new_hwio_bus_devicetree devicetree mem
  else st_lift (wrong_format ("unknown definition of bus (" +:+ type +:+ ")")).

(** The loop of [hwio_config_load]. *)
Fixpoint config_buses (nodes : list (string * ptree)) (res : list B) : ST W (list B) :=
  match nodes with
  | [] => mret res
  | (first, second) :: t =>
      if negb (bool_decide (first = ""%string)) then st_undef AssertFailed
      else hwio_bus_from_ptree second ≫= fun b => config_buses t (res ++ [b])
  end.

(** [hwio_config_load(ptree &)] *)
Definition hwio_config_load (root : ptree) : ST W (list B) :=
  st_lift (get_child root "buses") ≫= fun buses => config_buses (pt_children buses) [].

(** [hwio_config_load(const std::string &)] *)
Definition hwio_config_load_file (file_name : string) : ST W (list B) :=
  match read_json file_name with
  | None => st_throw (Exn EX_runtime_error
      ("Specified config file for hwio_config_load does not exists " +:+ file_name))
  | Some root => st_lift root ≫= hwio_config_load
  end.

(** [hwio_load_default_config] *)
Definition hwio_load_default_config : ST W (list B) :=
  match List.find file_exists [(pw_dir +:+ "/.hwio/config.json")%string; "/etc/hwio/config.json"%string] with
  | Some name => hwio_config_load_file name
  | None => st_throw (Exn EX_runtime_error
      "[HWIO, cli] can not find any config file (~/.hwio/config.json or /etc/hwio/config.json)")
  end.
End config.

(** ** Arguments *)

Definition long_opts : list string :=
  ["hwio_config"; "hwio_devicetree"; "hwio_device_mem"; "hwio_remote"; "hwio_json"]%string.

Definition reducible_args : list string := map (fun name => "--" +:+ name)%string long_opts.

(** What the build writes into the help. *)
Class Build := { HWIO_VERSION : string; build_timestamp : string }.

(** [hwio_help_str] *)
Definition hwio_help_str `{!Build} : string :=
  "HWIO " +:+ HWIO_VERSION +:+ "(build " +:+ build_timestamp +:+ ") params:" +:+ endl +:+
  "   if no configuration file is specified ~/.hwio/config.json is used, if it does not exists /etc/hwio/config.json is used" +:+ endl +:+
  "   --hwio_config <path.json>   load hwio configuration from json file" +:+ endl +:+
  "   --hwio_devicetree <path>   root of devicetree to load device info from (def. " +:+ quote +:+ "/proc/device-tree" +:+ quote +:+ ")" +:+ endl +:+
  "   --hwio_device_mem <path>   file with memory space of devices, use with --hwio_devicetree (def. " +:+ quote +:+ DEFAULT_MEM_PATH +:+ quote +:+ ")" +:+ endl +:+
  "   --hwio_remote <ip:port>    connect to remote hwio server" +:+ endl +:+
  "   --hwio_json <path.json>      load devices from json file" +:+ endl.

(** The search of [rm_comsumed_args] in the arguments from index [i] on. *)
Fixpoint consumed_args (i : nat) (args : list string) : list nat :=
  match args with
  | [] => []
  | a :: t =>
      if bool_decide (a ∈ reducible_args) then
        i :: S i :: match t with [] => [] | _ :: t' => consumed_args (S (S i)) t' end
      else consumed_args (S i) t
  end.

(** [std::remove_if] with a predicate on positions: the elements that stay
    are moved to the front, the places after them keep their values. *)
Definition remove_at (pred : nat -> bool) (argv : list string) : list string :=
  let kept := map snd (List.filter (fun e => negb (pred e.1)) (imap pair argv)) in
  kept ++ drop (length kept) argv.

(** [rm_comsumed_args]: [argc] and [argv] afterwards.  The search stops at
    [argc] and [remove_if] works on the first [argc] places.  The second place
    pushed for an option that is the last argument is [argc]; it is counted
    and never looked up. *)
Definition rm_comsumed_args (argc : Z) (argv : list string) : Z * list string :=
  let n := Z.to_nat argc in
  let consumed := consumed_args 1 (tail (take n argv)) in
  let argv' :=
    remove_at (fun i => let do_remove := bool_decide (i ∈ consumed) in negb do_remove) (take n argv) in
  (argc - Z.of_nat (length consumed), argv' ++ drop n argv).

(** [copy_argv]: the copies have the same characters. *)
Definition copy_argv (argc : Z) (argv : list string) : list string := take (Z.to_nat argc) argv.

Section init.
Context {W B : Type} `{!BusFactory W B} `{!JsonFiles} `{!UserFiles} `{!Getopt}.

(** The variables of the loop of [hwio_init]. *)
Record init_state := InitState {
  is_buses : list B;
  is_devicetree : option string;
  is_device_mem : option string;
  config_specified : bool
}.

(** The [switch] on one option. *)
Definition init_step (o : opt_event) (v : init_state) : ST W init_state :=
  if bool_decide (opt_val o = "c"%char) then
    hwio_config_load_file (optarg o) ≫= fun bs =>
    mret (InitState (is_buses v ++ bs) (is_devicetree v) (is_device_mem v) true)
  else if bool_decide (opt_val o = "r"%char) then
    new_hwio_bus_remote (optarg o) ≫= fun b =>
    mret (InitState (is_buses v ++ [b]) (is_devicetree v) (is_device_mem v) (config_specified v))
  else if bool_decide (opt_val o = "j"%char) then
    new_hwio_bus_json (optarg o) ≫= fun b =>
    mret (InitState (is_buses v ++ [b]) (is_devicetree v) (is_device_mem v) (config_specified v))
  else if bool_decide (opt_val o = "d"%char) then
    match is_devicetree v with
    | Some path =>
        new_hwio_bus_devicetree path (default DEFAULT_MEM_PATH (is_device_mem v)) ≫= fun bus =>
        mret (InitState (is_buses v ++ [bus]) (Some (optarg o)) None (config_specified v))
    | None => mret (InitState (is_buses v) (Some (optarg o)) (is_device_mem v) (config_specified v))
    end
  else if bool_decide (opt_val o = "m"%char) then
    match is_device_mem v with
    | Some _ => st_throw (Exn EX_runtime_error
        "hwio_device_mem cli arg redefinition without hwio_devicetree specified")
    | None => mret (InitState (is_buses v) (is_devicetree v) (Some (optarg o)) (config_specified v))
    end
  else mret v.

(** The loop over the options. *)
Fixpoint init_loop (opts : list opt_event) (v : init_state) : ST W init_state :=
  match opts with
  | [] => mret v
  | o :: t => init_step o v ≫= init_loop t
  end.

(** [catch (const std::exception & e) { ...; throw e; }]: the exception thrown
    is a copy of the base class. *)
Definition rethrow_sliced {A} (m : ST W A) : ST W A := fun w =>
  match m w with
  | (Throw _, w') => (Throw (Exn EX_exception "std::exception"), w')
  | r => r
  end.

(** [hwio_init]: the bus, and [argc] and [argv] afterwards.  The copies of the
    arguments are freed before the path left by [--hwio_devicetree], which
    points into them, is used. *)
Definition hwio_init (argc : Z) (argv : list string) : ST W (B * (Z * list string)) :=
  let _argv := copy_argv argc argv in
  rethrow_sliced (init_loop (getopt_long long_opts _argv) (InitState [] None None false)) ≫= fun v =>
  match is_devicetree v with
  | Some _ => st_undef UseAfterFree
  | None =>
      let args := rm_comsumed_args argc argv in
      (if negb (config_specified v) then
         hwio_load_default_config ≫= fun bs => mret (is_buses v ++ bs)
       else mret (is_buses v)) ≫= fun buses =>
      match buses with
      | [] => st_throw (Exn EX_runtime_error "[HWIO, cli] does not have any bus specified")
      | [bus] => mret (bus, args)
      | _ => st_undef AssertFailed
      end
  end.
End init.

(** [hwio_select_devs_from_vector] *)
Definition hwio_select_devs_from_vector {D} (devices : list D) (index : Z) : outcome (list D) :=
  let select (index : Z) :=
    match devices !! Z.to_nat index with
    | None => Throw (Exn EX_out_of_range ("Can not use device " +:+ to_dec index +:+
        " because platform has only " +:+ to_dec (Z.of_nat (length devices)) +:+ " devices"))
    | Some d => Ret [d]
    end in
  if index <? 0 then
    if (length devices <=? 1)%nat then select 0
    else Throw (Exn EX_out_of_range
      ("Multiple devices present, device index specification is required (devices_cnt=" +:+
       to_dec (Z.of_nat (length devices)) +:+ ")"))
  else select index.

(** ** Properties *)

(** The option words and their arguments. *)
Fixpoint option_words (args : list string) : list string :=
  match args with
  | [] => []
  | a :: t =>
      if bool_decide (a ∈ reducible_args) then
        a :: match t with [] => [] | v :: t' => v :: option_words t' end
      else option_words t
  end.

(** The option words alone. *)
Fixpoint found_options (args : list string) : list string :=
  match args with
  | [] => []
  | a :: t =>
      if bool_decide (a ∈ reducible_args) then
        a :: match t with [] => [] | _ :: t' => found_options t' end
      else found_options t
  end.

(** Induction over arguments one or two at a time. *)
Lemma args_ind (P : list string -> Prop) :
  P [] -> (forall a, P [a]) -> (forall a v t, P t -> P (v :: t) -> P (a :: v :: t)) -> forall args, P args.
Proof.
  intros H0 H1 H2 args. enough (P args /\ forall a, P (a :: args)) by naive_solver.
  induction args as [|v t [IH1 IH2]]; [by split|]. split; [done|]. intros a. by apply H2.
Qed.

Lemma consumed_args_cons k a v t :
  consumed_args k (a :: v :: t) =
  if bool_decide (a ∈ reducible_args) then k :: S k :: consumed_args (S (S k)) t else consumed_args (S k) (v :: t).
Proof. done. Qed.

Lemma option_words_cons a v t :
  option_words (a :: v :: t) =
  if bool_decide (a ∈ reducible_args) then a :: v :: option_words t else option_words (v :: t).
Proof. done. Qed.

Lemma consumed_args_length args : forall k,
  length (consumed_args k args) = (2 * length (found_options args))%nat.
Proof.
  induction args as [|a|a v t IH1 IH2] using args_ind; intros k; [done|..].
  - cbn. by case_bool_decide.
  - rewrite consumed_args_cons. change (found_options (a :: v :: t)) with
      (if bool_decide (a ∈ reducible_args) then a :: found_options t else found_options (v :: t)).
    case_bool_decide; [|by rewrite IH2]. cbn [length]. rewrite IH1. lia.
Qed.

Lemma consumed_args_ge args : forall k i, i ∈ consumed_args k args -> (k <= i)%nat.
Proof.
  induction args as [|a|a v t IH1 IH2] using args_ind; intros k i.
  - by intros ?%not_elem_of_nil.
  - cbn [consumed_args]. case_bool_decide; [|by intros ?%not_elem_of_nil].
    rewrite !elem_of_cons. intros [->|[->|[]%not_elem_of_nil]]; lia.
  - rewrite consumed_args_cons. case_bool_decide as Ha.
    + rewrite !elem_of_cons. intros [->|[->|Hi]]; [lia..|]. apply IH1 in Hi. lia.
    + intros Hi. apply (IH2 (S k)) in Hi. lia.
Qed.

(** The arguments with their positions, from [k] on. *)
Definition numbered (k : nat) (args : list string) : list (nat * string) := zip (seq k (length args)) args.

Lemma imap_numbered args : imap pair args = numbered 0 args.
Proof.
  unfold numbered. apply list_eq. intros i. rewrite list_lookup_imap, lookup_zip_with.
  destruct (args !! i) as [x|] eqn:E; cbn.
  - by rewrite lookup_seq_lt by by eapply lookup_lt_Some.
  - by destruct (seq 0 (length args) !! i).
Qed.

(** The elements at the consumed positions. *)
Lemma consumed_words args : forall k (cs : list nat),
  (forall i, (k <= i)%nat -> i ∈ cs <-> i ∈ consumed_args k args) ->
  map snd (List.filter (fun e => bool_decide (e.1 ∈ cs)) (numbered k args)) = option_words args.
Proof.
  induction args as [|a|a v t IH1 IH2] using args_ind; intros k cs Hcs; [done|..].
  - cbn [consumed_args] in Hcs. unfold numbered. cbn [seq length zip zip_with List.filter fst option_words].
    rewrite (bool_decide_ext _ _ (Hcs k (Nat.le_refl k))). case_bool_decide as Ha.
    + by rewrite bool_decide_eq_true_2 by left.
    + by rewrite bool_decide_eq_false_2 by apply not_elem_of_nil.
  - rewrite consumed_args_cons in Hcs. rewrite option_words_cons.
    change (numbered k (a :: v :: t)) with ((k, a) :: numbered (S k) (v :: t)).
    cbn [List.filter fst]. rewrite (bool_decide_ext _ _ (Hcs k (Nat.le_refl k))). case_bool_decide as Ha.
    + rewrite bool_decide_eq_true_2 by left.
      change (numbered (S k) (v :: t)) with ((S k, v) :: numbered (S (S k)) t). cbn [List.filter fst].
      rewrite bool_decide_eq_true_2 by (apply Hcs; [lia|right; left]).
      cbn [map snd]. do 2 f_equal. apply IH1. intros i Hi. rewrite Hcs, !elem_of_cons by lia. naive_solver lia.
    + rewrite bool_decide_eq_false_2 by (intros Hi%consumed_args_ge; lia).
      apply IH2. intros i Hi. apply Hcs. lia.
Qed.

(** C28: [rm_comsumed_args] does the opposite of what it is for: it moves the
    options of the library and their arguments to the front of [argv], over
    the name of the program and the arguments of the application; the places
    behind them keep their values.  [argc] decreases by two for each option
    found, also for one that is the last argument and has no value, so without
    such an option it is the number of the words that do not belong to the
    library.  What [argv] has behind its first [argc] places is neither read
    nor changed. *)
Theorem rm_comsumed_args_keeps_options prog args rest :
  rm_comsumed_args (Z.of_nat (S (length args))) (prog :: args ++ rest) =
  (Z.of_nat (S (length args)) - 2 * Z.of_nat (length (found_options args)),
   option_words args ++ drop (length (option_words args)) (prog :: args) ++ rest).
Proof.
  unfold rm_comsumed_args, remove_at. rewrite Nat2Z.id.
  assert (take (S (length args)) (prog :: args ++ rest) = prog :: args) as ->
    by (cbn; by rewrite take_app_length).
  assert (drop (S (length args)) (prog :: args ++ rest) = rest) as -> by (cbn; by rewrite drop_app_length).
  cbn [tail]. f_equal; [rewrite consumed_args_length; lia|]. rewrite app_assoc. f_equal.
  set (cs := consumed_args 1 args).
  assert (map snd (List.filter (fun e => negb (negb (bool_decide (e.1 ∈ cs)))) (imap pair (prog :: args))) =
    option_words args) as E; [|by rewrite E].
  rewrite imap_numbered, <-(consumed_words args 1 cs) by done.
  change (numbered 0 (prog :: args)) with ((0%nat, prog) :: numbered 1 args). cbn [List.filter fst].
  rewrite bool_decide_eq_false_2 by (intros Hi%consumed_args_ge; lia). cbn [negb]. f_equal.
  apply List.filter_ext. intros e. by rewrite negb_involutive.
Qed.

(** ** Initialisation *)

Definition has_opt (c : byte) (opts : list opt_event) : bool :=
  existsb (fun o => bool_decide (opt_val o = c)) opts.

(** The options that name the memory of a device tree. *)
Definition mem_opts (opts : list opt_event) : list opt_event :=
  List.filter (fun o => bool_decide (opt_val o = "m"%char)) opts.

Section init_spec.
Context {W B : Type} `{!BusFactory W B} `{!JsonFiles} `{!UserFiles} `{!Getopt}.

(** The buses one option describes: those of a configuration, a remote or a
    JSON bus. *)
Definition opt_buses (o : opt_event) : ST W (list B) :=
  if bool_decide (opt_val o = "c"%char) then hwio_config_load_file (optarg o)
  else if bool_decide (opt_val o = "r"%char) then new_hwio_bus_remote (optarg o) ≫= fun b => mret [b]
  else if bool_decide (opt_val o = "j"%char) then new_hwio_bus_json (optarg o) ≫= fun b => mret [b]
  else mret [].

(** The buses of the options, in order. *)
Fixpoint described_buses (opts : list opt_event) : ST W (list B) :=
  match opts with
  | [] => mret []
  | o :: t => opt_buses o ≫= fun bs => described_buses t ≫= fun bs' => mret (bs ++ bs')
  end.

(** The variables after an option that does not name a device tree. *)
Definition stepped (o : opt_event) (v : init_state (B:=B)) (bs : list B) : init_state :=
  InitState (is_buses v ++ bs) (is_devicetree v)
    (if bool_decide (opt_val o = "m"%char) then Some (optarg o) else is_device_mem v)
    (config_specified v || bool_decide (opt_val o = "c"%char)).

(** One memory file at most. *)
Definition mems (opts : list opt_event) (v : init_state (B:=B)) : Prop :=
  (length (mem_opts opts) + length (option_list (is_device_mem v)) <= 1)%nat.

#[local] Ltac decide_chars :=
  repeat (case_bool_decide; try congruence).

Lemma init_step_described o v w :
  opt_val o <> "d"%char -> (opt_val o = "m"%char -> is_device_mem v = None) ->
  init_step o v w = (opt_buses o ≫= fun bs => mret (stepped o v bs)) w.
Proof.
  intros Hd Hm. unfold init_step, opt_buses, stepped.
  destruct (decide (opt_val o = "c"%char)) as [E|Ec]; [decide_chars; by rewrite orb_true_r|].
  destruct (decide (opt_val o = "r"%char)) as [E|Er];
    [decide_chars; by rewrite orb_false_r, st_bind_assoc|].
  destruct (decide (opt_val o = "j"%char)) as [E|Ej];
    [decide_chars; by rewrite orb_false_r, st_bind_assoc|].
  destruct (decide (opt_val o = "m"%char)) as [E|Em].
  - rewrite (Hm E). decide_chars. rewrite (st_bind_ret (mret []) _ w [] w eq_refl). by rewrite orb_false_r, app_nil_r.
  - decide_chars. rewrite (st_bind_ret (mret []) _ w [] w eq_refl), orb_false_r, app_nil_r. by destruct v.
Qed.

Lemma mem_opts_cons o t :
  mem_opts (o :: t) = if bool_decide (opt_val o = "m"%char) then o :: mem_opts t else mem_opts t.
Proof. done. Qed.

Lemma has_opt_cons c o t : has_opt c (o :: t) = bool_decide (opt_val o = c) || has_opt c t.
Proof. done. Qed.

(** The loop runs through without a device tree: it created the buses
    described. *)
Lemma init_loop_ret opts v w v' w' :
  init_loop opts v w = (Ret v', w') -> is_devicetree v' = None ->
  is_devicetree v = None /\ has_opt "d" opts = false /\ mems opts v /\
  exists bs, described_buses opts w = (Ret bs, w') /\ is_buses v' = is_buses v ++ bs /\
    config_specified v' = config_specified v || has_opt "c" opts.
Proof.
  revert v w. induction opts as [|o t IH]; intros v w Hr Hdt.
  - apply st_ret_inv in Hr as [-> ->]. split_and!; [done|done| |].
    + unfold mems. cbn. destruct (is_device_mem v'); cbn; lia.
    + exists []. by rewrite app_nil_r, orb_false_r.
  - cbn [init_loop] in Hr. apply st_bind_inv in Hr as (v1 & w1 & Hstep & Hr).
    destruct (IH _ _ Hr Hdt) as (Hdt1 & Hd & Hm & bs & Hbs & Hb & Hc). clear IH Hr.
    assert (opt_val o <> "d"%char) as Ho.
    { intros E. unfold init_step in Hstep. rewrite E in Hstep. cbn in Hstep.
      destruct (is_devicetree v).
      - apply st_bind_inv in Hstep as (? & ? & _ & Hstep). apply st_ret_inv in Hstep as [<- _]. discriminate.
      - apply st_ret_inv in Hstep as [<- _]. discriminate. }
    assert (opt_val o = "m"%char -> is_device_mem v = None) as Hmem.
    { intros E. unfold init_step in Hstep. rewrite E in Hstep. cbn in Hstep. by destruct (is_device_mem v). }
    rewrite init_step_described in Hstep by done.
    apply st_bind_inv in Hstep as (bs1 & w2 & Hb1 & Hstep). apply st_ret_inv in Hstep as [<- ->].
    cbn [stepped is_devicetree is_buses config_specified] in *. split_and!; [done| | |].
    + rewrite has_opt_cons. by rewrite bool_decide_eq_false_2.
    + revert Hm. unfold mems. rewrite mem_opts_cons. cbn [stepped is_device_mem].
      destruct (decide (opt_val o = "m"%char)) as [Em|Em].
      * rewrite !(bool_decide_eq_true_2 (opt_val o = "m"%char)), (Hmem Em) by done. cbn. lia.
      * by rewrite !(bool_decide_eq_false_2 (opt_val o = "m"%char)) by done.
    + exists (bs1 ++ bs). rewrite has_opt_cons, Hb, Hc, app_assoc, orb_assoc. split; [|done].
      cbn [described_buses]. rewrite (st_bind_ret _ _ _ _ _ Hb1). by rewrite (st_bind_ret _ _ _ _ _ Hbs).
Qed.

(** And conversely. *)
Lemma init_loop_runs opts v w bs w' :
  is_devicetree v = None -> has_opt "d" opts = false -> mems opts v -> described_buses opts w = (Ret bs, w') ->
  exists v', init_loop opts v w = (Ret v', w') /\ is_devicetree v' = None /\
    is_buses v' = is_buses v ++ bs /\ config_specified v' = config_specified v || has_opt "c" opts.
Proof.
  revert v w bs. induction opts as [|o t IH]; intros v w bs Hdt Hd Hm Hr.
  - apply st_ret_inv in Hr as [<- ->]. exists v. by rewrite app_nil_r, orb_false_r.
  - cbn [described_buses] in Hr. apply st_bind_inv in Hr as (bs1 & w1 & Hb1 & Hr).
    apply st_bind_inv in Hr as (bs2 & w2 & Hb2 & Hr). apply st_ret_inv in Hr as [<- ->].
    rewrite has_opt_cons in Hd. apply orb_false_iff in Hd as [Ho Hd]. apply bool_decide_eq_false in Ho.
    unfold mems in Hm. rewrite mem_opts_cons in Hm.
    destruct (IH (stepped o v bs1) w1 bs2) as (v' & Hrun & Hdt' & Hb' & Hc'); [done|done| |done|].
    { revert Hm. unfold mems. cbn [stepped is_device_mem]. destruct (decide (opt_val o = "m"%char)) as [Em|Em].
      - rewrite !(bool_decide_eq_true_2 (opt_val o = "m"%char)) by done. destruct (is_device_mem v); cbn; lia.
      - by rewrite !(bool_decide_eq_false_2 (opt_val o = "m"%char)) by done. }
    exists v'. cbn [init_loop]. split_and!; [|done| |].
    + erewrite st_bind_ret; [exact Hrun|]. rewrite init_step_described; [|done|].
      * by rewrite (st_bind_ret _ _ _ _ _ Hb1).
      * intros E. rewrite bool_decide_eq_true_2 in Hm by done. destruct (is_device_mem v); [cbn in Hm; lia|done].
    + rewrite Hb'. cbn [stepped is_buses]. by rewrite app_assoc.
    + rewrite Hc', has_opt_cons. cbn [stepped config_specified]. by rewrite orb_assoc.
Qed.

(** C27: [hwio_init] gives a bus exactly when one bus was described.  No
    option names a device tree (its path is used after it was freed) and at
    most one its memory file; the buses of the configurations and options, in
    their order, and without a configuration among the options those of the
    default one, are created without an exception and are a single bus, which
    is the one returned.  In every other case it does not return. *)
Theorem hwio_init_single_bus argc argv w bus args w' :
  let opts := getopt_long long_opts (copy_argv argc argv) in
  hwio_init (W:=W) (B:=B) argc argv w = (Ret (bus, args), w') <->
  has_opt "d" opts = false /\ (length (mem_opts opts) <= 1)%nat /\ args = rm_comsumed_args argc argv /\
  exists bs w1 ds, described_buses opts w = (Ret bs, w1) /\ bs ++ ds = [bus] /\
    if has_opt "c" opts then ds = [] /\ w' = w1 else hwio_load_default_config w1 = (Ret ds, w').
Proof.
  intros opts. unfold hwio_init. fold opts. split.
  - intros Hr. apply st_bind_inv in Hr as (v & w1 & Hloop & Hr). unfold rethrow_sliced in Hloop.
    destruct (init_loop opts _ w) as [r w2] eqn:E. destruct r as [v0|e|f]; try discriminate.
    injection Hloop as -> ->. destruct (is_devicetree v) eqn:Edt; [discriminate|].
    destruct (init_loop_ret _ _ _ _ _ E Edt) as (_ & Hd & Hm & bs & Hbs & Hb & Hc).
    cbn [is_buses config_specified app orb] in Hb, Hc. rewrite Hb, Hc in Hr.
    unfold mems in Hm. cbn [is_device_mem option_list length] in Hm. rewrite Nat.add_0_r in Hm.
    apply st_bind_inv in Hr as (buses & w3 & Hds & Hr). destruct buses as [|b [|]]; try discriminate.
    apply st_ret_inv in Hr as [[= -> <-] ->]. split_and!; try done. exists bs, w1.
    destruct (has_opt "c" opts); cbn [negb] in Hds.
    + apply st_ret_inv in Hds as [-> ->]. by exists [].
    + apply st_bind_inv in Hds as (ds & w4 & Hdef & Hds). apply st_ret_inv in Hds as [E2 ->]. by exists ds.
  - intros (Hd & Hm & -> & bs & w1 & ds & Hbs & Hone & Hds).
    destruct (init_loop_runs opts (InitState [] None None false) w bs w1) as (v & Hrun & Hdt & Hb & Hc);
      [done|done|unfold mems; cbn; lia|done|].
    erewrite st_bind_ret by (unfold rethrow_sliced; by rewrite Hrun). rewrite Hdt. cbv zeta.
    cbn [is_buses config_specified app orb] in Hb, Hc. rewrite Hb, Hc.
    destruct (has_opt "c" opts); cbn [negb].
    + destruct Hds as [-> ->]. rewrite app_nil_r in Hone. by rewrite Hone.
    + erewrite st_bind_ret; [|by rewrite (st_bind_ret _ _ _ _ _ Hds)]. by rewrite Hone.
Qed.
End init_spec.

(** ** A concrete command line *)

Module TestCli.
(** A bus is the text of its description. *)
#[export] Instance text_factory : BusFactory unit string := {|
  new_hwio_bus_remote host := mret ("remote:" +:+ host);
  new_hwio_bus_json file := mret ("json:" +:+ file);
  new_hwio_bus_devicetree path mem := mret ("devicetree:" +:+ path +:+ ":" +:+ mem)
|}.

#[export] Instance one_config : JsonFiles := {|
  read_json f :=
    if bool_decide (f = "cfg.json"%string) then
      Some (Ret (PTree "" [("buses"%string, json_array [PTree ""
        [("type"%string, leaf "json"); ("file"%string, leaf "dev.json")]])]))
    else None
|}.

#[export] Instance test_build : Build := {| HWIO_VERSION := "1.0"; build_timestamp := "today" |}.

#[export] Instance no_user_files : UserFiles := {| pw_dir := "/root"; file_exists _ := false |}.

Definition option_values : list (string * byte) :=
  [("--hwio_config"%string, "c"%char); ("--hwio_devicetree"%string, "d"%char); ("--hwio_device_mem"%string, "m"%char);
   ("--hwio_remote"%string, "r"%char); ("--hwio_json"%string, "j"%char)].

Fixpoint scan_options (args : list string) : list opt_event :=
  match args with
  | a :: (v :: t') as t =>
      match List.find (fun o => bool_decide (o.1 = a)) option_values with
      | Some o => Opt o.2 v :: scan_options t'
      | None => scan_options t
      end
  | _ => []
  end.

#[export] Instance scanning : Getopt := {| getopt_long _ argv := scan_options (tail argv) |}.

Definition test_argv : list string := ["prog"; "--hwio_config"; "cfg.json"; "x"]%string.

Definition two_argv : list string := ["prog"; "--hwio_config"; "cfg.json"; "--hwio_remote"; "host"]%string.

(** One configuration with one bus; the same and a remote bus. *)
Lemma hwio_init_single_bus_witness :
  hwio_init (W:=unit) (B:=string) 4 test_argv tt =
    (Ret ("json:dev.json"%string, (2, ["--hwio_config"; "cfg.json"; "cfg.json"; "x"]%string)), tt) /\
  forall bus args w', hwio_init (W:=unit) (B:=string) 5 two_argv tt <> (Ret (bus, args), w').
Proof.
  split.
  - apply (hwio_init_single_bus (W:=unit) (B:=string) 4 test_argv tt "json:dev.json").
    split; [reflexivity|]. split; [apply Nat.leb_le; reflexivity|].
    split; [vm_compute; reflexivity|]. exists ["json:dev.json"%string], tt, []. split; [vm_compute; reflexivity|]. split; [reflexivity|].
    split; reflexivity.
  - intros bus args w' H.
    apply (hwio_init_single_bus (W:=unit) (B:=string) 5 two_argv tt bus) in H as (_ & _ & _ & bs & w1 & ds & H1 & H2 & _).
    assert (described_buses (getopt_long long_opts (copy_argv 5 two_argv)) tt =
      (Ret ["json:dev.json"; "remote:host"]%string, tt)) as E by (vm_compute; reflexivity).
    rewrite E in H1. injection H1 as <- <-. discriminate.
Defined.

End TestCli.
