(* ===== verification/Wire.v ===== *)
(** * The packed messages of the hwio protocol

    Models [src/hwio_remote.h]: limits, command and error codes and the packed
    little-endian layout of the messages the client and the server exchange.
    Fields are read from and written to byte arrays at their offsets, as the
    [reinterpret_cast]s of the sources do. *)

From Stdlib Require Import ZArith Lia Ascii String.
From stdpp Require Import base tactics list numbers strings gmap fin_maps.
From S2P Require Import Prelude CxxString Version CompSpec.

Definition MAX_DEVICES : Z := 256.
Definition BUFFER_SIZE : nat := 2048.
Definition MAX_NAME_LEN : nat := 128.
Definition MAX_ITEMS_PER_QUERY : Z := 5.
Definition MAX_ERR_MSG_LEN : nat := 1024.

(** [enum HWIO_CMD] *)
Definition HWIO_CMD_READ : Z := 1.
Definition HWIO_CMD_READ_RESP : Z := 2.
Definition HWIO_CMD_WRITE : Z := 3.
Definition HWIO_CMD_PING_REQUEST : Z := 4.
Definition HWIO_CMD_PING_REPLY : Z := 5.
Definition HWIO_CMD_QUERY : Z := 6.
Definition HWIO_CMD_QUERY_RESP : Z := 7.
Definition HWIO_CMD_BYE : Z := 8.
Definition HWIO_CMD_MSG : Z := 9.
Definition HWIO_CMD_REMOTE_CALL : Z := 10.
Definition HWIO_CMD_REMOTE_CALL_RET : Z := 11.
Definition HWIO_CMD_REMOTE_CALL_FAST : Z := 16.
Definition HWIO_CMD_GET_REMOTE_CALL_ID : Z := 17.
Definition HWIO_CMD_GET_REMOTE_CALL_ID_RESP : Z := 17.

(** [enum HWIO_SERVER_ERROR] *)
Definition UNKNOWN_COMMAND : Z := 1.
Definition MALFORMED_PACKET : Z := 2.
Definition DEV_CNT_EXCEEDED : Z := 3.
Definition ACCESS_DENIED : Z := 4.
Definition IO_ERROR : Z := 5.

(** An unsigned field of [n] bytes at offset [off]. *)
Definition field (off n : nat) (bs : list byte) : Z := le_to_Z (slice off n bs).

Lemma field_app_l off n bs rest :
  (off + n <= length bs)%nat -> field off n (bs ++ rest) = field off n bs.
Proof. intros. unfold field. by rewrite slice_app_l. Qed.

(** ** Header *)

Record Hwio_packet_header := Header { command : Z; body_len : Z }.

Definition sizeof_header : nat := 3.

Definition enc_header (h : Hwio_packet_header) : list byte :=
  le_of_Z 1 (command h) ++ le_of_Z 2 (body_len h).

Definition dec_header (bs : list byte) : Hwio_packet_header :=
  Header (field 0 1 bs) (field 1 2 bs).

Definition header_wf (h : Hwio_packet_header) : Prop :=
  0 <= command h < 256 /\ 0 <= body_len h < 65536.

(** A frame: header and body. *)
Definition frame (cmd : Z) (body : list byte) : list byte :=
  enc_header (Header cmd (Z.of_nat (length body))) ++ body.

(** ** Read and write requests *)

Record RdReq := { rq_devId : Z; rq_addr : Z; rq_size : Z }.

Definition sizeof_RdReq : nat := 8.

Definition enc_RdReq (r : RdReq) : list byte :=
  le_of_Z 2 (rq_devId r) ++ le_of_Z 4 (rq_addr r) ++ le_of_Z 2 (rq_size r).

Definition dec_RdReq (bs : list byte) : RdReq :=
  {| rq_devId := field 0 2 bs; rq_addr := field 2 4 bs; rq_size := field 6 2 bs |}.

Definition RdReq_wf (r : RdReq) : Prop :=
  0 <= rq_devId r < 65536 /\ 0 <= rq_addr r < 4294967296 /\ 0 <= rq_size r < 65536.

(** [struct WrReq { RdReq _; char data[0]; }] *)
Definition sizeof_WrReq : nat := 8.

(** ** Remote calls *)

Definition sizeof_RemoteCall : nat := 130.
Definition sizeof_RemoteCallFast : nat := 6.
Definition sizeof_GetRemoteCallId : nat := 130.
Definition sizeof_GetRemoteCallIdResp : nat := 5.

Definition enc_RemoteCall (dev_id : Z) (fn_name : string) : list byte :=
  le_of_Z 2 dev_id ++ strncpy MAX_NAME_LEN fn_name.

Definition enc_RemoteCallFast (dev_id fn_id : Z) : list byte :=
  le_of_Z 2 dev_id ++ le_of_Z 4 fn_id.

Definition enc_GetRemoteCallIdResp (found : bool) (fn_id : Z) : list byte :=
  le_of_Z 1 (Z.b2z found) ++ le_of_Z 4 fn_id.

(** ** Device queries *)

Definition sizeof_version : nat := 12.
Definition sizeof_Dev_query_item : nat := 396.

Definition enc_version (v : hwio_version) : list byte :=
  le_of_Z 4 (major v) ++ le_of_Z 4 (minor v) ++ le_of_Z 4 (subminor v).

Definition dec_version (bs : list byte) : hwio_version :=
  Version (s32 (field 0 4 bs)) (s32 (field 4 4 bs)) (s32 (field 8 4 bs)).

(** The item the client builds: three [strncpy]ed names and the version. *)
Definition enc_query_item (s : hwio_comp_spec) : list byte :=
  strncpy MAX_NAME_LEN (cs_name s) ++ strncpy MAX_NAME_LEN (cs_vendor s) ++
  strncpy MAX_NAME_LEN (cs_type s) ++ enc_version (cs_version s).

Definition enc_ids (ids : list Z) : list byte := flat_map (le_of_Z 2) ids.

(** [items->ids[i]] *)
Definition dec_id (bs : list byte) (i : nat) : Z := field (2 * i) 2 bs.

(** ** Errors *)

Definition sizeof_ErrMsg : nat := 1028.

(** ** Sizes and round trips *)

Lemma enc_header_length h : length (enc_header h) = 3%nat.
Proof. done. Qed.
Lemma enc_RdReq_length r : length (enc_RdReq r) = 8%nat.
Proof. done. Qed.
Lemma enc_version_length v : length (enc_version v) = 12%nat.
Proof. done. Qed.
Lemma enc_RemoteCall_length d f : length (enc_RemoteCall d f) = 130%nat.
Proof. unfold enc_RemoteCall. by rewrite length_app, strncpy_length, le_of_Z_length. Qed.
Lemma enc_query_item_length s : length (enc_query_item s) = 396%nat.
Proof. unfold enc_query_item. by rewrite !length_app, !strncpy_length, enc_version_length. Qed.
Lemma frame_length cmd body : length (frame cmd body) = (3 + length body)%nat.
Proof. done. Qed.
Lemma enc_ids_length ids : length (enc_ids ids) = (2 * length ids)%nat.
Proof.
  induction ids as [|i ids IH]; [done|]. cbn [enc_ids flat_map length].
  unfold enc_ids in IH. rewrite length_app, IH, le_of_Z_length. lia.
Qed.

Lemma dec_enc_header h rest : header_wf h -> dec_header (enc_header h ++ rest) = h.
Proof.
  intros [Hc Hl]. destruct h as [c l]; cbn in Hc, Hl. unfold dec_header.
  rewrite !field_app_l by (cbn; lia). unfold field. f_equal.
  - change (slice 0 1 _) with (le_of_Z 1 c). by apply (le_to_Z_small 1).
  - change (slice 1 2 _) with (le_of_Z 2 l). by apply (le_to_Z_small 2).
Qed.

Lemma dec_enc_RdReq r rest : RdReq_wf r -> dec_RdReq (enc_RdReq r ++ rest) = r.
Proof.
  intros (Hd & Ha & Hs). destruct r as [d a s]; cbn in Hd, Ha, Hs. unfold dec_RdReq.
  rewrite !field_app_l by (cbn; lia). unfold field. f_equal.
  - change (slice 0 2 _) with (le_of_Z 2 d). by apply (le_to_Z_small 2).
  - change (slice 2 4 _) with (le_of_Z 4 a). by apply (le_to_Z_small 4).
  - change (slice 6 2 _) with (le_of_Z 2 s). by apply (le_to_Z_small 2).
Qed.

Lemma dec_enc_version v rest : version_wf v -> dec_version (enc_version v ++ rest) = v.
Proof.
  intros (Hj & Hn & Hs). destruct v as [j n s]; cbn in Hj, Hn, Hs. unfold dec_version.
  rewrite !field_app_l by (cbn; lia). unfold field.
  change (slice 0 4 _) with (le_of_Z 4 j). change (slice 4 4 _) with (le_of_Z 4 n).
  change (slice 8 4 _) with (le_of_Z 4 s).
  by rewrite !le_to_Z_u32, !s32_u32, !s32_small.
Qed.

Lemma dec_id_enc_ids ids i id rest :
  ids !! i = Some id -> 0 <= id < 65536 -> dec_id (enc_ids ids ++ rest) i = id.
Proof.
  intros Hi Hr. unfold dec_id. pose proof (lookup_lt_Some _ _ _ Hi).
  rewrite field_app_l by (rewrite enc_ids_length; lia). unfold field.
  assert (slice (2 * i) 2 (enc_ids ids) = le_of_Z 2 id) as ->.
  { revert i Hi H. induction ids as [|x ids IH]; intros i Hi H; [done|].
    destruct i as [|i]; cbn in Hi; simplify_eq; [done|].
    change (enc_ids (x :: ids)) with (le_of_Z 2 x ++ enc_ids ids).
    rewrite slice_app_r by (rewrite le_of_Z_length; lia).
    rewrite le_of_Z_length. replace (2 * S i - 2)%nat with (2 * i)%nat by lia.
    apply IH; [done|]. cbn in H. lia. }
  by apply (le_to_Z_small 2).
Qed.
