(* ===== verification/Protocol.v ===== *)
(** * The protocol between client and server

    The requests as data and as the frames both sides exchange, shared by the
    specifications of the server ([ServerStream]) and of the client
    ([ClientSpec]). *)

From Stdlib Require Import ZArith Lia Ascii String.
From stdpp Require Import base tactics list numbers strings gmap fin_maps.
From S2P Require Import Prelude CxxString Version CompSpec Device Bus Wire.

(** ** Parts of requests and answers *)

(** A specification whose fields fit the query item. *)
Definition spec_sendable (x : hwio_comp_spec) : Prop :=
  (no_nul (cs_name x) /\ (String.length (cs_name x) < MAX_NAME_LEN)%nat) /\
  (no_nul (cs_vendor x) /\ (String.length (cs_vendor x) < MAX_NAME_LEN)%nat) /\
  (no_nul (cs_type x) /\ (String.length (cs_type x) < MAX_NAME_LEN)%nat) /\
  version_wf (cs_version x).

(** The body of a query. *)
Definition enc_query (specs : list hwio_comp_spec) : list byte := concat (map enc_query_item specs).

Lemma enc_query_length specs : length (enc_query specs) = (length specs * 396)%nat.
Proof.
  induction specs as [|x t IH]; [done|]. unfold enc_query in *. cbn [map concat length].
  rewrite length_app, IH, enc_query_item_length. lia.
Qed.

(** The refusal the server sends: the header announces the code and the text,
    the message is padded to its full size. *)
Definition error_frame (code : Z) (msg : string) : list byte :=
  enc_header (Header HWIO_CMD_MSG (4 + Z.of_nat (length (upto_nul (chars msg))))) ++
  le_of_Z 4 code ++ strncpy MAX_ERR_MSG_LEN msg.

Lemma error_frame_length code msg : length (error_frame code msg) = 1031%nat.
Proof. unfold error_frame. by rewrite !length_app, strncpy_length. Qed.

(** What is sent of it. *)
Definition error_bytes (code : Z) (msg : string) : list byte :=
  take sizeof_ErrMsg (error_frame code msg).

(** The padding follows the announced frame when the text is not too long. *)
Lemma error_bytes_frame code msg :
  (length (upto_nul (chars msg)) <= 1021)%nat ->
  error_bytes code msg = frame HWIO_CMD_MSG (le_of_Z 4 code ++ upto_nul (chars msg)) ++
    replicate (1021 - length (upto_nul (chars msg))) NUL.
Proof.
  intros Hl. unfold error_bytes, error_frame, frame, strncpy, sizeof_ErrMsg, MAX_ERR_MSG_LEN.
  rewrite (take_ge (upto_nul (chars msg))) by lia. set (txt := upto_nul (chars msg)) in *.
  rewrite length_app, le_of_Z_length, Nat2Z.inj_add. change (Z.of_nat 4) with 4.
  set (h := enc_header _). rewrite <-!app_assoc.
  assert (forall r, h ++ le_of_Z 4 code ++ txt ++ r = (h ++ le_of_Z 4 code ++ txt) ++ r) as E
    by (intros; by rewrite <-!app_assoc).
  rewrite !E. clear E.
  assert (length (h ++ le_of_Z 4 code ++ txt) = (7 + length txt)%nat) as Hp
    by (by rewrite !length_app, le_of_Z_length).
  rewrite take_app, take_ge, Hp by lia. f_equal. rewrite take_replicate. f_equal. lia.
Qed.

(** ** Requests *)

Inductive request :=
  | RqPing
  | RqRead (r : RdReq)
  | RqWrite (r : RdReq) (data : list byte)
  | RqQuery (specs : list hwio_comp_spec)
  | RqFnId (dev_id : Z) (name : string)
  | RqCall (dev_id : Z) (name : string) (args : list byte)
  | RqFast (dev_id fn_id : Z) (args : list byte)
  | RqBye.

Definition rq_cmd (rq : request) : Z :=
  match rq with
  | RqPing => HWIO_CMD_PING_REQUEST
  | RqRead _ => HWIO_CMD_READ
  | RqWrite _ _ => HWIO_CMD_WRITE
  | RqQuery _ => HWIO_CMD_QUERY
  | RqFnId _ _ => HWIO_CMD_GET_REMOTE_CALL_ID
  | RqCall _ _ _ => HWIO_CMD_REMOTE_CALL
  | RqFast _ _ _ => HWIO_CMD_REMOTE_CALL_FAST
  | RqBye => HWIO_CMD_BYE
  end.

Definition rq_body (rq : request) : list byte :=
  match rq with
  | RqPing | RqBye => []
  | RqRead r => enc_RdReq r
  | RqWrite r data => enc_RdReq r ++ data
  | RqQuery specs => enc_query specs
  | RqFnId d name => enc_RemoteCall d name
  | RqCall d name args => enc_RemoteCall d name ++ args
  | RqFast d f args => enc_RemoteCallFast d f ++ args
  end.

Definition enc_request (rq : request) : list byte := frame (rq_cmd rq) (rq_body rq).

Definition name_ok (name : string) : Prop :=
  no_nul name /\ (String.length name < MAX_NAME_LEN)%nat.

Definition dev_id_ok (d : Z) : Prop := 0 <= d < 65536.

Definition request_wf (rq : request) : Prop :=
  Z.of_nat (length (rq_body rq)) < 65536 /\
  match rq with
  | RqPing | RqBye => True
  | RqRead r => RdReq_wf r
  | RqWrite r data => RdReq_wf r /\ Z.of_nat (length data) = rq_size r
  | RqQuery specs => Forall spec_sendable specs /\ (1 <= length specs <= 5)%nat
  | RqFnId d name => dev_id_ok d /\ name_ok name
  | RqCall d name _ => dev_id_ok d /\ name_ok name
  | RqFast d f _ => dev_id_ok d /\ 0 <= f < 2 ^ 32
  end.

Lemma enc_request_length rq : length (enc_request rq) = (3 + length (rq_body rq))%nat.
Proof. apply frame_length. Qed.

Lemma rq_header_wf rq : request_wf rq ->
  header_wf (Header (rq_cmd rq) (Z.of_nat (length (rq_body rq)))).
Proof. intros [Hl _]. split; cbn [command body_len]; [by destruct rq|lia]. Qed.

Lemma enc_request_header rq rest :
  request_wf rq ->
  dec_header (enc_request rq ++ rest) = Header (rq_cmd rq) (Z.of_nat (length (rq_body rq))).
Proof.
  intros H. unfold enc_request, frame. rewrite <-app_assoc. apply dec_enc_header, rq_header_wf, H.
Qed.

Lemma dec_header_take3 bs : dec_header (take 3 bs) = dec_header bs.
Proof.
  unfold dec_header, field, slice. rewrite !skipn_firstn_comm, !take_take. done.
Qed.

Lemma enc_requests_nil rqs : concat (map enc_request rqs) = [] -> rqs = [].
Proof.
  by destruct rqs.
Qed.

Lemma enc_request_le rq rqs :
  rq ∈ rqs -> (length (enc_request rq) <= length (concat (map enc_request rqs)))%nat.
Proof.
  induction 1 as [rq rqs|rq rq' rqs _ IH]; cbn [map concat]; rewrite length_app; lia.
Qed.
