(* ===== verification/Address.v ===== *)
(** * hwio_remote_utils: addresses of servers

    Models [src/hwio_remote_utils.cpp].  [getaddrinfo] and [inet_ntop] are
    parameters. *)

From Stdlib Require Import ZArith Lia Ascii String.
From stdpp Require Import base tactics list numbers strings gmap fin_maps.
From S2P Require Import Prelude CxxString Version CompSpec.

Definition COLON : byte := ":"%char.
Definition LBRACKET : byte := "["%char.
Definition RBRACKET : byte := "]"%char.

(** [std::find] from the front: the position, or the length. *)
Fixpoint find_char (c : byte) (l : list byte) : nat :=
  match l with
  | [] => 0%nat
  | x :: t => if bool_decide (x = c) then 0%nat else S (find_char c t)
  end.

(** [parse_ip_and_port] of an address string: [ip] and [port], both empty
    before the call. *)
Definition parse_ip_and_port (_addrString : string) : string * string :=
  let addrString := chars _addrString in
  if bool_decide (default NUL (addrString !! 0%nat) = LBRACKET) then
    let splitEnd := (1 + find_char RBRACKET (drop 1 addrString))%nat in
    let ip := take splitEnd addrString in
    let splitEnd := if negb (splitEnd =? length addrString)%nat then S splitEnd else splitEnd in
    let port :=
      if negb (splitEnd =? length addrString)%nat &&
         bool_decide (default NUL (addrString !! splitEnd) = COLON)
      then drop splitEnd addrString else [] in
    (of_chars ip, of_chars port)
  else
    match last_index COLON addrString with
    | None => (_addrString, ""%string)
    | Some i =>
        let splitPoint := S i in
        (of_chars (take (splitPoint - 1) addrString), of_chars (drop splitPoint addrString))
    end.

(** The resolver; an address is what [connect] needs and the fields that
    [addrinfo_to_str] prints. *)
Record addrinfo := AddrInfo { sin_addr : list byte; sin_port : Z }.

Class Resolver := {
  getaddrinfo : string -> string -> Z * option addrinfo;
  gai_strerror : Z -> string;
  inet_ntop : list byte -> option string
}.

Section resolver.
Context {RS : Resolver}.

(** [parse_ip_and_port(const std::string & host)] *)
Definition resolve_host (host : string) : outcome addrinfo :=
  let '(ip, port) := parse_ip_and_port host in
  match getaddrinfo ip port with
  | (error, Some res) =>
      if negb (error =? 0) then Throw (Exn EX_runtime_error ("[HWIO] " +:+ gai_strerror error))
      else Ret res
  | (error, None) => Throw (Exn EX_runtime_error ("[HWIO] " +:+ gai_strerror error))
  end.

(** [__builtin_bswap16] *)
Definition bswap16 (v : Z) : Z := u16 (Z.lor (Z.shiftr v 8) (Z.shiftl v 8)).

(** [addrinfo_to_str]; the text of a failed conversion stays empty. *)
Definition addrinfo_to_str (addr : option addrinfo) : string :=
  match addr with
  | None => "<NULL>"
  | Some a => default "" (inet_ntop (sin_addr a)) +:+ ":" +:+ to_dec (bswap16 (sin_port a))
  end.
End resolver.

(** ** The two forms of an address *)

Lemma find_char_app c l r : c ∉ l -> find_char c (l ++ c :: r) = length l.
Proof.
  induction l as [|x l IH]; intros Hc; cbn [app find_char length].
  - by rewrite bool_decide_eq_true_2.
  - rewrite not_elem_of_cons in Hc. rewrite bool_decide_eq_false_2 by naive_solver. by rewrite IH by naive_solver.
Qed.

(** An address that does not start with a bracket. *)
Lemma parse_host_port host port :
  head (chars host) <> Some LBRACKET -> COLON ∉ chars port ->
  parse_ip_and_port (host +:+ ":" +:+ port) = (host, port).
Proof.
  intros Hh Hp. unfold parse_ip_and_port. rewrite !chars_app.
  change (chars ":" ++ chars port) with (COLON :: chars port).
  rewrite bool_decide_eq_false_2 by (destruct (chars host); cbn in *; naive_solver).
  rewrite last_index_app, (proj2 (last_index_None COLON (chars port))) by done.
  cbv zeta. replace (S (length (chars host)) - 1)%nat with (length (chars host)) by lia.
  rewrite take_app_length, (drop_app_ge (chars host)) by lia.
  replace (S (length (chars host)) - length (chars host))%nat with 1%nat by lia. cbn [skipn].
  by rewrite ?drop_0, !of_chars_chars.
Qed.

Lemma parse_host host :
  head (chars host) <> Some LBRACKET -> COLON ∉ chars host -> parse_ip_and_port host = (host, ""%string).
Proof.
  intros Hh Hc. unfold parse_ip_and_port.
  rewrite bool_decide_eq_false_2 by (destruct (chars host); cbn in *; naive_solver).
  by rewrite (proj2 (last_index_None COLON (chars host))).
Qed.

(** The documented form of an IPv6 address: the bracket stays in the host and
    the colon in the port. *)
Lemma parse_ipv6 a port :
  RBRACKET ∉ chars a ->
  parse_ip_and_port ("[" +:+ a +:+ "]:" +:+ port) = ("[" +:+ a, ":" +:+ port)%string.
Proof.
  intros Ha. unfold parse_ip_and_port. rewrite !chars_app.
  change (chars "[") with [LBRACKET]. change (chars "]:") with [RBRACKET; COLON].
  set (l := chars a) in *. set (p := chars port). cbn [app].
  change ((LBRACKET :: l ++ RBRACKET :: COLON :: p) !! 0%nat) with (Some LBRACKET). cbn [default from_option id].
  rewrite bool_decide_eq_true_2 by done.
  change (drop 1 _) with (l ++ RBRACKET :: COLON :: p). rewrite find_char_app by done.
  assert (length (LBRACKET :: l ++ RBRACKET :: COLON :: p) = 3 + length l + length p)%nat as Hl.
  { cbn [length]. rewrite length_app. cbn. lia. }
  rewrite Hl. rewrite (proj2 (Nat.eqb_neq (1 + length l) _)) by lia. cbn [negb].
  rewrite (proj2 (Nat.eqb_neq (S (1 + length l)) _)) by lia. cbn [negb andb Nat.add].
  change ((LBRACKET :: l ++ RBRACKET :: COLON :: p) !! S (S (length l))) with
    ((l ++ [RBRACKET] ++ COLON :: p) !! S (length l)).
  change (drop (S (S (length l))) (LBRACKET :: l ++ RBRACKET :: COLON :: p)) with
    (drop (S (length l)) (l ++ [RBRACKET] ++ COLON :: p)).
  rewrite app_assoc. replace (S (length l)) with (length (l ++ [RBRACKET])) by (rewrite length_app; cbn; lia).
  rewrite lookup_app_r, Nat.sub_diag by lia. cbn [lookup list_lookup default from_option id].
  rewrite bool_decide_eq_true_2 by done. rewrite drop_app_length.
  f_equal; apply chars_inj; rewrite chars_of_chars, chars_app; [|done].
  cbn [take]. rewrite length_app. cbn [length]. replace (length l + 1)%nat with (S (length l)) by lia.
  cbn [take app]. by rewrite take_app_length.
Qed.

(** ** Properties *)

(** C30: host and port come back from [host:port] when the host does not start
    with a bracket and the port has no colon; such a host without a colon is
    read alone, with an empty port.  From [[ipv6]:port], the other form the
    comments document, they do not come back: the host keeps the opening
    bracket, which [getaddrinfo] does not know, and the port the colon. *)
Theorem parse_ip_and_port_roundtrip host port :
  (head (chars host) <> Some LBRACKET ->
    (COLON ∉ chars port -> parse_ip_and_port (host +:+ ":" +:+ port) = (host, port)) /\
    (COLON ∉ chars host -> parse_ip_and_port host = (host, ""%string))) /\
  (RBRACKET ∉ chars host ->
    parse_ip_and_port ("[" +:+ host +:+ "]:" +:+ port) = ("[" +:+ host, ":" +:+ port)%string).
Proof.
  split; [|apply parse_ipv6]. intros Hh. split; intros Hc; [by apply parse_host_port|by apply parse_host].
Qed.

Lemma parse_ip_and_port_roundtrip_witness :
  parse_ip_and_port ("10.0.0.1" +:+ ":" +:+ "8896") = ("10.0.0.1", "8896")%string /\
  parse_ip_and_port "[::1]:8896" = ("[::1", ":8896")%string.
Proof.
  split.
  - refine (proj1 (proj1 (parse_ip_and_port_roundtrip "10.0.0.1" "8896") _) _).
    + discriminate.
    + apply (bool_decide_unpack _). vm_compute. exact I.
  - apply (proj2 (parse_ip_and_port_roundtrip "::1" "8896")).
    apply (bool_decide_unpack _). vm_compute. exact I.
Defined.
