(* ===== verification/Client.v ===== *)
(** * hwio_client_to_server_con: the connection of a client

    [bus/hwio_client_to_server_con.cpp] and [bus/hwio_client_to_server_con.h]:
    the blocking connection of a client to a server, in the build without
    [HWIO_BUSY_WAIT_IO_CLIENT].  What is at the other end of the socket is an
    interface, [Peer]: what arrives at the socket when bytes are sent to it.
    [ClientSpec] proves the client against the interface and [EndToEnd] gives
    it the server. *)

From Stdlib Require Import ZArith Lia Ascii String.
From stdpp Require Import base tactics list numbers strings gmap fin_maps.
From S2P Require Import Prelude CxxString Version CompSpec Device Bus Wire Address.

(** What one [recv] finds: bytes, [EINTR], another error number, or the end of
    the stream. *)
Inductive con_event := ConData (bs : list byte) | ConIntr | ConError (errno : Z) | ConEof.

(** What one [send] does: take at most [n] bytes, [EINTR], or another error. *)
Inductive tx_event := TxTakes (n : nat) | TxIntr | TxError (errno : Z).

(** The other end of the socket: it takes the bytes of one [send], and some
    events arrive for the client. *)
Class Peer (N : Type) := { peer_takes : list byte -> ST N (list con_event) }.

(** The operating system: [strerror], and the calls of [connect_to_server]. *)
Class ConApi := {
  strerror : Z -> string;
  con_socket : Z;
  con_connect : Z -> Z
}.

Definition ENAVAIL : Z := 119.
Definition EBUSY : Z := 16.
Definition UINT16_MAX : nat := Z.to_nat 65535.

(** [class hwio_client_to_server_con], without the address *)
Record hwio_client_to_server_con := Con {
  sockfd : Z;
  orig_addr : string;
  con_rx : list byte;
  con_tx : list byte
}.

(** The connection and its socket: the events to come on [recv] and [send] (a
    [send] after the listed ones takes all its bytes), and the peer. *)
Record Link (N : Type) := MkLink {
  ln_con : hwio_client_to_server_con;
  ln_in : list con_event;
  ln_out : list tx_event;
  ln_peer : N
}.
Arguments MkLink {N}.
Arguments ln_con {N}.
Arguments ln_in {N}.
Arguments ln_out {N}.
Arguments ln_peer {N}.

Section con.
Context {N : Type} `{!Peer N} {CA : ConApi}.
Implicit Types (k : Link N).

Definition set_con (c : hwio_client_to_server_con) k : Link N :=
  MkLink c (ln_in k) (ln_out k) (ln_peer k).
Definition set_rx (bs : list byte) k : Link N :=
  set_con (Con (sockfd (ln_con k)) (orig_addr (ln_con k)) bs (con_tx (ln_con k))) k.
Definition set_tx (bs : list byte) k : Link N :=
  set_con (Con (sockfd (ln_con k)) (orig_addr (ln_con k)) (con_rx (ln_con k)) bs) k.
Definition set_ln_in (evs : list con_event) k : Link N :=
  MkLink (ln_con k) evs (ln_out k) (ln_peer k).
Definition set_ln_out (evs : list tx_event) k : Link N :=
  MkLink (ln_con k) (ln_in k) evs (ln_peer k).

(** Stores through [tx_buffer]. *)
Definition con_store (off : nat) (bs : list byte) : ST (Link N) unit := fun k =>
  if (off + length bs <=? length (con_tx (ln_con k)))%nat
  then (Ret tt, set_tx (splice off bs (con_tx (ln_con k))) k)
  else (Undef OutOfBounds, k).

(** Loads through [rx_buffer]. *)
Definition con_load (off n : nat) : ST (Link N) (list byte) := fun k =>
  if (off + n <=? length (con_rx (ln_con k)))%nat
  then (Ret (slice off n (con_rx (ln_con k))), k)
  else (Undef OutOfBounds, k).

(** ** Receiving *)

(** The loop around [recv(sockfd, rx_buffer + bytesRead, size - bytesRead, 0)]:
    its end, the bytes stored, and the events left.  At the end of the stream
    [recv] returns 0 for ever, and the loop goes on. *)
Fixpoint rx_loop (want : nat) (evs : list con_event) : outcome unit * list byte * list con_event :=
  match want, evs with
  | O, _ => (Ret tt, [], evs)
  | _, [] => (Undef Hang, [], [])
  | _, ConIntr :: t => rx_loop want t
  | _, ConError errno :: t =>
      (Throw (Exn EX_runtime_error ("rx_bytes: " +:+ strerror errno)), [], t)
  | _, ConEof :: _ => (Undef Hang, [], evs)
  | _, ConData bs :: t =>
      if (length bs <=? want)%nat then
        let '(r, got, evs') := rx_loop (want - length bs) t in (r, bs ++ got, evs')
      else (Ret tt, take want bs, ConData (drop want bs) :: t)
  end.

(** [rx_bytes] *)
Definition rx_bytes (size : nat) : ST (Link N) Z := fun k =>
  if negb (size <=? BUFFER_SIZE)%nat then (Undef AssertFailed, k)
  else
    let '(r, got, evs) := rx_loop size (ln_in k) in
    (fmap (fun _ => 0) r, set_ln_in evs (set_rx (splice 0 got (con_rx (ln_con k))) k)).

(** [rx_pckt] *)
Definition rx_pckt : ST (Link N) Hwio_packet_header :=
  rx_bytes sizeof_header ≫= fun e =>
  if negb (e =? 0) then
    st_throw (Exn EX_error_rw "Only partial data received from server")
  else
    con_load 0 sizeof_header ≫= fun bs =>
    let header := dec_header bs in
    if negb (body_len header =? 0) then
      rx_bytes (Z.to_nat (body_len header)) ≫= fun e =>
      if negb (e =? 0) then
        st_throw (Exn EX_error_rw "Malformed packet received from server")
      else mret header
    else mret header.

(** ** Sending *)

(** One [send] that takes [bs]. *)
Definition give (bs : list byte) : ST (Link N) unit := fun k =>
  let '(r, n) := peer_takes bs (ln_peer k) in
  match r with
  | Ret evs => (Ret tt, MkLink (ln_con k) (ln_in k ++ evs) (ln_out k) n)
  | Throw e => (Throw e, MkLink (ln_con k) (ln_in k) (ln_out k) n)
  | Undef f => (Undef f, MkLink (ln_con k) (ln_in k) (ln_out k) n)
  end.

(** The loop around [send]. *)
Fixpoint tx_loop (evs : list tx_event) (bytes : list byte) : ST (Link N) unit :=
  match bytes with
  | [] => st_modify (set_ln_out evs)
  | _ =>
      match evs with
      | [] => st_modify (set_ln_out []) ≫= fun _ => give bytes
      | TxIntr :: t => tx_loop t bytes
      | TxError errno :: t =>
          st_modify (set_ln_out t) ≫= fun _ =>
          st_throw (Exn EX_error_rw
            ("hwio_client_to_server_con::tx_pckt, Unable to send message to server,"
             +:+ strerror errno))
      | TxTakes n :: t => give (take n bytes) ≫= fun _ => tx_loop t (drop n bytes)
      end
  end.

(** [tx_pckt] *)
Definition tx_pckt : ST (Link N) unit := fun k =>
  let tx := con_tx (ln_con k) in
  let size := (Z.to_nat (body_len (dec_header tx)) + sizeof_header)%nat in
  if (size <=? length tx)%nat then tx_loop (ln_out k) (take size tx) k
  else (Undef OutOfBounds, k).

(** A message without a body. *)
Definition tx_command (cmd : Z) : ST (Link N) unit :=
  con_store 1 (le_of_Z 2 0) ≫= fun _ => con_store 0 (le_of_Z 1 cmd) ≫= fun _ => tx_pckt.

(** ** The session *)

(** [ping] *)
Definition ping : ST (Link N) Z :=
  st_try
    (tx_command HWIO_CMD_PING_REQUEST ≫= fun _ =>
     rx_pckt ≫= fun resp =>
     if negb (body_len resp =? 0) || negb (command resp =? HWIO_CMD_PING_REPLY)
     then mret (- ENAVAIL) else mret 0)
    (fun _ => mret (- EBUSY)).

(** [bye] *)
Definition bye : ST (Link N) unit := tx_command HWIO_CMD_BYE.

(** The constructor resolves the host; the buffers are not initialised. *)
Definition new_con {RS : Resolver} (rx tx : list byte) (host : string) :
    outcome hwio_client_to_server_con :=
  resolve_host host ≫= fun _ => mret (Con (-1) host rx tx).

(** [connect_to_server]; the result of [setsockopt] is not used. *)
Definition connect_to_server : ST (Link N) unit :=
  st_modify (fun k => set_con (Con con_socket (orig_addr (ln_con k)) (con_rx (ln_con k))
    (con_tx (ln_con k))) k) ≫= fun _ =>
  if con_socket <? 0 then
    st_throw (Exn EX_runtime_error "[HWIO] Can not create a socket")
  else if con_connect con_socket <? 0 then
    st_get ≫= fun k =>
    st_throw (Exn EX_runtime_error
      ("[HWIO] Can not connect to server: (error: " +:+ strerror (con_connect con_socket)
       +:+ ", address: " +:+ orig_addr (ln_con k) +:+ " )"))
  else
    ping ≫= fun ret =>
    if ret <? 0 then
      st_throw (Exn EX_runtime_error "[HWIO] Initial ping to server has failed")
    else mret tt.

(** An exception that leaves a destructor terminates the program. *)
Definition no_throw {A} (m : ST (Link N) A) : ST (Link N) A := fun k =>
  match m k with (Throw _, k') => (Undef Terminated, k') | r => r end.

(** The destructor; what it closes and frees is not in the model. *)
Definition destroy_con : ST (Link N) unit :=
  st_get ≫= fun k =>
  if 0 <=? sockfd (ln_con k) then no_throw bye else mret tt.
End con.
