(* ===== verification/DeviceRemote.v ===== *)
(** * hwio_device_remote and hwio_bus_remote: the client's view of a server

    [device/hwio_device_remote.cpp], [device/hwio_device_remote.h] and
    [bus/hwio_bus_remote.cpp]: the operations of a device on a server as
    messages on the connection, and the bus that looks devices up on the
    server and keeps one object for each device id.  A remote bus is an
    [IBus], its devices are [IDev]s. *)

From Stdlib Require Import ZArith Lia Ascii String.
From stdpp Require Import base tactics list numbers strings gmap fin_maps.
From S2P Require Import Prelude CxxString Version CompSpec Device Bus Wire Client.

(** [class hwio_device_remote]; the pointer [server] is that of the bus. *)
Record hwio_device_remote := RemoteDev {
  rd_id : Z;
  rd_spec : list hwio_comp_spec;
  rd_name : string
}.

Section device.
Context {N : Type} `{!Peer N} {CA : ConApi}.
Implicit Types (d : hwio_device_remote).

(** [hwio_device_remote::hwio_device_remote] *)
Definition new_remote (spec : list hwio_comp_spec) (id : Z) : hwio_device_remote :=
  RemoteDev id spec "".

(** [err->msg] of an [ErrMsg] in [rx_buffer]: up to a NUL, wherever it is. *)
Definition con_cstr (off : nat) : ST (Link N) string := fun k =>
  match cstr (drop off (con_rx (ln_con k))) with
  | Some m => (Ret (of_chars m), k)
  | None => (Undef OutOfBounds, k)
  end.

(** [assert_response] *)
Definition assert_response (h : Hwio_packet_header) (expected : Z) (msg : string) :
    ST (Link N) unit :=
  if negb (command h =? expected) then
    (if command h =? HWIO_CMD_MSG then
       con_load 0 4 ≫= fun code =>
       con_cstr 4 ≫= fun m => mret (to_dec (s32 (le_to_Z code)) +:+ ": " +:+ m)%string
     else mret ""%string) ≫= fun err =>
    st_throw (Exn EX_error_rw (msg +:+ to_dec (command h) +:+ err))
  else mret tt.

Definition wrong_response : string := "Wrong response from server on read request ".

(** [server->tx_pckt(); server->rx_pckt(&h); assert_response(&h, expected, ...)] *)
Definition transact (expected : Z) : ST (Link N) unit :=
  tx_pckt ≫= fun _ => rx_pckt ≫= fun h => assert_response h expected wrong_response.

(** [read] *)
Definition remote_read d (offset : Z) (n : nat) : ST (Link N) (list byte) :=
  if negb (n <=? UINT16_MAX)%nat then st_undef AssertFailed
  else
    con_store 1 (le_of_Z 2 (Z.of_nat sizeof_RdReq)) ≫= fun _ =>
    con_store 0 (le_of_Z 1 HWIO_CMD_READ) ≫= fun _ =>
    con_store 5 (le_of_Z 4 offset) ≫= fun _ =>
    con_store 3 (le_of_Z 2 (rd_id d)) ≫= fun _ =>
    con_store 9 (le_of_Z 2 (Z.of_nat n)) ≫= fun _ =>
    transact HWIO_CMD_READ_RESP ≫= fun _ => con_load 0 n.

(** [write] *)
Definition remote_write d (offset : Z) (data : list byte) : ST (Link N) unit :=
  let n := length data in
  if negb (n <=? UINT16_MAX)%nat then st_undef AssertFailed
  else
    con_store 1 (le_of_Z 2 (Z.of_nat (sizeof_WrReq + n))) ≫= fun _ =>
    con_store 0 (le_of_Z 1 HWIO_CMD_WRITE) ≫= fun _ =>
    con_store 5 (le_of_Z 4 offset) ≫= fun _ =>
    con_store 3 (le_of_Z 2 (rd_id d)) ≫= fun _ =>
    con_store 9 (le_of_Z 2 (Z.of_nat n)) ≫= fun _ =>
    con_store 11 data ≫= fun _ => tx_pckt.

(** [read8], [read32], [read64] and [write8], [write32], [write64] *)
Definition remote_load d (n : nat) (offset : Z) : ST (Link N) Z :=
  remote_read d offset n ≫= fun bs => mret (le_to_Z bs).
Definition remote_store d (n : nat) (offset val : Z) : ST (Link N) unit :=
  remote_write d offset (le_of_Z n val).

(** The message of [remote_call(const char * fn_name, ARGS_T * args)]; [args]
    is empty for [ARGS_T = void]. *)
Definition call_by_name d (fn_name : string) (args : list byte) : ST (Link N) unit :=
  con_store 0 (le_of_Z 1 HWIO_CMD_REMOTE_CALL) ≫= fun _ =>
  con_store 5 (strncpy MAX_NAME_LEN fn_name) ≫= fun _ =>
  con_store 3 (le_of_Z 2 (rd_id d)) ≫= fun _ =>
  con_store 133 args ≫= fun _ =>
  con_store 1 (le_of_Z 2 (Z.of_nat (sizeof_RemoteCall - 1 + length args))).

(** The message of [remote_call(const uint32_t fn_id, ARGS_T * args)] *)
Definition call_by_id d (fn_id : Z) (args : list byte) : ST (Link N) unit :=
  con_store 0 (le_of_Z 1 HWIO_CMD_REMOTE_CALL_FAST) ≫= fun _ =>
  con_store 5 (le_of_Z 4 fn_id) ≫= fun _ =>
  con_store 3 (le_of_Z 2 (rd_id d)) ≫= fun _ =>
  con_store 9 args ≫= fun _ =>
  con_store 1 (le_of_Z 2 (Z.of_nat (sizeof_RemoteCallFast + length args))).

(** [remote_call] by name: the templates for a result of [ret_size] bytes and
    for [RET_T = void]. *)
Definition remote_call d (fn_name : string) (args : list byte) (ret_size : nat) :
    ST (Link N) (list byte) :=
  call_by_name d fn_name args ≫= fun _ =>
  transact HWIO_CMD_REMOTE_CALL_RET ≫= fun _ => con_load 0 ret_size.

Definition remote_call_void d (fn_name : string) (args : list byte) : ST (Link N) unit :=
  call_by_name d fn_name args ≫= fun _ => tx_pckt.

(** [remote_call] by id *)
Definition remote_call_fast d (fn_id : Z) (args : list byte) (ret_size : nat) :
    ST (Link N) (list byte) :=
  call_by_id d fn_id args ≫= fun _ =>
  transact HWIO_CMD_REMOTE_CALL_RET ≫= fun _ => con_load 0 ret_size.

Definition remote_call_fast_void d (fn_id : Z) (args : list byte) : ST (Link N) unit :=
  call_by_id d fn_id args ≫= fun _ => tx_pckt.

(** The exchange of [is_rpc_available] and [get_rpc_fn_id]: the response. *)
Definition ask_rpc_fn_id d (fn_name : string) : ST (Link N) (list byte) :=
  con_store 0 (le_of_Z 1 HWIO_CMD_GET_REMOTE_CALL_ID) ≫= fun _ =>
  con_store 5 (strncpy MAX_NAME_LEN fn_name) ≫= fun _ =>
  con_store 3 (le_of_Z 2 (rd_id d)) ≫= fun _ =>
  con_store 1 (le_of_Z 2 (Z.of_nat sizeof_GetRemoteCallId)) ≫= fun _ =>
  transact HWIO_CMD_GET_REMOTE_CALL_ID_RESP ≫= fun _ =>
  con_load 0 sizeof_GetRemoteCallIdResp.

(** [to_str]: the string, and what it prints instead of appending it. *)
Definition remote_to_str (orig_addr : string) d : string * string :=
  (("hwio_device_remote: (server:" +:+ orig_addr +:+ ", id:" +:+ to_dec (rd_id d) +:+ ")" +:+ endl +:+
    "    spec:" +:+ endl)%string,
   foldr (fun s acc => "        " +:+ comp_spec_to_str s +:+ endl +:+ acc)%string ""%string (rd_spec d)).

(** [is_rpc_available]: [fn_id] is unsigned. *)
Definition is_rpc_available d (fn_name : string) : ST (Link N) bool :=
  ask_rpc_fn_id d fn_name ≫= fun resp =>
  mret (negb (field 0 1 resp =? 0) && (0 <=? field 1 4 resp)).

(** [get_rpc_fn_id] *)
Definition get_rpc_fn_id d (fn_name : string) : ST (Link N) Z :=
  ask_rpc_fn_id d fn_name ≫= fun resp => mret (s32 (field 1 4 resp)).
End device.

(** ** hwio_bus_remote *)

(** The bus: its connection and the devices it has seen.  A [D] is the place
    of a device object in [seen_devices], from which nothing is removed. *)
Record hwio_bus_remote (N : Type) := BusRemote {
  rb_link : Link N;
  seen_devices : list hwio_device_remote
}.
Arguments BusRemote {N}.
Arguments rb_link {N}.
Arguments seen_devices {N}.

Section bus.
Context {N : Type} `{!Peer N} {CA : ConApi}.

Definition on_link {A} (m : ST (Link N) A) : ST (hwio_bus_remote N) A := fun b =>
  let '(r, k) := m (rb_link b) in (r, BusRemote k (seen_devices b)).

(** [copy_str_to_resp] *)
Definition copy_str_to_resp (src : string) (off : nat) : ST (Link N) unit :=
  con_store off (replicate MAX_NAME_LEN NUL) ≫= fun _ =>
  con_store off (strncpy MAX_NAME_LEN src).

(** The loop of [spec_list_to_query] from the item [i] on. *)
Fixpoint store_items (i : nat) (spec : list hwio_comp_spec) : ST (Link N) unit :=
  match spec with
  | [] => mret tt
  | s :: t =>
      let item := (3 + i * sizeof_Dev_query_item)%nat in
      copy_str_to_resp (cs_name s) item ≫= fun _ =>
      copy_str_to_resp (cs_vendor s) (item + 128) ≫= fun _ =>
      copy_str_to_resp (cs_type s) (item + 256) ≫= fun _ =>
      con_store (item + 384) (enc_version (cs_version s)) ≫= fun _ => store_items (S i) t
  end.

(** [spec_list_to_query] *)
Definition spec_list_to_query (spec : list hwio_comp_spec) : ST (Link N) unit :=
  con_store 0 (le_of_Z 1 HWIO_CMD_QUERY) ≫= fun _ =>
  con_store 1 (le_of_Z 2 (Z.of_nat (sizeof_Dev_query_item * length spec))) ≫= fun _ =>
  store_items 0 spec.

(** The loop of [hwio_dev_from_id] *)
Fixpoint find_seen (seen : list hwio_device_remote) (id : Z) (i : nat) : option nat :=
  match seen with
  | [] => None
  | d :: t => if rd_id d =? id then Some i else find_seen t id (S i)
  end.

Lemma find_seen_spec seen id j :
  match find_seen seen id j with
  | Some i => exists m d, i = (j + m)%nat /\ seen !! m = Some d /\ rd_id d = id
  | None => id ∉ map rd_id seen
  end.
Proof.
  revert j. induction seen as [|d seen IH]; intros j; cbn; [by apply not_elem_of_nil|].
  destruct (Z.eqb_spec (rd_id d) id) as [E|E].
  - exists 0%nat, d. split_and!; [lia|done|done].
  - specialize (IH (S j)). destruct (find_seen seen id (S j)) as [i|].
    + destruct IH as (m & d' & -> & ? & ?). exists (S m), d'. split_and!; [lia|done|done].
    + rewrite not_elem_of_cons. by split.
Qed.

(** [hwio_dev_from_id] *)
Definition hwio_dev_from_id (spec : list hwio_comp_spec) (id : Z) : ST (hwio_bus_remote N) nat :=
  fun b =>
    match find_seen (seen_devices b) id 0 with
    | Some i => (Ret i, b)
    | None => (Ret (length (seen_devices b)),
        BusRemote (rb_link b) (seen_devices b ++ [new_remote spec id]))
    end.

(** [find_devices] *)
Definition remote_find_devices (spec : list hwio_comp_spec) : ST (hwio_bus_remote N) (list nat) :=
  on_link (spec_list_to_query spec) ≫= fun _ =>
  on_link tx_pckt ≫= fun _ =>
  on_link rx_pckt ≫= fun h =>
  if negb (command h =? HWIO_CMD_QUERY_RESP) then
    st_throw (Exn EX_runtime_error
      ("[HWIO, remote bus] Wrong response on device query:" +:+ to_dec (command h)))
  else
    st_mapM (fun i =>
      on_link (con_load (2 * i) 2) ≫= fun bs => hwio_dev_from_id spec (le_to_Z bs))
      (seq 0 (Z.to_nat (body_len h / 2))).

(** The destructor: the device objects, then the member [server]. *)
Definition destroy_bus : ST (hwio_bus_remote N) unit :=
  st_modify (fun b => BusRemote (rb_link b) []) ≫= fun _ => on_link destroy_con.

(** The constructor of the bus connects its member [server]; when that fails
    the member is destroyed before the exception goes on. *)
Definition connect_bus : ST (hwio_bus_remote N) unit := fun b =>
  match on_link connect_to_server b with
  | (Throw e, b') => (on_link destroy_con ≫= fun _ => st_throw e) b'
  | r => r
  end.

(** ** The interfaces of a device and a bus *)

Definition seen_device (i : nat) : ST (hwio_bus_remote N) hwio_device_remote := fun b =>
  match seen_devices b !! i with
  | Some d => (Ret d, b)
  | None => (Undef UseAfterFree, b)
  end.

(** A method of the device object [i]. *)
Definition on_seen {A} (i : nat) (m : hwio_device_remote -> ST (Link N) A) :
    ST (hwio_bus_remote N) A := seen_device i ≫= fun d => on_link (m d).

#[export] Instance remote_regs : RegAccess (hwio_bus_remote N) nat := {|
  read8 i off := on_seen i (fun d => remote_load d 1 off);
  read32 i off := on_seen i (fun d => remote_load d 4 off);
  read64 i off := on_seen i (fun d => remote_load d 8 off);
  write8 i off v := on_seen i (fun d => remote_store d 1 off v);
  write32 i off v := on_seen i (fun d => remote_store d 4 off v);
  write64 i off v := on_seen i (fun d => remote_store d 8 off v)
|}.

(** The device stores nothing through [dst] before it has all the bytes;
    [memset] is the default of [ihwio_dev]. *)
#[export] Instance remote_dev : IDev (hwio_bus_remote N) nat := {|
  get_spec b i := match seen_devices b !! i with Some d => rd_spec d | None => [] end;
  dev_name b i := match seen_devices b !! i with Some d => rd_name d | None => ""%string end;
  attach i := mret tt;
  dev_read i off n :=
    st_fst (on_seen i (fun d => remote_read d off n)) ≫= fun bs => emit bs;
  dev_memset i off c n := ihwio_dev_memset i off c n;
  dev_write i off data := on_seen i (fun d => remote_write d off data)
|}.

#[export] Instance remote_bus : IBus (hwio_bus_remote N) nat unit :=
  {| find_devices _ spec := remote_find_devices spec |}.
End bus.
