(* ===== verification/Objects.v ===== *)
(** * The objects of a process: buses and devices behind their interfaces

    The classes of buses and devices together.  A bus is a pointer to an object
    of one of the five classes, a device a pointer to an object of one of the
    two; a call through [ihwio_bus] or [ihwio_dev] selects the method by the
    class of the object.  A composite bus holds pointers to other buses, so a
    bus can be shared or deleted twice.  The constructors of [hwio_cli.cpp]
    make such objects. *)

From Stdlib Require Import ZArith Lia Ascii String.
From stdpp Require Import base tactics list numbers strings gmap fin_maps.
From S2P Require Import Prelude CxxString Version CompSpec Device Mmap Bus Devicetree Json OwningBus Cli.
From S2P Require Import Wire Address Client DeviceRemote.

(** An [ihwio_dev *]: a memory mapped device, or a device of a remote bus by
    its place in [seen_devices]. *)
Inductive any_dev := DevMmap (p : nat) | DevRemote (bus i : nat).

#[export] Instance any_dev_eq_dec : EqDecision any_dev.
Proof. solve_decision. Defined.

(** An object some [ihwio_bus *] points to. *)
Inductive bus_object (N : Type) :=
  | ODevicetree (b : owning_bus)
  | OJson (b : owning_bus)
  | ORemote (b : hwio_bus_remote N)
  | OPrimitive (b : hwio_bus_primitive any_dev)
  | OComposite (_buses : list nat).
Arguments ODevicetree {N}.
Arguments OJson {N}.
Arguments ORemote {N}.
Arguments OPrimitive {N}.
Arguments OComposite {N}.

(** Memory files with the mapped devices, and the buses by their address. *)
Record process (N : Type) := Process {
  pr_local : MmapWorld;
  pr_buses : gmap nat (bus_object N)
}.
Arguments Process {N}.
Arguments pr_local {N}.
Arguments pr_buses {N}.

(** The other end of a new connection, with what its socket has in store, and
    the memory the buffers of the connection object start with. *)
Class Dial (N : Type) := {
  dial_rx : string -> list byte;
  dial_tx : string -> list byte;
  dial_in : string -> list con_event;
  dial_out : string -> list tx_event;
  dial_peer : string -> N
}.

Section objects.
Context {N : Type} `{!Peer N} {CA : ConApi} {OS : Posix}.
Implicit Types (w : process N) (b : nat).

Definition set_local (m : MmapWorld) w : process N := Process m (pr_buses w).
Definition set_bus b (o : bus_object N) w : process N := Process (pr_local w) (<[b := o]> (pr_buses w)).

Definition on_local {A} (m : ST MmapWorld A) : ST (process N) A := fun w =>
  let '(r, l) := m (pr_local w) in (r, set_local l w).

Definition get_bus b : ST (process N) (bus_object N) := fun w =>
  match pr_buses w !! b with
  | Some o => (Ret o, w)
  | None => (Undef UseAfterFree, w)
  end.

(** A method of a remote bus, or of a device that points to one. *)
Definition on_remote {A} b (m : ST (hwio_bus_remote N) A) : ST (process N) A := fun w =>
  match pr_buses w !! b with
  | Some (ORemote rb) => let '(r, rb') := m rb in (r, set_bus b (ORemote rb') w)
  | _ => (Undef UseAfterFree, w)
  end.

(** ** Devices *)

(** The method of the class of a device. *)
Definition dispatch {A} (d : any_dev) (mmap : nat -> ST MmapWorld A)
    (remote : nat -> ST (hwio_bus_remote N) A) : ST (process N) A :=
  match d with
  | DevMmap p => on_local (mmap p)
  | DevRemote b i => on_remote b (remote i)
  end.

#[export] Instance any_regs : RegAccess (process N) any_dev := {|
  read8 d off := dispatch d (fun p => read8 p off) (fun i => read8 i off);
  read32 d off := dispatch d (fun p => read32 p off) (fun i => read32 i off);
  read64 d off := dispatch d (fun p => read64 p off) (fun i => read64 i off);
  write8 d off v := dispatch d (fun p => write8 p off v) (fun i => write8 i off v);
  write32 d off v := dispatch d (fun p => write32 p off v) (fun i => write32 i off v);
  write64 d off v := dispatch d (fun p => write64 p off v) (fun i => write64 i off v)
|}.

(** [read] with the bytes stored so far. *)
Definition dispatch_read (d : any_dev) (off : Z) (n : nat) : ST (process N * list byte) unit := fun st =>
  match d with
  | DevMmap p =>
      let '(r, (l, dst)) := dev_read p off n (pr_local st.1, st.2) in (r, (set_local l st.1, dst))
  | DevRemote b i =>
      match pr_buses st.1 !! b with
      | Some (ORemote rb) =>
          let '(r, (rb', dst)) := dev_read i off n (rb, st.2) in (r, (set_bus b (ORemote rb') st.1, dst))
      | _ => (Undef UseAfterFree, st)
      end
  end.

(** What a device shows, from the part of the process it lives in. *)
Definition dev_part {A} w (d : any_dev) (mmap : MmapWorld -> nat -> A)
    (remote : hwio_bus_remote N -> nat -> A) (dead : A) : A :=
  match d with
  | DevMmap p => mmap (pr_local w) p
  | DevRemote b i => match pr_buses w !! b with Some (ORemote rb) => remote rb i | _ => dead end
  end.

#[export] Instance any_idev : IDev (process N) any_dev := {|
  get_spec w d := dev_part w d get_spec get_spec [];
  dev_name w d := dev_part w d dev_name dev_name ""%string;
  attach d := dispatch d attach attach;
  dev_read := dispatch_read;
  dev_memset d off c n := dispatch d (fun p => dev_memset p off c n) (fun i => dev_memset i off c n);
  dev_write d off data := dispatch d (fun p => dev_write p off data) (fun i => dev_write i off data)
|}.

(** ** Buses *)

(** [find_devices] of the class of the object; [fuel] bounds the depth of the
    composites. *)
Fixpoint object_find (fuel : nat) b (spec : list hwio_comp_spec) : ST (process N) (list any_dev) :=
  match fuel with
  | O => st_undef Hang
  | S fuel' =>
      get_bus b ≫= fun o =>
      match o with
      | ODevicetree ob => on_local (devicetree_find_devices ob spec) ≫= fun ps => mret (map DevMmap ps)
      | OJson ob => on_local (json_find_devices ob spec) ≫= fun ps => mret (map DevMmap ps)
      | ORemote _ => on_remote b (remote_find_devices spec) ≫= fun found => mret (map (DevRemote b) found)
      | OPrimitive pb => primitive_find_devices pb spec
      | OComposite bs =>
          composite_find_devices (IBus0 := {| find_devices := object_find fuel' |}) bs spec
      end
  end.

(** Nested composites are distinct objects unless one contains itself, and
    then the call does not return. *)
Definition bus_lookup b (spec : list hwio_comp_spec) : ST (process N) (list any_dev) := fun w =>
  object_find (S (base.size (pr_buses w))) b spec w.

#[export] Instance object_bus : IBus (process N) any_dev nat := {| find_devices := bus_lookup |}.

(** The memory of an object is freed after its destructor. *)
Definition free_bus b : ST (process N) unit :=
  get_bus b ≫= fun _ => st_modify (fun w => Process (pr_local w) (delete b (pr_buses w))).

(** [delete b]: the destructor of the class of the object. *)
Fixpoint object_delete (fuel : nat) b : ST (process N) unit :=
  match fuel with
  | O => st_undef Hang
  | S fuel' =>
      get_bus b ≫= fun o =>
      match o with
      | ODevicetree ob | OJson ob => on_local (delete_owning_bus ob)
      | ORemote _ => on_remote b destroy_bus
      | OPrimitive _ => mret tt
      | OComposite bs => st_iter (object_delete fuel') bs
      end ≫= fun _ => free_bus b
  end.

Definition bus_delete b : ST (process N) unit := fun w =>
  object_delete (S (base.size (pr_buses w))) b w.

(** ** Constructors *)

(** [new]: a place that is not in use. *)
Definition new_bus (o : bus_object N) : ST (process N) nat := fun w =>
  let b := fresh (dom (pr_buses w)) in (Ret b, set_bus b o w).

(** [new hwio_bus_remote(host)]; when the constructor throws there is no
    object. *)
Definition new_bus_remote {RS : Resolver} {DL : Dial N} (host : string) : ST (process N) nat :=
  st_lift (new_con (dial_rx host) (dial_tx host) host ≫= fun c =>
    match connect_bus (BusRemote (MkLink c (dial_in host) (dial_out host) (dial_peer host)) []) with
    | (Ret _, rb) => Ret rb
    | (Throw e, _) => Throw e
    | (Undef f, _) => Undef f
    end) ≫= fun rb => new_bus (ORemote rb).

(** The constructors [hwio_cli.cpp] calls; [walk_fuel] bounds the walk over a
    device tree. *)
Definition process_factory {FS : FileSystem} {SO : StdSort} {JF : JsonFiles} {RS : Resolver} {DL : Dial N}
    (walk_fuel : nat) : BusFactory (process N) nat := {|
  new_hwio_bus_remote := new_bus_remote;
  new_hwio_bus_json file := on_local (new_bus_json file) ≫= fun ob => new_bus (OJson ob);
  new_hwio_bus_devicetree path mem :=
    on_local (new_bus_devicetree walk_fuel path mem) ≫= fun ob => new_bus (ODevicetree ob)
|}.
End objects.
