(* ===== verification/ObjectsSpec.v ===== *)
(** * Trees of buses

    What the buses of a process find and what their destructors delete, for
    every nesting of composite buses over buses in the process itself: the
    lookup finds the matching devices of all leaves in order; the destructor
    deletes each object of the tree once, or leaves the language when the tree
    reaches an object twice. *)

From Stdlib Require Import ZArith Lia Ascii String.
From stdpp Require Import base tactics list numbers strings gmap fin_maps fin_map_dom.
From S2P Require Import Prelude CxxString Version CompSpec Device Mmap Bus Devicetree Json OwningBus Cli.
From S2P Require Import Wire Address Client DeviceRemote Objects.

(** ** Trees *)

Inductive bus_tree :=
  | TOwner (b : nat) (devs : list nat)
  | TPrimitive (b : nat) (devs : list any_dev)
  | TComposite (b : nat) (ts : list bus_tree).

Lemma bus_tree_ind' (P : bus_tree -> Prop) :
  (forall b ds, P (TOwner b ds)) -> (forall b ds, P (TPrimitive b ds)) ->
  (forall b ts, Forall P ts -> P (TComposite b ts)) -> forall t, P t.
Proof.
  intros Ho Hp Hc. fix IH 1. intros [b ds|b ds|b ts]; [apply Ho|apply Hp|].
  apply Hc. induction ts; constructor; [apply IH|done].
Qed.

Definition root (t : bus_tree) : nat :=
  match t with TOwner b _ | TPrimitive b _ | TComposite b _ => b end.

(** The devices of the leaves. *)
Fixpoint tree_devices (t : bus_tree) : list any_dev :=
  match t with
  | TOwner _ ds => map DevMmap ds
  | TPrimitive _ ds => ds
  | TComposite _ ts => concat (map tree_devices ts)
  end.

(** The objects of a tree, in the order in which they are deleted. *)
Fixpoint tree_buses (t : bus_tree) : list nat :=
  match t with
  | TOwner b _ | TPrimitive b _ => [b]
  | TComposite b ts => concat (map tree_buses ts) ++ [b]
  end.

Fixpoint tree_owned (t : bus_tree) : list nat :=
  match t with
  | TOwner _ ds => ds
  | TPrimitive _ _ => []
  | TComposite _ ts => concat (map tree_owned ts)
  end.

Fixpoint depth (t : bus_tree) : nat :=
  match t with
  | TComposite _ ts => S (foldr Nat.max 0%nat (map depth ts))
  | _ => 1
  end.

Lemma depth_child b ts t : t ∈ ts -> (depth t < depth (TComposite b ts))%nat.
Proof.
  cbn [depth]. induction ts as [|u ts IH]; [by intros ?%not_elem_of_nil|].
  intros [->|Ht]%elem_of_cons; cbn [map foldr]; [lia|]. specialize (IH Ht). lia.
Qed.

Lemma depth_deepest b t ts :
  exists u, u ∈ t :: ts /\ depth (TComposite b (t :: ts)) = S (depth u).
Proof.
  cbn [depth map foldr]. revert t. induction ts as [|u ts IH]; intros t; cbn [map foldr].
  - exists t. split; [by left|]. lia.
  - destruct (IH u) as (v & Hv & E). cbn [map foldr] in E.
    destruct (Nat.le_gt_cases (depth t) (depth v)); [exists v|exists t]; (split; [|lia]); [by right|by left].
Qed.

Section trees.
Context {N : Type} `{!Peer N} {CA : ConApi} {OS : Posix}.
Implicit Types (w : process N) (b : nat) (t : bus_tree).

(** The pointer to the root leads to this tree. *)
Inductive represents w : bus_tree -> Prop :=
  | rep_devicetree b ob :
      pr_buses w !! b = Some (ODevicetree ob) -> represents w (TOwner b (ob_devices ob))
  | rep_json b ob :
      pr_buses w !! b = Some (OJson ob) -> represents w (TOwner b (ob_devices ob))
  | rep_primitive b pb :
      pr_buses w !! b = Some (OPrimitive pb) -> represents w (TPrimitive b (_all_devices pb))
  | rep_composite b ts :
      pr_buses w !! b = Some (OComposite (map root ts)) -> Forall (represents w) ts ->
      represents w (TComposite b ts).

Lemma represents_root w t : represents w t -> is_Some (pr_buses w !! root t).
Proof. intros H. destruct H as [? ? H|? ? H|? ? H|? ? H _]; cbn [root]; rewrite H; by eexists. Qed.

(** A pointer leads to one tree at most. *)
Lemma represents_unique w t t' :
  represents w t -> represents w t' -> root t = root t' -> t = t'.
Proof.
  revert t'. induction t as [b ds|b ds|b ts IH] using bus_tree_ind'; intros t' Ht Ht' E.
  1,2: inversion Ht; subst; inversion Ht'; subst; cbn [root] in E; by simplify_eq.
  inversion Ht as [| | |? ? Hb Hts]; subst.
  inversion Ht' as [? ? Hb'|? ? Hb'|? ? Hb'|? ts' Hb' Hts']; subst; cbn [root] in E; subst b;
    rewrite Hb in Hb'; try discriminate. injection Hb' as E. f_equal. clear Hb Ht Ht'.
  revert ts' Hts' E. induction IH as [|t ts Ht _ IHts]; intros [|t' ts'] Hts' E; try done.
  injection E as E1 E2. apply Forall_cons in Hts as [H1 H2]. apply Forall_cons in Hts' as [H1' H2'].
  f_equal; [by apply Ht|by apply IHts].
Qed.

(** A path to the deepest leaf goes through different objects. *)
Lemma deepest_path w t : represents w t -> exists path,
  NoDup path /\ length path = depth t /\
  forall b, b ∈ path -> exists u, represents w u /\ root u = b /\ (depth u <= depth t)%nat.
Proof.
  intros Ht.
  assert (forall t, represents w t -> depth t = 1%nat -> exists path, NoDup path /\ length path = depth t /\
    forall b, b ∈ path -> exists u, represents w u /\ root u = b /\ (depth u <= depth t)%nat) as Hleaf.
  { clear. intros t Ht E. exists [root t]. split_and!; [apply NoDup_singleton|by rewrite E|].
    intros b ->%list_elem_of_singleton. by exists t. }
  induction t as [b ds|b ds|b ts IH] using bus_tree_ind'; [by apply Hleaf..|].
  destruct ts as [|t ts]; [by apply Hleaf|].
  destruct (depth_deepest b t ts) as (u & Hu & E). inversion Ht as [| | |? ? Hb Hts]; subst.
  rewrite Forall_forall in IH, Hts. destruct (IH u Hu (Hts u Hu)) as (path & Hnd & Hl & Hp).
  exists (b :: path). split_and!; [|by rewrite E, <-Hl|].
  - constructor; [|done]. intros Hin. destruct (Hp b Hin) as (v & Hv & Hr & Hd).
    pose proof (represents_unique w v _ Hv Ht Hr) as ->. lia.
  - intros c [->|Hc]%elem_of_cons; [by exists (TComposite b (t :: ts))|].
    destruct (Hp c Hc) as (v & Hv & Hr & Hd). exists v. split_and!; [done..|lia].
Qed.

(** The depth that [bus_lookup] and [bus_delete] allow is enough. *)
Lemma depth_bound w t : represents w t -> (depth t < S (base.size (pr_buses w)))%nat.
Proof.
  intros Ht. destruct (deepest_path w t Ht) as (path & Hnd & <- & Hp).
  rewrite <-size_dom, <-(size_list_to_set (C := gset nat) path Hnd). apply Nat.lt_succ_r, subseteq_size.
  intros b Hb%elem_of_list_to_set. destruct (Hp b Hb) as (u & Hu & <- & _).
  apply elem_of_dom. by apply represents_root.
Qed.

(** ** Lookup *)

Lemma set_local_same w : set_local (pr_local w) w = w.
Proof. by destruct w. Qed.

Lemma on_local_run {A} (m : ST MmapWorld A) w a l :
  m (pr_local w) = (Ret a, l) -> on_local m w = (Ret a, set_local l w).
Proof. intros H. unfold on_local. by rewrite H. Qed.

Lemma get_bus_run b o w : pr_buses w !! b = Some o -> get_bus b w = (Ret o, w).
Proof. intros H. unfold get_bus. by rewrite H. Qed.

Lemma local_matches w spec ds :
  map DevMmap (filter (device_matches (pr_local w) spec) ds) =
  filter (device_matches w spec) (map DevMmap ds).
Proof.
  induction ds as [|d ds IH]; [done|]. cbn [map]. rewrite !filter_cons, <-IH.
  by repeat case_decide.
Qed.

Lemma object_find_local fuel b w spec ds :
  (pr_buses w !! b = Some (ODevicetree (OwningBus ds)) \/ pr_buses w !! b = Some (OJson (OwningBus ds))) ->
  object_find (S fuel) b spec w = (Ret (filter (device_matches w spec) (map DevMmap ds)), w).
Proof.
  assert (json_find_devices (OwningBus ds) spec (pr_local w) =
    (Ret (filter (device_matches (pr_local w) spec) ds), pr_local w)) as E.
  { unfold json_find_devices. by rewrite filter_device_by_spec_filter. }
  intros [H|H]; cbn [object_find]; rewrite (st_bind_ret _ _ _ _ _ (get_bus_run _ _ _ H)).
  - rewrite <-devicetree_find_json in E. rewrite (st_bind_ret _ _ _ _ _ (on_local_run _ _ _ _ E)).
    by rewrite set_local_same, <-local_matches.
  - rewrite (st_bind_ret _ _ _ _ _ (on_local_run _ _ _ _ E)). by rewrite set_local_same, <-local_matches.
Qed.

Lemma object_find_tree fuel w spec t :
  represents w t -> (depth t <= fuel)%nat ->
  object_find fuel (root t) spec w = (Ret (filter (device_matches w spec) (tree_devices t)), w).
Proof.
  revert fuel. induction t as [b ds|b ds|b ts IH] using bus_tree_ind'; intros [|fuel] Ht Hd;
    try (cbn in Hd; lia); inversion Ht; subst; cbn [root tree_devices].
  1,2: apply object_find_local; destruct ob; auto.
  - cbn [object_find]. erewrite st_bind_ret by by apply get_bus_run.
    unfold primitive_find_devices. by rewrite filter_device_by_spec_filter.
  - cbn [object_find]. erewrite st_bind_ret by by apply get_bus_run.
    assert (Forall (fun t => object_find fuel (root t) spec w =
      (Ret (filter (device_matches w spec) (tree_devices t)), w)) ts) as Hts.
    { rename select (Forall _ ts) into Hr. rewrite Forall_forall in IH, Hr |- *. intros t Hin. apply IH; [done|by apply Hr|].
      pose proof (depth_child b ts t Hin). lia. }
    clear -Hts. induction Hts as [|t ts H _ IHts]; [done|]. cbn [map composite_find_devices concat].
    erewrite st_bind_ret by exact H. rewrite (st_bind_ret _ _ _ _ _ IHts). by rewrite filter_app.
Qed.

(** ** Deletion *)

(** The process without some buses and mapped devices. *)
Definition release w (bs ds : list nat) : process N :=
  Process (MWorld (mw_mem (pr_local w)) (foldl (fun m d => delete d m) (mw_devs (pr_local w)) ds))
    (foldl (fun m b => delete b m) (pr_buses w) bs).

Lemma lookup_foldl_delete {A} (m : gmap nat A) l i :
  foldl (fun m d => delete d m) m l !! i = if decide (i ∈ l) then None else m !! i.
Proof.
  revert m. induction l as [|d l IH]; intros m; cbn [foldl].
  - by rewrite decide_False by apply not_elem_of_nil.
  - rewrite IH. destruct (decide (i ∈ l)) as [Hl|Hl]; [by rewrite decide_True by by right|].
    destruct (decide (i = d)) as [->|Hd]; [by rewrite decide_True, lookup_delete_eq by left|].
    rewrite decide_False by (rewrite elem_of_cons; naive_solver). by apply lookup_delete_ne.
Qed.

Lemma lookup_release_bus w bs ds b :
  pr_buses (release w bs ds) !! b = if decide (b ∈ bs) then None else pr_buses w !! b.
Proof. apply lookup_foldl_delete. Qed.

Lemma lookup_release_dev w bs ds d :
  mw_devs (pr_local (release w bs ds)) !! d = if decide (d ∈ ds) then None else mw_devs (pr_local w) !! d.
Proof. apply lookup_foldl_delete. Qed.

(** After [bs0] and [ds0] the objects [bs] and [ds] can be deleted. *)
Definition disposable w (bs0 ds0 bs ds : list nat) : Prop :=
  NoDup (bs0 ++ bs) /\ NoDup (ds0 ++ ds) /\ Forall (fun d => is_Some (mw_devs (pr_local w) !! d)) ds.

#[export] Instance disposable_dec w bs0 ds0 bs ds : Decision (disposable w bs0 ds0 bs ds).
Proof. unfold disposable. apply _. Defined.

Lemma disposable_app w bs0 ds0 bs1 ds1 bs2 ds2 :
  disposable w bs0 ds0 (bs1 ++ bs2) (ds1 ++ ds2) <->
  disposable w bs0 ds0 bs1 ds1 /\ disposable w (bs0 ++ bs1) (ds0 ++ ds1) bs2 ds2.
Proof.
  unfold disposable. rewrite Forall_app, !app_assoc. split; [|tauto].
  intros (H1 & H2 & H3 & H4). by split_and!; try done;
    [apply NoDup_app in H1 as [? _]|apply NoDup_app in H2 as [? _]].
Qed.

(** The step returns when [P] holds and uses a deleted object otherwise. *)
Definition deletes (P : Prop) (m : ST (process N) unit) w w' : Prop :=
  (P -> m w = (Ret tt, w')) /\ (~ P -> exists w2, m w = (Undef UseAfterFree, w2)).

Lemma deletes_iff P Q m w w' : (P <-> Q) -> deletes P m w w' -> deletes Q m w w'.
Proof. intros H [H1 H2]. split; intros HQ; [apply H1|apply H2]; by rewrite H. Qed.

Lemma deletes_bind P Q (m1 m2 : ST (process N) unit) w w1 w2 `{!Decision P} :
  deletes P m1 w w1 -> (P -> deletes Q m2 w1 w2) -> deletes (P /\ Q) (m1 ≫= fun _ => m2) w w2.
Proof.
  intros [H1 H2] H. split.
  - intros [HP HQ]. rewrite (st_bind_ret _ _ _ _ _ (H1 HP)). by apply H.
  - intros Hn. destruct (decide P) as [HP|HP].
    + rewrite (st_bind_ret _ _ _ _ _ (H1 HP)). apply (H HP). tauto.
    + destruct (H2 HP) as [w3 Hrun]. exists w3. by apply st_bind_undef.
Qed.

(** A step that deletes [bs] and [ds], whatever was deleted before. *)
Definition disposes w (m : ST (process N) unit) (bs ds : list nat) : Prop := forall bs0 ds0,
  disposable w bs0 ds0 [] [] ->
  deletes (disposable w bs0 ds0 bs ds) m (release w bs0 ds0) (release w (bs0 ++ bs) (ds0 ++ ds)).

Lemma disposable_before w bs0 ds0 bs ds : disposable w bs0 ds0 bs ds -> disposable w bs0 ds0 [] [].
Proof. intros (H1 & H2 & _). apply NoDup_app in H1 as [? _], H2 as [? _]. unfold disposable. by rewrite !app_nil_r. Qed.

Lemma disposes_nil w : disposes w (mret tt) [] [].
Proof. intros bs0 ds0 H. rewrite !app_nil_r. by split. Qed.

Lemma disposes_bind w m1 m2 bs1 ds1 bs2 ds2 :
  disposes w m1 bs1 ds1 -> disposes w m2 bs2 ds2 ->
  disposes w (m1 ≫= fun _ => m2) (bs1 ++ bs2) (ds1 ++ ds2).
Proof.
  intros H1 H2 bs0 ds0 H0. eapply deletes_iff; [symmetry; apply disposable_app|]. rewrite !app_assoc.
  apply deletes_bind with (release w (bs0 ++ bs1) (ds0 ++ ds1)); [apply _|by apply H1|].
  intros H. apply H2. destruct H as (? & ? & ?). unfold disposable. by rewrite !app_nil_r.
Qed.

Lemma disposes_iter {A} w (body : A -> ST (process N) unit) (bs ds : A -> list nat) l :
  Forall (fun x => disposes w (body x) (bs x) (ds x)) l ->
  disposes w (st_iter body l) (concat (map bs l)) (concat (map ds l)).
Proof. induction 1; cbn [st_iter map concat]; [apply disposes_nil|by apply disposes_bind]. Qed.

Lemma on_local_iter {A} (body : A -> ST MmapWorld unit) l w :
  on_local (st_iter body l) w = st_iter (fun x => on_local (body x)) l w.
Proof.
  revert w. induction l as [|x l IH]; intros w; [by destruct w|]. cbn [st_iter].
  unfold on_local at 1, mbind, ST_bind, on_local at 1.
  destruct (body x (pr_local w)) as [[[]|e|f] l'] eqn:E; [|done..].
  specialize (IH (set_local l' w)). unfold on_local in IH at 1. rewrite <-IH. cbn [pr_local set_local].
  by destruct (st_iter body l l') as [r l''].
Qed.

Lemma disposes_dev w d : disposes w (on_local (delete_dev d)) [] [d].
Proof.
  intros bs0 ds0 (H1 & H2 & _). rewrite !app_nil_r in H1, H2. unfold on_local, delete_dev, mbind, ST_bind, get_dev.
  pose proof (lookup_release_dev w bs0 ds0 d) as E. rewrite app_nil_r. split.
  - intros (_ & Hnd & [dev Hd]%Forall_singleton). rewrite decide_False, Hd in E.
    2:{ apply NoDup_app in Hnd as (_ & Hn & _). intros Hin. by apply (Hn d Hin), list_elem_of_singleton. }
    rewrite E. cbn. unfold set_local, release. cbn. by rewrite foldl_app.
  - intros Hn. assert (mw_devs (pr_local (release w bs0 ds0)) !! d = None) as ->; [|by eexists].
    rewrite E. case_decide as Hd; [done|]. destruct (mw_devs (pr_local w) !! d) eqn:Hl; [|done].
    exfalso. apply Hn. split_and!; [by rewrite app_nil_r| |by repeat constructor].
    apply NoDup_app. split_and!; [done| |apply NoDup_singleton]. by intros x Hx ->%list_elem_of_singleton.
Qed.

Lemma disposes_devs w ob : disposes w (on_local (delete_owning_bus ob)) [] (ob_devices ob).
Proof.
  intros bs0 ds0 H0.
  pose proof (disposes_iter w (fun d => on_local (delete_dev d)) (fun _ => []) (fun d => [d]) (ob_devices ob)) as H.
  assert (concat (map (fun d => [d]) (ob_devices ob)) = ob_devices ob /\
    concat (map (fun _ : nat => @nil nat) (ob_devices ob)) = []) as [E1 E2].
  { clear. induction (ob_devices ob) as [|x l [IH1 IH2]]; [done|]. cbn. by rewrite IH1. }
  rewrite E1, E2 in H. destruct (H ltac:(apply Forall_forall; intros; apply disposes_dev) bs0 ds0 H0) as [Hr Hu].
  unfold deletes, delete_owning_bus. by rewrite on_local_iter.
Qed.

(** An object is destroyed and freed when it was not before. *)
Lemma disposes_object w b o bs ds (m : bus_object N -> ST (process N) unit) :
  pr_buses w !! b = Some o -> disposes w (m o) bs ds ->
  disposes w (get_bus b ≫= fun o => m o ≫= fun _ => free_bus b) (bs ++ [b]) ds.
Proof.
  intros Hb Hm. assert (disposes w (free_bus b) [b] []) as Hf.
  { intros bs0 ds0 (H1 & H2 & _). rewrite !app_nil_r in H1, H2. unfold deletes, free_bus, mbind, ST_bind, get_bus.
    pose proof (lookup_release_bus w bs0 ds0 b) as E. rewrite Hb in E. rewrite E, app_nil_r. case_decide as Hin.
    - split; [|by eexists]. intros (Hnd & _). apply NoDup_app in Hnd as (_ & Hn & _). exfalso. by apply (Hn b Hin); left.
    - split; [|intros Hn; exfalso; apply Hn; split_and!; [|by rewrite app_nil_r|constructor]].
      + intros _. unfold st_modify, release. cbn. by rewrite foldl_app.
      + apply NoDup_app. split_and!; [done| |apply NoDup_singleton]. by intros x Hx ->%list_elem_of_singleton. }
  intros bs0 ds0 H0. pose proof (disposes_bind w (m o) (free_bus b) bs ds [b] [] Hm Hf bs0 ds0 H0) as [Hr Hu].
  rewrite app_nil_r in Hr, Hu. pose proof (lookup_release_bus w bs0 ds0 b) as E. case_decide as Hin.
  - assert (~ disposable w bs0 ds0 (bs ++ [b]) ds) as Hn.
    { intros (Hnd & _). apply NoDup_app in Hnd as (_ & Hn & _). apply (Hn b Hin), elem_of_app. right. by left. }
    split; [done|]. intros _. eexists. apply st_bind_undef. unfold get_bus. by rewrite E.
  - rewrite Hb in E. unfold deletes. by rewrite (st_bind_ret _ _ _ _ _ (get_bus_run _ _ _ E)).
Qed.

Lemma object_delete_tree fuel w t :
  represents w t -> (depth t <= fuel)%nat -> disposes w (object_delete fuel (root t)) (tree_buses t) (tree_owned t).
Proof.
  revert fuel. induction t as [b ds|b ds|b ts IH] using bus_tree_ind'; intros [|fuel] Ht Hd;
    try (cbn in Hd; lia); inversion Ht as [? ob Hb|? ob Hb|? pb Hb|? ? Hb Hts]; subst; cbn [root tree_buses tree_owned].
  1,2: apply (disposes_object w b _ [] (ob_devices ob) _ Hb); apply disposes_devs.
  - apply (disposes_object w b _ [] [] _ Hb), disposes_nil.
  - apply (disposes_object w b _ _ _ _ Hb). cbv beta iota. fold object_delete.
    assert (st_iter (object_delete fuel) (map root ts) = st_iter (fun t => object_delete fuel (root t)) ts) as ->.
    { clear. induction ts as [|t ts IH]; [done|]. cbn [map st_iter]. by rewrite IH. }
    apply disposes_iter. rewrite Forall_forall in IH, Hts |- *. intros t Hin. apply IH; [done|by apply Hts|].
    pose proof (depth_child b ts t Hin). lia.
Qed.

(** ** Properties *)

(** C19: however composite buses are nested over device tree, JSON and
    primitive buses, and whatever they share, the lookup through the root
    returns, with the state unchanged, exactly the matching devices of all
    leaves, in their order and as often as a leaf lists them. *)
Theorem bus_tree_lookup w t spec :
  represents w t ->
  find_devices (root t) spec w = (Ret (filter (device_matches w spec) (tree_devices t)), w).
Proof. intros Ht. apply object_find_tree; [done|]. pose proof (depth_bound w t Ht). lia. Qed.

(** C18: deleting the root of a tree of buses deletes each bus and each owned
    device once and nothing else, exactly when the tree reaches none of them
    twice and its devices are live; otherwise a deleted object is used. *)
Theorem bus_tree_deleted w t :
  represents w t ->
  deletes (disposable w [] [] (tree_buses t) (tree_owned t)) (bus_delete (root t))
    w (release w (tree_buses t) (tree_owned t)).
Proof.
  intros Ht. replace w with (release w [] []) at 2 by by destruct w as [[] ?].
  apply (object_delete_tree (S (base.size (pr_buses w))) w t Ht); [|by split_and!; constructor].
  pose proof (depth_bound w t Ht). lia.
Qed.
End trees.
