(* ===== verification/HwioInit.v ===== *)
(** * From the command line to the registers

    [hwio_init] with the constructors of the program: the configuration names
    a JSON description, the bus made of it owns the devices described, and a
    device that is found there can be attached and read. *)

From Stdlib Require Import ZArith Lia Ascii String.
From stdpp Require Import base tactics list numbers strings gmap fin_maps fin_map_dom.
From S2P Require Import Prelude CxxString Version CompSpec Device Mmap Bus Devicetree Json OwningBus Cli.
From S2P Require Import Wire Address Client DeviceRemote Objects ObjectsSpec.

(** A configuration with one bus that a JSON file describes. *)
Definition json_bus_entry (file : string) : ptree :=
  PTree "" [("type"%string, leaf "json"); ("file"%string, leaf file)].

Definition config_document (entries : list ptree) : ptree :=
  PTree "" [("buses"%string, json_array entries)].

(** The configuration file that is used when the options name at most one. *)
Definition config_name {UF : UserFiles} (opts : list opt_event) : option string :=
  match opts with
  | [] => List.find file_exists [(pw_dir +:+ "/.hwio/config.json")%string; "/etc/hwio/config.json"%string]
  | [o] => if bool_decide (opt_val o = "c"%char) then Some (optarg o) else None
  | _ => None
  end.

Section config.
Context {W B : Type} `{!BusFactory W B} {JF : JsonFiles} {UF : UserFiles} {GO : Getopt}.

(** The initialisation with a configuration of one bus. *)
Lemma hwio_init_config argc argv name entry w bus w' :
  config_name (getopt_long long_opts (copy_argv argc argv)) = Some name ->
  read_json name = Some (Ret (config_document [entry])) ->
  hwio_bus_from_ptree (W:=W) (B:=B) entry w = (Ret bus, w') ->
  hwio_init argc argv w = (Ret (bus, rm_comsumed_args argc argv), w').
Proof.
  intros Hn Hj Hb.
  assert (hwio_config_load_file (W:=W) (B:=B) name w = (Ret [bus], w')) as Hload.
  { unfold hwio_config_load_file. rewrite Hj. erewrite st_bind_ret by done.
    unfold hwio_config_load. erewrite (st_bind_ret (st_lift _)) by done.
    change (config_buses _ _) with (config_buses (W:=W) (B:=B) [(""%string, entry)] []). cbn [config_buses].
    rewrite bool_decide_eq_true_2 by done. cbn [negb]. by rewrite (st_bind_ret _ _ _ _ _ Hb). }
  unfold hwio_init, config_name in *. destruct (getopt_long _ _) as [|o [|]]; [..|done].
  - erewrite (st_bind_ret (rethrow_sliced _)) by done. cbn [is_devicetree config_specified negb is_buses].
    erewrite (st_bind_ret (hwio_load_default_config ≫= _)).
    2:{ unfold hwio_load_default_config. rewrite Hn. by rewrite (st_bind_ret _ _ _ _ _ Hload). }
    done.
  - case_bool_decide as Ho; [|done]. injection Hn as <-.
    erewrite (st_bind_ret (rethrow_sliced _)).
    2:{ unfold rethrow_sliced. cbn [init_loop]. unfold init_step. rewrite bool_decide_eq_true_2 by done.
        erewrite st_bind_ret by (rewrite (st_bind_ret _ _ _ _ _ Hload); reflexivity). reflexivity. }
    done.
Qed.
End config.

Section init.
Context {N : Type} `{!Peer N} {CA : ConApi} {OS : Posix} {FS : FileSystem} {SO : StdSort} {JF : JsonFiles}.
Context {UF : UserFiles} {GO : Getopt} {RS : Resolver} {DL : Dial N} (walk_fuel : nat).
Implicit Types (w : process N).

#[local] Instance factory : BusFactory (process N) nat := process_factory walk_fuel.

(** The bus of a JSON description is a tree of one object. *)
Lemma json_bus_run file memfile offset ds specs w :
  file <> ""%string -> read_json file = Some (Ret (json_document memfile offset ds)) ->
  0 <= offset < 2 ^ 32 -> Forall2 described ds specs ->
  exists bus ptrs w', hwio_bus_from_ptree (json_bus_entry file) w = (Ret bus, w') /\
    represents w' (TOwner bus ptrs) /\ NoDup ptrs /\
    Forall2 (fun p dev => mw_devs (pr_local w) !! p = None /\ mw_devs (pr_local w') !! p = Some dev)
      ptrs (described_devices memfile offset ds specs) /\
    mw_mem (pr_local w') = mw_mem (pr_local w) /\ release w' [bus] ptrs = w.
Proof.
  intros Hf Hj Ho Hds.
  destruct (new_devs_run (described_devices memfile offset ds specs) (pr_local w))
    as (ptrs & l' & Hrun & Hmem & Hnd & Hall & Hnew & Hold).
  set (bus := fresh (dom (pr_buses w))).
  assert (pr_buses w !! bus = None) as Hbus by apply not_elem_of_dom, is_fresh.
  exists bus, ptrs, (set_bus bus (OJson (OwningBus ptrs)) (set_local l' w)). split_and!.
  - unfold hwio_bus_from_ptree. erewrite (st_bind_ret (st_lift _)) by done.
    change (pt_get (json_bus_entry file) "file" "") with file.
    rewrite bool_decide_eq_false_2, bool_decide_eq_true_2, bool_decide_eq_false_2 by done.
    cbn [new_hwio_bus_json factory process_factory].
    rewrite (st_bind_ret (on_local _) _ w (OwningBus ptrs) (set_local l' w)); [reflexivity|].
    apply on_local_run. unfold new_bus_json, new_owning_bus, hwio_bus_json. rewrite Hj. cbn [mbind outcome_bind].
    rewrite (load_devices_run _ _ _ specs) by done. erewrite (st_bind_ret (st_lift _)) by done.
    by rewrite (st_bind_ret _ _ _ _ _ Hrun).
  - apply (rep_json _ bus (OwningBus ptrs)). cbn. apply lookup_insert_eq.
  - done.
  - cbn [pr_local set_bus set_local]. apply Forall2_same_length_lookup. split; [by eapply Forall2_length|].
    intros i p d Hp Hd. split; [|by apply (Forall2_lookup_lr _ _ _ _ _ _ Hall Hp Hd)].
    apply Hnew. by eapply list_elem_of_lookup_2.
  - exact Hmem.
  - destruct w as [[m devs] buses]. unfold release. cbn [set_bus set_local pr_local pr_buses] in *. f_equal.
    + cbn in Hmem. rewrite Hmem. f_equal. apply map_eq. intros p. rewrite lookup_foldl_delete. cbn in Hnew, Hold.
      case_decide as Hp; [by rewrite Hnew|by apply Hold].
    + cbn. by apply delete_insert_id.
Qed.

(** Attaching a device of a process and reading a block of it. *)
Lemma attached_block {P : PosixPages} w p spec base size file off bs :
  mw_devs (pr_local w) !! p = Some (new_mmap_device spec base size file) ->
  0 <= base < 2 ^ 32 -> 0 <= size < 2 ^ 32 -> 0 < os_open file ->
  (let dev := new_mmap_device spec base size file in
   os_mmap file (addr_space_size dev) (page_addr dev) = true) ->
  0 <= off -> off + Z.of_nat (length bs) <= size ->
  (forall i b, bs !! i = Some b -> mw_mem (pr_local w) !! (file, base + off + Z.of_nat i) = Some b) ->
  exists w', (attach (DevMmap p) ≫= fun _ => read_block (DevMmap p) off (length bs)) w = (Ret bs, w').
Proof.
  intros Hp Hb Hs Hopen Hmap Ho Hl Hmem. set (dev := new_mmap_device spec base size file) in *.
  set (l := attached_world (pr_local w) p dev (os_open file) true).
  exists (set_local l w).
  assert (mmap_attach p (pr_local w) = (Ret tt, l)) as Ha.
  { rewrite (mmap_attach_run _ _ dev Hp). cbn [md_fd dev new_mmap_device mem_file_name]. cbn zeta in Hmap.
    change (0 <=? -1) with false. cbv iota. rewrite (proj2 (Z.leb_gt _ _)) by done. cbv zeta. fold dev. by rewrite Hmap. }
  rewrite (st_bind_ret (attach (DevMmap p)) _ w tt (set_local l w)) by exact (on_local_run _ _ _ _ Ha).
  assert (ihwio_dev_read p off (length bs) (l, []) = (Ret tt, (l, bs))) as Hr.
  { apply (ihwio_dev_read_shows l p off bs []); [done|lia|]. intros i b Hi. pose proof (lookup_lt_Some _ _ _ Hi).
    cbn [peek mmap_byte_device]. rewrite (mmap_device_peek l p spec base size file (os_open file)); [|done|done| |lia].
    - rewrite Z.add_assoc. by apply Hmem.
    - apply lookup_insert_eq. }
  unfold read_block. cbn [dev_read any_idev dispatch_read fst snd pr_local set_local].
  cbn [dev_read mmap_dev]. by rewrite Hr.
Qed.

(** ** Properties *)

(** C10: a program that starts with a configuration of one JSON bus, from the
    command line or a default file, gets a bus whose lookups return the
    matching devices of the description, in order and as new objects; deleting
    the bus leaves the process as it was.  After attaching a device, a block
    read returns the bytes of the memory file at the address the code gives
    the device, which is not the one described: the call of the constructor
    exchanges the two members, so a device lies at the offset plus the size
    of its description (modulo 2^32) and is as long as the base. *)
Theorem hwio_init_registers {P : PosixPages} argc argv name file memfile offset ds specs w :
  config_name (getopt_long long_opts (copy_argv argc argv)) = Some name ->
  read_json name = Some (Ret (config_document [json_bus_entry file])) -> file <> ""%string ->
  read_json file = Some (Ret (json_document memfile offset ds)) ->
  0 <= offset < 2 ^ 32 -> Forall2 described ds specs ->
  exists bus ptrs w', hwio_init argc argv w = (Ret (bus, rm_comsumed_args argc argv), w') /\
    Forall2 (fun p dev => mw_devs (pr_local w) !! p = None /\ mw_devs (pr_local w') !! p = Some dev)
      ptrs (described_devices memfile offset ds specs) /\
    (forall spec, find_devices bus spec w' = (Ret (filter (device_matches w' spec) (map DevMmap ptrs)), w')) /\
    (forall i p d off bs, ptrs !! i = Some p -> ds !! i = Some d -> 0 < os_open memfile ->
      (forall size page, os_mmap memfile size page = true) ->
      0 <= off -> off + Z.of_nat (length bs) <= jd_base d ->
      (forall j b, bs !! j = Some b ->
        mw_mem (pr_local w) !! (memfile, u32 (offset + jd_size d) + off + Z.of_nat j) = Some b) ->
      exists w2, (attach (DevMmap p) ≫= fun _ => read_block (DevMmap p) off (length bs)) w' = (Ret bs, w2)) /\
    bus_delete bus w' = (Ret tt, w).
Proof.
  intros Hn Hcfg Hf Hj Ho Hds.
  destruct (json_bus_run file memfile offset ds specs w Hf Hj Ho Hds)
    as (bus & ptrs & w' & Hrun & Hrep & Hnd & Hall & Hmem & Hrel).
  exists bus, ptrs, w'. split_and!.
  - by eapply hwio_init_config.
  - done.
  - intros spec. by apply (object_find_tree _ w' spec (TOwner bus ptrs)); [|cbn; lia].
  - intros i p d off bs Hp Hd Hopen Hmap Hoff Hl Hbs.
    destruct (Forall2_lookup_l _ _ _ _ _ Hds Hd) as (sp & Hsp & (Hb & Hs & _)).
    apply (attached_block w' p (map (name_set (jd_name d)) sp) (u32 (offset + jd_size d)) (jd_base d) memfile off bs);
      [|apply u32_range|done|done|by apply Hmap|done|done|by rewrite Hmem].
    assert (described_devices memfile offset ds specs !! i = Some (new_mmap_device (map (name_set (jd_name d)) sp)
      (u32 (offset + jd_size d)) (jd_base d) memfile)) as Hdev.
    { unfold described_devices. rewrite lookup_zip_with, Hd. cbn. by rewrite Hsp. }
    by apply (Forall2_lookup_lr _ _ _ _ _ _ Hall Hp Hdev).
  - pose proof (object_delete_tree (S (base.size (pr_buses w'))) w' (TOwner bus ptrs) Hrep) as H.
    specialize (H ltac:(cbn; lia) [] [] ltac:(by split_and!; constructor)) as [H _].
    cbn [app] in H. replace (release w' [] []) with w' in H by (by destruct w' as [[] ?]).
    rewrite <-Hrel. apply H. split_and!; [apply NoDup_singleton|done|].
    apply Forall_forall. intros p [i Hi]%list_elem_of_lookup. destruct (Forall2_lookup_l _ _ _ _ _ Hall Hi) as (dev & _ & _ & Hd).
    by exists dev.
Qed.
End init.
