(* ===== verification/ObjectsTest.v ===== *)
(** * A concrete process, and the witnesses of its properties

    The devices of [TestMachine] on two buses below composites, one of which
    lists a bus twice; and a command line with a configuration of one JSON bus
    with one device. *)

From Stdlib Require Import ZArith Lia Ascii String.
From stdpp Require Import base tactics list numbers strings gmap fin_maps.
From S2P Require Import Prelude CxxString Version CompSpec Device Mmap Bus Devicetree DevicetreeTest Json OwningBus Cli.
From S2P Require Import Wire Address Client DeviceRemote Objects ObjectsSpec HwioInit.

Module TestObjects.
Import TestMachine TestTree.

(** Nothing is at the other end, and no server can be reached. *)
#[export] Instance no_peer : Peer unit := {| peer_takes _ := mret [] |}.
#[export] Instance no_server : ConApi := {| strerror _ := ""; con_socket := 3; con_connect _ := -1 |}.

(** ** Trees of buses *)

Definition json_leaf : bus_tree := TOwner 1 [0; 1]%nat.
Definition shared_leaf : bus_tree := TPrimitive 2 [DevMmap 2; DevMmap 0].
Definition good_tree : bus_tree := TComposite 0 [json_leaf; TComposite 4 [shared_leaf]].
Definition bad_tree : bus_tree := TComposite 3 [shared_leaf; shared_leaf].

Definition test_process : process unit := Process test_world
  (list_to_map [(0%nat, OComposite [1; 4]%nat); (1%nat, OJson (OwningBus [0; 1]%nat));
    (2%nat, OPrimitive (BusPrimitive [DevMmap 2; DevMmap 0])); (3%nat, OComposite [2; 2]%nat);
    (4%nat, OComposite [2]%nat)]).

Lemma good_tree_represented : represents test_process good_tree.
Proof.
  apply rep_composite; [reflexivity|]. constructor; [apply (rep_json _ 1 (OwningBus [0; 1]%nat)); reflexivity|].
  constructor; [|constructor]. apply rep_composite; [reflexivity|].
  constructor; [|constructor]. apply (rep_primitive _ 2 (BusPrimitive _)). reflexivity.
Qed.

Lemma bad_tree_represented : represents test_process bad_tree.
Proof.
  apply rep_composite; [reflexivity|].
  repeat (constructor; [apply (rep_primitive _ 2 (BusPrimitive _)); reflexivity|]). constructor.
Qed.

(** The device 0 is a leaf of both buses and matches every specification. *)
Lemma bus_tree_lookup_witness :
  find_devices 0%nat [make_spec "xlnx" "uart" default_version] test_process =
  (Ret [DevMmap 0; DevMmap 0], test_process).
Proof.
  etransitivity.
  - apply (bus_tree_lookup test_process good_tree [make_spec "xlnx" "uart" default_version] good_tree_represented).
  - vm_compute. reflexivity.
Defined.

Lemma bus_tree_deleted_witness :
  bus_delete 0%nat test_process = (Ret tt, release test_process [1; 2; 4; 0]%nat [0; 1]%nat) /\
  exists w', bus_delete 3%nat test_process = (Undef UseAfterFree, w').
Proof.
  split.
  - apply (bus_tree_deleted test_process good_tree good_tree_represented).
    apply (bool_decide_unpack _). vm_compute. exact I.
  - apply (bus_tree_deleted test_process bad_tree bad_tree_represented).
    apply (bool_decide_unpack _). vm_compute. exact I.
Defined.

(** ** A command line *)

#[export] Instance two_files : JsonFiles := {|
  read_json f :=
    if bool_decide (f = "cfg.json"%string) then Some (Ret (config_document [json_bus_entry "dev.json"]))
    else if bool_decide (f = "dev.json"%string) then
      Some (Ret (json_document "mem0.dat" 4096 [Description "uart0" 16 8 ["xlnx,xps-uartlite-1.1.97"%string]]))
    else None
|}.

#[export] Instance dial_nobody : Dial unit :=
  {| dial_rx _ := []; dial_tx _ := []; dial_in _ := []; dial_out _ := []; dial_peer _ := tt |}.
#[export] Instance no_names : Resolver :=
  {| getaddrinfo _ _ := (-2, None); gai_strerror _ := "Name or service not known"; inet_ntop _ := None |}.

#[local] Existing Instances TestCli.scanning TestCli.no_user_files.
#[local] Instance test_factory : BusFactory (process unit) nat := factory 10.

Definition start : process unit := Process (MWorld (zero_file "mem0.dat" 4104 16) ∅) ∅.

Lemma hwio_init_registers_witness :
  exists bus p w' w2, hwio_init 4 TestCli.test_argv start =
      (Ret (bus, (2, ["--hwio_config"; "cfg.json"; "cfg.json"; "x"]%string)), w') /\
    find_devices bus [make_spec "xlnx" "xps-uartlite" (Version 1 1 97)] w' = (Ret [DevMmap p], w') /\
    (attach (DevMmap p) ≫= fun _ => read_block (DevMmap p) 2 6) w' = (Ret (replicate 6 NUL), w2) /\
    bus_delete bus w' = (Ret tt, start).
Proof.
  destruct (hwio_init_registers (N:=unit) 10 4 TestCli.test_argv
    "cfg.json" "dev.json" "mem0.dat" 4096 [Description "uart0" 16 8 ["xlnx,xps-uartlite-1.1.97"%string]]
    [[make_spec "xlnx" "xps-uartlite" (Version 1 1 97)]] start) as (bus & ptrs & w' & Hrun & Hall & Hfind & Hread & Hdel).
  - reflexivity.
  - reflexivity.
  - discriminate.
  - reflexivity.
  - lia.
  - constructor; [|constructor]. split; [cbn; lia|]. split; [cbn; lia|].
    constructor; [|constructor]. split; [|vm_compute; reflexivity].
    apply (bool_decide_unpack _). vm_compute. exact I.
  - destruct (Forall2_cons_inv_r _ _ _ _ Hall) as (p & rest & [_ Hp] & Hnil & ->).
    apply Forall2_nil_inv_r in Hnil as ->.
    destruct (Hread 0%nat p (Description "uart0" 16 8 ["xlnx,xps-uartlite-1.1.97"%string]) 2 (replicate 6 NUL))
      as [w2 Hblock]; [reflexivity|reflexivity|reflexivity|reflexivity|lia|cbn; lia| |].
    + intros j b Hj. do 6 (destruct j as [|j]; [injection Hj as <-; vm_compute; reflexivity|]). discriminate.
    + exists bus, p, w', w2. split; [exact Hrun|]. split; [|split; [exact Hblock|exact Hdel]].
      rewrite Hfind. cbn [map]. rewrite filter_cons, decide_True; [reflexivity|].
      unfold device_matches. cbn [get_spec any_idev dev_part mmap_dev]. rewrite Hp.
      exists (make_spec "xlnx" "xps-uartlite" (Version 1 1 97)), (name_set "uart0" (make_spec "xlnx" "xps-uartlite" (Version 1 1 97))).
      split; [by left|]. split; [by left|reflexivity].
Defined.
End TestObjects.
