(* ===== verification/Typed.v ===== *)
(** * Types of the device interface

    Registers are machine words and pointers to devices are live: every
    method of the device interface keeps the well-formedness of the objects it
    works on and returns a value of its C++ type, whatever the arguments.
    [TypedRegs] is the promise of a device class about its registers, from
    which the default block transfers of [ihwio_dev] inherit it; this file
    proves it for memory mapped devices, [RemoteTyped] for remote ones. *)

From Stdlib Require Import ZArith Lia Ascii String.
From stdpp Require Import base tactics list numbers strings gmap fin_maps.
From S2P Require Import Prelude CxxString Version CompSpec Device Mmap.

(** ** Triples about a part of the state and about frames *)

Lemma triple_fst {S T A} (E P : S -> Prop) (m : ST S A) Q :
  triple E P m Q ->
  triple (fun st : S * T => E st.1) (fun st => P st.1) (st_fst m) (fun a st => Q a st.1).
Proof.
  intros H [s t] Hs. specialize (H s Hs). unfold st_fst. cbn [fst snd] in *.
  by destruct (m s) as [[a|e|f] s'].
Qed.

(** A frame that keeps [P]. *)
Definition keeping {S} (P : S -> Prop) (s s' : S) : Prop := P s -> P s'.

#[export] Instance keeping_preorder {S} (P : S -> Prop) : PreOrder (keeping P).
Proof. split; [by intros s Hs|]. intros s1 s2 s3 H1 H2 Hs. by apply H2, H1. Qed.

Lemma triple_keeping {S A} (P : S -> Prop) (m : ST S A) :
  within (keeping P) m -> triple P P m (fun _ => P).
Proof. intros H s Hs. specialize (H s Hs). by destruct (m s) as [[a|e|f] s']. Qed.

(** A frame and what is known of the result. *)
Lemma triple_yields {S A} (P : S -> Prop) (Q : A -> Prop) (m : ST S A) :
  within (keeping P) m -> (forall s a s', m s = (Ret a, s') -> Q a) ->
  triple P P m (fun a s => P s /\ Q a).
Proof.
  intros H HQ s Hs. specialize (H s Hs). specialize (HQ s). destruct (m s) as [[a|e|f] s'] eqn:Em; try done.
  split; [done|]. by eapply HQ.
Qed.

(** ** The interface *)

Class TypedRegs (W D : Type) `{!RegAccess W D} (wt : W -> Prop) : Prop := {
  typed_read8 d off : triple wt wt (read8 d off) (fun v w => wt w /\ 0 <= v < 2 ^ 8);
  typed_read32 d off : triple wt wt (read32 d off) (fun v w => wt w /\ 0 <= v < 2 ^ 32);
  typed_read64 d off : triple wt wt (read64 d off) (fun v w => wt w /\ 0 <= v < 2 ^ 64);
  typed_write8 d off v : triple wt wt (write8 d off v) (fun _ => wt);
  typed_write32 d off v : triple wt wt (write32 d off v) (fun _ => wt);
  typed_write64 d off v : triple wt wt (write64 d off v) (fun _ => wt)
}.

(** The methods of a device object, with the types of their results. *)
Inductive dev_method (D : Type) : Type -> Type :=
  | MAttach (d : D) : dev_method D unit
  | MRead8 (d : D) (off : Z) : dev_method D Z
  | MRead32 (d : D) (off : Z) : dev_method D Z
  | MRead64 (d : D) (off : Z) : dev_method D Z
  | MWrite8 (d : D) (off v : Z) : dev_method D unit
  | MWrite32 (d : D) (off v : Z) : dev_method D unit
  | MWrite64 (d : D) (off v : Z) : dev_method D unit
  | MRead (d : D) (off : Z) (n : nat) : dev_method D (list byte)
  | MWrite (d : D) (off : Z) (data : list byte) : dev_method D unit
  | MMemset (d : D) (off c : Z) (n : nat) : dev_method D unit.
Arguments MAttach {D}.
Arguments MRead8 {D}.
Arguments MRead32 {D}.
Arguments MRead64 {D}.
Arguments MWrite8 {D}.
Arguments MWrite32 {D}.
Arguments MWrite64 {D}.
Arguments MRead {D}.
Arguments MWrite {D}.
Arguments MMemset {D}.

Section methods.
Context {W D : Type} `{!RegAccess W D} `{!IDev W D}.

Definition run_method {A} (m : dev_method D A) : ST W A :=
  match m in dev_method _ A return ST W A with
  | MAttach d => attach d
  | MRead8 d off => read8 d off
  | MRead32 d off => read32 d off
  | MRead64 d off => read64 d off
  | MWrite8 d off v => write8 d off v
  | MWrite32 d off v => write32 d off v
  | MWrite64 d off v => write64 d off v
  | MRead d off n => read_block d off n
  | MWrite d off data => dev_write d off data
  | MMemset d off c n => dev_memset d off c n
  end.

(** The values of the result type. *)
Definition result_typed {A} (m : dev_method D A) : A -> Prop :=
  match m in dev_method _ A return A -> Prop with
  | MRead8 _ _ => fun v => 0 <= v < 2 ^ 8
  | MRead32 _ _ => fun v => 0 <= v < 2 ^ 32
  | MRead64 _ _ => fun v => 0 <= v < 2 ^ 64
  | MRead _ _ n => fun bs => length bs = n
  | _ => fun _ => True
  end.
End methods.

(** ** The default block transfers *)

Section blocks.
Context {W D : Type} `{!RegAccess W D} (wt : W -> Prop) `{!TypedRegs W D wt}.

Lemma typed_emit bs :
  triple (fun st : W * list byte => wt st.1) (fun st => wt st.1) (emit bs) (fun _ st => wt st.1).
Proof. by intros [w dst] Hw. Qed.

Lemma typed_read8_loop d off i n :
  triple (fun st : W * list byte => wt st.1) (fun st => wt st.1) (read8_loop d off i n) (fun _ st => wt st.1).
Proof.
  revert i. induction n as [|n IH]; intros i; cbn [read8_loop]; [apply triple_ret|].
  eapply triple_bind; [apply (triple_fst wt wt), typed_read8|]. intros v.
  eapply triple_bind; [eapply triple_conseq; [apply typed_emit|by intros ? []|done]|]. intros ?. apply IH.
Qed.

Lemma typed_dev_read d off n :
  triple (fun st : W * list byte => wt st.1) (fun st => wt st.1) (ihwio_dev_read d off n) (fun _ st => wt st.1).
Proof.
  revert off. induction (lt_wf n) as [n _ IH]. intros off.
  destruct n as [|[|[|[|n]]]]; try apply typed_read8_loop. cbn [ihwio_dev_read].
  eapply triple_bind; [apply (triple_fst wt wt), typed_read32|]. intros v.
  eapply triple_bind; [eapply triple_conseq; [apply typed_emit|by intros ? []|done]|]. intros ?. apply IH. lia.
Qed.

Lemma typed_write8_loop d off i data : triple wt wt (write8_loop d off i data) (fun _ => wt).
Proof.
  revert i. induction data as [|b t IH]; intros i; cbn [write8_loop]; [apply triple_ret|].
  eapply triple_bind; [apply typed_write8|]. intros ?. apply IH.
Qed.

Lemma typed_dev_write d off data : triple wt wt (ihwio_dev_write d off data) (fun _ => wt).
Proof.
  revert off. induction data as [data IH] using list_len_ind. intros off.
  destruct (short_or_cons4 data) as [Hlt|(b0 & b1 & b2 & b3 & t & ->)].
  - rewrite ihwio_dev_write_short by done. apply typed_write8_loop.
  - cbn [ihwio_dev_write]. eapply triple_bind; [apply typed_write32|]. intros ?. apply IH. cbn. lia.
Qed.

Lemma typed_memset8_loop d off c i n : triple wt wt (memset8_loop d off c i n) (fun _ => wt).
Proof.
  revert i. induction n as [|n IH]; intros i; cbn [memset8_loop]; [apply triple_ret|].
  eapply triple_bind; [apply typed_write8|]. intros ?. apply IH.
Qed.

Lemma typed_dev_memset d off c n : triple wt wt (ihwio_dev_memset d off c n) (fun _ => wt).
Proof.
  revert off. induction (lt_wf n) as [n _ IH]. intros off.
  destruct n as [|[|[|[|n]]]]; try apply typed_memset8_loop. cbn [ihwio_dev_memset].
  eapply triple_bind; [apply typed_write32|]. intros ?. apply IH. lia.
Qed.
End blocks.

(** ** Memory mapped devices *)

Section mmap.
Context {OS : Posix}.

(** The members are in the range of their types, the range on the bus lies
    in the window, and a mapped device holds the descriptor of its file, of
    which the kernel mapped the whole window. *)
Record dev_typed (dev : hwio_device_mmap) : Prop := {
  dt_page : 0 <= page_addr dev < 2 ^ 32;
  dt_offset : 0 <= page_offset dev < 2 ^ 32;
  dt_base : page_addr dev + page_offset dev = on_bus_base_addr dev;
  dt_size : 0 <= on_bus_size dev /\ page_offset dev + on_bus_size dev <= addr_space_size dev < 2 ^ 64;
  dt_mapped : dev_mapped dev = true -> 0 < md_fd dev /\
    os_mmap (mem_file_name dev) (addr_space_size dev) (page_addr dev) = true
}.

(** The devices are typed, and the memory files have the bytes [mem]: no
    access creates or removes one. *)
Definition world_typed (mem : gset (string * Z)) (w : MmapWorld) : Prop :=
  dom (mw_mem w) = mem /\ forall d dev, mw_devs w !! d = Some dev -> dev_typed dev.

Lemma new_mmap_device_typed {P : PosixPages} spec base size file :
  0 <= base < 2 ^ 32 -> 0 <= size < 2 ^ 32 -> dev_typed (new_mmap_device spec base size file).
Proof.
  intros Hb Hs. pose proof page_size_bounds as Hp.
  destruct (mmap_window_geometry spec base size file Hb Hs) as (_ & H2 & H3 & H4).
  split; cbn [on_bus_base_addr on_bus_size dev_mapped new_mmap_device] in *; try done; try lia.
  - split; [|cbn in *; lia]. apply Z.land_nonneg. lia.
  - split; [lia|]. split; [done|]. unfold new_mmap_device. cbn [addr_space_size].
    rewrite (u32_small os_page_size) by lia.
    destruct (Z.ltb_spec size os_page_size); case_match; unfold u64; try lia; apply Z.mod_pos_bound; lia.
Qed.

Lemma set_dev_name_typed name dev : dev_typed dev -> dev_typed (set_dev_name name dev).
Proof. intros []. by split. Qed.

Context (mem : gset (string * Z)).
Notation wt := (world_typed mem).

Lemma within_get_dev d : within (keeping wt) (get_dev d).
Proof. intros w. unfold get_dev. by destruct (mw_devs w !! d). Qed.

Lemma within_load dev off n : within (keeping wt) (load dev off n).
Proof.
  revert off. induction n as [|n IH]; intros off; [by apply within_ret, _|]. intros w. cbn [load].
  destruct (map_byte w dev off); [|done]. apply within_bind; [apply _|apply IH|intros bs; apply within_ret, _].
Qed.

Lemma within_store dev off bs : within (keeping wt) (store dev off bs).
Proof.
  revert off. induction bs as [|b bs IH]; intros off; [by apply within_ret, _|]. intros w [Hm Hd]. cbn [store].
  destruct (map_byte w dev off) as [b0|] eqn:E; [|done]. apply IH. split; [|done]. cbn [mw_mem].
  rewrite dom_insert_L, Hm. apply subseteq_union_1_L, singleton_subseteq_l. rewrite <-Hm.
  unfold map_byte in E. destruct (in_mapping dev off); [|done]. by eapply elem_of_dom_2.
Qed.

Lemma within_attach d : within (keeping wt) (mmap_attach d).
Proof.
  intros w [Hm Hd]. destruct (mw_devs w !! d) as [dev|] eqn:E;
    [|by unfold mmap_attach, mbind, ST_bind, get_dev; rewrite E].
  rewrite (mmap_attach_run w d dev E). cbv zeta.
  assert (forall fd ok, (ok = true -> 0 < fd /\
    os_mmap (mem_file_name dev) (addr_space_size dev) (page_addr dev) = true) ->
    wt (attached_world w d dev fd ok)) as Hok.
  { intros fd ok Hfd. split; [done|]. cbn [attached_world mw_devs]. intros d' dev'.
    rewrite lookup_insert_Some. intros [[<- <-]|[_ ?]]; [|by eapply Hd].
    destruct (Hd _ _ E). by split. }
  destruct (Z.leb_spec 0 (md_fd dev)); [done|].
  destruct (Z.leb_spec (os_open (mem_file_name dev)) 0); cbn [snd].
  - apply Hok. intros Hmap. destruct (dt_mapped _ (Hd _ _ E) Hmap). lia.
  - destruct (os_mmap _ _ _) eqn:Emap; cbn [snd]; apply Hok; [done|discriminate].
Qed.

Lemma load_length dev off n w bs w' : load dev off n w = (Ret bs, w') -> length bs = n.
Proof.
  revert off w bs w'. induction n as [|n IH]; intros off w bs w' Hl; cbn [load] in Hl.
  - by apply st_ret_inv in Hl as [<- _].
  - destruct (map_byte w dev off); [|done].
    apply st_bind_inv in Hl as (bs' & w1 & H1 & H2). apply st_ret_inv in H2 as [<- _].
    cbn. f_equal. by eapply IH.
Qed.

Hint Resolve within_get_dev within_load within_store within_attach : frame.

Lemma mmap_read_typed n d off :
  triple wt wt (mmap_read n d off) (fun v w => wt w /\ 0 <= v < 256 ^ Z.of_nat n).
Proof.
  apply triple_yields; [unfold mmap_read; frame|]. intros w v w' H.
  apply st_bind_inv in H as (dev & w1 & _ & H). apply st_bind_inv in H as (bs & w2 & H1 & H).
  apply st_ret_inv in H as [<- _]. rewrite <-(load_length _ _ _ _ _ _ H1). apply le_to_Z_bound.
Qed.

Lemma mmap_read64_typed d off :
  triple wt wt (mmap_read64 d off) (fun v w => wt w /\ 0 <= v < 2 ^ 64).
Proof.
  apply triple_yields; [unfold mmap_read64; frame|]. intros w v w' H.
  apply st_bind_inv in H as (dev & w1 & _ & H). apply st_bind_inv in H as (lo & w2 & H1 & H).
  apply st_bind_inv in H as (hi & w3 & H2 & H). apply st_ret_inv in H as [<- _].
  pose proof (le_to_Z_bound lo) as Hlo. rewrite (load_length _ _ _ _ _ _ H1) in Hlo.
  pose proof (le_to_Z_bound hi) as Hhi. rewrite (load_length _ _ _ _ _ _ H2) in Hhi.
  change (256 ^ Z.of_nat 4) with (2 ^ 32) in *. change (4 * 8) with 32.
  rewrite u64_small by (rewrite Z.shiftl_mul_pow2; lia). rewrite lor_shiftl_add by lia.
  lia.
Qed.

#[export] Instance mmap_typed_regs : TypedRegs MmapWorld nat wt.
Proof.
  split; intros.
  - apply (mmap_read_typed 1).
  - apply (mmap_read_typed 4).
  - apply mmap_read64_typed.
  - apply triple_keeping. unfold write8, mmap_regs, mmap_write. frame.
  - apply triple_keeping. unfold write32, mmap_regs, mmap_write. frame.
  - apply triple_keeping. unfold write64, mmap_regs, mmap_write64. frame.
Qed.
End mmap.

(** ** The blocks of any device class with typed registers *)

(** A block read that returned has the length asked for, and what holds of
    the device state after every byte of it holds at the end. *)
Lemma read_block_typed {W D} `{!IDev W D} (wt : W -> Prop) (d : D) off n :
  triple (fun st : W * list byte => wt st.1) (fun st => wt st.1) (dev_read d off n) (fun _ st => wt st.1) ->
  (forall w w' bs, dev_read d off n (w, []) = (Ret tt, (w', bs)) -> length bs = n) ->
  triple wt wt (read_block d off n) (fun bs w => wt w /\ length bs = n).
Proof.
  intros Ht Hl w Hw. specialize (Ht (w, []) Hw). unfold read_block. specialize (Hl w).
  destruct (dev_read d off n (w, [])) as [[[]|e|f] [w' bs]]; [|done..].
  split; [exact Ht|]. by apply (Hl w' bs).
Qed.

(** A device class that keeps its type in the methods that are not register
    accesses is typed. *)
Lemma methods_typed {W D} `{!RegAccess W D} `{!IDev W D} (wt : W -> Prop) `{!TypedRegs W D wt} {A}
    (m : dev_method D A) :
  (forall d, triple wt wt (attach d) (fun _ => wt)) ->
  (forall d off n, triple wt wt (read_block d off n) (fun bs w => wt w /\ length bs = n)) ->
  (forall d off data, triple wt wt (dev_write d off data) (fun _ => wt)) ->
  (forall d off c n, triple wt wt (dev_memset d off c n) (fun _ => wt)) ->
  triple wt wt (run_method m) (fun a w => wt w /\ result_typed m a).
Proof.
  intros Ha Hr Hw Hs.
  assert (forall (m : ST W unit) (Q : unit -> Prop), Q tt ->
    triple wt wt m (fun _ => wt) -> triple wt wt m (fun a b => wt b /\ Q a)) as Hunit.
  { intros m0 Q HQ Hm. eapply triple_conseq; [exact Hm|done|]. by intros []. }
  destruct m; cbn [run_method result_typed];
    [apply Hunit; [done|apply Ha]|apply typed_read8|apply typed_read32|apply typed_read64
    |apply Hunit; [done|apply typed_write8]|apply Hunit; [done|apply typed_write32]
    |apply Hunit; [done|apply typed_write64]|apply Hr|apply Hunit; [done|apply Hw]|apply Hunit; [done|apply Hs]].
Qed.

(** ** Properties *)

(** C21: every method of a memory mapped device that returns gives a value of
    its type, and also after an exception the devices are well formed: the
    range on the bus lies in the window, a device that counts as mapped holds
    the descriptor of its file and the kernel mapped its whole window, and
    no byte of a memory file appeared or vanished. *)
Theorem mmap_world_typed {OS : Posix} {A} (m : dev_method nat A) mem w :
  world_typed mem w ->
  match run_method m w with
  | (Ret a, w') => world_typed mem w' /\ result_typed m a
  | (Throw _, w') => world_typed mem w'
  | (Undef _, _) => True
  end.
Proof.
  assert (triple (world_typed mem) (world_typed mem) (run_method m)
    (fun a w => world_typed mem w /\ result_typed m a)) as H; [|exact (H w)].
  apply methods_typed; [apply _|..].
  - intros d. apply triple_keeping, within_attach.
  - intros d off n. apply read_block_typed; [apply (typed_dev_read (world_typed mem))|].
    intros w0 w' bs Hr. by apply ihwio_dev_read_length in Hr.
  - intros d off data. apply (typed_dev_write (world_typed mem)).
  - intros d off c n. apply (typed_dev_memset (world_typed mem)).
Qed.

(** ** The witness *)

Module TestTyped.
Import TestMachine.

Lemma set_fd_typed dev :
  dev_typed dev -> os_mmap (mem_file_name dev) (addr_space_size dev) (page_addr dev) = true ->
  dev_typed (set_fd 3 true dev).
Proof. intros [] Hm. by split. Qed.

Lemma test_world_typed : world_typed (dom (mw_mem test_world)) test_world.
Proof.
  split; [done|]. intros d dev Hd. apply elem_of_list_to_map_2 in Hd.
  repeat (apply elem_of_cons in Hd as [[= -> ->]|Hd]); [..|by apply not_elem_of_nil in Hd].
  - apply set_fd_typed; [apply new_mmap_device_typed; lia|reflexivity].
  - apply set_fd_typed; [apply new_mmap_device_typed; lia|reflexivity].
  - apply new_mmap_device_typed; lia.
Qed.

Lemma mmap_world_typed_witness :
  exists v w', run_method (MRead32 0%nat 4) test_world = (Ret v, w') /\
    world_typed (dom (mw_mem test_world)) w' /\ 0 <= v < 2 ^ 32.
Proof.
  pose proof (mmap_world_typed (MRead32 0%nat 4) _ test_world test_world_typed) as H.
  destruct (run_method (MRead32 0%nat 4) test_world) as [r w'] eqn:E.
  assert (r = Ret 0) as ->.
  { change r with (fst (r, w')). rewrite <-E. vm_compute. reflexivity. }
  destruct H as [H1 H2]. exists 0, w'. split; [reflexivity|]. split; [exact H1|exact H2].
Defined.
End TestTyped.
