(* ===== verification/RemoteTyped.v ===== *)
(** * Types of remote buses and devices

    [TypedRegs] for remote devices, and the methods of a remote bus: whatever
    the server answers, results have their types, the buffers of the
    connection keep their size and pointers to devices stay valid. *)

From Stdlib Require Import ZArith Lia Ascii String.
From stdpp Require Import base tactics list numbers strings gmap fin_maps.
From S2P Require Import Prelude CxxString Version CompSpec Device Bus Wire Client DeviceRemote Typed.

(** ** The connection *)

Section remote.
Context {N : Type} `{!Peer N} {CA : ConApi}.

(** The buffers of the connection have their size. *)
Definition link_typed (k : Link N) : Prop :=
  length (con_rx (ln_con k)) = BUFFER_SIZE /\ length (con_tx (ln_con k)) = BUFFER_SIZE.

Notation lt := link_typed.

Lemma within_con_store off bs : within (keeping lt) (con_store off bs).
Proof.
  intros k [H1 H2]. unfold con_store. destruct (Nat.leb_spec (off + length bs) (length (con_tx (ln_con k)))); [|done].
  split; [done|]. cbn. by rewrite splice_length.
Qed.

Lemma within_con_load off n : within (keeping lt) (con_load off n).
Proof. intros k Hk. unfold con_load. by destruct (_ <=? _)%nat. Qed.

Lemma con_load_length off n (k : Link N) bs k' : con_load off n k = (Ret bs, k') -> length bs = n.
Proof.
  unfold con_load. destruct (Nat.leb_spec (off + n) (length (con_rx (ln_con k)))); [|done].
  intros [= <- _]. by apply slice_length.
Qed.

Lemma rx_loop_length want evs r got evs' : rx_loop want evs = (r, got, evs') -> (length got <= want)%nat.
Proof.
  revert want r got evs'. induction evs as [|[bs| |errno|] t IH]; intros want r got evs' H;
    destruct want as [|want]; cbn [rx_loop] in H; simplify_eq; cbn [length]; try lia.
  - destruct (Nat.leb_spec (length bs) (S want)); cbn [length].
    + destruct (rx_loop (S want - length bs) t) as [[r0 got0] evs0] eqn:E. simplify_eq.
      apply IH in E. rewrite length_app. lia.
    + simplify_eq. rewrite length_take. lia.
  - by apply IH in H.
Qed.

Lemma within_rx_bytes size : within (keeping lt) (rx_bytes size).
Proof.
  intros k [H1 H2]. unfold rx_bytes. destruct (Nat.leb_spec size BUFFER_SIZE); cbn [negb]; [|done].
  destruct (rx_loop size (ln_in k)) as [[r got] evs] eqn:E. apply rx_loop_length in E.
  split; [|done]. cbn. rewrite splice_length; lia.
Qed.

Lemma within_give bs : within (keeping lt) (give bs).
Proof. intros k Hk. unfold give. by destruct (peer_takes bs (ln_peer k)) as [[evs|e|f] n]. Qed.

Lemma within_set_out evs : within (keeping lt) (st_modify (set_ln_out evs)).
Proof. by intros k Hk. Qed.

Hint Resolve within_con_store within_con_load within_rx_bytes within_give within_set_out : frame.

Lemma within_tx_loop evs bytes : within (keeping lt) (tx_loop evs bytes).
Proof.
  revert bytes. induction evs as [|[n| |errno] evs IH]; intros [|b bytes]; cbn [tx_loop]; frame; apply IH.
Qed.

Lemma within_tx_pckt : within (keeping lt) tx_pckt.
Proof. intros k. unfold tx_pckt. destruct (_ <=? _)%nat; [apply within_tx_loop|done]. Qed.

Lemma within_rx_pckt : within (keeping lt) rx_pckt.
Proof. unfold rx_pckt. frame. Qed.

Lemma within_con_cstr off : within (keeping lt) (con_cstr off).
Proof. intros k Hk. unfold con_cstr. by destruct (cstr _). Qed.

Hint Resolve within_tx_pckt within_rx_pckt within_con_cstr : frame.

Lemma within_transact cmd : within (keeping lt) (transact cmd).
Proof. unfold transact, assert_response. frame. Qed.

Hint Resolve within_transact : frame.

Lemma within_remote_read d off n : within (keeping lt) (remote_read d off n).
Proof. unfold remote_read. frame. Qed.

Lemma remote_read_length d off n (k : Link N) bs k' : remote_read d off n k = (Ret bs, k') -> length bs = n.
Proof.
  unfold remote_read. destruct (n <=? UINT16_MAX)%nat; cbn [negb]; [|done]. intros Hr.
  repeat match type of Hr with (_ ≫= _) _ = _ => apply st_bind_inv in Hr as (? & ? & _ & Hr) end.
  by eapply con_load_length.
Qed.

Lemma within_remote_write d off data : within (keeping lt) (remote_write d off data).
Proof. unfold remote_write. cbv zeta. frame. Qed.

Hint Resolve within_remote_read within_remote_write : frame.

Lemma within_tx_command cmd : within (keeping lt) (tx_command cmd).
Proof. unfold tx_command. frame. Qed.

Hint Resolve within_tx_command : frame.

Lemma within_ping : within (keeping lt) ping.
Proof. unfold ping. frame. Qed.

Lemma within_ask d name : within (keeping lt) (ask_rpc_fn_id d name).
Proof. unfold ask_rpc_fn_id. frame. Qed.

Lemma within_call_by_name d name args : within (keeping lt) (call_by_name d name args).
Proof. unfold call_by_name. frame. Qed.

Lemma within_call_by_id d fn_id args : within (keeping lt) (call_by_id d fn_id args).
Proof. unfold call_by_id. frame. Qed.

Hint Resolve within_ping within_ask within_call_by_name within_call_by_id : frame.

(** The last step of a computation determines the length of its result. *)
Lemma load_after_length {A} (m : ST (Link N) A) (f : A -> nat * nat) n k bs k' :
  (forall a, (f a).2 = n) -> (m ≫= fun a => con_load (f a).1 (f a).2) k = (Ret bs, k') -> length bs = n.
Proof. intros Hn H. apply st_bind_inv in H as (a & k1 & _ & H). rewrite <-(Hn a). by eapply con_load_length. Qed.

(** ** The remote bus *)

(** The buffers have their size, the ids of the known devices are of type
    [dev_id_t] and no id has two objects. *)
Record bus_typed (b : hwio_bus_remote N) : Prop := {
  bt_link : link_typed (rb_link b);
  bt_ids : Forall (fun d => 0 <= rd_id d < 2 ^ 16) (seen_devices b);
  bt_nodup : NoDup (map rd_id (seen_devices b))
}.

(** A typed bus that knows the devices [seen] at least, at their places. *)
Definition knows (seen : list hwio_device_remote) (b : hwio_bus_remote N) : Prop :=
  bus_typed b /\ seen `prefix_of` seen_devices b.

(** A pointer to a device object of the bus. *)
Definition live (b : hwio_bus_remote N) (i : nat) : Prop := (i < length (seen_devices b))%nat.

Lemma within_on_link {A} seen (m : ST (Link N) A) :
  within (keeping lt) m -> within (keeping (knows seen)) (on_link m).
Proof.
  intros Hm b [[H1 H2 H3] Hs]. specialize (Hm (rb_link b) H1). unfold on_link.
  destruct (m (rb_link b)) as [r k]. by split.
Qed.

Lemma within_on_seen {A} seen i (m : hwio_device_remote -> ST (Link N) A) :
  (forall d, within (keeping lt) (m d)) -> within (keeping (knows seen)) (on_seen i m).
Proof.
  intros Hm. unfold on_seen. apply within_bind; [apply _| |intros d; by apply within_on_link].
  intros b Hb. unfold seen_device. by destruct (seen_devices b !! i).
Qed.

(** What a result of a method of a device object satisfies. *)
Lemma on_seen_result {A} (Q : A -> Prop) i (m : hwio_device_remote -> ST (Link N) A) b a b' :
  (forall d k a k', m d k = (Ret a, k') -> Q a) -> on_seen i m b = (Ret a, b') -> Q a.
Proof.
  intros Hm H. unfold on_seen in H. apply st_bind_inv in H as (d & b1 & _ & H). unfold on_link in H.
  destruct (m d (rb_link b1)) as [r k] eqn:E. injection H as -> <-. by eapply Hm.
Qed.

(** An object for an id: the one the bus has, or a new one. *)
Lemma dev_from_id_typed seen spec id :
  0 <= id < 2 ^ 16 ->
  triple (knows seen) (knows seen) (hwio_dev_from_id spec id) (fun i b => knows seen b /\ live b i).
Proof.
  intros Hid b [[H1 H2 H3] Hs]. unfold hwio_dev_from_id.
  pose proof (find_seen_spec (seen_devices b) id 0) as E.
  destruct (find_seen (seen_devices b) id 0) as [i|].
  - destruct E as (m & d & -> & Hd & _). split; [done|]. by eapply lookup_lt_Some.
  - split.
    + split; [|by apply prefix_app_r]. split; cbn [rb_link seen_devices]; [done| |].
      * apply Forall_app. split; [done|]. by constructor.
      * rewrite map_app. apply NoDup_app. split; [done|]. split; [|apply NoDup_singleton].
        intros x Hx ->%list_elem_of_singleton. done.
    + unfold live. cbn. rewrite length_app. cbn. lia.
Qed.

(** What is known grows. *)
Lemma knows_now seen b : knows seen b -> knows (seen_devices b) b.
Proof. intros [H _]. by split. Qed.

Lemma knows_before seen b b' : knows seen b -> knows (seen_devices b) b' -> knows seen b'.
Proof. intros [_ H1] [H2 H3]. split; [done|]. by etransitivity. Qed.

Lemma knows_live b b' i : knows (seen_devices b) b' -> live b i -> live b' i.
Proof. intros [_ H%prefix_length] Hi. unfold live in *. lia. Qed.

(** One id of an answer, and the loop over them. *)
Lemma id_typed seen spec i :
  triple (knows seen) (knows seen)
    (on_link (con_load (2 * i) 2) ≫= fun bs => hwio_dev_from_id spec (le_to_Z bs))
    (fun d b => knows seen b /\ live b d).
Proof.
  eapply triple_bind.
  - apply (triple_yields _ (fun bs => length bs = 2%nat)); [apply within_on_link, within_con_load|].
    intros b bs b' H. unfold on_link in H. destruct (con_load (2 * i) 2 (rb_link b)) as [r k] eqn:E.
    injection H as -> <-. by eapply con_load_length.
  - intros bs b [Hb Hl]. pose proof (le_to_Z_bound bs) as Hid. rewrite Hl in Hid.
    by apply (dev_from_id_typed seen spec (le_to_Z bs) Hid b Hb).
Qed.

Lemma ids_typed seen spec (idxs : list nat) :
  triple (knows seen) (knows seen)
    (st_mapM (fun i => on_link (con_load (2 * i) 2) ≫= fun bs => hwio_dev_from_id spec (le_to_Z bs)) idxs)
    (fun ds b => knows seen b /\ Forall (live b) ds).
Proof.
  revert seen. induction idxs as [|i idxs IH]; intros seen; cbn [st_mapM]; [intros b Hb; by split|].
  eapply triple_bind; [apply id_typed|]. intros d b [Hb Hd].
  specialize (IH (seen_devices b) b (knows_now _ _ Hb)). unfold mbind at 1, ST_bind.
  destruct (st_mapM _ idxs b) as [[ds|e|f] b']; [|by eapply knows_before|done].
  destruct IH as [Hb' Hds]. split; [by eapply knows_before|]. constructor; [by eapply knows_live|done].
Qed.

Lemma find_devices_typed seen spec :
  triple (knows seen) (knows seen) (remote_find_devices spec) (fun ds b => knows seen b /\ Forall (live b) ds).
Proof.
  unfold remote_find_devices.
  assert (within (keeping lt) (spec_list_to_query spec)) as Hq.
  { unfold spec_list_to_query. frame. generalize 0%nat. induction spec as [|s spec IH]; intros i; cbn [store_items].
    - apply within_ret, _.
    - unfold copy_str_to_resp. cbv zeta. frame. }
  do 3 (eapply triple_bind; [apply triple_keeping, within_on_link; auto with frame|intros ?]).
  apply triple_bool; [apply triple_throw; done|apply ids_typed].
Qed.

(** ** The methods of a remote bus *)

(** The calls a program makes on a bus and its devices. *)
Inductive bus_method : Type -> Type :=
  | BFind (spec : list hwio_comp_spec) : bus_method (list nat)
  | BDev {A} (m : dev_method nat A) : bus_method A
  | BCall (i : nat) (name : string) (args : list byte) (n : nat) : bus_method (list byte)
  | BCallVoid (i : nat) (name : string) (args : list byte) : bus_method unit
  | BFast (i : nat) (fn_id : Z) (args : list byte) (n : nat) : bus_method (list byte)
  | BFastVoid (i : nat) (fn_id : Z) (args : list byte) : bus_method unit
  | BFnId (i : nat) (name : string) : bus_method Z
  | BAvailable (i : nat) (name : string) : bus_method bool
  | BPing : bus_method Z.

Definition run_bus {A} (m : bus_method A) : ST (hwio_bus_remote N) A :=
  match m in bus_method A return ST (hwio_bus_remote N) A with
  | BFind spec => remote_find_devices spec
  | BDev m => run_method m
  | BCall i name args n => on_seen i (fun d => remote_call d name args n)
  | BCallVoid i name args => on_seen i (fun d => remote_call_void d name args)
  | BFast i fn_id args n => on_seen i (fun d => remote_call_fast d fn_id args n)
  | BFastVoid i fn_id args => on_seen i (fun d => remote_call_fast_void d fn_id args)
  | BFnId i name => on_seen i (fun d => get_rpc_fn_id d name)
  | BAvailable i name => on_seen i (fun d => is_rpc_available d name)
  | BPing => on_link ping
  end.

Definition bus_result {A} (m : bus_method A) : A -> hwio_bus_remote N -> Prop :=
  match m in bus_method A return A -> hwio_bus_remote N -> Prop with
  | BFind _ => fun ds b => Forall (live b) ds
  | BDev m => fun a _ => result_typed m a
  | BCall _ _ _ n | BFast _ _ _ n => fun bs _ => length bs = n
  | BFnId _ _ => fun v _ => INT_MIN <= v <= INT_MAX
  | _ => fun _ _ => True
  end.

(** ** The methods are typed *)

(** A method of a device object that returns something known. *)
Lemma seen_method_typed {A} seen i (m : hwio_device_remote -> ST (Link N) A) (Q : A -> Prop) :
  (forall d, within (keeping lt) (m d)) -> (forall d k a k', m d k = (Ret a, k') -> Q a) ->
  triple (knows seen) (knows seen) (on_seen i m) (fun a b => knows seen b /\ Q a).
Proof.
  intros Hm HQ. apply triple_yields; [by apply within_on_seen|].
  intros b a b' H. by eapply on_seen_result.
Qed.

Lemma remote_load_typed seen i n off :
  triple (knows seen) (knows seen) (on_seen i (fun d => remote_load d n off))
    (fun v b => knows seen b /\ 0 <= v < 256 ^ Z.of_nat n).
Proof.
  apply seen_method_typed; [intros d; unfold remote_load; frame|].
  intros d k v k' H. apply st_bind_inv in H as (bs & k1 & H1 & H). apply st_ret_inv in H as [<- _].
  rewrite <-(remote_read_length _ _ _ _ _ _ H1). apply le_to_Z_bound.
Qed.

Lemma remote_store_typed seen i n off v :
  triple (knows seen) (knows seen) (on_seen i (fun d => remote_store d n off v)) (fun _ => knows seen).
Proof. apply triple_keeping, within_on_seen. intros d. apply within_remote_write. Qed.

#[export] Instance remote_typed_regs seen : TypedRegs (hwio_bus_remote N) nat (knows seen).
Proof.
  split; intros; [apply (remote_load_typed seen _ 1)|apply (remote_load_typed seen _ 4)
    |apply (remote_load_typed seen _ 8)|apply remote_store_typed..].
Qed.

Lemma remote_read_typed seen i off n :
  triple (knows seen) (knows seen) (read_block i off n) (fun bs b => knows seen b /\ length bs = n).
Proof.
  apply read_block_typed.
  - eapply triple_bind; [apply (triple_fst (knows seen)), triple_keeping, within_on_seen; intros d; apply within_remote_read|].
    intros bs. apply typed_emit.
  - intros b b' bs H. cbn [dev_read remote_dev] in H. apply st_bind_inv in H as (bs0 & [b1 dst] & H1 & H2).
    unfold st_fst in H1. cbn [fst snd] in H1. destruct (on_seen i _ b) as [r b2] eqn:E.
    injection H1 as -> <- <-. injection H2 as <- <-.
    eapply (on_seen_result (fun bs => length bs = n)); [|exact E]. intros d k bs k'. apply remote_read_length.
Qed.

Lemma dev_method_typed seen {A} (m : dev_method nat A) :
  triple (knows seen) (knows seen) (run_method m) (fun a b => knows seen b /\ result_typed m a).
Proof.
  apply methods_typed; [apply _|..].
  - intros d. apply triple_ret.
  - apply remote_read_typed.
  - intros d off data. apply triple_keeping, within_on_seen. intros d0. apply within_remote_write.
  - intros d off c n. apply (typed_dev_memset (knows seen)).
Qed.

Lemma bus_method_typed seen {A} (m : bus_method A) :
  triple (knows seen) (knows seen) (run_bus m) (fun a b => knows seen b /\ bus_result m a b).
Proof.
  destruct m; cbn [run_bus bus_result].
  - apply find_devices_typed.
  - apply dev_method_typed.
  - apply (seen_method_typed seen _ _ (fun bs => length bs = n)).
    + intros d. unfold remote_call. frame.
    + intros d k bs k' H. unfold remote_call in H.
      do 2 (apply st_bind_inv in H as (? & ? & _ & H)). by eapply con_load_length.
  - apply (seen_method_typed seen _ _ (fun _ => True)); [intros d; unfold remote_call_void; frame|done].
  - apply (seen_method_typed seen _ _ (fun bs => length bs = n)).
    + intros d. unfold remote_call_fast. frame.
    + intros d k bs k' H. unfold remote_call_fast in H.
      do 2 (apply st_bind_inv in H as (? & ? & _ & H)). by eapply con_load_length.
  - apply (seen_method_typed seen _ _ (fun _ => True)); [intros d; unfold remote_call_fast_void; frame|done].
  - apply (seen_method_typed seen _ _ (fun v => INT_MIN <= v <= INT_MAX)).
    + intros d. unfold get_rpc_fn_id. frame.
    + intros d k v k' H. apply st_bind_inv in H as (resp & k1 & _ & H). apply st_ret_inv in H as [<- _].
      apply s32_range.
  - apply (seen_method_typed seen _ _ (fun _ => True)); [intros d; unfold is_rpc_available; frame|done].
  - apply (triple_yields _ (fun _ => True)); [apply within_on_link, within_ping|done].
Qed.
End remote.

(** ** Properties *)

(** C20: whatever the server answers, a call on a remote bus or one of its
    devices that returns gives a value of its type: registers fit their
    width, blocks have the length asked for, and the pointers a lookup
    returns are devices of the bus.  Also after an exception the buffers of
    the connection have their size, every server id has one object, and the
    objects the program holds are still there, at the same place. *)
Theorem remote_bus_typed {N} `{!Peer N} {CA : ConApi} {A} (m : bus_method A) (b : hwio_bus_remote N) :
  bus_typed b ->
  match run_bus m b with
  | (Ret a, b') => bus_typed b' /\ seen_devices b `prefix_of` seen_devices b' /\ bus_result m a b'
  | (Throw _, b') => bus_typed b' /\ seen_devices b `prefix_of` seen_devices b'
  | (Undef _, _) => True
  end.
Proof.
  intros Hb. pose proof (bus_method_typed (seen_devices b) m b (conj Hb (reflexivity _))) as H.
  destruct (run_bus m b) as [[a|e|f] b']; [|done..]. destruct H as [[H1 H2] H3]. done.
Qed.

(** ** The witness *)

Module TestRemoteTyped.

(** A peer that says nothing: what arrives is in the events of the link. *)
#[export] Instance silent_peer : Peer unit := {| peer_takes _ := mret [] |}.

#[export] Instance test_con_api : ConApi :=
  {| strerror _ := "error"%string; con_socket := 5; con_connect _ := 0 |}.

(** A bus that knows the device 7, and the answer to a read of four bytes. *)
Definition test_bus : hwio_bus_remote unit :=
  BusRemote (MkLink (Con 5 "127.0.0.1" (replicate BUFFER_SIZE NUL) (replicate BUFFER_SIZE NUL))
    [ConData (frame HWIO_CMD_READ_RESP (chars "ABCD"))] [] tt) [new_remote [] 7].

Lemma test_bus_typed : bus_typed test_bus.
Proof.
  split; cbn [rb_link seen_devices test_bus].
  - split; apply length_replicate.
  - constructor; [cbn; lia|constructor].
  - apply NoDup_singleton.
Qed.

Lemma remote_bus_typed_witness :
  exists v b', run_bus (BDev (MRead32 0%nat 16)) test_bus = (Ret v, b') /\ v = 1145258561 /\
    bus_typed b' /\ 0 <= v < 2 ^ 32.
Proof.
  pose proof (remote_bus_typed (BDev (MRead32 0%nat 16)) test_bus test_bus_typed) as H.
  destruct (run_bus (BDev (MRead32 0%nat 16)) test_bus) as [r b'] eqn:E.
  assert (r = Ret 1145258561) as ->.
  { change r with (fst (r, b')). rewrite <-E. vm_compute. reflexivity. }
  exists 1145258561, b'. split; [reflexivity|]. split; [reflexivity|].
  destruct H as (H1 & _ & H2). split; [exact H1|exact H2].
Defined.
End TestRemoteTyped.
