(* ===== verification/ClientSpec.v ===== *)
(** * The client against a serving peer

    The interface between the two programs, [Served]: a peer that answers each
    well-formed request as an abstract protocol says, however the request is
    cut into pieces.  Against it every operation of the connection, of a
    remote device and of the remote bus does what the protocol promises. *)

From Stdlib Require Import ZArith Lia Ascii String.
From stdpp Require Import base tactics list numbers strings gmap fin_maps.
From S2P Require Import Prelude CxxString Version CompSpec Device Bus Wire Protocol Client.
From S2P Require Import DeviceRemote.

(** ** The streams of a connection *)

(** The events bring the bytes [bs], in pieces and with interruptions, and
    then [tail]. *)
Inductive arrives (tail : list con_event) : list con_event -> list byte -> Prop :=
  | ar_nil : arrives tail tail []
  | ar_intr evs bs : arrives tail evs bs -> arrives tail (ConIntr :: evs) bs
  | ar_data x evs bs : arrives tail evs bs -> arrives tail (ConData x :: evs) (x ++ bs).

Lemma arrives_app tail evs1 evs2 bs1 bs2 :
  arrives [] evs1 bs1 -> arrives tail evs2 bs2 -> arrives tail (evs1 ++ evs2) (bs1 ++ bs2).
Proof.
  intros H1 H2. induction H1; cbn [app]; [done|by constructor|].
  rewrite <-app_assoc. by constructor.
Qed.

(** No [send] fails, and none takes nothing. *)
Definition sends_ok (evs : list tx_event) : Prop :=
  Forall (fun e => match e with TxTakes n => (0 < n)%nat | TxIntr => True | TxError _ => False end) evs.

Section link.
Context {N : Type} `{!Peer N} {CA : ConApi}.
Implicit Types (k : Link N) (n : N).

Lemma rx_loop_0 evs : rx_loop 0 evs = (Ret tt, [], evs).
Proof. by destruct evs. Qed.

Lemma rx_loop_arrives tail evs bs want :
  arrives tail evs bs -> (want <= length bs)%nat ->
  exists evs', rx_loop want evs = (Ret tt, take want bs, evs') /\ arrives tail evs' (drop want bs).
Proof.
  intros H. revert want. induction H as [|evs bs H IH|x evs bs H IH]; intros want Hw.
  - destruct want; [|cbn in Hw; lia]. rewrite rx_loop_0. eexists. split; [done|constructor].
  - destruct want as [|want].
    + rewrite rx_loop_0. eexists. split; [done|by constructor].
    + destruct (IH _ Hw) as (evs' & E & Ha). exists evs'. by cbn.
  - destruct want as [|want].
    { rewrite rx_loop_0. eexists. split; [done|by constructor]. }
    rewrite length_app in Hw. cbn [rx_loop]. destruct (Nat.leb_spec (length x) (S want)) as [Hx|Hx].
    + destruct (IH (S want - length x)%nat) as (evs' & E & Ha); [lia|]. rewrite E.
      exists evs'. rewrite take_app_ge, drop_app_ge by done. done.
    + eexists. rewrite take_app_le, drop_app_le by lia. split; [done|by constructor].
Qed.

(** The peer takes the pieces one after the other. *)
Inductive takes_all : N -> list (list byte) -> list con_event -> N -> Prop :=
  | ta_nil n : takes_all n [] [] n
  | ta_cons n p ps evs n1 evs' n' :
      peer_takes p n = (Ret evs, n1) -> takes_all n1 ps evs' n' ->
      takes_all n (p :: ps) (evs ++ evs') n'.

(** The peer answers the message with the bytes [out], and then [tail]. *)
Definition exchanges n (msg out : list byte) (tail : list con_event) (Q : N -> Prop) : Prop :=
  forall pieces, concat pieces = msg -> Forall (fun p => p <> []) pieces ->
  exists evs n', takes_all n pieces evs n' /\ arrives tail evs out /\ Q n'.

Lemma tx_loop_pieces outs bytes :
  sends_ok outs ->
  exists pieces outs', concat pieces = bytes /\ Forall (fun p => p <> []) pieces /\ sends_ok outs' /\
    forall k evs n', takes_all (ln_peer k) pieces evs n' ->
    tx_loop outs bytes k = (Ret tt, MkLink (ln_con k) (ln_in k ++ evs) outs' n').
Proof.
  intros Ho. revert bytes. induction Ho as [|o outs Ho Houts IH]; intros bytes.
  - destruct bytes as [|b bs].
    + exists [], []. split_and!; [done|constructor|constructor|].
      intros k evs n' H. inversion H; subst. cbn. rewrite app_nil_r. by destruct k.
    + exists [b :: bs], []. split_and!; [by rewrite concat_cons, app_nil_r|by repeat constructor|constructor|].
      intros k evs n' H. inversion H as [|? ? ? e1 n1 ? ? E Hn]; subst. inversion Hn; subst.
      cbn [tx_loop]. erewrite st_bind_ret by done. unfold give. cbn [set_ln_out ln_peer].
      rewrite E. cbn. by rewrite app_nil_r.
  - destruct bytes as [|b bs].
    { exists [], (o :: outs). split_and!; [done|constructor|by constructor|].
      intros k evs n' H. inversion H; subst. cbn. rewrite app_nil_r. by destruct k. }
    destruct o as [m| |e]; [| |done].
    + destruct m as [|m]; [lia|].
      destruct (IH (drop m bs)) as (pieces & outs' & Hc & Hp & Ho' & Hrun).
      exists ((b :: take m bs) :: pieces), outs'. split_and!; [|by constructor|done|].
      * cbn. by rewrite Hc, take_drop.
      * intros k evs n' H. inversion H as [|? ? ? e1 n1 evs2 ? E Hn]; subst. cbn [tx_loop].
        erewrite st_bind_ret. 2:{ unfold give. cbn [take]. by rewrite E. }
        cbn [drop]. rewrite (Hrun _ evs2 n') by done. cbn. by rewrite app_assoc.
    + destruct (IH (b :: bs)) as (pieces & outs' & Hc & Hp & Ho' & Hrun).
      exists pieces, outs'. by split_and!.
Qed.

(** ** Packets *)

Lemma con_store_run off bs k :
  (off + length bs <= length (con_tx (ln_con k)))%nat ->
  con_store off bs k = (Ret tt, set_tx (splice off bs (con_tx (ln_con k))) k).
Proof. intros H. unfold con_store. by rewrite (proj2 (Nat.leb_le _ _)). Qed.

Lemma con_load_run off (m : nat) k :
  (off + m <= length (con_rx (ln_con k)))%nat ->
  con_load off m k = (Ret (slice off m (con_rx (ln_con k))), k).
Proof. intros H. unfold con_load. by rewrite (proj2 (Nat.leb_le _ _)). Qed.

Lemma rx_bytes_run tail k bs size :
  (size <= BUFFER_SIZE)%nat -> arrives tail (ln_in k) bs -> (size <= length bs)%nat ->
  exists evs, arrives tail evs (drop size bs) /\
    rx_bytes size k = (Ret 0, set_ln_in evs (set_rx (take size bs ++ drop size (con_rx (ln_con k))) k)).
Proof.
  intros Hs Ha Hl. destruct (rx_loop_arrives _ _ _ _ Ha Hl) as (evs & E & Ha'). exists evs.
  split; [done|]. unfold rx_bytes. rewrite (proj2 (Nat.leb_le _ _)) by done. cbn [negb].
  rewrite E, splice_0. by rewrite length_take, Nat.min_l.
Qed.

(** The receive buffer after a packet. *)
Definition rx_after (cmd : Z) (body rx : list byte) : list byte :=
  body ++ drop (length body) (enc_header (Header cmd (Z.of_nat (length body))) ++ drop 3 rx).

Lemma rx_after_length cmd body rx :
  length rx = BUFFER_SIZE -> (length body <= BUFFER_SIZE)%nat ->
  length (rx_after cmd body rx) = BUFFER_SIZE.
Proof.
  intros Hr Hb. unfold rx_after. rewrite length_app, length_drop, length_app, length_drop, Hr.
  rewrite enc_header_length. unfold BUFFER_SIZE in *. lia.
Qed.

Lemma rx_pckt_run tail k cmd body more :
  length (con_rx (ln_con k)) = BUFFER_SIZE -> 0 <= cmd < 256 -> (length body <= BUFFER_SIZE)%nat ->
  arrives tail (ln_in k) (frame cmd body ++ more) ->
  exists evs, arrives tail evs more /\
    rx_pckt k = (Ret (Header cmd (Z.of_nat (length body))),
                 set_ln_in evs (set_rx (rx_after cmd body (con_rx (ln_con k))) k)).
Proof.
  intros Hr Hc Hb Ha. set (h := Header cmd (Z.of_nat (length body))).
  assert (Z.of_nat (length body) < 65536) as Hb' by (unfold BUFFER_SIZE in Hb; lia).
  unfold frame in Ha. fold h in Ha. rewrite <-app_assoc in Ha.
  destruct (rx_bytes_run tail k _ sizeof_header ltac:(unfold BUFFER_SIZE, sizeof_header; lia) Ha)
    as (evs1 & Ha1 & H1); [rewrite !length_app, enc_header_length; unfold sizeof_header; lia|].
  unfold sizeof_header in H1, Ha1.
  rewrite take_app_length' in H1 by done. rewrite drop_app_length' in Ha1 by done.
  set (k1 := set_ln_in _ _) in H1.
  assert (length (con_rx (ln_con k1)) = BUFFER_SIZE) as Hr1.
  { cbn. rewrite length_drop, Hr. done. }
  assert (con_load 0 3 k1 = (Ret (enc_header h), k1)) as Hload.
  { rewrite con_load_run by (rewrite Hr1; unfold BUFFER_SIZE; lia). done. }
  assert (dec_header (enc_header h) = h) as Hdec.
  { rewrite <-(app_nil_r (enc_header h)). apply dec_enc_header. unfold h. split; cbn [command body_len]; lia. }
  unfold rx_pckt, sizeof_header. rewrite (st_bind_ret _ _ _ _ _ H1). cbn [Z.eqb negb].
  rewrite (st_bind_ret _ _ _ _ _ Hload). cbv zeta. rewrite Hdec. cbn [body_len h].
  destruct (Z.eqb_spec (Z.of_nat (length body)) 0) as [E|E]; cbn [negb].
  - destruct body; [|cbn in E; lia]. by exists evs1.
  - rewrite Nat2Z.id.
    destruct (rx_bytes_run tail k1 _ (length body) Hb Ha1) as (evs2 & Ha2 & H2);
      [rewrite length_app; lia|].
    rewrite (st_bind_ret _ _ _ _ _ H2). cbn [Z.eqb negb].
    rewrite drop_app_length in Ha2. rewrite take_app_length.
    by exists evs2.
Qed.

Lemma tx_pckt_run k msg rest out tail Q :
  header_wf (dec_header msg) -> (3 <= length msg)%nat ->
  length msg = (3 + Z.to_nat (body_len (dec_header msg)))%nat ->
  con_tx (ln_con k) = msg ++ rest -> sends_ok (ln_out k) ->
  exchanges (ln_peer k) msg out tail Q ->
  exists evs outs n', tx_pckt k = (Ret tt, MkLink (ln_con k) (ln_in k ++ evs) outs n') /\
    sends_ok outs /\ arrives tail evs out /\ Q n'.
Proof.
  intros Hh H3 Hlen Htx Ho Hex.
  destruct (tx_loop_pieces (ln_out k) msg Ho) as (pieces & outs & Hc & Hp & Ho' & Hrun).
  destruct (Hex pieces Hc Hp) as (evs & n' & Ht & Ha & HQ).
  exists evs, outs, n'. split_and!; [|done..]. unfold tx_pckt. rewrite Htx.
  assert (dec_header (msg ++ rest) = dec_header msg) as ->.
  { rewrite <-(dec_header_take3 (msg ++ rest)), take_app_le, dec_header_take3 by lia. done. }
  unfold sizeof_header. rewrite Nat.add_comm, <-Hlen.
  rewrite (proj2 (Nat.leb_le _ _)) by (rewrite length_app; lia).
  rewrite take_app_length. by apply Hrun.
Qed.
End link.

(** ** Building messages in the buffer *)

(** Some stores one after the other. *)
Definition stores (l : list (nat * list byte)) (tx : list byte) : list byte :=
  fold_left (fun t p => splice p.1 p.2 t) l tx.

Section build.
Context {N : Type} `{!Peer N} {CA : ConApi}.
Implicit Types (k : Link N) (d : hwio_device_remote) (tx : list byte).

Lemma con_stores_run {A} l (m : ST (Link N) A) k :
  Forall (fun p => (p.1 + length p.2 <= length (con_tx (ln_con k)))%nat) l ->
  foldr (fun p m => con_store p.1 p.2 ≫= fun _ => m) m l k =
  m (set_tx (stores l (con_tx (ln_con k))) k).
Proof.
  intros H. remember (length (con_tx (ln_con k))) as len eqn:E. revert k E.
  induction H as [|p l Hp _ IH]; intros k E; cbn [foldr].
  - by destruct k as [[]].
  - erewrite st_bind_ret by (apply con_store_run; lia).
    rewrite IH; [done|]. cbn. by rewrite splice_length by lia.
Qed.

Lemma read_message tx id off n :
  (11 <= length tx)%nat ->
  stores [(1%nat, le_of_Z 2 8); (0%nat, le_of_Z 1 HWIO_CMD_READ); (5%nat, le_of_Z 4 off);
          (3%nat, le_of_Z 2 id); (9%nat, le_of_Z 2 n)] tx =
  enc_request (RqRead {| rq_devId := id; rq_addr := off; rq_size := n |}) ++ drop 11 tx.
Proof.
  intros H. do 11 (destruct tx as [|? tx]; [cbn in H; lia|]). reflexivity.
Qed.

Lemma write_message tx id off data :
  (11 + length data <= length tx)%nat ->
  stores [(1%nat, le_of_Z 2 (Z.of_nat (sizeof_WrReq + length data))); (0%nat, le_of_Z 1 HWIO_CMD_WRITE);
          (5%nat, le_of_Z 4 off); (3%nat, le_of_Z 2 id); (9%nat, le_of_Z 2 (Z.of_nat (length data)));
          (11%nat, data)] tx =
  enc_request (RqWrite {| rq_devId := id; rq_addr := off; rq_size := Z.of_nat (length data) |} data) ++
  drop (11 + length data) tx.
Proof.
  intros H. do 11 (destruct tx as [|? tx]; [cbn in H; lia|]).
  unfold enc_request, frame, enc_header. cbn [rq_cmd rq_body command body_len].
  rewrite length_app, enc_RdReq_length. reflexivity.
Qed.

Lemma fast_message tx id fn_id args :
  (9 + length args <= length tx)%nat ->
  stores [(0%nat, le_of_Z 1 HWIO_CMD_REMOTE_CALL_FAST); (5%nat, le_of_Z 4 fn_id);
          (3%nat, le_of_Z 2 id); (9%nat, args);
          (1%nat, le_of_Z 2 (Z.of_nat (sizeof_RemoteCallFast + length args)))] tx =
  enc_request (RqFast id fn_id args) ++ drop (9 + length args) tx.
Proof.
  intros H. do 9 (destruct tx as [|? tx]; [cbn in H; lia|]). reflexivity.
Qed.

(** The messages with a function name. *)
Lemma name_message tx cmd id name args len :
  (133 + length args <= length tx)%nat ->
  stores [(0%nat, le_of_Z 1 cmd); (5%nat, strncpy MAX_NAME_LEN name); (3%nat, le_of_Z 2 id);
          (133%nat, args); (1%nat, le_of_Z 2 len)] tx =
  enc_header (Header cmd len) ++ enc_RemoteCall id name ++ args ++ drop (133 + length args) tx.
Proof.
  intros H. do 5 (destruct tx as [|? tx]; [cbn in H; lia|]). cbn [length] in H.
  destruct (split_at 128 tx) as (x & y & -> & Hx); [lia|].
  cbn [stores fold_left fst snd].
  change (splice 0 (le_of_Z 1 cmd) _) with (le_of_Z 1 cmd ++ [a0; a1; a2; a3] ++ x ++ y).
  rewrite (app_assoc (le_of_Z 1 cmd)).
  rewrite (splice_mid 5 _ _ x) by (done || by rewrite Hx, strncpy_length).
  change (splice 3 (le_of_Z 2 id) _) with
    (le_of_Z 1 cmd ++ [a0; a1] ++ le_of_Z 2 id ++ strncpy MAX_NAME_LEN name ++ y).
  assert (forall l, length (le_of_Z 1 cmd ++ l ++ le_of_Z 2 id ++ strncpy MAX_NAME_LEN name) =
    (131 + length l)%nat) as Hl.
  { intros l. rewrite !length_app, strncpy_length, !le_of_Z_length. unfold MAX_NAME_LEN. lia. }
  replace (le_of_Z 1 cmd ++ [a0; a1] ++ le_of_Z 2 id ++ strncpy MAX_NAME_LEN name ++ y) with
    ((le_of_Z 1 cmd ++ [a0; a1] ++ le_of_Z 2 id ++ strncpy MAX_NAME_LEN name) ++ y)
    by by rewrite <-!app_assoc.
  rewrite splice_prefix by by rewrite Hl. rewrite <-!app_assoc.
  rewrite splice_mid by done. unfold enc_header, enc_RemoteCall. cbn [command body_len].
  rewrite <-!app_assoc. do 5 f_equal.
  change (a :: a0 :: a1 :: a2 :: a3 :: x ++ y) with ([a; a0; a1; a2; a3] ++ x ++ y).
  rewrite app_assoc, <-drop_drop. f_equal. rewrite drop_app_length'; [done|].
  rewrite length_app, Hx. done.
Qed.

Lemma con_tx_fits {A} k (l : list (nat * list byte)) (m : ST (Link N) A) len :
  length (con_tx (ln_con k)) = BUFFER_SIZE -> (len <= BUFFER_SIZE)%nat ->
  Forall (fun p => (p.1 + length p.2 <= len)%nat) l ->
  foldr (fun p m => con_store p.1 p.2 ≫= fun _ => m) m l k =
  m (set_tx (stores l (con_tx (ln_con k))) k).
Proof.
  intros Htx Hlen Hl. apply con_stores_run. eapply Forall_impl; [exact Hl|]. cbn. intros. lia.
Qed.

Lemma con_tx_fits_last k (l : list (nat * list byte)) p len :
  length (con_tx (ln_con k)) = BUFFER_SIZE -> (len <= BUFFER_SIZE)%nat ->
  Forall (fun p => (p.1 + length p.2 <= len)%nat) (l ++ [p]) ->
  foldr (fun p m => con_store p.1 p.2 ≫= fun _ => m) (con_store p.1 p.2) l k =
  (Ret tt, set_tx (stores (l ++ [p]) (con_tx (ln_con k))) k).
Proof.
  intros Htx Hlen [Hl Hp]%Forall_app. apply Forall_cons in Hp as [Hp _].
  assert (length (stores l (con_tx (ln_con k))) = BUFFER_SIZE) as Hs.
  { rewrite <-Htx. clear Hp. revert Htx. generalize (con_tx (ln_con k)) as tx.
    induction Hl as [|q l Hq _ IH]; intros tx Htx; [done|]. cbn [stores fold_left].
    change (fold_left _ l ?t) with (stores l t).
    rewrite IH; rewrite ?splice_length by lia; done. }
  rewrite (con_tx_fits k l _ len Htx Hlen Hl), con_store_run by (cbn; lia).
  unfold stores. by rewrite fold_left_app.
Qed.

(** The stores of an operation are those of the message on the right. *)
Ltac built len :=
  match goal with
  | |- _ = ?m (set_tx (stores ?l (con_tx (ln_con ?k))) ?k) => refine (con_tx_fits k l m len _ _ _)
  | |- _ = (Ret tt, set_tx (stores ?l (con_tx (ln_con ?k))) ?k) =>
      match l with
      | context [cons ?p nil] =>
          let i := eval cbv [removelast] in (removelast l) in
          refine (con_tx_fits_last k i p len _ _ _); cbn [app]
      end
  end;
  [done | unfold BUFFER_SIZE in *; lia
  | rewrite ?Forall_cons; cbn [fst snd length]; rewrite ?strncpy_length, ?le_of_Z_length;
    unfold MAX_NAME_LEN; split_and?; first [apply Forall_nil_2 | lia]].

Lemma remote_read_built d off n k :
  length (con_tx (ln_con k)) = BUFFER_SIZE -> (n <= UINT16_MAX)%nat ->
  remote_read d off n k = (transact HWIO_CMD_READ_RESP ≫= fun _ => con_load 0 n)
    (set_tx (enc_request (RqRead {| rq_devId := rd_id d; rq_addr := off; rq_size := Z.of_nat n |}) ++
             drop 11 (con_tx (ln_con k))) k).
Proof.
  intros Htx Hn. unfold remote_read. rewrite (proj2 (Nat.leb_le _ _)) by done. cbn [negb].
  rewrite <-read_message by (rewrite Htx; unfold BUFFER_SIZE; lia).
  built 11%nat.
Qed.

Lemma remote_write_built d off data k :
  length (con_tx (ln_con k)) = BUFFER_SIZE -> (11 + length data <= BUFFER_SIZE)%nat ->
  remote_write d off data k = tx_pckt
    (set_tx (enc_request (RqWrite {| rq_devId := rd_id d; rq_addr := off;
                                     rq_size := Z.of_nat (length data) |} data) ++
             drop (11 + length data) (con_tx (ln_con k))) k).
Proof.
  intros Htx Hn. unfold remote_write.
  rewrite (proj2 (Nat.leb_le (length data) _)) by (unfold BUFFER_SIZE, UINT16_MAX in *; lia).
  cbn [negb]. rewrite <-write_message by (rewrite Htx; lia).
  built (11 + length data)%nat.
Qed.

Lemma call_by_id_built {A} d fn_id args (m : ST (Link N) A) k :
  length (con_tx (ln_con k)) = BUFFER_SIZE -> (9 + length args <= BUFFER_SIZE)%nat ->
  (call_by_id d fn_id args ≫= fun _ => m) k =
  m (set_tx (enc_request (RqFast (rd_id d) fn_id args) ++
             drop (9 + length args) (con_tx (ln_con k))) k).
Proof.
  intros Htx Hn. rewrite <-fast_message by (rewrite Htx; lia).
  erewrite (st_bind_ret _ _ _ tt); [done|]. unfold call_by_id. built (9 + length args)%nat.
Qed.

Lemma call_by_name_built {A} d name args (m : ST (Link N) A) k :
  length (con_tx (ln_con k)) = BUFFER_SIZE -> (133 + length args <= BUFFER_SIZE)%nat ->
  (call_by_name d name args ≫= fun _ => m) k =
  m (set_tx (enc_header (Header HWIO_CMD_REMOTE_CALL (Z.of_nat (129 + length args))) ++
             enc_RemoteCall (rd_id d) name ++ args ++
             drop (133 + length args) (con_tx (ln_con k))) k).
Proof.
  intros Htx Hn. rewrite <-name_message by (rewrite Htx; lia).
  erewrite (st_bind_ret _ _ _ tt); [done|]. unfold call_by_name. built (133 + length args)%nat.
Qed.

Lemma ask_rpc_fn_id_built d name k :
  length (con_tx (ln_con k)) = BUFFER_SIZE ->
  ask_rpc_fn_id d name k =
  (transact HWIO_CMD_GET_REMOTE_CALL_ID_RESP ≫= fun _ => con_load 0 sizeof_GetRemoteCallIdResp)
    (set_tx (enc_request (RqFnId (rd_id d) name) ++ drop 133 (con_tx (ln_con k))) k).
Proof.
  intros Htx. unfold ask_rpc_fn_id.
  assert (stores [(0%nat, le_of_Z 1 HWIO_CMD_GET_REMOTE_CALL_ID); (5%nat, strncpy MAX_NAME_LEN name);
    (3%nat, le_of_Z 2 (rd_id d)); (1%nat, le_of_Z 2 (Z.of_nat sizeof_GetRemoteCallId))]
    (con_tx (ln_con k)) = enc_request (RqFnId (rd_id d) name) ++ drop 133 (con_tx (ln_con k))) as <-.
  { transitivity (enc_header (Header HWIO_CMD_GET_REMOTE_CALL_ID 130) ++
      enc_RemoteCall (rd_id d) name ++ [] ++ drop (133 + length (A:=byte) []) (con_tx (ln_con k))).
    - rewrite <-name_message by (rewrite Htx; cbn [length]; unfold BUFFER_SIZE; lia).
      cbn [stores fold_left fst snd]. by rewrite (splice_nil 133).
    - unfold enc_request, frame. cbn [rq_cmd rq_body]. by rewrite enc_RemoteCall_length, <-app_assoc. }
  built 133%nat.
Qed.

Lemma copy_str_built src off (a b c : list byte) k :
  con_tx (ln_con k) = a ++ b ++ c -> length a = off -> length b = 128%nat ->
  copy_str_to_resp src off k = (Ret tt, set_tx (a ++ strncpy MAX_NAME_LEN src ++ c) k).
Proof.
  intros Ha Hoff Hb. unfold copy_str_to_resp. erewrite st_bind_ret.
  2:{ apply con_store_run. rewrite Ha, !length_app, length_replicate. unfold MAX_NAME_LEN. lia. }
  rewrite Ha, splice_mid by (done || by rewrite length_replicate).
  rewrite con_store_run
    by (cbn [con_tx ln_con set_tx set_con];
        rewrite !length_app, length_replicate, strncpy_length; unfold MAX_NAME_LEN; lia).
  cbn [con_tx ln_con set_tx set_con]. rewrite splice_mid; [done|done|].
  by rewrite length_replicate, strncpy_length.
Qed.

(** The items of a query. *)
Lemma store_items_built spec i pre rest k :
  con_tx (ln_con k) = pre ++ rest -> length pre = (3 + i * 396)%nat ->
  (length spec * 396 <= length rest)%nat ->
  store_items i spec k =
  (Ret tt, set_tx (pre ++ enc_query spec ++ drop (length spec * 396) rest) k).
Proof.
  revert i pre rest k. induction spec as [|s spec IH]; intros i pre rest k Htx Hp Hr.
  - change (enc_query [] ++ drop (length (A:=hwio_comp_spec) [] * 396) rest) with rest.
    rewrite <-Htx. by destruct k as [[]].
  - cbn [length] in Hr.
    destruct (split_at 128 rest) as (x1 & r1 & -> & H1); [lia|]. rewrite length_app in Hr.
    destruct (split_at 128 r1) as (x2 & r2 & -> & H2); [lia|]. rewrite length_app in Hr.
    destruct (split_at 128 r2) as (x3 & r3 & -> & H3); [lia|]. rewrite length_app in Hr.
    destruct (split_at 12 r3) as (x4 & r4 & -> & H4); [lia|]. rewrite length_app in Hr.
    cbn [store_items]. cbv zeta. unfold sizeof_Dev_query_item. rewrite <-Hp.
    erewrite st_bind_ret by by eapply (copy_str_built _ _ pre x1).
    erewrite st_bind_ret.
    2:{ apply (copy_str_built _ _ (pre ++ strncpy MAX_NAME_LEN (cs_name s)) x2 (x3 ++ x4 ++ r4));
        [cbn [con_tx ln_con set_tx set_con]; by rewrite <-app_assoc
        |by rewrite length_app, strncpy_length|done]. }
    erewrite st_bind_ret.
    2:{ apply (copy_str_built _ _ ((pre ++ strncpy MAX_NAME_LEN (cs_name s)) ++
          strncpy MAX_NAME_LEN (cs_vendor s)) x3 (x4 ++ r4));
        [cbn [con_tx ln_con set_tx set_con]; by rewrite <-!app_assoc
        |rewrite !length_app, !strncpy_length; unfold MAX_NAME_LEN; lia|done]. }
    erewrite st_bind_ret.
    2:{ apply con_store_run. cbn [con_tx ln_con set_tx set_con]. 
        rewrite !length_app, !strncpy_length, enc_version_length, H4. unfold MAX_NAME_LEN. lia. }
    cbn [con_tx ln_con set_tx set_con].
    rewrite (app_assoc _ (strncpy _ (cs_type s))).
    rewrite splice_mid; [|rewrite !length_app, !strncpy_length; unfold MAX_NAME_LEN; lia|done].
    erewrite (IH (S i) (pre ++ enc_query_item s) r4); [|cbn; unfold enc_query_item; by rewrite <-!app_assoc| |].
    + cbn [length Nat.mul]. change (enc_query (s :: spec)) with (enc_query_item s ++ enc_query spec).
      replace (drop (396 + length spec * 396) (x1 ++ x2 ++ x3 ++ x4 ++ r4))
        with (drop (length spec * 396) r4); [by rewrite <-!app_assoc|].
      change 396%nat with (128 + (128 + (128 + 12)))%nat at 2.
      rewrite <-!Nat.add_assoc, <-!drop_drop. by rewrite !drop_app_length'.
    + rewrite length_app, enc_query_item_length. lia.
    + lia.
Qed.

Lemma spec_list_to_query_built spec k :
  length (con_tx (ln_con k)) = BUFFER_SIZE -> (length spec <= 5)%nat ->
  spec_list_to_query spec k =
  (Ret tt, set_tx (enc_request (RqQuery spec) ++ drop (3 + length spec * 396) (con_tx (ln_con k))) k).
Proof.
  intros Htx Hl. unfold BUFFER_SIZE in Htx. unfold spec_list_to_query.
  destruct (split_at 3 (con_tx (ln_con k))) as (a & rest & E & Ha); [lia|].
  destruct a as [|a0 [|a1 [|a2 [|]]]]; cbn in Ha; try lia.
  erewrite st_bind_ret by (apply con_store_run; rewrite Htx; cbn [length le_of_Z]; lia).
  erewrite st_bind_ret.
  2:{ apply con_store_run. cbn [con_tx ln_con set_tx set_con]. rewrite splice_length, Htx; cbn [length le_of_Z]; lia. }
  rewrite (store_items_built spec 0 (enc_header (Header HWIO_CMD_QUERY (Z.of_nat (396 * length spec)))) rest).
  - assert (enc_request (RqQuery spec) =
      enc_header (Header HWIO_CMD_QUERY (Z.of_nat (396 * length spec))) ++ enc_query spec) as ->.
    { unfold enc_request, frame. cbn [rq_cmd rq_body]. by rewrite enc_query_length, Nat.mul_comm. }
    by rewrite <-app_assoc, E.
  - cbn [con_tx ln_con set_tx set_con]. rewrite E. reflexivity.
  - done.
  - rewrite E in Htx. rewrite length_app in Htx. cbn [length] in Htx. lia.
Qed.
End build.
