(* ===== verification/RemoteSpec.v ===== *)
(** * Remote devices against the interface of a server

    [Served] is what a client relies on: a peer that answers every well-formed
    request as an abstract protocol says, and closes the stream after a
    refusal.  Every operation of a connection and of a remote device is
    proved against it; [EndToEnd] shows that the server keeps the promise. *)

From Stdlib Require Import ZArith Lia Ascii String.
From stdpp Require Import base tactics list numbers strings gmap fin_maps.
From S2P Require Import Prelude CxxString Version CompSpec Device Bus Wire Protocol Client.
From S2P Require Import DeviceRemote ClientSpec.

(** [serving n a]: the peer [n] serves from the abstract state [a]; [gone n a]:
    it has closed the connection.  [answers] is a request that is served,
    [rejects] one that ends the connection. *)
Class Served (N A : Type) `{!Peer N} := {
  serving : N -> A -> Prop;
  gone : N -> A -> Prop;
  answers : A -> request -> list byte -> A -> Prop;
  rejects : A -> request -> list byte -> A -> Prop;
  answers_exchange n a rq out a' :
    serving n a -> request_wf rq -> (length (enc_request rq) <= BUFFER_SIZE)%nat ->
    answers a rq out a' -> exchanges n (enc_request rq) out [] (fun n' => serving n' a');
  rejects_exchange n a rq out a' :
    serving n a -> request_wf rq -> (length (enc_request rq) <= BUFFER_SIZE)%nat ->
    rejects a rq out a' -> exchanges n (enc_request rq) out [ConEof] (fun n' => gone n' a')
}.

Section served.
Context {N A : Type} `{!Peer N} {CA : ConApi} `{!Served N A}.
Implicit Types (k : Link N) (a : A) (d : hwio_device_remote).

(** A connection between two operations. *)
Record linked k a : Prop := {
  lk_rx : length (con_rx (ln_con k)) = BUFFER_SIZE;
  lk_tx : length (con_tx (ln_con k)) = BUFFER_SIZE;
  lk_in : arrives [] (ln_in k) [];
  lk_out : sends_ok (ln_out k);
  lk_peer : serving (ln_peer k) a
}.

(** The message in the buffer is the request [rq]. *)
Definition prepared (rq : request) k : Prop := exists rest, con_tx (ln_con k) = enc_request rq ++ rest.

Lemma linked_set_tx rq rest k a :
  linked k a -> length (enc_request rq ++ rest) = BUFFER_SIZE ->
  linked (set_tx (enc_request rq ++ rest) k) a /\ prepared rq (set_tx (enc_request rq ++ rest) k).
Proof. intros [] Hl. split; [by split|by exists rest]. Qed.

Lemma prepared_short rq k : prepared rq k -> length (con_tx (ln_con k)) = BUFFER_SIZE ->
  (length (enc_request rq) <= BUFFER_SIZE)%nat.
Proof. intros [rest E] <-. rewrite E, length_app. lia. Qed.

Lemma request_sent rq k out tail Q :
  prepared rq k -> request_wf rq -> sends_ok (ln_out k) ->
  exchanges (ln_peer k) (enc_request rq) out tail Q ->
  exists evs outs n', tx_pckt k = (Ret tt, MkLink (ln_con k) (ln_in k ++ evs) outs n') /\
    sends_ok outs /\ arrives tail evs out /\ Q n'.
Proof.
  intros [rest E] Hwf Ho Hex.
  pose proof (enc_request_header rq [] Hwf) as Hh. rewrite app_nil_r in Hh.
  eapply (tx_pckt_run k (enc_request rq) rest); try done.
  - rewrite Hh. by apply rq_header_wf.
  - rewrite enc_request_length. lia.
  - rewrite Hh. cbn [body_len]. by rewrite Nat2Z.id, enc_request_length.
Qed.

(** A request without an answer. *)
Lemma quiet_request rq k a a' :
  linked k a -> prepared rq k -> request_wf rq -> answers a rq [] a' ->
  exists k', tx_pckt k = (Ret tt, k') /\ linked k' a'.
Proof.
  intros [] Hp Hwf Ha.
  destruct (request_sent rq k [] [] _ Hp Hwf lk_out0
    (answers_exchange _ _ _ _ _ lk_peer0 Hwf (prepared_short _ _ Hp lk_tx0) Ha))
    as (evs & outs & n' & Hrun & Ho & Hin & Hn).
  eexists. split; [exact Hrun|]. split; try done. cbn. by apply (arrives_app [] _ _ [] []).
Qed.

(** A request and its answer. *)
Lemma answered_request rq k a cmd body a' :
  linked k a -> prepared rq k -> request_wf rq -> answers a rq (frame cmd body) a' ->
  0 <= cmd < 256 -> (length body <= BUFFER_SIZE)%nat ->
  exists k1 k', tx_pckt k = (Ret tt, k1) /\
    rx_pckt k1 = (Ret (Header cmd (Z.of_nat (length body))), k') /\
    linked k' a' /\ con_rx (ln_con k') = rx_after cmd body (con_rx (ln_con k)).
Proof.
  intros [] Hp Hwf Ha Hc Hb.
  destruct (request_sent rq k _ [] _ Hp Hwf lk_out0
    (answers_exchange _ _ _ _ _ lk_peer0 Hwf (prepared_short _ _ Hp lk_tx0) Ha))
    as (evs & outs & n' & Hrun & Ho & Hin & Hn).
  set (k1 := MkLink _ _ _ _) in Hrun. exists k1.
  destruct (rx_pckt_run [] k1 cmd body [] lk_rx0 Hc Hb) as (evs' & Hin' & Hrx).
  { cbn. rewrite app_nil_r. by apply (arrives_app [] _ _ [] (frame cmd body)). }
  eexists. split_and!; [done|exact Hrx| |done].
  split; try done. cbn. by apply rx_after_length.
Qed.

Lemma transact_ok rq k a cmd body a' :
  linked k a -> prepared rq k -> request_wf rq -> answers a rq (frame cmd body) a' ->
  0 <= cmd < 256 -> (length body <= BUFFER_SIZE)%nat ->
  exists k', transact cmd k = (Ret tt, k') /\ linked k' a' /\
    con_rx (ln_con k') = rx_after cmd body (con_rx (ln_con k)).
Proof.
  intros Hk Hp Hwf Ha Hc Hb.
  destruct (answered_request _ _ _ _ _ _ Hk Hp Hwf Ha Hc Hb) as (k1 & k' & Htx & Hrx & Hl & E).
  exists k'. split_and!; [|done..]. unfold transact.
  rewrite (st_bind_ret _ _ _ _ _ Htx), (st_bind_ret _ _ _ _ _ Hrx).
  unfold assert_response. cbn [command]. by rewrite Z.eqb_refl.
Qed.

(** The body of the answer. *)
Lemma load_body cmd body rx k :
  con_rx (ln_con k) = rx_after cmd body rx ->
  con_load 0 (length body) k = (Ret body, k).
Proof.
  intros E. rewrite con_load_run by (rewrite E; unfold rx_after; rewrite length_app; lia).
  rewrite E, slice_0_take. unfold rx_after. by rewrite take_app_length.
Qed.

Lemma transact_body rq k a cmd body a' :
  linked k a -> prepared rq k -> request_wf rq -> answers a rq (frame cmd body) a' ->
  0 <= cmd < 256 -> (length body <= BUFFER_SIZE)%nat ->
  exists k', (transact cmd ≫= fun _ => con_load 0 (length body)) k = (Ret body, k') /\ linked k' a'.
Proof.
  intros Hk Hp Hwf Ha Hc Hb.
  destruct (transact_ok _ _ _ _ _ _ Hk Hp Hwf Ha Hc Hb) as (k' & Hrun & Hl & E).
  exists k'. split; [|done]. rewrite (st_bind_ret _ _ _ _ _ Hrun). by eapply load_body.
Qed.

(** ** The operations of a remote device *)

Lemma set_tx_prepared rq k a len :
  linked k a -> length (enc_request rq) = len -> (len <= BUFFER_SIZE)%nat ->
  linked (set_tx (enc_request rq ++ drop len (con_tx (ln_con k))) k) a /\
  prepared rq (set_tx (enc_request rq ++ drop len (con_tx (ln_con k))) k).
Proof.
  intros Hk <- Hl. apply linked_set_tx; [done|].
  rewrite length_app, length_drop, (lk_tx _ _ Hk). lia.
Qed.

Lemma remote_read_ok d off bs k a a' :
  linked k a -> 0 <= rd_id d < 65536 -> 0 <= off < 2 ^ 32 -> (length bs <= BUFFER_SIZE)%nat ->
  answers a (RqRead {| rq_devId := rd_id d; rq_addr := off; rq_size := Z.of_nat (length bs) |})
    (frame HWIO_CMD_READ_RESP bs) a' ->
  exists k', remote_read d off (length bs) k = (Ret bs, k') /\ linked k' a'.
Proof.
  intros Hk Hid Hoff Hb Ha. rewrite remote_read_built by
    (apply (lk_tx _ _ Hk) || (unfold BUFFER_SIZE, UINT16_MAX in *; lia)).
  edestruct set_tx_prepared as [Hk1 Hp1]; [exact Hk| | |].
  3: { eapply transact_body; [exact Hk1|exact Hp1| |exact Ha|by cbv|done].
       unfold BUFFER_SIZE in Hb. split; [cbn; lia|split_and!; cbn; lia]. }
  - done.
  - unfold BUFFER_SIZE. lia.
Qed.

Lemma remote_write_ok d off data k a a' :
  linked k a -> 0 <= rd_id d < 65536 -> 0 <= off < 2 ^ 32 ->
  (11 + length data <= BUFFER_SIZE)%nat ->
  answers a (RqWrite {| rq_devId := rd_id d; rq_addr := off; rq_size := Z.of_nat (length data) |} data)
    [] a' ->
  exists k', remote_write d off data k = (Ret tt, k') /\ linked k' a'.
Proof.
  intros Hk Hid Hoff Hb Ha. rewrite remote_write_built by (apply (lk_tx _ _ Hk) || done).
  edestruct set_tx_prepared as [Hk1 Hp1]; [exact Hk| | |].
  3: { eapply quiet_request; [exact Hk1|exact Hp1| |exact Ha].
       unfold BUFFER_SIZE in Hb. unfold request_wf. cbn [rq_body].
       rewrite length_app, enc_RdReq_length. split; [lia|split; [split_and!; cbn; lia|done]]. }
  - rewrite enc_request_length. cbn [rq_body]. by rewrite length_app, enc_RdReq_length.
  - done.
Qed.

(** ** Remote calls *)

Lemma remote_call_fast_ok d fn_id args ret k a a' :
  linked k a -> 0 <= rd_id d < 65536 -> 0 <= fn_id < 2 ^ 32 ->
  (9 + length args <= BUFFER_SIZE)%nat -> (length ret <= BUFFER_SIZE)%nat ->
  answers a (RqFast (rd_id d) fn_id args) (frame HWIO_CMD_REMOTE_CALL_RET ret) a' ->
  exists k', remote_call_fast d fn_id args (length ret) k = (Ret ret, k') /\ linked k' a'.
Proof.
  intros Hk Hid Hfn Hb Hr Ha. unfold remote_call_fast.
  rewrite call_by_id_built by (apply (lk_tx _ _ Hk) || done).
  edestruct set_tx_prepared as [Hk1 Hp1]; [exact Hk| | |].
  3: { eapply transact_body; [exact Hk1|exact Hp1| |exact Ha|by cbv|done].
       unfold BUFFER_SIZE in Hb. unfold request_wf. cbn [rq_body].
       rewrite length_app. cbn [enc_RemoteCallFast length app le_of_Z]. split; [lia|done]. }
  - done.
  - done.
Qed.

Lemma remote_call_fast_void_ok d fn_id args k a a' :
  linked k a -> 0 <= rd_id d < 65536 -> 0 <= fn_id < 2 ^ 32 ->
  (9 + length args <= BUFFER_SIZE)%nat ->
  answers a (RqFast (rd_id d) fn_id args) [] a' ->
  exists k', remote_call_fast_void d fn_id args k = (Ret tt, k') /\ linked k' a'.
Proof.
  intros Hk Hid Hfn Hb Ha. unfold remote_call_fast_void.
  rewrite call_by_id_built by (apply (lk_tx _ _ Hk) || done).
  edestruct set_tx_prepared as [Hk1 Hp1]; [exact Hk| | |].
  3: { eapply quiet_request; [exact Hk1|exact Hp1| |exact Ha].
       unfold BUFFER_SIZE in Hb. unfold request_wf. cbn [rq_body].
       rewrite length_app. cbn [enc_RemoteCallFast length app le_of_Z]. split; [lia|done]. }
  - done.
  - done.
Qed.

(** The message of a call by name is one byte too short: it is the request
    without the last byte of the arguments. *)
Lemma call_by_name_truncated {B} d name args x (m : ST (Link N) B) k :
  length (con_tx (ln_con k)) = BUFFER_SIZE -> (134 + length args <= BUFFER_SIZE)%nat ->
  (call_by_name d name (args ++ [x]) ≫= fun _ => m) k =
  m (set_tx (enc_request (RqCall (rd_id d) name args) ++
             x :: drop (134 + length args) (con_tx (ln_con k))) k).
Proof.
  intros Htx Hl. rewrite call_by_name_built by (rewrite ?length_app; cbn [length]; first [done|lia]).
  unfold enc_request, frame. cbn [rq_cmd rq_body].
  rewrite !length_app, enc_RemoteCall_length. cbn [length].
  replace (129 + (length args + 1))%nat with (130 + length args)%nat by lia.
  replace (133 + (length args + 1))%nat with (134 + length args)%nat by lia.
  by rewrite <-!app_assoc.
Qed.

Lemma remote_call_ok d name args x ret k a a' :
  linked k a -> 0 <= rd_id d < 65536 -> name_ok name ->
  (134 + length args <= BUFFER_SIZE)%nat -> (length ret <= BUFFER_SIZE)%nat ->
  answers a (RqCall (rd_id d) name args) (frame HWIO_CMD_REMOTE_CALL_RET ret) a' ->
  exists k', remote_call d name (args ++ [x]) (length ret) k = (Ret ret, k') /\ linked k' a'.
Proof.
  intros Hk Hid Hname Hb Hr Ha. unfold remote_call.
  rewrite call_by_name_truncated by (apply (lk_tx _ _ Hk) || done).
  edestruct (linked_set_tx (RqCall (rd_id d) name args)
    (x :: drop (134 + length args) (con_tx (ln_con k)))) as [Hk1 Hp1]; [exact Hk| |].
  2: { eapply transact_body; [exact Hk1|exact Hp1| |exact Ha|by cbv|done].
       unfold BUFFER_SIZE in Hb. unfold request_wf. cbn [rq_body].
       rewrite length_app, enc_RemoteCall_length. split; [lia|done]. }
  rewrite length_app, enc_request_length. cbn [rq_body length].
  rewrite length_app, enc_RemoteCall_length, length_drop, (lk_tx _ _ Hk). lia.
Qed.

Lemma ask_rpc_fn_id_ok d name found i k a a' :
  linked k a -> 0 <= rd_id d < 65536 -> name_ok name ->
  answers a (RqFnId (rd_id d) name)
    (frame HWIO_CMD_GET_REMOTE_CALL_ID_RESP (enc_GetRemoteCallIdResp found i)) a' ->
  exists k', ask_rpc_fn_id d name k = (Ret (enc_GetRemoteCallIdResp found i), k') /\ linked k' a'.
Proof.
  intros Hk Hid Hname Ha. rewrite ask_rpc_fn_id_built by apply (lk_tx _ _ Hk).
  change sizeof_GetRemoteCallIdResp with (length (enc_GetRemoteCallIdResp found i)).
  edestruct set_tx_prepared as [Hk1 Hp1]; [exact Hk| | |].
  3: { eapply transact_body; [exact Hk1|exact Hp1| |exact Ha|by cbv|].
       - unfold request_wf. cbn [rq_body]. rewrite enc_RemoteCall_length. done.
       - unfold BUFFER_SIZE. cbn. lia. }
  - rewrite enc_request_length. cbn [rq_body]. by rewrite enc_RemoteCall_length.
  - unfold BUFFER_SIZE. lia.
Qed.

Lemma fn_id_fields found i :
  field 0 1 (enc_GetRemoteCallIdResp found i) = Z.b2z found /\
  field 1 4 (enc_GetRemoteCallIdResp found i) = u32 i.
Proof.
  split.
  - change (field 0 1 _) with (le_to_Z (le_of_Z 1 (Z.b2z found))).
    apply (le_to_Z_small 1). by destruct found.
  - change (field 1 4 _) with (le_to_Z (le_of_Z 4 i)). apply le_to_Z_u32.
Qed.

(** ** The connection *)

Lemma tx_command_built cmd k :
  length (con_tx (ln_con k)) = BUFFER_SIZE ->
  tx_command cmd k =
  tx_pckt (set_tx (enc_header (Header cmd 0) ++ drop 3 (con_tx (ln_con k))) k).
Proof.
  intros Htx. unfold tx_command. unfold BUFFER_SIZE in Htx.
  erewrite st_bind_ret by (apply con_store_run; rewrite Htx; cbn [length le_of_Z]; lia).
  erewrite st_bind_ret.
  2:{ apply con_store_run. cbn [con_tx ln_con set_tx set_con].
      rewrite splice_length, Htx; cbn [length le_of_Z]; lia. }
  f_equal. destruct (split_at 3 (con_tx (ln_con k))) as (x & rest & E & Hx); [lia|].
  destruct x as [|a0 [|a1 [|a2 [|]]]]; cbn in Hx; try lia.
  cbn [con_tx ln_con set_tx set_con]. by rewrite E.
Qed.

(** [ping] is 0, and so the connection succeeds, where the peer answers. *)
Lemma ping_ok k a a' :
  linked k a -> answers a RqPing (frame HWIO_CMD_PING_REPLY []) a' ->
  exists k', ping k = (Ret 0, k') /\ linked k' a'.
Proof.
  intros Hk Ha.
  edestruct (set_tx_prepared RqPing k a 3%nat Hk) as [Hk1 Hp1];
    [done|unfold BUFFER_SIZE; lia|].
  destruct (answered_request RqPing _ a HWIO_CMD_PING_REPLY [] a' Hk1 Hp1)
    as (k1 & k' & Htx & Hrx & Hl & _); [by split|done|by cbv|cbn; lia|].
  exists k'. split; [|done]. unfold ping. apply st_try_ret.
  erewrite st_bind_ret. 2:{ rewrite tx_command_built by apply (lk_tx _ _ Hk). exact Htx. }
  by rewrite (st_bind_ret _ _ _ _ _ Hrx).
Qed.

(** The destructor says goodbye. *)
Lemma destroy_ok k a out a' :
  linked k a -> rejects a RqBye out a' ->
  exists k', destroy_con k = (Ret tt, k') /\
    (if 0 <=? sockfd (ln_con k) then gone (ln_peer k') a' else k' = k).
Proof.
  intros Hk Hr. unfold destroy_con. erewrite (st_bind_ret st_get) by done.
  destruct (0 <=? sockfd (ln_con k)); [|by exists k].
  edestruct (set_tx_prepared RqBye k a 3%nat Hk) as [Hk1 Hp1];
    [done|unfold BUFFER_SIZE; lia|].
  assert (request_wf RqBye) as Hwf by by split.
  destruct (request_sent RqBye _ out [ConEof] _ Hp1 Hwf (lk_out _ _ Hk1)
    (rejects_exchange _ _ _ _ _ (lk_peer _ _ Hk1) Hwf
      (prepared_short _ _ Hp1 (lk_tx _ _ Hk1)) Hr)) as (evs & outs & n' & Hrun & _ & _ & Hn).
  eexists. split.
  2: instantiate (1 := MkLink _ _ _ n'); exact Hn.
  unfold no_throw, bye.
  rewrite tx_command_built by apply (lk_tx _ _ Hk).
  change (enc_header (Header HWIO_CMD_BYE 0)) with (enc_request RqBye). by rewrite Hrun.
Qed.

(** ** Refusals *)

(** A refusal reaches the caller as an exception with the code and the text of
    the server, followed by what an earlier answer left in the buffer: the
    server sends the text without a terminator. *)
Lemma transact_refused rq expected k a code msg a' stale :
  linked k a -> prepared rq k -> request_wf rq -> rejects a rq (error_bytes code msg) a' ->
  expected <> HWIO_CMD_MSG -> - 2 ^ 31 <= code < 2 ^ 31 ->
  (length (upto_nul (chars msg)) <= 1021)%nat ->
  cstr (drop (4 + length (upto_nul (chars msg))) (con_rx (ln_con k))) = Some stale ->
  exists k', transact expected k =
    (Throw (Exn EX_error_rw (wrong_response +:+ "9" +:+ to_dec code +:+ ": " +:+
       of_chars (upto_nul (chars msg) ++ stale))), k') /\
    gone (ln_peer k') a'.
Proof.
  intros [] Hp Hwf Hr He Hcode Hl Hst. set (txt := upto_nul (chars msg)) in *.
  destruct (request_sent rq k _ [ConEof] _ Hp Hwf lk_out0
    (rejects_exchange _ _ _ _ _ lk_peer0 Hwf (prepared_short _ _ Hp lk_tx0) Hr))
    as (evs & outs & n' & Hrun & Ho & Hin & Hn).
  set (k1 := MkLink _ _ _ _) in Hrun. set (body := le_of_Z 4 code ++ txt).
  assert (length body = 4 + length txt)%nat as Hb by (unfold body; by rewrite length_app).
  destruct (rx_pckt_run [ConEof] k1 HWIO_CMD_MSG body (replicate (1021 - length txt) NUL) lk_rx0)
    as (evs' & Hin' & Hrx); [by cbv|unfold BUFFER_SIZE; lia| |].
  { cbn. rewrite error_bytes_frame in Hin by done. by apply (arrives_app _ _ _ [] _ lk_in0). }
  set (k2 := set_ln_in _ _) in Hrx. exists k2. split; [|done].
  unfold transact. rewrite (st_bind_ret _ _ _ _ _ Hrun), (st_bind_ret _ _ _ _ _ Hrx).
  unfold assert_response. cbn [command]. rewrite (proj2 (Z.eqb_neq _ _)) by done. cbn [negb].
  change (HWIO_CMD_MSG =? HWIO_CMD_MSG) with true. cbv iota.
  assert (con_rx (ln_con k2) = body ++ drop (4 + length txt) (con_rx (ln_con k))) as Erx.
  { change (con_rx (ln_con k2)) with (rx_after HWIO_CMD_MSG body (con_rx (ln_con k))).
    unfold rx_after. f_equal. rewrite Hb, drop_app_ge by (rewrite enc_header_length; lia).
    rewrite enc_header_length, drop_drop. done. }
  assert (con_load 0 4 k2 = (Ret (le_of_Z 4 code), k2)) as Hload.
  { rewrite con_load_run by (rewrite Erx, length_app; lia). by rewrite Erx. }
  assert (con_cstr 4 k2 = (Ret (of_chars (txt ++ stale)), k2)) as Hcstr.
  { unfold con_cstr. rewrite Erx. unfold body. rewrite <-app_assoc, drop_app_length' by done.
    rewrite cstr_no_nul_app by apply upto_nul_no_nul. by rewrite Hst. }
  erewrite st_bind_ret.
  2:{ rewrite (st_bind_ret _ _ _ _ _ Hload), (st_bind_ret _ _ _ _ _ Hcstr). done. }
  rewrite le_to_Z_u32, s32_u32, s32_small by (unfold INT_MIN, INT_MAX; lia). done.
Qed.

Lemma remote_read_refused d off n k a code msg a' stale :
  linked k a -> 0 <= rd_id d < 65536 -> 0 <= off < 2 ^ 32 -> (n <= UINT16_MAX)%nat ->
  rejects a (RqRead {| rq_devId := rd_id d; rq_addr := off; rq_size := Z.of_nat n |})
    (error_bytes code msg) a' ->
  - 2 ^ 31 <= code < 2 ^ 31 -> (length (upto_nul (chars msg)) <= 1021)%nat ->
  cstr (drop (4 + length (upto_nul (chars msg))) (con_rx (ln_con k))) = Some stale ->
  exists k', remote_read d off n k =
    (Throw (Exn EX_error_rw (wrong_response +:+ "9" +:+ to_dec code +:+ ": " +:+
       of_chars (upto_nul (chars msg) ++ stale))), k') /\
    gone (ln_peer k') a'.
Proof.
  intros Hk Hid Hoff Hn Hr Hc Hl Hst.
  rewrite remote_read_built by (apply (lk_tx _ _ Hk) || done).
  edestruct set_tx_prepared as [Hk1 Hp1]; [exact Hk| | |].
  3: { edestruct (fun rq => transact_refused rq HWIO_CMD_READ_RESP) as (k' & Hrun & Hg);
         [exact Hk1|exact Hp1| |exact Hr|done|exact Hc|exact Hl|exact Hst|].
       - unfold UINT16_MAX in Hn. split; [cbn; lia|split_and!; cbn; lia].
       - exists k'. split; [|exact Hg]. by rewrite (st_bind_throw _ _ _ _ _ Hrun). }
  - done.
  - unfold BUFFER_SIZE. lia.
Qed.

(** ** The lookup *)

(** The objects of a bus have distinct ids. *)
Definition seen_wf (b : hwio_bus_remote N) : Prop := NoDup (map rd_id (seen_devices b)).

(** The object [i] of the bus stands for the device [id] of the server. *)
Definition stands_for (b : hwio_bus_remote N) (i : nat) (id : Z) : Prop :=
  exists d, seen_devices b !! i = Some d /\ rd_id d = id.

Lemma hwio_dev_from_id_ok spec id b :
  seen_wf b ->
  exists i seen', hwio_dev_from_id spec id b = (Ret i, BusRemote (rb_link b) seen') /\
    seen_devices b `prefix_of` seen' /\ seen_wf (BusRemote (rb_link b) seen') /\
    stands_for (BusRemote (rb_link b) seen') i id.
Proof.
  intros Hwf. unfold hwio_dev_from_id. pose proof (find_seen_spec (seen_devices b) id 0) as H.
  destruct (find_seen _ _ _) as [i|].
  - destruct H as (m & d & -> & Hm & Hd). exists m, (seen_devices b).
    split_and!; [by destruct b|done|by destruct b|by exists d].
  - exists (length (seen_devices b)), (seen_devices b ++ [new_remote spec id]). split_and!.
    + done.
    + by apply prefix_app_r.
    + unfold seen_wf. cbn. rewrite map_app. apply NoDup_app. split_and!; [done| |].
      * intros x Hx ->%list_elem_of_singleton. done.
      * apply NoDup_singleton.
    + exists (new_remote spec id). split; [|done].
      cbn [seen_devices]. by rewrite lookup_app_r, Nat.sub_diag by lia.
Qed.

Lemma stands_for_prefix b seen' i id :
  stands_for b i id -> seen_devices b `prefix_of` seen' -> stands_for (BusRemote (rb_link b) seen') i id.
Proof.
  intros (d & Hd & E) Hp. exists d. split; [|done]. cbn. by eapply prefix_lookup_Some.
Qed.

(** The loop over the ids of an answer. *)
Lemma dev_from_ids spec ids j n b :
  (forall i id, (i < n)%nat -> ids !! (j + i)%nat = Some id ->
    slice (2 * (j + i)) 2 (con_rx (ln_con (rb_link b))) = le_of_Z 2 id) ->
  (forall id, id ∈ ids -> 0 <= id < 65536) -> length ids = (j + n)%nat ->
  (2 * (j + n) <= length (con_rx (ln_con (rb_link b))))%nat -> seen_wf b ->
  exists res seen',
    st_mapM (fun i => on_link (con_load (2 * i) 2) ≫= fun bs => hwio_dev_from_id spec (le_to_Z bs))
      (seq j n) b = (Ret res, BusRemote (rb_link b) seen') /\
    seen_devices b `prefix_of` seen' /\ seen_wf (BusRemote (rb_link b) seen') /\
    Forall2 (stands_for (BusRemote (rb_link b) seen')) res (drop j ids).
Proof.
  revert j b. induction n as [|n IH]; intros j b Hrx Hr Hl Hlen Hwf.
  - exists [], (seen_devices b). rewrite drop_ge by lia.
    split_and!; [by destruct b|done|by destruct b|constructor].
  - destruct (lookup_lt_is_Some_2 ids j) as [id Hid]; [lia|].
    cbn [seq st_mapM].
    assert (on_link (con_load (2 * j) 2) b = (Ret (le_of_Z 2 id), b)) as Hload.
    { unfold on_link. rewrite con_load_run by lia. rewrite <-(Hrx 0%nat id) by (lia || by rewrite Nat.add_0_r).
      rewrite Nat.add_0_r. by destruct b. }
    destruct (hwio_dev_from_id_ok spec id b Hwf) as (i & seen1 & Hd & Hp1 & Hwf1 & Hs1).
    assert (0 <= id < 65536) as Hb by (eapply Hr, list_elem_of_lookup_2, Hid).
    destruct (IH (S j) (BusRemote (rb_link b) seen1)) as (res & seen2 & Hrun & Hp2 & Hwf2 & Hs2);
      [|done|lia|cbn; lia|done|].
    { intros m id' Hm Hm'. cbn [rb_link]. replace (S j + m)%nat with (j + S m)%nat in * by lia.
      apply Hrx; [lia|done]. }
    exists (i :: res), seen2. split_and!; [| by etransitivity|done|].
    + erewrite st_bind_ret.
      2:{ rewrite (st_bind_ret _ _ _ _ _ Hload). rewrite (le_to_Z_small 2) by done. exact Hd. }
      by erewrite st_bind_ret by exact Hrun.
    + rewrite (drop_S _ _ _ Hid). constructor; [|exact Hs2]. by apply (stands_for_prefix _ _ _ _ Hs1).
Qed.

(** The lookup gives one object for each id the server answers, in order;
    an id seen before gives the object it gave then. *)
Lemma remote_find_devices_ok spec ids b a a' :
  linked (rb_link b) a -> seen_wf b -> Forall spec_sendable spec -> (1 <= length spec <= 5)%nat ->
  answers a (RqQuery spec) (frame HWIO_CMD_QUERY_RESP (enc_ids ids)) a' ->
  (forall id, id ∈ ids -> 0 <= id < 65536) -> (length ids <= 1022)%nat ->
  exists res b', remote_find_devices spec b = (Ret res, b') /\
    linked (rb_link b') a' /\ seen_wf b' /\ seen_devices b `prefix_of` seen_devices b' /\
    Forall2 (stands_for b') res ids.
Proof.
  intros Hk Hwf Hs Hn Ha Hids Hl. set (k := rb_link b) in *.
  assert (length (enc_request (RqQuery spec)) = (3 + length spec * 396)%nat) as Hlen
    by by rewrite enc_request_length; cbn [rq_body]; rewrite enc_query_length.
  destruct (set_tx_prepared (RqQuery spec) k a (3 + length spec * 396) Hk Hlen) as [Hk1 Hp1];
    [unfold BUFFER_SIZE; lia|].
  destruct (answered_request (RqQuery spec) _ a HWIO_CMD_QUERY_RESP (enc_ids ids) a' Hk1 Hp1)
    as (k1 & k' & Htx & Hrx & Hl' & Erx); [|done|by cbv|rewrite enc_ids_length; unfold BUFFER_SIZE; lia|].
  { split; [cbn [rq_body]; rewrite enc_query_length; lia|done]. }
  rewrite enc_ids_length in Hrx.
  destruct (dev_from_ids spec ids 0 (length ids) (BusRemote k' (seen_devices b)))
    as (res & seen' & Hrun & Hp & Hwf' & Hst); [|done|done| |done|].
  { intros i id Hi Hid. cbn [rb_link] in *. rewrite Erx. unfold rx_after. cbn [Nat.add] in *.
    rewrite slice_app_l by (rewrite enc_ids_length; lia). clear -Hid.
    revert i Hid. induction ids as [|x ids IH]; intros i Hid; [done|].
    destruct i as [|i]; cbn in Hid; simplify_eq; [done|].
    change (enc_ids (x :: ids)) with (le_of_Z 2 x ++ enc_ids ids).
    rewrite slice_app_r by (rewrite le_of_Z_length; lia).
    rewrite le_of_Z_length. replace (2 * S i - 2)%nat with (2 * i)%nat by lia. by apply IH. }
  { cbn [rb_link]. rewrite (lk_rx _ _ Hl'). unfold BUFFER_SIZE. lia. }
  exists res, (BusRemote k' seen'). split_and!; [|done|done|done|by rewrite drop_0 in Hst].
  unfold remote_find_devices.
  erewrite st_bind_ret. 2:{ unfold on_link. rewrite spec_list_to_query_built by (apply (lk_tx _ _ Hk) || lia). done. }
  erewrite st_bind_ret. 2:{ unfold on_link. cbn [rb_link]. fold k. rewrite Htx. done. }
  erewrite st_bind_ret. 2:{ unfold on_link. cbn [rb_link seen_devices]. rewrite Hrx. done. }
  cbn [command body_len Z.eqb negb seen_devices]. change (HWIO_CMD_QUERY_RESP =? HWIO_CMD_QUERY_RESP) with true.
  cbn [negb]. replace (Z.to_nat (Z.of_nat (2 * length ids) / 2)) with (length ids); [exact Hrun|].
  rewrite Nat2Z.inj_mul, Z.mul_comm, Z.div_mul by done. by rewrite Nat2Z.id.
Qed.
End served.

(** ** What a call by name sends *)

Section blind.
Context {N : Type} `{!Peer N} {CA : ConApi}.
Implicit Types (k : Link N).

(** The computation neither reads nor writes [tx_buffer]. *)
Definition blind {A} (m : ST (Link N) A) : Prop :=
  forall t k, m (set_tx t k) = ((m k).1, set_tx t (m k).2).

Lemma blind_ret {A} (a : A) : blind (mret a).
Proof. done. Qed.

Lemma blind_throw {A} e : blind (st_throw e : ST (Link N) A).
Proof. done. Qed.

Lemma blind_bind {A B} (m : ST (Link N) A) (f : A -> ST (Link N) B) :
  blind m -> (forall a, blind (f a)) -> blind (m ≫= f).
Proof.
  intros Hm Hf t k. unfold mbind, ST_bind. rewrite (Hm t k).
  destruct (m k) as [[a|e|x] k']; cbn [fst snd]; [apply Hf|done..].
Qed.

Lemma blind_bool {A} (b : bool) (m1 m2 : ST (Link N) A) :
  blind m1 -> blind m2 -> blind (if b then m1 else m2).
Proof. by destruct b. Qed.

Lemma blind_load off n : blind (con_load off n).
Proof. intros t k. unfold con_load. cbn [con_rx ln_con set_tx set_con]. by case_match. Qed.

Lemma blind_cstr off : blind (con_cstr off).
Proof. intros t k. unfold con_cstr. cbn [con_rx ln_con set_tx set_con]. by case_match. Qed.

Lemma blind_rx_bytes n : blind (rx_bytes n).
Proof.
  intros t k. unfold rx_bytes. destruct (negb _); [done|]. cbn [ln_in set_tx set_con].
  by destruct (rx_loop n (ln_in k)) as [[r got] evs].
Qed.

Lemma blind_rx_pckt : blind rx_pckt.
Proof.
  unfold rx_pckt.
  repeat first [apply blind_bind; [apply blind_rx_bytes || apply blind_load|intros]
               | apply blind_bool | apply blind_throw | apply blind_ret].
Qed.

Lemma blind_give bs : blind (give bs).
Proof.
  intros t k. unfold give. cbn [ln_peer set_tx set_con].
  by destruct (peer_takes bs (ln_peer k)) as [[evs|e|f] n].
Qed.

Lemma blind_outs evs : blind (st_modify (set_ln_out evs)).
Proof. done. Qed.

Lemma blind_tx_loop evs bytes : blind (tx_loop evs bytes).
Proof.
  revert bytes. induction evs as [|[n| |e] evs IH]; intros [|b bs]; cbn [tx_loop];
    try apply blind_outs; auto;
    (apply blind_bind; [apply blind_outs || apply blind_give|intros]);
    auto using blind_give, blind_throw.
Qed.

Lemma blind_assert h expected msg : blind (assert_response h expected msg).
Proof.
  unfold assert_response. apply blind_bool; [|apply blind_ret].
  apply blind_bind; [|intros; apply blind_throw].
  apply blind_bool; [|apply blind_ret]. apply blind_bind; [apply blind_load|intros].
  apply blind_bind; [apply blind_cstr|intros; apply blind_ret].
Qed.

(** Only the message in [tx_buffer] matters. *)
Lemma tx_pckt_prefix {A} msg r1 r2 (m : ST (Link N) A) k :
  (3 <= length msg)%nat -> length msg = (3 + Z.to_nat (body_len (dec_header msg)))%nat -> blind m ->
  (tx_pckt ≫= fun _ => m) (set_tx (msg ++ r1) k) =
  let res := (tx_pckt ≫= fun _ => m) (set_tx (msg ++ r2) k) in (res.1, set_tx (msg ++ r1) res.2).
Proof.
  intros H3 Hlen Hm. cbv zeta.
  assert (forall r, (tx_pckt ≫= fun _ => m) (set_tx (msg ++ r) k) =
    (tx_loop (ln_out k) msg ≫= fun _ => m) (set_tx (msg ++ r) k)) as E.
  { intros r. unfold mbind, ST_bind. unfold tx_pckt. cbn [con_tx ln_con set_tx set_con ln_out].
    assert (dec_header (msg ++ r) = dec_header msg) as ->.
    { rewrite <-(dec_header_take3 (msg ++ r)), take_app_le, dec_header_take3 by lia. done. }
    unfold sizeof_header. rewrite Nat.add_comm, <-Hlen.
    rewrite (proj2 (Nat.leb_le _ _)) by (rewrite length_app; lia). by rewrite take_app_length. }
  rewrite !E. assert (blind (tx_loop (ln_out k) msg ≫= fun _ => m)) as Hb
    by (apply blind_bind; [apply blind_tx_loop|done]).
  rewrite (Hb (msg ++ r1) k), (Hb (msg ++ r2) k). done.
Qed.

(** C25: a call by name announces one byte less than it should: the last byte
    of the arguments is never sent.  With every peer, two calls that differ
    only in this byte have the same outcome, leave the same events on the
    socket and the peer in the same state. *)
Theorem remote_call_last_byte_lost d name args x y n k :
  length (con_tx (ln_con k)) = BUFFER_SIZE -> (134 + length args <= BUFFER_SIZE)%nat ->
  0 <= rd_id d < 65536 -> name_ok name ->
  let res1 := remote_call d name (args ++ [x]) n k in
  let res2 := remote_call d name (args ++ [y]) n k in
  res1.1 = res2.1 /\ ln_in res1.2 = ln_in res2.2 /\ ln_peer res1.2 = ln_peer res2.2.
Proof.
  intros Htx Hl Hid Hname res1 res2. unfold res1, res2, remote_call, transact.
  rewrite !call_by_name_truncated by done.
  set (rq := RqCall (rd_id d) name args).
  assert (request_wf rq) as Hwf.
  { unfold BUFFER_SIZE in Hl. split; [|done]. cbn [rq_body rq]. rewrite length_app, enc_RemoteCall_length. lia. }
  pose proof (enc_request_header rq [] Hwf) as Hh. rewrite app_nil_r in Hh.
  set (rest := drop _ _). rewrite !st_bind_assoc.
  rewrite (tx_pckt_prefix (enc_request rq) (x :: rest) (y :: rest)); [done|..].
  - rewrite enc_request_length. lia.
  - rewrite Hh. cbn [body_len]. by rewrite Nat2Z.id, enc_request_length.
  - apply blind_bind; [|intros; apply blind_load].
    apply blind_bind; [apply blind_rx_pckt|intros; apply blind_assert].
Qed.
End blind.
