(* ===== verification/Server.v ===== *)
(** * HwioServer: the state of the server and its client table

    Models the data of [src/server/hwio_server.h] ([RxBuffer], [ClientInfo],
    [PProcRes], [HwioServer], [install_plugin_fn]) and the table operations of
    [src/server/hwio_server.cpp] ([add_new_client], [remove_client],
    [get_client_cnt], [client_get_dev]).  [ClientInfo] objects live in a heap
    and are shared by [clients] and [fd_to_client] as pointers; [delete] removes
    the object.  Output to the log is not modelled; every [log_level] condition
    only guards output. *)

From Stdlib Require Import ZArith Lia Ascii String.
From stdpp Require Import base tactics list numbers strings gmap fin_maps.
From S2P Require Import Prelude CxxString Version CompSpec Device Bus Wire.

(** A pointer to a [ClientInfo]. *)
Abbreviation loc := nat.

Definition RX_BUFFER_SIZE : nat := Z.to_nat 65536.
Definition POLL_TIMEOUT_MS : Z := 100.

(** [curr_ptr] is kept as the offset from [buffer]. *)
Record RxBuffer := Rx { rb_buffer : list byte; curr_ptr : nat; curr_len : nat }.

Record ClientInfo (D : Type) := Client {
  ci_id : nat;
  ci_fd : Z;
  ci_rx : RxBuffer;
  ci_devices : list (option D)
}.
Arguments Client {D}.
Arguments ci_id {D}.
Arguments ci_fd {D}.
Arguments ci_rx {D}.
Arguments ci_devices {D}.

(** [HwioServer::PProcRes] *)
Record PProcRes := PRes { disconnect : bool; tx_size : nat }.

Record pollfd := PollFd { pf_fd : Z; pf_revents : Z }.

(** [plugin_info_s]; a plugin gets the device and the bytes at [args] and
    stores the bytes it returns at [ret]. *)
Record plugin_info (W D : Type) := Plugin {
  fn : D -> list byte -> ST W (list byte);
  args_size : nat;
  ret_size : nat
}.
Arguments Plugin {W D}.
Arguments fn {W D}.
Arguments args_size {W D}.
Arguments ret_size {W D}.

(** The members of [HwioServer].  [rx_buffer] points into the receive buffer
    of a client; [heap] and [next_loc] are the [ClientInfo] objects and the
    address of the next one, [closed] the descriptors the destructor of
    [ClientInfo] closed, [poll_cap] the capacity of the vector [poll_fds]. *)
Record HwioServer (W D B : Type) := Server {
  master_socket : Z;
  client_timeout : Z * Z;
  rx_buffer : loc * nat;
  tx_buffer : list byte;
  poll_fds : list pollfd;
  poll_cap : nat;
  removed_poll_fds : list Z;
  fd_to_client : gmap Z loc;
  clients : list (option loc);
  buses : list B;
  plugins : gmap string (plugin_info W D);
  plugins_fast : list (plugin_info W D);
  plugins_fast_names : list string;
  heap : gmap loc (ClientInfo D);
  next_loc : loc;
  closed : list Z
}.
Arguments Server {W D B}.
Arguments master_socket {W D B}.
Arguments client_timeout {W D B}.
Arguments rx_buffer {W D B}.
Arguments tx_buffer {W D B}.
Arguments poll_fds {W D B}.
Arguments poll_cap {W D B}.
Arguments removed_poll_fds {W D B}.
Arguments fd_to_client {W D B}.
Arguments clients {W D B}.
Arguments buses {W D B}.
Arguments plugins {W D B}.
Arguments plugins_fast {W D B}.
Arguments plugins_fast_names {W D B}.
Arguments heap {W D B}.
Arguments next_loc {W D B}.
Arguments closed {W D B}.

(** The growth policy of the vector [poll_fds]: the capacity after a
    [push_back] to a full vector of the given size. *)
Class VectorGrowth := { vec_grow : nat -> nat }.

Section server.
Context {W D B : Type}.
Implicit Types (s : HwioServer W D B) (c : ClientInfo D) (l : loc).

(** ** Assignments to the members *)

Definition set_rx_buffer (p : loc * nat) s : HwioServer W D B :=
  Server (master_socket s) (client_timeout s) p (tx_buffer s) (poll_fds s) (poll_cap s)
    (removed_poll_fds s) (fd_to_client s) (clients s) (buses s) (plugins s) (plugins_fast s)
    (plugins_fast_names s) (heap s) (next_loc s) (closed s).

Definition set_tx_buffer (b : list byte) s : HwioServer W D B :=
  Server (master_socket s) (client_timeout s) (rx_buffer s) b (poll_fds s) (poll_cap s)
    (removed_poll_fds s) (fd_to_client s) (clients s) (buses s) (plugins s) (plugins_fast s)
    (plugins_fast_names s) (heap s) (next_loc s) (closed s).

Definition set_poll_fds (p : list pollfd) (cap : nat) s : HwioServer W D B :=
  Server (master_socket s) (client_timeout s) (rx_buffer s) (tx_buffer s) p cap
    (removed_poll_fds s) (fd_to_client s) (clients s) (buses s) (plugins s) (plugins_fast s)
    (plugins_fast_names s) (heap s) (next_loc s) (closed s).

Definition set_removed (r : list Z) s : HwioServer W D B :=
  Server (master_socket s) (client_timeout s) (rx_buffer s) (tx_buffer s) (poll_fds s)
    (poll_cap s) r (fd_to_client s) (clients s) (buses s) (plugins s) (plugins_fast s)
    (plugins_fast_names s) (heap s) (next_loc s) (closed s).

Definition set_clients (cs : list (option loc)) s : HwioServer W D B :=
  Server (master_socket s) (client_timeout s) (rx_buffer s) (tx_buffer s) (poll_fds s)
    (poll_cap s) (removed_poll_fds s) (fd_to_client s) cs (buses s) (plugins s)
    (plugins_fast s) (plugins_fast_names s) (heap s) (next_loc s) (closed s).

Definition set_fd_to_client (m : gmap Z loc) s : HwioServer W D B :=
  Server (master_socket s) (client_timeout s) (rx_buffer s) (tx_buffer s) (poll_fds s)
    (poll_cap s) (removed_poll_fds s) m (clients s) (buses s) (plugins s)
    (plugins_fast s) (plugins_fast_names s) (heap s) (next_loc s) (closed s).

Definition set_heap (h : gmap loc (ClientInfo D)) (n : loc) (cl : list Z) s :
    HwioServer W D B :=
  Server (master_socket s) (client_timeout s) (rx_buffer s) (tx_buffer s) (poll_fds s)
    (poll_cap s) (removed_poll_fds s) (fd_to_client s) (clients s) (buses s) (plugins s)
    (plugins_fast s) (plugins_fast_names s) h n cl.

Definition set_plugins (p : gmap string (plugin_info W D)) (pf : list (plugin_info W D))
    (pn : list string) s : HwioServer W D B :=
  Server (master_socket s) (client_timeout s) (rx_buffer s) (tx_buffer s) (poll_fds s)
    (poll_cap s) (removed_poll_fds s) (fd_to_client s) (clients s) (buses s) p pf pn
    (heap s) (next_loc s) (closed s).

(** ** Construction *)

(** [RxBuffer()]; the storage is not initialised, here [garbage]. *)
Definition new_RxBuffer (garbage : list byte) : RxBuffer := Rx garbage 0 0.

(** [ClientInfo(int id, int _socket)] *)
Definition new_ClientInfo (garbage : list byte) (id : nat) (socket : Z) : ClientInfo D :=
  Client id socket (new_RxBuffer garbage) [].

(** [HwioServer(addr, buses)]; [tx] is the initial storage of [tx_buffer].
    The timeout is the pair [(tv_sec, tv_nsec)]. *)
Definition new_HwioServer (tx : list byte) (bs : list B) : HwioServer W D B :=
  Server (-1) (POLL_TIMEOUT_MS / 1000, 1000 * POLL_TIMEOUT_MS) (0%nat, 0%nat) tx [] 0 []
    ∅ [] bs ∅ [] [] ∅ 0 [].

(** ** Objects on the heap *)

Definition get_client (l : loc) : ST (HwioServer W D B) (ClientInfo D) := fun s =>
  match heap s !! l with
  | Some c => (Ret c, s)
  | None => (Undef UseAfterFree, s)
  end.

Definition put_client (l : loc) (c : ClientInfo D) : ST (HwioServer W D B) unit :=
  st_modify (fun s => set_heap (<[l := c]> (heap s)) (next_loc s) (closed s) s).

(** [new ClientInfo(id, socket)] *)
Definition alloc_client (c : ClientInfo D) : ST (HwioServer W D B) loc := fun s =>
  (Ret (next_loc s), set_heap (<[next_loc s := c]> (heap s)) (S (next_loc s)) (closed s) s).

(** [delete client], with the destructor: [if (fd >= 0) close(fd);] *)
Definition delete_client (l : loc) : ST (HwioServer W D B) unit :=
  get_client l ≫= fun c =>
  st_modify (fun s => set_heap (delete l (heap s)) (next_loc s)
    (closed s ++ if 0 <=? ci_fd c then [ci_fd c] else []) s).

(** [HwioServer::client_get_dev]: the pointer is null outside the vector. *)
Definition client_get_dev (c : ClientInfo D) (devId : Z) : option D :=
  if (Z.to_nat devId <? length (ci_devices c))%nat then mjoin (ci_devices c !! Z.to_nat devId)
  else None.

(** ** The client table *)

(** [for (auto & client : clients) { if (client == nullptr) break; id++; }] *)
Fixpoint free_slot (cs : list (option loc)) (id : nat) : nat :=
  match cs with
  | [] => id
  | None :: _ => id
  | Some _ :: t => free_slot t (S id)
  end.

(** [poll_fds.push_back(pfd)] *)
Definition push_poll_fd {VG : VectorGrowth} (p : pollfd) : ST (HwioServer W D B) unit :=
  st_modify (fun s =>
    let n := length (poll_fds s) in
    set_poll_fds (poll_fds s ++ [p])
      (if (n <? poll_cap s)%nat then poll_cap s else vec_grow n) s).

(** [HwioServer::add_new_client] *)
Definition add_new_client {VG : VectorGrowth} (garbage : list byte) (socket : Z) :
    ST (HwioServer W D B) loc :=
  st_get ≫= fun s =>
  let id := free_slot (clients s) 0 in
  alloc_client (new_ClientInfo garbage id socket) ≫= fun client =>
  st_modify (set_clients
    (if (id <? length (clients s))%nat then <[id := Some client]> (clients s)
     else clients s ++ [Some client])) ≫= fun _ =>
  match fd_to_client s !! socket with
  | Some _ => st_undef AssertFailed
  | None =>
      st_modify (set_fd_to_client (<[socket := client]> (fd_to_client s))) ≫= fun _ =>
      push_poll_fd (PollFd socket 0) ≫= fun _ => mret client
  end.

(** [HwioServer::remove_client] *)
Definition remove_client (socket : Z) : ST (HwioServer W D B) unit :=
  st_get ≫= fun s =>
  match fd_to_client s !! socket with
  | None => mret tt
  | Some client =>
      get_client client ≫= fun c =>
      if negb (ci_fd c =? socket) then st_undef AssertFailed
      else if negb (ci_id c <? length (clients s))%nat then st_undef OutOfBounds
      else
        st_modify (set_clients (<[ci_id c := None]> (clients s))) ≫= fun _ =>
        st_modify (set_fd_to_client (delete socket (fd_to_client s))) ≫= fun _ =>
        delete_client client
  end.

(** [HwioServer::get_client_cnt] *)
Fixpoint count_clients (cs : list (option loc)) (i : nat) : nat :=
  match cs with
  | [] => i
  | Some _ :: t => count_clients t (S i)
  | None :: t => count_clients t i
  end.

Definition get_client_cnt : ST (HwioServer W D B) nat :=
  st_get ≫= fun s =>
  let i := count_clients (clients s) 0 in
  if (i =? base.size (fd_to_client s))%nat then mret i else st_undef AssertFailed.

(** ** Plugins *)

(** [install_plugin_fn<ARGS_T, RET_T>(name, plugin_fn)]: the sizes are those
    of the types, 0 for [void]. *)
Definition install_plugin_fn (name : string) (p : plugin_info W D) s : HwioServer W D B :=
  set_plugins (<[name := p]> (plugins s)) (plugins_fast s ++ [p])
    (plugins_fast_names s ++ [name]) s.

(** ** The invariant of the client table *)

Definition rx_wf (r : RxBuffer) : Prop :=
  length (rb_buffer r) = RX_BUFFER_SIZE /\ (curr_ptr r + curr_len r <= RX_BUFFER_SIZE)%nat.

(** The ids of the devices of a client fit [dev_id_t], and no device has two. *)
Definition devs_wf (devs : list (option D)) : Prop :=
  (length devs <= Z.to_nat 65536)%nat /\
  forall i j d, devs !! i = Some (Some d) -> devs !! j = Some (Some d) -> i = j.

Definition client_wf c : Prop := rx_wf (ci_rx c) /\ devs_wf (ci_devices c).

(** [clients], [fd_to_client] and the live objects describe the same set of
    clients: the object at [l] has its slot in [clients] and its descriptor
    in [fd_to_client], and both point to [l]. *)
Record server_wf s : Prop := {
  wf_fd fd l : fd_to_client s !! fd = Some l ->
    exists c, heap s !! l = Some c /\ ci_fd c = fd;
  wf_slot i l : clients s !! i = Some (Some l) ->
    exists c, heap s !! l = Some c /\ ci_id c = i;
  wf_heap l c : heap s !! l = Some c ->
    clients s !! ci_id c = Some (Some l) /\ fd_to_client s !! ci_fd c = Some l /\
    (l < next_loc s)%nat /\ client_wf c;
  wf_tx : length (tx_buffer s) = BUFFER_SIZE
}.

(** The fields the table operations change. *)
Definition same_config s s' : Prop :=
  tx_buffer s' = tx_buffer s /\ buses s' = buses s /\ plugins s' = plugins s /\
  plugins_fast s' = plugins_fast s /\ plugins_fast_names s' = plugins_fast_names s /\
  master_socket s' = master_socket s /\ removed_poll_fds s' = removed_poll_fds s.

(** ** Lemmas on the table *)

Lemma free_slot_shift cs n : free_slot cs n = (n + free_slot cs 0)%nat.
Proof.
  revert n. induction cs as [|[l|] cs IH]; intros n; cbn; [lia| |lia].
  rewrite (IH (S n)), (IH 1%nat). lia.
Qed.

(** The slot chosen is the lowest free one. *)
Lemma free_slot_spec cs :
  let id := free_slot cs 0 in
  (id <= length cs)%nat /\ (id < length cs -> cs !! id = Some None)%nat /\
  forall j, (j < id)%nat -> exists l, cs !! j = Some (Some l).
Proof.
  induction cs as [|[l|] cs IH]; cbn.
  - split_and!; [lia|lia|intros; lia].
  - rewrite free_slot_shift. destruct IH as (H1 & H2 & H3). cbn. split_and!.
    + lia.
    + intros. apply H2. lia.
    + intros [|j] Hj; cbn; [by exists l|]. apply H3. lia.
  - split_and!; [lia|done|intros; lia].
Qed.

(** The slot vector after a client took its slot. *)
Definition take_slot (cs : list (option loc)) (l : loc) : list (option loc) :=
  let id := free_slot cs 0 in
  if (id <? length cs)%nat then <[id := Some l]> cs else cs ++ [Some l].

Lemma lookup_take_slot cs l i :
  take_slot cs l !! i = if decide (i = free_slot cs 0) then Some (Some l) else cs !! i.
Proof.
  unfold take_slot. destruct (free_slot_spec cs) as (H1 & H2 & H3).
  destruct (Nat.ltb_spec (free_slot cs 0) (length cs)) as [Hlt|Hge].
  - case_decide as E; [subst; by rewrite list_lookup_insert_eq|].
    by rewrite list_lookup_insert_ne.
  - assert (free_slot cs 0 = length cs) as -> by lia. case_decide as E.
    + subst. by rewrite lookup_app_r, Nat.sub_diag by lia.
    + destruct (Nat.lt_ge_cases i (length cs)).
      * by rewrite lookup_app_l.
      * rewrite !lookup_ge_None_2; [done|lia|rewrite length_app; cbn; lia].
Qed.

(** The state after a new client: a closed form of [add_new_client]. *)
Definition added_state {VG : VectorGrowth} (garbage : list byte) (socket : Z) s :
    HwioServer W D B :=
  let c := new_ClientInfo garbage (free_slot (clients s) 0) socket in
  let s1 := set_heap (<[next_loc s := c]> (heap s)) (S (next_loc s)) (closed s) s in
  let s2 := set_clients (take_slot (clients s) (next_loc s)) s1 in
  let s3 := set_fd_to_client (<[socket := next_loc s]> (fd_to_client s)) s2 in
  set_poll_fds (poll_fds s ++ [PollFd socket 0])
    (if (length (poll_fds s) <? poll_cap s)%nat then poll_cap s
     else vec_grow (length (poll_fds s))) s3.

Lemma add_new_client_run {VG : VectorGrowth} garbage socket s :
  fd_to_client s !! socket = None ->
  add_new_client garbage socket s = (Ret (next_loc s), added_state garbage socket s).
Proof.
  intros H. unfold add_new_client. erewrite st_bind_ret by done. cbv beta zeta.
  erewrite st_bind_ret by done. erewrite st_bind_ret by done. rewrite H.
  erewrite st_bind_ret by done. erewrite st_bind_ret by done. done.
Qed.

Lemma new_client_wf garbage id socket :
  length garbage = RX_BUFFER_SIZE -> client_wf (new_ClientInfo garbage id socket).
Proof.
  intros H. split; [split; [done|]; cbn; lia|]. split; [cbn; lia|done].
Qed.

Lemma added_state_wf {VG : VectorGrowth} garbage socket s :
  length garbage = RX_BUFFER_SIZE -> server_wf s -> fd_to_client s !! socket = None ->
  server_wf (added_state garbage socket s).
Proof.
  intros Hg [Hfd Hsl Hh Htx] Hn.
  assert (heap s !! next_loc s = None) as Hfresh.
  { destruct (heap s !! next_loc s) as [c|] eqn:E; [|done]. apply Hh in E. lia. }
  split; cbn.
  - intros fd l Hl. destruct (decide (fd = socket)) as [->|Hne].
    + rewrite lookup_insert_eq in Hl. simplify_eq. rewrite lookup_insert_eq. by eexists.
    + rewrite lookup_insert_ne in Hl by done. destruct (Hfd _ _ Hl) as (c & Hc & Ec).
      rewrite lookup_insert_ne by congruence. eauto.
  - intros i l. rewrite lookup_take_slot. case_decide as E.
    + intros ?; simplify_eq. rewrite lookup_insert_eq. by eexists.
    + intros Hl. destruct (Hsl _ _ Hl) as (c & Hc & Ec).
      rewrite lookup_insert_ne by congruence. eauto.
  - intros l c Hl. destruct (decide (l = next_loc s)) as [->|Hne].
    + rewrite lookup_insert_eq in Hl. simplify_eq. cbn.
      rewrite lookup_take_slot, decide_True, lookup_insert_eq by done.
      split_and!; [done..|lia|by apply new_client_wf].
    + rewrite lookup_insert_ne in Hl by done. destruct (Hh _ _ Hl) as (H1 & H2 & H3 & H4).
      rewrite lookup_take_slot. split_and!; [|rewrite lookup_insert_ne; congruence|lia|done].
      rewrite decide_False; [done|]. intros E.
      destruct (free_slot_spec (clients s)) as (_ & Hf & _). rewrite <-E in Hf.
      rewrite Hf in H1 by (by eapply lookup_lt_Some). done.
  - done.
Qed.

(** The state after a client left: a closed form of [remove_client]. *)
Definition removed_state (socket : Z) (l : loc) (c : ClientInfo D) s : HwioServer W D B :=
  let s1 := set_clients (<[ci_id c := None]> (clients s)) s in
  let s2 := set_fd_to_client (delete socket (fd_to_client s)) s1 in
  set_heap (delete l (heap s)) (next_loc s)
    (closed s ++ if 0 <=? ci_fd c then [ci_fd c] else []) s2.

Lemma remove_client_run socket l c s :
  server_wf s -> fd_to_client s !! socket = Some l -> heap s !! l = Some c ->
  remove_client socket s = (Ret tt, removed_state socket l c s).
Proof.
  intros [Hfd Hsl Hh Htx] Hl Hc. unfold remove_client. erewrite st_bind_ret by done.
  rewrite Hl. unfold get_client. erewrite st_bind_ret by (rewrite Hc; done).
  destruct (Hfd _ _ Hl) as (c' & Hc' & Ec). simplify_eq.
  rewrite Z.eqb_refl. destruct (Hh _ _ Hc) as (H1 & _).
  apply lookup_lt_Some in H1. rewrite (proj2 (Nat.ltb_lt _ _)) by done. cbn [negb].
  erewrite st_bind_ret by done. erewrite st_bind_ret by done.
  unfold delete_client, get_client. cbn. by erewrite st_bind_ret by (cbn; rewrite Hc; done).
Qed.

Lemma removed_state_wf socket l c s :
  server_wf s -> fd_to_client s !! socket = Some l -> heap s !! l = Some c ->
  server_wf (removed_state socket l c s).
Proof.
  intros [Hfd Hsl Hh Htx] Hl Hc.
  destruct (Hfd _ _ Hl) as (c' & Hc' & Ec). simplify_eq.
  destruct (Hh _ _ Hc) as (Hs & _ & _). split; cbn.
  - intros fd m. intros [Hne Hm]%lookup_delete_Some.
    destruct (Hfd _ _ Hm) as (cm & Hcm & E). exists cm. split; [|done].
    rewrite lookup_delete_ne; congruence.
  - intros i m Hm. destruct (decide (i = ci_id c)) as [->|Hne].
    + rewrite list_lookup_insert_eq in Hm by (by eapply lookup_lt_Some). done.
    + rewrite list_lookup_insert_ne in Hm by done. destruct (Hsl _ _ Hm) as (cm & Hcm & E).
      exists cm. split; [|done]. rewrite lookup_delete_ne; congruence.
  - intros m cm [Hne Hm]%lookup_delete_Some. destruct (Hh _ _ Hm) as (H1 & H2 & H3 & H4).
    split_and!; [| |done|done].
    + rewrite list_lookup_insert_ne; [done|]. intros E. rewrite E in Hs. congruence.
    + rewrite lookup_delete_ne; [done|]. congruence.
  - done.
Qed.

(** *** Counting *)

Lemma count_clients_omap cs i : count_clients cs i = (i + length (omap id cs))%nat.
Proof.
  revert i. induction cs as [|[l|] cs IH]; intros i; cbn; rewrite ?IH; cbn; lia.
Qed.

Lemma omap_id_NoDup s : server_wf s -> NoDup (omap id (clients s)).
Proof.
  intros [_ Hsl _ _]. revert Hsl. generalize (heap s) as h. intros h.
  assert (forall k cs, (forall i l, cs !! i = Some (Some l) ->
    exists c : ClientInfo D, h !! l = Some c /\ ci_id c = (k + i)%nat) -> NoDup (omap id cs)) as G.
  { intros k cs. revert k. induction cs as [|[l|] cs IH]; intros k Hcs; cbn.
    - constructor.
    - constructor.
      + intros (x & Hx & Hl)%list_elem_of_omap. cbn in Hl. subst x.
        apply list_elem_of_lookup in Hx as [i Hi].
        destruct (Hcs 0%nat l eq_refl) as (c & H1 & H2).
        destruct (Hcs (S i) l Hi) as (c' & H1' & H2'). simplify_eq. lia.
      + apply (IH (S k)). intros i l' Hi. destruct (Hcs (S i) l' Hi) as (c & H1 & H2).
        exists c. split; [done|lia].
    - apply (IH (S k)). intros i l' Hi. destruct (Hcs (S i) l' Hi) as (c & H1 & H2).
      exists c. split; [done|lia]. }
  apply (G 0%nat).
Qed.

(** Every live object is in one slot. *)
Lemma elem_of_slots s l :
  server_wf s -> l ∈ omap id (clients s) <-> is_Some (heap s !! l).
Proof.
  intros [_ Hsl Hh _]. rewrite list_elem_of_omap. split.
  - intros (x & Hx & Hl). cbn in Hl. subst x. apply list_elem_of_lookup in Hx as [i Hi].
    destruct (Hsl _ _ Hi) as (c & ? & _). eauto.
  - intros [c Hc]. destruct (Hh _ _ Hc) as (H1 & _). exists (Some l). split; [|done].
    by eapply list_elem_of_lookup_2.
Qed.

Lemma slots_size_heap s : server_wf s -> length (omap id (clients s)) = base.size (heap s).
Proof.
  intros Hw. rewrite <-(size_dom (D:=gset loc)), <-(size_list_to_set (C:=gset loc))
    by by apply omap_id_NoDup.
  f_equal. apply set_eq. intros l.
  by rewrite elem_of_list_to_set, elem_of_dom, elem_of_slots.
Qed.

Lemma fds_size_heap s : server_wf s -> base.size (fd_to_client s) = base.size (heap s).
Proof.
  intros [Hfd Hsl Hh Htx].
  rewrite <-(size_dom (D:=gset loc) (heap s)).
  assert (dom (heap s) = (list_to_set (map_to_list (fd_to_client s)).*2 : gset loc)) as ->.
  { apply set_eq. intros l. rewrite elem_of_dom, elem_of_list_to_set, list_elem_of_fmap. split.
    - intros [c Hc]. exists (ci_fd c, l). split; [done|]. apply elem_of_map_to_list.
      by destruct (Hh _ _ Hc) as (_ & ? & _).
    - intros ([fd l'] & -> & Hl). apply elem_of_map_to_list in Hl.
      destruct (Hfd _ _ Hl) as (c & ? & _). eauto. }
  rewrite size_list_to_set; [by rewrite length_fmap, length_map_to_list|].
  apply NoDup_fmap_2_strong; [|apply NoDup_map_to_list].
  intros [f1 l1] [f2 l2] H1 H2 E. cbn in E. subst.
  apply elem_of_map_to_list in H1, H2.
  destruct (Hfd _ _ H1) as (c1 & Hc1 & <-). destruct (Hfd _ _ H2) as (c2 & Hc2 & <-).
  by simplify_eq.
Qed.

Lemma get_client_cnt_run s :
  server_wf s -> get_client_cnt s = (Ret (base.size (heap s)), s).
Proof.
  intros Hw. unfold get_client_cnt. erewrite st_bind_ret by done. cbv zeta.
  rewrite count_clients_omap, fds_size_heap, slots_size_heap by done. cbn [Nat.add].
  by rewrite Nat.eqb_refl.
Qed.

Lemma new_HwioServer_wf tx bs :
  length tx = BUFFER_SIZE -> server_wf (new_HwioServer tx bs).
Proof. intros H. split; cbn; [set_solver..|]. done. Qed.

(** *** The histories of the client table *)

(** The calls that change the table, in any order: a connection on a
    descriptor not in use, a removal of any descriptor, a plugin. *)
Inductive table_step {VG : VectorGrowth} : HwioServer W D B -> HwioServer W D B -> Prop :=
  | step_add garbage socket s s' l :
      length garbage = RX_BUFFER_SIZE -> fd_to_client s !! socket = None ->
      add_new_client garbage socket s = (Ret l, s') -> table_step s s'
  | step_remove socket s s' :
      remove_client socket s = (Ret tt, s') -> table_step s s'
  | step_install name p s : table_step s (install_plugin_fn name p s).

Lemma install_plugin_fn_wf name p s : server_wf s -> server_wf (install_plugin_fn name p s).
Proof. by intros []. Qed.

Lemma remove_client_unknown socket s :
  fd_to_client s !! socket = None -> remove_client socket s = (Ret tt, s).
Proof. intros H. unfold remove_client. erewrite st_bind_ret by done. by rewrite H. Qed.

Lemma remove_client_total socket s :
  server_wf s -> exists s', remove_client socket s = (Ret tt, s') /\ server_wf s' /\
    fd_to_client s' !! socket = None.
Proof.
  intros Hw. destruct (fd_to_client s !! socket) as [l|] eqn:El.
  - destruct (wf_fd _ Hw _ _ El) as (c & Hc & _). eexists.
    split; [by apply remove_client_run|]. split; [by apply removed_state_wf|].
    apply lookup_delete_eq.
  - exists s. split_and!; [by apply remove_client_unknown|done|done].
Qed.

Lemma table_step_wf {VG : VectorGrowth} s s' : table_step s s' -> server_wf s -> server_wf s'.
Proof.
  intros [garbage socket s1 s2 l Hg Hn E|socket s1 s2 E|name p s1] Hw.
  - rewrite add_new_client_run in E by done. simplify_eq. by apply added_state_wf.
  - destruct (remove_client_total socket s1 Hw) as (s3 & E' & Hw' & _). rewrite E in E'. by simplify_eq.
  - by apply install_plugin_fn_wf.
Qed.

(** ** Properties *)

(** A connection on a descriptor not in use succeeds and gets a fresh
    object in the lowest free slot, with an empty receive buffer and no
    devices; it is polled from then on, every other client keeps its object,
    its slot and its descriptor, and the invariant of the table holds. *)
Theorem add_new_client_correct {VG : VectorGrowth} garbage socket s :
  length garbage = RX_BUFFER_SIZE -> server_wf s -> fd_to_client s !! socket = None ->
  exists l s', add_new_client garbage socket s = (Ret l, s') /\ server_wf s' /\
    heap s !! l = None /\
    heap s' = <[l := Client (free_slot (clients s) 0) socket (Rx garbage 0 0) []]> (heap s) /\
    fd_to_client s' = <[socket := l]> (fd_to_client s) /\
    (forall i, clients s' !! i =
      if decide (i = free_slot (clients s) 0) then Some (Some l) else clients s !! i) /\
    (forall j, (j < free_slot (clients s) 0)%nat -> exists m, clients s !! j = Some (Some m)) /\
    mjoin (clients s !! free_slot (clients s) 0) = None /\
    poll_fds s' = poll_fds s ++ [PollFd socket 0] /\ same_config s s'.
Proof.
  intros Hg Hw Hn. exists (next_loc s), (added_state garbage socket s).
  split; [by apply add_new_client_run|]. split; [by apply added_state_wf|]. split.
  { destruct (heap s !! next_loc s) as [c|] eqn:E; [|done].
    destruct (wf_heap _ Hw _ _ E) as (_ & _ & Hlt & _). lia. }
  destruct (free_slot_spec (clients s)) as (H1 & H2 & H3).
  split_and!; try done; [intros i; apply lookup_take_slot|].
  destruct (decide (free_slot (clients s) 0 = length (clients s))) as [E|E].
  - by rewrite E, lookup_ge_None_2 by lia.
  - by rewrite H2 by lia.
Qed.

(** A removal never fails; when the descriptor belongs to a client, its
    object is deleted, its slot freed and its descriptor closed once, and
    every other client is untouched; otherwise nothing changes. *)
Theorem remove_client_correct socket s :
  server_wf s ->
  exists s', remove_client socket s = (Ret tt, s') /\ server_wf s' /\
    fd_to_client s' = delete socket (fd_to_client s) /\ same_config s s' /\
    poll_fds s' = poll_fds s /\
    match fd_to_client s !! socket with
    | None => s' = s
    | Some l => exists c, heap s !! l = Some c /\ heap s' = delete l (heap s) /\
        clients s' = <[ci_id c := None]> (clients s) /\
        closed s' = closed s ++ if 0 <=? socket then [socket] else []
    end.
Proof.
  intros Hw. destruct (fd_to_client s !! socket) as [l|] eqn:El.
  - destruct (wf_fd _ Hw _ _ El) as (c & Hc & Efd). exists (removed_state socket l c s).
    split; [by apply remove_client_run|]. split; [by apply removed_state_wf|].
    split_and!; [done..|]. exists c. split_and!; [done..|]. cbn. by rewrite Efd.
  - exists s. split_and!; try done; [by apply remove_client_unknown|].
    by rewrite delete_id.
Qed.

(** In every state the table reaches from the construction of the
    server, [get_client_cnt] returns the number of live clients: its
    assertion on the size of [fd_to_client] never fails. *)
Theorem get_client_cnt_correct {VG : VectorGrowth} tx (bs : list B) s :
  length tx = BUFFER_SIZE -> rtc table_step (new_HwioServer tx bs) s ->
  get_client_cnt s = (Ret (base.size (heap s)), s) /\
  base.size (heap s) = base.size (fd_to_client s).
Proof.
  intros Htx Hr.
  assert (server_wf s) as Hw.
  { pose proof (new_HwioServer_wf tx bs Htx) as H0. revert H0.
    induction Hr; eauto using table_step_wf. }
  split; [by apply get_client_cnt_run|]. by rewrite fds_size_heap.
Qed.

(** ** The destructor *)

Definition delete_slot (c : option loc) : ST (HwioServer W D B) unit :=
  match c with Some l => delete_client l | None => mret tt end.

(** [~HwioServer]; the members are destroyed with the object. *)
Definition destroy_HwioServer : ST (HwioServer W D B) unit :=
  st_get ≫= fun s => st_iter delete_slot (clients s) ≫= fun _ =>
  if 0 <=? master_socket s then
    st_modify (fun s => set_heap (heap s) (next_loc s) (closed s ++ [master_socket s]) s)
  else mret tt.

Lemma delete_slots_run cs s :
  (forall i j l, cs !! i = Some (Some l) -> cs !! j = Some (Some l) -> i = j) ->
  (forall l, Some l ∈ cs -> is_Some (heap s !! l)) ->
  exists h fds, st_iter delete_slot cs s = (Ret tt, set_heap h (next_loc s) (closed s ++ fds) s) /\
    (forall l, h !! l = if decide (Some l ∈ cs) then None else heap s !! l) /\
    (forall fd, fd ∈ fds <-> 0 <= fd /\ exists l c, Some l ∈ cs /\ heap s !! l = Some c /\ ci_fd c = fd).
Proof.
  revert s. induction cs as [|o cs IH]; intros s Hnd Hlive.
  - exists (heap s), []. rewrite app_nil_r. split_and!; [by destruct s| |].
    + intros l. by rewrite decide_False by apply not_elem_of_nil.
    + intros fd. rewrite elem_of_nil. split; [done|]. by intros (_ & l & c & Hl%not_elem_of_nil & _).
  - assert (forall i j l, cs !! i = Some (Some l) -> cs !! j = Some (Some l) -> i = j) as Hnd'.
    { intros i j l Hi Hj. specialize (Hnd (S i) (S j) l Hi Hj). lia. }
    destruct o as [l|]; cbn [st_iter delete_slot].
    + assert (Some l ∉ cs) as Hl.
      { intros [j Hj]%list_elem_of_lookup. specialize (Hnd 0%nat (S j) l eq_refl Hj). lia. }
      destruct (Hlive l ltac:(left)) as [c Hc].
      set (s1 := set_heap (delete l (heap s)) (next_loc s) (closed s ++ if 0 <=? ci_fd c then [ci_fd c] else []) s).
      destruct (IH s1 Hnd') as (h & fds & Hrun & Hh & Hfds).
      { intros l' Hl'. unfold s1. cbn. rewrite lookup_delete_ne by (intros <-; done). apply Hlive. by right. }
      exists h, ((if 0 <=? ci_fd c then [ci_fd c] else []) ++ fds). split_and!.
      * erewrite st_bind_ret.
        2:{ unfold delete_client. erewrite st_bind_ret by (unfold get_client; by rewrite Hc). done. }
        fold s1. rewrite Hrun. unfold s1. cbn. by rewrite <-app_assoc.
      * intros l'. rewrite Hh. unfold s1. cbn. destruct (decide (l' = l)) as [->|Hne].
        -- rewrite lookup_delete_eq, (decide_True (P := Some l ∈ Some l :: cs)) by left. by case_decide.
        -- rewrite lookup_delete_ne by done. apply decide_ext. rewrite elem_of_cons. naive_solver.
      * intros fd. rewrite elem_of_app, Hfds. unfold s1. cbn [heap set_heap]. split.
        -- intros [Hf|(H0 & l' & c' & Hin & Hc' & Hf)].
           ++ destruct (Z.leb_spec 0 (ci_fd c)); [|by apply not_elem_of_nil in Hf].
              apply list_elem_of_singleton in Hf as ->. split; [done|]. exists l, c. split_and!; [left|done..].
           ++ split; [done|]. exists l', c'. rewrite lookup_delete_ne in Hc' by (intros <-; done).
              split_and!; [by right|done..].
        -- intros (H0 & l' & c' & [[= ->]|Hin]%elem_of_cons & Hc' & <-).
           ++ left. rewrite Hc in Hc'. injection Hc' as <-. rewrite (proj2 (Z.leb_le _ _)) by done. left.
           ++ right. split; [done|]. exists l', c'. rewrite lookup_delete_ne by (intros <-; done). done.
    + destruct (IH s Hnd') as (h & fds & Hrun & Hh & Hfds); [intros l Hl; apply Hlive; by right|].
      exists h, fds. split_and!; [by erewrite st_bind_ret by done| |].
      * intros l. rewrite Hh. apply decide_ext. rewrite elem_of_cons. naive_solver.
      * intros fd. rewrite Hfds. setoid_rewrite elem_of_cons. naive_solver.
Qed.

(** C26: the destructor of the server deletes every client object once, also
    after clients came and went, and closes exactly the descriptors of the
    connected clients and the listening socket. *)
Theorem destroy_HwioServer_correct s :
  server_wf s -> exists s' fds, destroy_HwioServer s = (Ret tt, s') /\
    heap s' = ∅ /\ closed s' = closed s ++ fds /\
    forall fd, fd ∈ fds <-> 0 <= fd /\ (fd = master_socket s \/ is_Some (fd_to_client s !! fd)).
Proof.
  intros Hw.
  destruct (delete_slots_run (clients s) s) as (h & fds & Hrun & Hh & Hfds).
  { intros i j l Hi Hj. destruct (wf_slot _ Hw _ _ Hi) as (c & Hc & <-).
    destruct (wf_slot _ Hw _ _ Hj) as (c' & Hc' & <-). congruence. }
  { intros l [i Hi]%list_elem_of_lookup. destruct (wf_slot _ Hw _ _ Hi) as (c & Hc & _). by exists c. }
  assert (h = ∅) as ->.
  { apply map_empty. intros l. rewrite Hh. case_decide as Hl; [done|].
    destruct (heap s !! l) as [c|] eqn:Hc; [|done]. destruct Hl.
    destruct (wf_heap _ Hw _ _ Hc) as (Hs & _). by eapply list_elem_of_lookup_2. }
  assert (forall fd, fd ∈ fds <-> 0 <= fd /\ is_Some (fd_to_client s !! fd)) as Hclosed.
  { intros fd. rewrite Hfds. split; intros [H0 H1]; (split; [done|]).
    - destruct H1 as (l & c & _ & Hc & <-). destruct (wf_heap _ Hw _ _ Hc) as (_ & Hf & _). by exists l.
    - destruct H1 as [l Hl]. destruct (wf_fd _ Hw _ _ Hl) as (c & Hc & <-).
      destruct (wf_heap _ Hw _ _ Hc) as (Hs & _). exists l, c. split_and!; [by eapply list_elem_of_lookup_2|done..]. }
  unfold destroy_HwioServer. erewrite (st_bind_ret st_get) by done. rewrite (st_bind_ret _ _ _ _ _ Hrun).
  destruct (Z.leb_spec 0 (master_socket s)).
  - eexists _, (fds ++ [master_socket s]). split_and!; [done|done|cbn; by rewrite app_assoc|].
    intros fd. rewrite elem_of_app, list_elem_of_singleton, Hclosed. naive_solver.
  - eexists _, fds. split_and!; [done|done|done|].
    intros fd. rewrite Hclosed. naive_solver lia.
Qed.
End server.
