(* ===== verification/ServerHandlers.v ===== *)
(** * HwioServer: the handlers of the client's messages

    Models [src/server/hwio_server_utils.cpp], [hwio_server_rw.cpp],
    [hwio_server_query.cpp], [hwio_server_remote_call.cpp] and [handle_msg] of
    [hwio_server.cpp].  A handler reads the message at [rx_buffer], a pointer
    into the receive buffer of the client, and builds its answer in
    [tx_buffer]; both are byte arrays, and an access outside them is
    [Undef OutOfBounds].  The state is the server and the state [W] of the
    devices and buses. *)

From Stdlib Require Import ZArith Lia Ascii String.
From stdpp Require Import base tactics list numbers strings gmap fin_maps.
From S2P Require Import Prelude CxxString Version CompSpec Device Bus Wire Server.

(** One iteration of the scan of [client->devices] in [device_lookup_resp]:
    whether the device was found, [dev_id] and [firts_empty]. *)
Fixpoint find_registered {D} `{!EqDecision D} (devs : list (option D)) (dev : D)
    (dev_id firts_empty : Z) : bool * Z * Z :=
  match devs with
  | [] => (false, dev_id, firts_empty)
  | cdev :: t =>
      if decide (cdev = Some dev) then (true, dev_id, firts_empty)
      else
        let fe := if bool_decide (cdev = None) && (firts_empty <? 0) then dev_id
                  else firts_empty in
        find_registered t dev (u16 (dev_id + 1)) fe
  end.

Section handlers.
Context {W D B : Type} `{!IDev W D} `{!IBus W D B}.

(** The server and the world of its devices and buses. *)
Definition Sys : Type := HwioServer W D B * W.

Implicit Types (l : loc) (header : Hwio_packet_header).

Definition on_server {A} (m : ST (HwioServer W D B) A) : ST Sys A := st_fst m.
Definition on_world {A} (m : ST W A) : ST Sys A := st_snd m.

(** ** Memory accesses *)

(** The bytes from [rx_buffer] to the end of the client's buffer. *)
Definition rx_mem : ST Sys (list byte) :=
  on_server (st_get ≫= fun s =>
    get_client (rx_buffer s).1 ≫= fun c => mret (drop (rx_buffer s).2 (rb_buffer (ci_rx c)))).

Definition rx_at (off n : nat) : ST Sys (list byte) :=
  rx_mem ≫= fun m =>
  if (off + n <=? length m)%nat then mret (slice off n m) else st_undef OutOfBounds.

(** [std::string((char * ) (rx_buffer + off))] *)
Definition rx_cstr (off : nat) : ST Sys string :=
  rx_mem ≫= fun m =>
  match cstr (drop off m) with
  | Some l => mret (of_chars l)
  | None => st_undef OutOfBounds
  end.

Definition tx_store (off : nat) (bs : list byte) : ST Sys unit :=
  on_server (st_get ≫= fun s =>
    if (off + length bs <=? length (tx_buffer s))%nat
    then st_modify (set_tx_buffer (splice off bs (tx_buffer s)))
    else st_undef OutOfBounds).

Definition tx_field (off n : nat) : ST Sys Z :=
  on_server (st_get ≫= fun s => mret (field off n (tx_buffer s))).

(** ** hwio_server_utils.cpp *)

(** [HwioServer::send_err] *)
Definition send_err (err_code : Z) (msg : string) : ST Sys PProcRes :=
  tx_store 7 (strncpy MAX_ERR_MSG_LEN msg) ≫= fun _ =>
  tx_store 3 (le_of_Z 4 err_code) ≫= fun _ =>
  tx_store 0 (le_of_Z 1 HWIO_CMD_MSG) ≫= fun _ =>
  on_server st_get ≫= fun s =>
  match cstr (drop 7 (tx_buffer s)) with
  | None => st_undef OutOfBounds
  | Some m =>
      tx_store 1 (le_of_Z 2 (4 + Z.of_nat (length m))) ≫= fun _ =>
      mret (PRes true sizeof_ErrMsg)
  end.

(** ** hwio_server_rw.cpp *)

(** [dev->read(addr, tx_buffer + off, n)]: the bytes the device stored are in
    [tx_buffer] also when it throws. *)
Definition read_to_tx (dev : D) (addr : Z) (off n : nat) : ST Sys unit := fun st =>
  let '(r, (w, bs)) := dev_read dev addr n (st.2, []) in
  match tx_store off bs (st.1, w) with
  | (Ret _, st') => (r, st')
  | (Throw e, st') => (Throw e, st')
  | (Undef x, st') => (Undef x, st')
  end.

(** [HwioServer::handle_read] *)
Definition handle_read (client : loc) (header : Hwio_packet_header) : ST Sys PProcRes :=
  if negb (body_len header =? 8) then send_err MALFORMED_PACKET "READ: size too small"
  else
    rx_at 0 sizeof_RdReq ≫= fun bs =>
    let rdReq := dec_RdReq bs in
    on_server (get_client client) ≫= fun c =>
    match client_get_dev c (rq_devId rdReq) with
    | None => send_err ACCESS_DENIED "READ: device is not allocated"
    | Some dev =>
        tx_store 0 (le_of_Z 1 HWIO_CMD_READ_RESP) ≫= fun _ =>
        tx_store 1 (le_of_Z 2 (rq_size rdReq)) ≫= fun _ =>
        st_try
          (read_to_tx dev (rq_addr rdReq) 3 (Z.to_nat (rq_size rdReq)) ≫= fun _ =>
           mret (PRes false (3 + Z.to_nat (rq_size rdReq))))
          (fun _ => send_err IO_ERROR "Can not read from device")
    end.

(** [HwioServer::handle_write]; an exception of the device is not caught. *)
Definition handle_write (client : loc) (header : Hwio_packet_header) : ST Sys PProcRes :=
  if body_len header <? Z.of_nat sizeof_WrReq then
    send_err MALFORMED_PACKET "WRITE: size too small"
  else
    rx_at 0 sizeof_RdReq ≫= fun bs =>
    let wrReq := dec_RdReq bs in
    if MAX_DEVICES <=? rq_devId wrReq then
      send_err MALFORMED_PACKET "WRITE: wrong device id"
    else
      on_server (get_client client) ≫= fun c =>
      match client_get_dev c (rq_devId wrReq) with
      | None => send_err ACCESS_DENIED "WRITE: device is not allocated"
      | Some dev =>
          rx_at 8 (Z.to_nat (rq_size wrReq)) ≫= fun data =>
          on_world (dev_write dev (rq_addr wrReq) data) ≫= fun _ => mret (PRes false 0)
      end.

(** ** hwio_server_query.cpp *)

(** [HwioServer::extractSpecFromClientQuery]: the items [k], [k + 1], ... *)
Fixpoint extractSpec (k cnt : nat) : ST Sys (list hwio_comp_spec) :=
  match cnt with
  | O => mret []
  | S n =>
      let item := (k * sizeof_Dev_query_item)%nat in
      rx_cstr (item + 128) ≫= fun vendor =>
      rx_cstr (item + 256) ≫= fun type =>
      rx_at (item + 384) sizeof_version ≫= fun v =>
      rx_cstr item ≫= fun name =>
      extractSpec (S k) n ≫= fun spec =>
      mret (name_set name (make_spec vendor type (dec_version v)) :: spec)
  end.

Definition extractSpecFromClientQuery (cnt : nat) : ST Sys (list hwio_comp_spec) :=
  extractSpec 0 cnt.

(** [for (auto & bus : buses) for (auto dev : bus->find_devices(spec)) ...] *)
Fixpoint find_on_buses (bs : list B) (spec : list hwio_comp_spec) : ST Sys (list D) :=
  match bs with
  | [] => mret []
  | b :: t =>
      on_world (find_devices b spec) ≫= fun ds =>
      find_on_buses t spec ≫= fun res => mret (ds ++ res)
  end.

(** The id of a device of the client; a new device is registered in the
    first empty place and attached. *)
Definition register_device (client : loc) (dev : D) : ST Sys Z :=
  on_server (get_client client) ≫= fun c =>
  match find_registered (ci_devices c) dev 0 (-1) with
  | (true, dev_id, _) => mret dev_id
  | (false, dev_id, firts_empty) =>
      (if firts_empty <? 0 then
         if Z.of_nat (length (ci_devices c)) =? dev_id then
           on_server (put_client client
             (Client (ci_id c) (ci_fd c) (ci_rx c) (ci_devices c ++ [Some dev]))) ≫= fun _ =>
           mret dev_id
         else st_undef AssertFailed
       else
         on_server (put_client client
           (Client (ci_id c) (ci_fd c) (ci_rx c)
              (<[Z.to_nat firts_empty := Some dev]> (ci_devices c)))) ≫= fun _ =>
         mret firts_empty) ≫= fun dev_id =>
      on_world (attach dev) ≫= fun _ => mret dev_id
  end.

(** The loop over the devices found; [i] counts the ids stored. *)
Fixpoint lookup_loop (client : loc) (result : list D) (i : nat) : ST Sys unit :=
  match result with
  | [] => mret tt
  | dev :: t =>
      register_device client dev ≫= fun dev_id =>
      tx_field 1 2 ≫= fun len =>
      tx_store 1 (le_of_Z 2 (len + 2)) ≫= fun _ =>
      tx_store (3 + 2 * i) (le_of_Z 2 dev_id) ≫= fun _ =>
      lookup_loop client t (S i)
  end.

(** [HwioServer::device_lookup_resp] *)
Definition device_lookup_resp (client : loc) (cnt : nat) : ST Sys PProcRes :=
  extractSpecFromClientQuery cnt ≫= fun spec =>
  tx_store 0 (le_of_Z 1 HWIO_CMD_QUERY_RESP) ≫= fun _ =>
  on_server st_get ≫= fun s =>
  find_on_buses (buses s) spec ≫= fun result =>
  tx_store 1 (le_of_Z 2 0) ≫= fun _ =>
  lookup_loop client result 0 ≫= fun _ =>
  tx_field 1 2 ≫= fun len =>
  mret (PRes false (3 + Z.to_nat len)).

(** ** hwio_server_remote_call.cpp *)

(** The common tail of both calls: the answer's header, the call of the
    plugin, and the size of the answer. *)
Definition call_plugin (plugin : plugin_info W D) (dev : D) (args : list byte) :
    ST Sys PProcRes :=
  tx_store 0 (le_of_Z 1 HWIO_CMD_REMOTE_CALL_RET) ≫= fun _ =>
  tx_store 1 (le_of_Z 2 (Z.of_nat (ret_size plugin))) ≫= fun _ =>
  st_try
    (on_world (fn plugin dev args) ≫= fun ret =>
     tx_store 3 ret ≫= fun _ =>
     mret (PRes false (if (ret_size plugin =? 0)%nat then 0 else 3 + ret_size plugin)))
    (fun err => send_err IO_ERROR
       ("Call of plugin function raised and exception " +:+ exn_what err)).

(** [HwioServer::handle_remote_call] *)
Definition handle_remote_call (client : loc) (header : Hwio_packet_header) :
    ST Sys PProcRes :=
  if body_len header <? Z.of_nat sizeof_RemoteCall - 1 then
    send_err MALFORMED_PACKET "REMOTE CALL: size too small"
  else
    rx_at 0 2 ≫= fun bs =>
    on_server (get_client client) ≫= fun c =>
    match client_get_dev c (field 0 2 bs) with
    | None => send_err ACCESS_DENIED "REMOTE CALL: device is not allocated"
    | Some dev =>
        rx_cstr 2 ≫= fun fn_name =>
        on_server st_get ≫= fun s =>
        match plugins s !! fn_name with
        | None => send_err MALFORMED_PACKET
            ("REMOTE CALL: RPC function " +:+ fn_name +:+ " not registered on server")
        | Some plugin =>
            rx_mem ≫= fun m => call_plugin plugin dev (drop sizeof_RemoteCall m)
        end
    end.

(** [HwioServer::handle_fast_remote_call] *)
Definition handle_fast_remote_call (client : loc) (header : Hwio_packet_header) :
    ST Sys PProcRes :=
  if body_len header <? Z.of_nat sizeof_RemoteCallFast - 1 then
    send_err MALFORMED_PACKET "REMOTE CALL: size too small"
  else
    rx_at 0 2 ≫= fun bs =>
    on_server (get_client client) ≫= fun c =>
    match client_get_dev c (field 0 2 bs) with
    | None => send_err ACCESS_DENIED "REMOTE CALL: device is not allocated"
    | Some dev =>
        rx_at 2 4 ≫= fun fbs =>
        let fn_id := field 0 4 fbs in
        on_server st_get ≫= fun s =>
        match plugins_fast s !! Z.to_nat fn_id with
        | None => send_err MALFORMED_PACKET
            ("REMOTE CALL: RPC function with id " +:+ to_dec fn_id
             +:+ " is not registered on server")
        | Some plugin =>
            rx_mem ≫= fun m => call_plugin plugin dev (drop sizeof_RemoteCallFast m)
        end
    end.

(** The loop over [plugins_fast_names]: the first index with the name. *)
Fixpoint find_fn_id (names : list string) (fn_name : string) (i : nat) : option nat :=
  match names with
  | [] => None
  | n :: t => if bool_decide (fn_name = n) then Some i else find_fn_id t fn_name (S i)
  end.

(** [HwioServer::handle_get_rpc_fn_id] *)
Definition handle_get_rpc_fn_id (client : loc) (header : Hwio_packet_header) :
    ST Sys PProcRes :=
  if body_len header <? Z.of_nat sizeof_GetRemoteCallId then
    send_err MALFORMED_PACKET "GET REMOTE CALL ID: size too small"
  else
    tx_store 0 (le_of_Z 1 HWIO_CMD_GET_REMOTE_CALL_ID_RESP) ≫= fun _ =>
    tx_store 1 (le_of_Z 2 (Z.of_nat sizeof_GetRemoteCallIdResp)) ≫= fun _ =>
    tx_store 3 (le_of_Z 1 0) ≫= fun _ =>
    tx_store 4 (le_of_Z 4 (-1)) ≫= fun _ =>
    rx_at 0 2 ≫= fun bs =>
    on_server (get_client client) ≫= fun c =>
    match client_get_dev c (field 0 2 bs) with
    | None => send_err ACCESS_DENIED "GET REMOTE CALL ID: device is not allocated"
    | Some _ =>
        rx_cstr 2 ≫= fun fn_name =>
        on_server st_get ≫= fun s =>
        (match find_fn_id (plugins_fast_names s) fn_name 0 with
         | Some i =>
             tx_store 3 (le_of_Z 1 1) ≫= fun _ => tx_store 4 (le_of_Z 4 (Z.of_nat i))
         | None => mret tt
         end) ≫= fun _ =>
        tx_field 1 2 ≫= fun len => mret (PRes false (3 + Z.to_nat len))
    end.

(** ** hwio_server.cpp *)

Definition endl : string := of_chars [byte_of_Z 10].

(** [errM->msg[MAX_NAME_LEN - 1] = 0;] through the pointer [rx_buffer]. *)
Definition rx_zero (off : nat) : ST Sys unit :=
  on_server (st_get ≫= fun s =>
    let '(l, p) := rx_buffer s in
    get_client l ≫= fun c =>
    let rx := ci_rx c in
    if (p + off <? length (rb_buffer rx))%nat then
      put_client l (Client (ci_id c) (ci_fd c)
        (Rx (splice (p + off) [NUL] (rb_buffer rx)) (curr_ptr rx) (curr_len rx)) (ci_devices c))
    else st_undef OutOfBounds).

(** [HwioServer::handle_msg] *)
Definition handle_msg (client : loc) (header : Hwio_packet_header) : ST Sys PProcRes :=
  let cmd := command header in
  if cmd =? HWIO_CMD_REMOTE_CALL_FAST then handle_fast_remote_call client header
  else if cmd =? HWIO_CMD_READ then handle_read client header
  else if cmd =? HWIO_CMD_WRITE then handle_write client header
  else if cmd =? HWIO_CMD_REMOTE_CALL then handle_remote_call client header
  else if cmd =? HWIO_CMD_PING_REQUEST then
    if negb (body_len header =? 0) then
      send_err MALFORMED_PACKET "ECHO_REQUEST: size has to be 0"
    else
      tx_store 0 (le_of_Z 1 HWIO_CMD_PING_REPLY) ≫= fun _ =>
      tx_store 1 (le_of_Z 2 0) ≫= fun _ => mret (PRes false sizeof_header)
  else if cmd =? HWIO_CMD_QUERY then
    let cnt := body_len header / Z.of_nat sizeof_Dev_query_item in
    if negb (body_len header =? cnt * Z.of_nat sizeof_Dev_query_item) then
      send_err MALFORMED_PACKET
        ("QUERY: wrong size of packet " +:+ to_dec (body_len header)
         +:+ "(not divisible by " +:+ to_dec (Z.of_nat sizeof_Dev_query_item) +:+ ")")
    else if (cnt =? 0) || (MAX_ITEMS_PER_QUERY <? cnt) then
      send_err UNKNOWN_COMMAND ("Unsupported number of queries (" +:+ to_dec cnt +:+ ")" +:+ endl)
    else device_lookup_resp client (Z.to_nat cnt)
  else if cmd =? HWIO_CMD_GET_REMOTE_CALL_ID then handle_get_rpc_fn_id client header
  else if cmd =? HWIO_CMD_BYE then mret (PRes true 0)
  else if cmd =? HWIO_CMD_MSG then
    rx_zero (4 + (MAX_NAME_LEN - 1)) ≫= fun _ => mret (PRes false 0)
  else send_err UNKNOWN_COMMAND "".
End handlers.
