(* ===== verification/ServerFrame.v ===== *)
(** * HwioServer: what processing a message may change

    The frame of [handle_msg]: on every outcome, normal or not, only the
    answer buffer and the object of the client whose message is processed
    change, and that client keeps its identity and its device ids. *)

From Stdlib Require Import ZArith Lia Ascii String.
From stdpp Require Import base tactics list numbers strings gmap fin_maps.
From S2P Require Import Prelude CxxString Version CompSpec Device Bus Wire Protocol Server ServerHandlers.

Section frame.
Context {W D B : Type} `{!IDev W D} `{!IBus W D B}.
Implicit Types (l : loc) (s : HwioServer W D B) (st : Sys (W:=W) (D:=D) (B:=B)).

(** The client keeps its id, descriptor and receive state, and every device
    id it has names the same device. *)
Record client_kept (c c' : ClientInfo D) : Prop := {
  kept_id : ci_id c' = ci_id c;
  kept_fd : ci_fd c' = ci_fd c;
  kept_ptr : curr_ptr (ci_rx c') = curr_ptr (ci_rx c);
  kept_len : curr_len (ci_rx c') = curr_len (ci_rx c);
  kept_buf : length (rb_buffer (ci_rx c')) = length (rb_buffer (ci_rx c));
  kept_dev : devs_wf (ci_devices c) ->
    devs_wf (ci_devices c') /\
    forall i d, ci_devices c !! i = Some (Some d) -> ci_devices c' !! i = Some (Some d)
}.

#[export] Instance client_kept_preorder : PreOrder client_kept.
Proof.
  split.
  - intros c. split; [done..|auto].
  - intros c1 c2 c3 [? ? ? ? ? H12] [? ? ? ? ? H23]. split; try congruence.
    intros Hw. destruct (H12 Hw) as [Hw2 H2]. destruct (H23 Hw2). auto.
Qed.

(** The members of the server no message changes. *)
Record members_kept s s' : Prop := {
  kept_rx : rx_buffer s' = rx_buffer s;
  kept_tx : length (tx_buffer s') = length (tx_buffer s);
  kept_master : master_socket s' = master_socket s;
  kept_poll : poll_fds s' = poll_fds s;
  kept_cap : poll_cap s' = poll_cap s;
  kept_removed : removed_poll_fds s' = removed_poll_fds s;
  kept_fds : fd_to_client s' = fd_to_client s;
  kept_clients : clients s' = clients s;
  kept_buses : buses s' = buses s;
  kept_plugins : plugins s' = plugins s;
  kept_fast : plugins_fast s' = plugins_fast s;
  kept_names : plugins_fast_names s' = plugins_fast_names s;
  kept_next : next_loc s' = next_loc s;
  kept_closed : closed s' = closed s
}.

#[export] Instance members_kept_preorder : PreOrder members_kept.
Proof.
  split.
  - intros s. by split.
  - intros s1 s2 s3 [] []. split; congruence.
Qed.

(** The other clients are untouched, the client [l] is kept. *)
Record client_frame l s s' : Prop := {
  cf_members : members_kept s s';
  cf_other m : m <> l -> heap s' !! m = heap s !! m;
  cf_dead : heap s !! l = None -> heap s' !! l = None;
  cf_self c : heap s !! l = Some c -> exists c', heap s' !! l = Some c' /\ client_kept c c'
}.

#[export] Instance client_frame_preorder l : PreOrder (client_frame l).
Proof.
  split.
  - intros s. split; [done..|]. intros c Hc. by exists c.
  - intros s1 s2 s3 [M1 O1 D1 S1] [M2 O2 D2 S2]. split.
    + by etransitivity.
    + intros m Hm. rewrite O2 by done. by apply O1.
    + auto.
    + intros c Hc. destruct (S1 _ Hc) as (c' & Hc' & K1). destruct (S2 _ Hc') as (c'' & Hc'' & K2).
      exists c''. split; [done|]. by etransitivity.
Qed.

(** On the whole system, for computations on the message of the client
    [rx_buffer] points to. *)
Definition sys_frame l st st' : Prop := (rx_buffer st.1).1 = l -> client_frame l st.1 st'.1.

#[export] Instance sys_frame_preorder l : PreOrder (sys_frame l).
Proof.
  split.
  - by intros st _.
  - intros s1 s2 s3 H1 H2 Hl. specialize (H1 Hl). etransitivity; [exact H1|]. apply H2.
    by rewrite (kept_rx _ _ (cf_members _ _ _ H1)).
Qed.

Lemma within_on_world {A} l (m : ST W A) : within (sys_frame l) (on_world (B:=B) m).
Proof.
  intros [s w] _. unfold on_world, st_snd. cbn. by destruct (m w) as [r w'].
Qed.

Lemma within_on_server {A} l (m : ST (HwioServer W D B) A) :
  (forall s, (rx_buffer s).1 = l -> client_frame l s (m s).2) ->
  within (sys_frame l) (on_server m).
Proof.
  intros H [s w] Hl. unfold on_server, st_fst. cbn in *. specialize (H s Hl).
  by destruct (m s) as [r s'].
Qed.

Lemma within_reader {A} l (m : ST (HwioServer W D B) A) :
  (forall s, (m s).2 = s) -> within (sys_frame l) (on_server m).
Proof. intros H. apply within_on_server. intros s _. by rewrite H. Qed.

Lemma get_client_reader m s : (get_client (W:=W) (B:=B) (D:=D) m s).2 = s.
Proof. unfold get_client. by destruct (heap s !! m). Qed.

Lemma within_get_client l m : within (sys_frame l) (on_server (get_client m)).
Proof. apply within_reader, get_client_reader. Qed.

Lemma within_server_get l : within (sys_frame l) (on_server st_get).
Proof. by apply within_reader. Qed.

Lemma within_tx_field l off n : within (sys_frame l) (tx_field off n).
Proof. by apply within_reader. Qed.

Lemma within_rx_mem l : within (sys_frame l) rx_mem.
Proof.
  apply within_reader. intros s. unfold mbind, ST_bind. cbn.
  unfold get_client. by destruct (heap s !! _).
Qed.

Lemma set_tx_frame l tx s :
  length tx = length (tx_buffer s) -> client_frame l s (set_tx_buffer tx s).
Proof. intros H. split; [by split|done..|]. intros c Hc. by exists c. Qed.

Lemma within_tx_store l off bs : within (sys_frame l) (tx_store off bs).
Proof.
  apply within_on_server. intros s _. unfold mbind, ST_bind. cbn.
  case_match; [|done]. apply set_tx_frame. cbn. apply splice_length. by apply Nat.leb_le.
Qed.

Lemma put_client_frame l c c' s :
  heap s !! l = Some c -> client_kept c c' ->
  client_frame l s (set_heap (<[l := c']> (heap s)) (next_loc s) (closed s) s).
Proof.
  intros Hc Hk. split; [by split|..]; cbn.
  - intros m Hm. by rewrite lookup_insert_ne.
  - congruence.
  - intros c0 Hc0. simplify_eq. exists c'. by rewrite lookup_insert_eq.
Qed.

Hint Resolve within_on_world within_get_client within_server_get within_tx_field
  within_rx_mem within_tx_store : frame.

Lemma within_rx_at l off n : within (sys_frame l) (rx_at off n).
Proof. unfold rx_at. frame. Qed.
Lemma within_rx_cstr l off : within (sys_frame l) (rx_cstr off).
Proof. unfold rx_cstr. frame. Qed.
Lemma within_send_err l code msg : within (sys_frame l) (send_err code msg).
Proof. unfold send_err. frame. Qed.
Hint Resolve within_rx_at within_rx_cstr within_send_err : frame.

Lemma within_read_to_tx l dev addr off n : within (sys_frame l) (read_to_tx dev addr off n).
Proof.
  intros [s w]. unfold read_to_tx. cbn.
  destruct (dev_read dev addr n (w, [])) as [r [w' bs]].
  pose proof (within_tx_store l off bs (s, w')) as H.
  by destruct (tx_store off bs (s, w')) as [[] [s' w'']].
Qed.
Hint Resolve within_read_to_tx : frame.

Lemma within_handle_read l h : within (sys_frame l) (handle_read l h).
Proof. unfold handle_read. frame. Qed.
Lemma within_handle_write l h : within (sys_frame l) (handle_write l h).
Proof. unfold handle_write. frame. Qed.

Lemma within_extractSpec l k cnt : within (sys_frame l) (extractSpec k cnt).
Proof. revert k. induction cnt as [|n IH]; intros k; cbn [extractSpec]; frame. Qed.

Lemma within_find_on_buses l bs spec : within (sys_frame l) (find_on_buses bs spec).
Proof. induction bs as [|b t IH]; cbn [find_on_buses]; frame. Qed.

Lemma within_rx_zero l off : within (sys_frame l) (rx_zero off).
Proof.
  apply within_on_server. intros s Hl. unfold mbind, ST_bind. cbn -[Nat.ltb].
  destruct (rx_buffer s) as [m p] eqn:Erx. cbn in Hl. subst m. unfold get_client.
  destruct (heap s !! l) as [c|] eqn:Hc; [|done].
  destruct ((p + off <? length (rb_buffer (ci_rx c)))%nat) eqn:E; [|done].
  apply Nat.ltb_lt in E. cbn. eapply put_client_frame; [done|]. split; try done. cbn. apply splice_length. cbn. lia.
Qed.

Lemma within_call_plugin l p dev args : within (sys_frame l) (call_plugin p dev args).
Proof. unfold call_plugin. frame. Qed.
Hint Resolve within_handle_read within_handle_write within_extractSpec within_find_on_buses
  within_rx_zero within_call_plugin : frame.

Lemma within_handle_remote_call l h : within (sys_frame l) (handle_remote_call l h).
Proof. unfold handle_remote_call. frame. Qed.
Lemma within_handle_fast_remote_call l h : within (sys_frame l) (handle_fast_remote_call l h).
Proof. unfold handle_fast_remote_call. frame. Qed.
Lemma within_handle_get_rpc_fn_id l h : within (sys_frame l) (handle_get_rpc_fn_id l h).
Proof. unfold handle_get_rpc_fn_id. frame. Qed.
Hint Resolve within_handle_remote_call within_handle_fast_remote_call
  within_handle_get_rpc_fn_id : frame.

(** ** Registration of devices *)

(** The scan on lists short enough for the ids: the place of the device when
    it is there, otherwise the length and the first empty place, if any. *)
Lemma find_registered_spec (devs : list (option D)) dev k fe fb id fe' :
  (k + length devs <= Z.to_nat 65536)%nat ->
  find_registered devs dev (u16 (Z.of_nat k)) fe = (fb, id, fe') ->
  (fb = true /\ exists i, id = Z.of_nat (k + i) /\ devs !! i = Some (Some dev)) \/
  (fb = false /\ Some dev ∉ devs /\ id = u16 (Z.of_nat (k + length devs)) /\
   (fe' = fe /\ (fe < 0 -> None ∉ devs) \/
    fe < 0 /\ exists i, fe' = Z.of_nat (k + i) /\ devs !! i = Some None /\
      forall j, (j < i)%nat -> devs !! j <> Some None)).
Proof.
  revert k fe. induction devs as [|cdev t IH]; intros k fe Hk H; cbn in H.
  { simplify_eq. right. rewrite Nat.add_0_r. split_and!; [done|set_solver|done|left; set_solver]. }
  cbn [length] in *. unfold u16 in H. rewrite (Z.mod_small (Z.of_nat k)) in H by lia.
  case_decide as Hd.
  { simplify_eq. left. split; [done|]. exists 0%nat. split; [f_equal; lia|done]. }
  replace (Z.of_nat k + 1) with (Z.of_nat (S k)) in H by lia.
  apply IH in H; [|lia].
  destruct H as [(-> & i & -> & Hi)|(-> & Hn & -> & H)].
  { left. split; [done|]. exists (S i). split; [f_equal; lia|done]. }
  right. split_and!; [done|set_solver|f_equal; lia|].
  destruct (bool_decide (cdev = None) && (fe <? 0)) eqn:E.
  - apply andb_true_iff in E as [->%bool_decide_eq_true Hfe%Z.ltb_lt]. right. split; [done|].
    exists 0%nat. destruct H as [[-> _]|[? _]]; [|lia]. split_and!; [f_equal; lia|done|lia].
  - apply andb_false_iff in E. destruct H as [[-> Hno]|(Hfe & i & -> & Hi & Hlt)].
    + left. split; [done|]. intros Hfe. rewrite not_elem_of_cons. split; [|by apply Hno].
      destruct E as [E%bool_decide_eq_false|E%Z.ltb_ge]; [congruence|lia].
    + right. split; [done|]. exists (S i). split_and!; [f_equal; lia|done|].
      intros [|j] Hj; cbn; [|apply Hlt; lia].
      destruct E as [E%bool_decide_eq_false|E%Z.ltb_ge]; [congruence|lia].
Qed.

(** Where [register_device] puts a device: its place when it has one, else the
    first empty place or the end. *)
Definition registered_at (devs : list (option D)) (dev : D) (i : nat) (devs' : list (option D)) :
    Prop :=
  (devs !! i = Some (Some dev) /\ devs' = devs) \/
  (Some dev ∉ devs /\
   ((i = length devs /\ None ∉ devs /\ devs' = devs ++ [Some dev]) \/
    (devs !! i = Some None /\ (forall j, (j < i)%nat -> devs !! j <> Some None) /\
     devs' = <[i := Some dev]> devs))).

Lemma registered_at_lookup devs dev i devs' :
  registered_at devs dev i devs' -> devs' !! i = Some (Some dev).
Proof.
  intros [[? ->]|[_ [(-> & _ & ->)|(? & _ & ->)]]]; [done| |].
  - by rewrite lookup_app_r, Nat.sub_diag by lia.
  - by rewrite list_lookup_insert_eq by (by eapply lookup_lt_Some).
Qed.

Lemma registered_at_kept devs dev i devs' j d :
  registered_at devs dev i devs' -> devs !! j = Some (Some d) -> devs' !! j = Some (Some d).
Proof.
  intros [[? ->]|[_ [(-> & _ & ->)|(? & _ & ->)]]] Hj; [done| |].
  - by apply lookup_app_l_Some.
  - rewrite list_lookup_insert_ne; congruence.
Qed.

Lemma registered_at_inv devs dev i devs' j d :
  registered_at devs dev i devs' -> devs' !! j = Some (Some d) ->
  devs !! j = Some (Some d) \/ (j = i /\ d = dev /\ Some dev ∉ devs).
Proof.
  intros [[? ->]|[Hn [(-> & _ & ->)|(? & _ & ->)]]] Hj; [by left| |].
  - apply lookup_app_Some in Hj as [Hj|[Hl Hj]]; [by left|right].
    destruct (j - length devs)%nat eqn:E; [|done]. cbn in Hj. simplify_eq. split_and!; [lia|done..].
  - destruct (decide (j = i)) as [->|Hne].
    + rewrite list_lookup_insert_eq in Hj by (by eapply lookup_lt_Some). simplify_eq. by right.
    + rewrite list_lookup_insert_ne in Hj by done. by left.
Qed.

Lemma registered_at_wf devs dev i devs' :
  registered_at devs dev i devs' -> (i < Z.to_nat 65536)%nat -> devs_wf devs -> devs_wf devs'.
Proof.
  intros Hr Hi [Hl Hnd]. split.
  - destruct Hr as [[? ->]|[_ [(-> & _ & ->)|(? & _ & ->)]]]; [done| |].
    + rewrite length_app. cbn. lia.
    + by rewrite length_insert.
  - intros j1 j2 d H1 H2.
    destruct (registered_at_inv _ _ _ _ _ _ Hr H1) as [G1|(E1 & -> & Hn)];
      (destruct (registered_at_inv _ _ _ _ _ _ Hr H2) as [G2|(E2 & E3 & Hn2)]).
    + by eapply Hnd.
    + subst d. exfalso. apply Hn2. by eapply list_elem_of_lookup_2.
    + exfalso. apply Hn. by eapply list_elem_of_lookup_2.
    + congruence.
Qed.

(** The state after a registration, before [attach]. *)
Definition with_devices l (c : ClientInfo D) (devs : list (option D)) s : HwioServer W D B :=
  set_heap (<[l := Client (ci_id c) (ci_fd c) (ci_rx c) devs]> (heap s)) (next_loc s) (closed s) s.

Lemma get_client_run l c s (w : W) :
  heap s !! l = Some c -> on_server (get_client l) (s, w) = (Ret c, (s, w)).
Proof. intros Hc. unfold on_server, st_fst, get_client. cbn. by rewrite Hc. Qed.

(** Every outcome of [register_device] on a client with a bounded device
    list. *)
Lemma register_device_cases l dev s w c :
  heap s !! l = Some c -> (length (ci_devices c) <= Z.to_nat 65536)%nat ->
  (exists i, ci_devices c !! i = Some (Some dev) /\ (i < Z.to_nat 65536)%nat /\
    register_device l dev (s, w) = (Ret (Z.of_nat i), (s, w))) \/
  (exists i devs, Some dev ∉ ci_devices c /\ registered_at (ci_devices c) dev i devs /\
    (i < Z.to_nat 65536)%nat /\
    register_device l dev (s, w) =
      (on_world (attach dev) ≫= fun _ => mret (Z.of_nat i)) (with_devices l c devs s, w)) \/
  (register_device l dev (s, w) = (Undef AssertFailed, (s, w)) /\
   Some dev ∉ ci_devices c /\ length (ci_devices c) = Z.to_nat 65536).
Proof.
  intros Hc Hl. unfold register_device.
  rewrite (st_bind_ret _ _ _ _ _ (get_client_run _ _ _ w Hc)).
  destruct (find_registered (ci_devices c) dev 0 (-1)) as [[fb id] fe] eqn:E.
  pose proof (find_registered_spec (ci_devices c) dev 0 (-1) fb id fe Hl E)
    as [(-> & i & -> & Hi)|(-> & Hn & -> & H)].
  - left. exists i. split_and!; [done| |done]. apply lookup_lt_Some in Hi. lia.
  - destruct (decide (fe < 0)) as [Hfe|Hfe].
    + assert (None ∉ ci_devices c) as Hnn by (destruct H as [[-> ?]|(_ & i & -> & _)]; [auto|lia]).
      rewrite (proj2 (Z.ltb_lt _ _)) by done. cbn [Nat.add].
      destruct (decide (length (ci_devices c) = Z.to_nat 65536)) as [E'|E'].
      { right. right. rewrite E', Z2Nat.id by lia. done. }
      right. left. exists (length (ci_devices c)), (ci_devices c ++ [Some dev]).
      split_and!; [done|right; split; [done|by left]|lia|].
      rewrite u16_small, Z.eqb_refl by lia. done.
    + destruct H as [[-> _]|(_ & i & -> & Hi & Hlt)]; [lia|]. cbn [Nat.add].
      right. left. exists i, (<[i := Some dev]> (ci_devices c)). split_and!.
      * done.
      * right. split; [done|]. by right.
      * apply lookup_lt_Some in Hi. lia.
      * rewrite (proj2 (Z.ltb_ge _ _)) by lia. by rewrite Nat2Z.id.
Qed.

Lemma registered_at_client_kept c dev i devs :
  (devs_wf (ci_devices c) -> registered_at (ci_devices c) dev i devs /\ (i < Z.to_nat 65536)%nat) ->
  client_kept c (Client (ci_id c) (ci_fd c) (ci_rx c) devs).
Proof.
  intros H. split; try done. intros Hw. destruct (H Hw) as [Hr Hi]. split.
  - by eapply registered_at_wf.
  - intros j d. by apply (registered_at_kept _ _ _ _ _ _ Hr).
Qed.

(** Lifting a frame fact about the server to a computation that goes on with
    an [attach]. *)
Lemma frame_then_attach {A} l s s' (w : W) dev (a : A) :
  client_frame l s s' ->
  client_frame l s ((on_world (attach dev) ≫= fun _ => mret a) (s', w)).2.1.
Proof.
  intros H. unfold mbind, ST_bind, on_world, st_snd. cbn.
  by destruct (attach dev w) as [[] w'].
Qed.

Lemma within_register_device l dev : within (sys_frame l) (register_device l dev).
Proof.
  intros [s w] Hl. cbn [fst] in Hl. cbn [fst].
  destruct (heap s !! l) as [c|] eqn:Hc.
  2: { unfold register_device, mbind, ST_bind, on_server, st_fst, get_client. cbn.
       by rewrite Hc. }
  destruct (decide (length (ci_devices c) <= Z.to_nat 65536)%nat) as [Hb|Hb].
  - destruct (register_device_cases l dev s w c Hc Hb)
      as [(i & _ & _ & ->)|[(i & devs & Hn & Hr & Hi & ->)|[-> _]]]; [done| |done].
    apply frame_then_attach. eapply put_client_frame; [done|].
    by apply (registered_at_client_kept _ dev i).
  - assert (forall devs, client_frame l s (with_devices l c devs s)) as Hany.
    { intros devs. eapply put_client_frame; [done|].
      apply (registered_at_client_kept _ dev 0). by intros [? _]. }
    unfold register_device. rewrite (st_bind_ret _ _ _ _ _ (get_client_run _ _ _ w Hc)).
    destruct (find_registered _ _ _ _) as [[[] id] fe]; [done|].
    destruct (fe <? 0); [|apply frame_then_attach, Hany].
    destruct (_ =? id); [apply frame_then_attach, Hany|done].
Qed.
Hint Resolve within_register_device : frame.

Lemma within_lookup_loop l devs i : within (sys_frame l) (lookup_loop l devs i).
Proof. revert i. induction devs as [|d t IH]; intros i; cbn [lookup_loop]; frame. Qed.
Hint Resolve within_lookup_loop : frame.

Lemma within_device_lookup_resp l cnt : within (sys_frame l) (device_lookup_resp l cnt).
Proof. unfold device_lookup_resp, extractSpecFromClientQuery. frame. Qed.
Hint Resolve within_device_lookup_resp : frame.

Lemma within_handle_msg l h : within (sys_frame l) (handle_msg l h).
Proof. unfold handle_msg. cbv zeta. frame. Qed.

(** The frame keeps the invariant of the table. *)
Lemma client_frame_wf l s s' : client_frame l s s' -> server_wf s -> server_wf s'.
Proof.
  intros [M O Dd S] [Hfd Hsl Hh Htx].
  assert (forall m c', heap s' !! m = Some c' -> exists c, heap s !! m = Some c /\ client_kept c c') as Back.
  { intros m c' Hm. destruct (decide (m = l)) as [->|Hne]; [|rewrite O in Hm by done; by exists c'].
    destruct (heap s !! l) as [c|] eqn:Hc; [|by rewrite Dd in Hm].
    destruct (S _ eq_refl) as (c'' & Hc'' & K). simplify_eq. eauto. }
  assert (forall m c, heap s !! m = Some c -> exists c', heap s' !! m = Some c' /\ client_kept c c') as Fwd.
  { intros m c Hm. destruct (decide (m = l)) as [->|Hne]; [eauto|].
    exists c. by rewrite O. }
  split; rewrite ?(kept_fds _ _ M), ?(kept_clients _ _ M), ?(kept_tx _ _ M); [..|done].
  - intros fd m Hm. destruct (Hfd _ _ Hm) as (c & Hc & E). destruct (Fwd _ _ Hc) as (c' & Hc' & K).
    exists c'. split; [done|]. by rewrite (kept_fd _ _ K).
  - intros i m Hm. destruct (Hsl _ _ Hm) as (c & Hc & E). destruct (Fwd _ _ Hc) as (c' & Hc' & K).
    exists c'. split; [done|]. by rewrite (kept_id _ _ K).
  - intros m c' Hm. destruct (Back _ _ Hm) as (c & Hc & K).
    destruct (Hh _ _ Hc) as (H1 & H2 & H3 & [H4 H5] & H6).
    rewrite (kept_id _ _ K), (kept_fd _ _ K), (kept_next _ _ M). split_and!; [done..|].
    split; [|by apply (kept_dev _ _ K)]. split.
    + by rewrite (kept_buf _ _ K).
    + by rewrite (kept_ptr _ _ K), (kept_len _ _ K).
Qed.

(** ** Properties *)

(** C13: processing a message of a client, whatever its bytes and whether it
    is answered, refused or ends in an exception, keeps the invariant of the
    client table and every other client; the client keeps its identity, its
    receive position and every device id it was given. *)
Theorem handle_msg_isolated l header st :
  server_wf st.1 -> (rx_buffer st.1).1 = l ->
  let st' := (handle_msg l header st).2 in
  server_wf st'.1 /\ client_frame l st.1 st'.1.
Proof.
  intros Hw Hl st'. pose proof (within_handle_msg l header st Hl) as H.
  split; [|done]. by eapply client_frame_wf.
Qed.
End frame.
