(* ===== verification/ServerSpec.v ===== *)
(** * HwioServer: the functional behaviour of the message handlers

    What each handler answers and does to the devices, on every branch, and
    the refusals: a message that names a device the client does not own never
    reaches a device, and an answer is always one well-formed frame. *)

From Stdlib Require Import ZArith Lia Ascii String.
From stdpp Require Import base tactics list numbers strings gmap fin_maps.
From S2P Require Import Prelude CxxString Version CompSpec Device Bus Wire Protocol Server ServerHandlers.
From S2P Require Import ServerFrame.

(** A literal text shorter than the error message. *)
Ltac short_msg := apply Nat.ltb_lt; vm_compute; reflexivity.

Lemma short_msg_around (a b c : string) :
  (String.length a + String.length b + String.length c < 1024)%nat ->
  (length (upto_nul (chars (a +:+ b +:+ c))) < MAX_ERR_MSG_LEN)%nat.
Proof.
  intros H. eapply Nat.le_lt_trans; [apply upto_nul_length|].
  rewrite !chars_app, !length_app, !chars_length. unfold MAX_ERR_MSG_LEN. lia.
Qed.

Section spec.
Context {W D B : Type} `{!IDev W D} `{!IBus W D B}.
Implicit Types (l : loc) (s : HwioServer W D B) (w : W) (st : Sys (W:=W) (D:=D) (B:=B)).

(** The message at [rx_buffer] starts with the bytes [body]. *)
Definition rx_holds s (body : list byte) : Prop :=
  exists c rest, heap s !! (rx_buffer s).1 = Some c /\
    drop (rx_buffer s).2 (rb_buffer (ci_rx c)) = body ++ rest.

(** The request is refused: the error frame is sent, the client will be
    disconnected, and only [tx_buffer] changed. *)
Definition refused (code : Z) (msg : string) st (res : outcome PProcRes * Sys (W:=W) (D:=D) (B:=B)) : Prop :=
  res.1 = Ret (PRes true sizeof_ErrMsg) /\
  exists tx, res.2 = (set_tx_buffer tx st.1, st.2) /\ length tx = BUFFER_SIZE /\
    error_frame code msg `prefix_of` tx.

(** The request is answered with one frame; the rest of the state is [st]. *)
Definition answered (cmd : Z) (body : list byte) st (res : outcome PProcRes * Sys) : Prop :=
  res.1 = Ret (PRes false (3 + length body)) /\
  exists tx, res.2 = (set_tx_buffer tx st.1, st.2) /\ length tx = BUFFER_SIZE /\
    frame cmd body `prefix_of` tx.

Lemma server_get_run st : on_server st_get st = (Ret st.1, st).
Proof. by destruct st. Qed.

Lemma tx_store_run off bs s w :
  (off + length bs <= length (tx_buffer s))%nat ->
  tx_store off bs (s, w) = (Ret tt, (set_tx_buffer (splice off bs (tx_buffer s)) s, w)).
Proof.
  intros H. unfold tx_store, on_server, st_fst. cbn [fst snd].
  rewrite (st_bind_ret st_get _ s s s) by done. by rewrite (proj2 (Nat.leb_le _ _)).
Qed.

Lemma tx_store_oob off bs s w :
  (length (tx_buffer s) < off + length bs)%nat ->
  tx_store off bs (s, w) = (Undef OutOfBounds, (s, w)).
Proof.
  intros H. unfold tx_store, on_server, st_fst. cbn [fst snd].
  rewrite (st_bind_ret st_get _ s s s) by done. by rewrite (proj2 (Nat.leb_gt _ _)).
Qed.

(** The header of an answer. *)
Lemma header_stores cmd n {A} (k : unit -> ST (Sys (W:=W) (D:=D) (B:=B)) A) s w :
  length (tx_buffer s) = BUFFER_SIZE ->
  (tx_store 0 (le_of_Z 1 cmd) ≫= fun _ => tx_store 1 (le_of_Z 2 n) ≫= k) (s, w) =
  k tt (set_tx_buffer (enc_header (Header cmd n) ++ drop 3 (tx_buffer s)) s, w).
Proof.
  intros Htx. unfold BUFFER_SIZE in Htx.
  erewrite st_bind_ret by (apply tx_store_run; cbn; lia).
  erewrite st_bind_ret
    by (apply tx_store_run; cbn [tx_buffer set_tx_buffer]; rewrite splice_length; cbn; lia).
  cbn [tx_buffer set_tx_buffer]. rewrite splice_0, splice_prefix by done.
  rewrite !le_of_Z_length, drop_drop. done.
Qed.

Lemma send_err_refused code msg st :
  length (tx_buffer st.1) = BUFFER_SIZE ->
  (length (upto_nul (chars msg)) < MAX_ERR_MSG_LEN)%nat ->
  refused code msg st (send_err code msg st).
Proof.
  destruct st as [s w]. cbn [fst snd]. intros Htx Hm. unfold BUFFER_SIZE in Htx.
  destruct (split_at 1 (tx_buffer s)) as (a & r & E1 & Ha); [lia|].
  rewrite E1, length_app in Htx.
  destruct (split_at 2 r) as (b & r' & -> & Hb); [lia|]. rewrite length_app in Htx.
  destruct (split_at 4 r') as (c & r & -> & Hc); [lia|]. rewrite length_app in Htx.
  destruct (split_at 1024 r) as (d & e & -> & Hd); [lia|]. rewrite length_app in Htx.
  set (M := strncpy MAX_ERR_MSG_LEN msg). assert (length M = 1024%nat) as HM by apply strncpy_length.
  pose proof (cstr_strncpy_short MAX_ERR_MSG_LEN msg e Hm) as Hcs. fold M in Hcs.
  assert (error_frame code msg =
    enc_header (Header HWIO_CMD_MSG (4 + Z.of_nat (length (upto_nul (chars msg))))) ++
    le_of_Z 4 code ++ M) as EF by done.
  assert (forall tx o bs, length tx = 2048%nat -> (o + length bs <= 2048)%nat ->
    tx_store o bs (set_tx_buffer tx s, w) =
    (Ret tt, (set_tx_buffer (splice o bs tx) s, w))) as St.
  { intros tx o bs Ht Ho. rewrite tx_store_run; [done|]. cbn. lia. }
  replace s with (set_tx_buffer (tx_buffer s) s) at 2 by by destruct s.
  unfold send_err. rewrite E1. fold M. clearbody M.
  erewrite st_bind_ret by (apply St; rewrite ?length_app; lia).
  rewrite !(app_assoc a), (app_assoc (a ++ b)), splice_mid by (rewrite ?length_app; lia).
  rewrite <-!app_assoc.
  erewrite st_bind_ret by (apply St; rewrite ?length_app; cbn; lia).
  rewrite (app_assoc a), splice_mid by (rewrite ?length_app; done || lia).
  rewrite <-!app_assoc.
  erewrite st_bind_ret by (apply St; rewrite ?length_app, ?le_of_Z_length; cbn; lia).
  rewrite splice_0, le_of_Z_length, drop_app_length' by done.
  rewrite (st_bind_ret (on_server st_get) _ _ _ _ (server_get_run _)).
  cbn [fst snd tx_buffer set_tx_buffer].
  assert (drop 7 (le_of_Z 1 HWIO_CMD_MSG ++ b ++ le_of_Z 4 code ++ M ++ e) = M ++ e) as ->.
  { rewrite !app_assoc, <-(app_assoc _ M). apply drop_app_length'.
    rewrite !length_app, !le_of_Z_length. lia. }
  rewrite Hcs.
  erewrite st_bind_ret by (apply St; rewrite ?length_app, ?le_of_Z_length; cbn; lia).
  rewrite splice_mid by done. split; [done|]. eexists. split; [done|]. split.
  - rewrite !length_app, !le_of_Z_length. unfold BUFFER_SIZE. lia.
  - exists e. rewrite EF. unfold enc_header. cbn [command body_len]. by rewrite <-!app_assoc.
Qed.

(** ** Reading the message *)

Lemma rx_mem_run s w body c rest :
  heap s !! (rx_buffer s).1 = Some c ->
  drop (rx_buffer s).2 (rb_buffer (ci_rx c)) = body ++ rest ->
  rx_mem (s, w) = (Ret (body ++ rest), (s, w)).
Proof.
  intros Hc Hr. unfold rx_mem, on_server, st_fst. cbn [fst snd].
  rewrite (st_bind_ret st_get _ s s s) by done. unfold get_client.
  erewrite st_bind_ret by (rewrite Hc; done). by rewrite Hr.
Qed.

Lemma rx_at_run s w body off n :
  rx_holds s body -> (off + n <= length body)%nat ->
  rx_at off n (s, w) = (Ret (slice off n body), (s, w)).
Proof.
  intros (c & rest & Hc & Hr) Hn. unfold rx_at.
  rewrite (st_bind_ret _ _ _ _ _ (rx_mem_run s w body c rest Hc Hr)).
  rewrite (proj2 (Nat.leb_le _ _)) by (rewrite length_app; lia). by rewrite slice_app_l.
Qed.

Lemma rx_cstr_run s w body off str :
  rx_holds s body -> (off <= length body)%nat -> cstr (drop off body) = Some str ->
  rx_cstr off (s, w) = (Ret (of_chars str), (s, w)).
Proof.
  intros (c & rest & Hc & Hr) Hn Hs. unfold rx_cstr.
  rewrite (st_bind_ret _ _ _ _ _ (rx_mem_run s w body c rest Hc Hr)).
  rewrite drop_app_le by done.
  apply cstr_Some_inv in Hs as [Hnn (r & ->)]. rewrite <-app_assoc. cbn [app].
  by rewrite cstr_app_nul.
Qed.

Lemma rx_holds_tx s tx body : rx_holds (set_tx_buffer tx s) body <-> rx_holds s body.
Proof. done. Qed.

Lemma rx_holds_app s a b : rx_holds s (a ++ b) -> rx_holds s a.
Proof. intros (c & rest & Hc & Hr). exists c, (b ++ rest). by rewrite app_assoc. Qed.

Lemma rx_RdReq_run s w req data :
  rx_holds s (enc_RdReq req ++ data) -> RdReq_wf req ->
  exists bs, rx_at 0 sizeof_RdReq (s, w) = (Ret bs, (s, w)) /\ dec_RdReq bs = req.
Proof.
  intros H Hw. exists (enc_RdReq req). split.
  - unfold sizeof_RdReq. rewrite (rx_at_run s w (enc_RdReq req) 0 8); [done|by eapply rx_holds_app|done].
  - rewrite <-(app_nil_r (enc_RdReq req)). by apply dec_enc_RdReq.
Qed.

(** ** Read requests *)

Lemma enc_header_mod cmd n : enc_header (Header cmd n) = enc_header (Header cmd (u16 n)).
Proof.
  unfold enc_header. cbn [command body_len]. f_equal. symmetry. apply (le_of_Z_mod 2).
Qed.

(** The bytes of a read reach the answer, or overflow it. *)
Lemma read_to_tx_run dev addr n s w r w' bs :
  dev_read dev addr n (w, []) = (r, (w', bs)) ->
  read_to_tx dev addr 3 n (s, w) =
  if (3 + length bs <=? length (tx_buffer s))%nat
  then (r, (set_tx_buffer (splice 3 bs (tx_buffer s)) s, w'))
  else (Undef OutOfBounds, (s, w')).
Proof.
  intros H. unfold read_to_tx. cbn [fst snd]. rewrite H.
  destruct (Nat.leb_spec (3 + length bs) (length (tx_buffer s))).
  - by rewrite tx_store_run.
  - by rewrite tx_store_oob.
Qed.

(** A read request of the wrong size or for a device the client does not
    own is refused without touching a device.  Otherwise the device is read:
    the bytes it gives are the body of the answer; its exception is reported
    as [IO_ERROR]; and more bytes than [tx_buffer] can take (a request for
    more than 2045) are written outside of it. *)
Lemma handle_read_correct l header c s w :
  length (tx_buffer s) = BUFFER_SIZE -> heap s !! l = Some c ->
  let res := handle_read l header (s, w) in
  (body_len header <> 8 -> refused MALFORMED_PACKET "READ: size too small" (s, w) res) /\
  forall req, body_len header = 8 -> rx_holds s (enc_RdReq req) -> RdReq_wf req ->
  match client_get_dev c (rq_devId req) with
  | None => refused ACCESS_DENIED "READ: device is not allocated" (s, w) res
  | Some dev =>
      forall r w' bs,
      dev_read dev (rq_addr req) (Z.to_nat (rq_size req)) (w, []) = (r, (w', bs)) ->
      if (2045 <? length bs)%nat then res.1 = Undef OutOfBounds
      else match r with
      | Ret _ => Z.of_nat (length bs) = rq_size req -> answered HWIO_CMD_READ_RESP bs (s, w') res
      | Throw e => is_runtime_error e = true ->
          refused IO_ERROR "Can not read from device" (s, w') res
      | Undef f => res.1 = Undef f
      end
  end.
Proof.
  intros Htx Hc res. split.
  { intros Hne. unfold res, handle_read. rewrite (proj2 (Z.eqb_neq _ _)) by done.
    apply send_err_refused; [done|short_msg]. }
  intros req Hlen Hrx Hw. unfold res, handle_read. rewrite Hlen. cbn [negb Z.eqb Pos.eqb].
  destruct (rx_RdReq_run s w req []) as (bs0 & Hrun & Hdec); [by rewrite app_nil_r|done|].
  rewrite (st_bind_ret _ _ _ _ _ Hrun). cbv zeta. rewrite Hdec.
  rewrite (st_bind_ret _ _ _ _ _ (get_client_run _ _ _ w Hc)).
  destruct (client_get_dev c (rq_devId req)) as [dev|].
  2: { apply send_err_refused; [done|short_msg]. }
  intros r w' bs Hread. rewrite header_stores by done. unfold BUFFER_SIZE in Htx.
  match goal with |- context [st_try _ _ (?s1, _)] =>
    pose proof (read_to_tx_run _ _ _ s1 w _ _ _ Hread) as Hrd; set (st1 := s1) in * end.
  unfold st1 in Hrd at 2 3. cbn [tx_buffer set_tx_buffer] in Hrd.
  rewrite length_app, enc_header_length, length_drop, Htx in Hrd.
  change (3 + (2048 - 3))%nat with 2048%nat in Hrd. rewrite splice_prefix, drop_drop in Hrd by done.
  destruct (Nat.ltb_spec 2045 (length bs)) as [Hbig|Hfit].
  { rewrite (proj2 (Nat.leb_gt _ _)) in Hrd by lia.
    erewrite st_try_undef by (by apply st_bind_undef). done. }
  rewrite (proj2 (Nat.leb_le _ _)) in Hrd by lia.
  assert (length (enc_header (Header HWIO_CMD_READ_RESP (rq_size req)) ++
    bs ++ drop (3 + length bs) (tx_buffer s)) = BUFFER_SIZE) as Hl1.
  { rewrite !length_app, length_drop, enc_header_length. unfold BUFFER_SIZE. lia. }
  destruct r as [[]|e|f].
  - intros Hsz. erewrite st_try_ret by (erewrite st_bind_ret by exact Hrd; done).
    split; [cbn [fst]; do 2 f_equal; lia|]. eexists. split; [done|]. split; [exact Hl1|].
    unfold frame. rewrite Hsz, app_assoc. by eexists.
  - intros He. erewrite st_try_throw by (done || by apply st_bind_throw).
    match type of Hrd with _ = (_, ?st) =>
      destruct (send_err_refused IO_ERROR "Can not read from device" st)
        as (H1 & tx & H2 & H3 & H4) end; [exact Hl1|short_msg|].
    split; [exact H1|]. exists tx. split_and!; [exact H2|done..].
  - erewrite st_try_undef by (by apply st_bind_undef). done.
Qed.

(** ** Write requests *)

Lemma dev_write_run dev addr data s w :
  (on_world (dev_write dev addr data) ≫= fun _ => mret (PRes false 0)) (s, w) =
  let '(r, w') := dev_write dev addr data w in
  ((fun _ => PRes false 0) <$> r, (s, w')).
Proof.
  unfold mbind, ST_bind, on_world, st_snd. cbn [fst snd].
  by destruct (dev_write dev addr data w) as [[] w'].
Qed.

(** A write request that is too short, names a device id of 256 or more
    or a device the client does not own is refused without touching a device.
    Otherwise the [size] bytes that follow the request are written, however
    long the message says it is; there is no answer, and an exception of the
    device leaves the handler. *)
Lemma handle_write_correct l header c s w :
  length (tx_buffer s) = BUFFER_SIZE -> heap s !! l = Some c ->
  let res := handle_write l header (s, w) in
  (body_len header < 8 -> refused MALFORMED_PACKET "WRITE: size too small" (s, w) res) /\
  forall req data, 8 <= body_len header -> rx_holds s (enc_RdReq req ++ data) ->
  RdReq_wf req -> Z.of_nat (length data) = rq_size req ->
  if 256 <=? rq_devId req then
    refused MALFORMED_PACKET "WRITE: wrong device id" (s, w) res
  else match client_get_dev c (rq_devId req) with
  | None => refused ACCESS_DENIED "WRITE: device is not allocated" (s, w) res
  | Some dev => res =
      let '(r, w') := dev_write dev (rq_addr req) data w in
      ((fun _ => PRes false 0) <$> r, (s, w'))
  end.
Proof.
  intros Htx Hc res. unfold res, handle_write. change (Z.of_nat sizeof_WrReq) with 8. split.
  { intros Hlt. rewrite (proj2 (Z.ltb_lt _ _)) by done. by apply send_err_refused; [|short_msg]. }
  intros req data Hlen Hrx Hw Hsz. rewrite (proj2 (Z.ltb_ge _ _)) by done.
  destruct (rx_RdReq_run s w req data Hrx Hw) as (bs0 & Hrun & Hdec).
  rewrite (st_bind_ret _ _ _ _ _ Hrun). cbv zeta. rewrite Hdec. unfold MAX_DEVICES.
  destruct (256 <=? rq_devId req); [by apply send_err_refused; [|short_msg]|].
  rewrite (st_bind_ret _ _ _ _ _ (get_client_run _ _ _ w Hc)).
  destruct (client_get_dev c (rq_devId req)) as [dev|];
    [|by apply send_err_refused; [|short_msg]].
  erewrite st_bind_ret.
  2: { apply (rx_at_run s w _ 8 (Z.to_nat (rq_size req)) Hrx).
       rewrite length_app, enc_RdReq_length. lia. }
  rewrite slice_app_r by (rewrite enc_RdReq_length; lia). rewrite enc_RdReq_length.
  replace (Z.to_nat (rq_size req)) with (length data) by lia.
  rewrite Nat.sub_diag, slice_all. apply dev_write_run.
Qed.

(** ** Remote calls *)

(** The bytes from offset [n] of the message to the end of the buffer. *)
Definition rx_tail s (n : nat) : list byte :=
  match heap s !! (rx_buffer s).1 with
  | Some c => drop n (drop (rx_buffer s).2 (rb_buffer (ci_rx c)))
  | None => []
  end.

Lemma rx_mem_tail s w : is_Some (heap s !! (rx_buffer s).1) -> rx_mem (s, w) = (Ret (rx_tail s 0), (s, w)).
Proof.
  intros [c Hc]. rewrite (rx_mem_run s w [] c _ Hc eq_refl). unfold rx_tail. by rewrite Hc.
Qed.

Lemma drop_rx_tail s n : drop n (rx_tail s 0) = rx_tail s n.
Proof. unfold rx_tail. destruct (heap s !! _); [done|by rewrite drop_nil]. Qed.

Lemma rx_holds_live s body : rx_holds s body -> is_Some (heap s !! (rx_buffer s).1).
Proof. intros (c & _ & Hc & _). by exists c. Qed.

(** The call of a plugin and its answer: the bytes it returned in one frame,
    nothing for a plugin without a result, [IO_ERROR] for an exception. *)
Definition plugin_called (p : plugin_info W D) (dev : D) (args : list byte) s w
    (res : outcome PProcRes * Sys) : Prop :=
  match fn p dev args w with
  | (Ret ret, w') => length ret = ret_size p ->
      if (2045 <? ret_size p)%nat then res.1 = Undef OutOfBounds
      else if (ret_size p =? 0)%nat
      then res.1 = Ret (PRes false 0) /\ exists tx, length tx = BUFFER_SIZE /\
        res.2 = (set_tx_buffer tx s, w')
      else answered HWIO_CMD_REMOTE_CALL_RET ret (s, w') res
  | (Throw e, w') =>
      let msg := ("Call of plugin function raised and exception " +:+ exn_what e)%string in
      is_runtime_error e = true -> (length (upto_nul (chars msg)) < MAX_ERR_MSG_LEN)%nat ->
      refused IO_ERROR msg (s, w') res
  | (Undef f, w') => res.1 = Undef f
  end.

Lemma on_world_run {A} (m : ST W A) s w r w' :
  m w = (r, w') -> on_world m (s, w) = (r, (s, w')).
Proof. intros H. unfold on_world, st_snd. cbn. by rewrite H. Qed.

Lemma call_plugin_called p dev args s w :
  length (tx_buffer s) = BUFFER_SIZE ->
  plugin_called p dev args s w (call_plugin p dev args (s, w)).
Proof.
  intros Htx. unfold plugin_called, call_plugin. rewrite header_stores by done.
  match goal with |- context [st_try _ _ (?s', _)] => set (s1 := s') end.
  assert (length (tx_buffer s1) = 2048%nat) as Hl1.
  { unfold s1. cbn [tx_buffer set_tx_buffer]. rewrite length_app, length_drop, enc_header_length, Htx.
    done. }
  destruct (fn p dev args w) as [[ret|e|f] w'] eqn:Efn.
  - intros Hret. unfold st_try. rewrite (st_bind_ret _ _ _ _ _ (on_world_run _ s1 w _ _ Efn)).
    destruct (Nat.ltb_spec 2045 (ret_size p)) as [Hbig|Hfit].
    { erewrite st_bind_undef by (apply tx_store_oob; lia). done. }
    erewrite st_bind_ret by (apply tx_store_run; lia).
    assert (length (splice 3 ret (tx_buffer s1)) = BUFFER_SIZE) as Hl2
      by (rewrite splice_length; unfold BUFFER_SIZE; lia).
    destruct (Nat.eqb_spec (ret_size p) 0) as [H0|H0].
    + split; [done|]. by exists (splice 3 ret (tx_buffer s1)).
    + rewrite <-Hret. split; [done|]. exists (splice 3 ret (tx_buffer s1)). split; [done|].
      split; [done|]. unfold s1. cbn [tx_buffer set_tx_buffer]. rewrite <-Hret.
      rewrite splice_prefix by done. unfold frame. rewrite app_assoc. by eexists.
  - intros He Hm. set (msg := ("Call of plugin function raised and exception " +:+ exn_what e)%string) in *.
    erewrite st_try_throw by (done || by apply st_bind_throw, on_world_run).
    destruct (send_err_refused IO_ERROR msg (s1, w')) as (H1 & tx & H2 & H3 & H4); [done|done|].
    split; [exact H1|]. exists tx. split_and!; [exact H2|done..].
  - erewrite st_try_undef by (by apply st_bind_undef, on_world_run). done.
Qed.

Lemma enc_RemoteCall_dev d f rest :
  0 <= d < 65536 -> field 0 2 (slice 0 2 (enc_RemoteCall d f ++ rest)) = d.
Proof.
  intros Hd. unfold field, enc_RemoteCall. rewrite slice_slice by lia.
  change (slice (0 + 0) 2 _) with (le_of_Z 2 d). by apply (le_to_Z_small 2).
Qed.

Lemma rx_fn_name_run s w d name :
  rx_holds s (enc_RemoteCall d name) -> no_nul name -> (String.length name < MAX_NAME_LEN)%nat ->
  rx_cstr 2 (s, w) = (Ret name, (s, w)).
Proof.
  intros Hrx Hn Hnl. rewrite <-(of_chars_chars name).
  rewrite (rx_cstr_run s w (enc_RemoteCall d name) 2 (chars name)); [|done| |].
  - by rewrite of_chars_chars.
  - rewrite enc_RemoteCall_length. lia.
  - change (drop 2 (enc_RemoteCall d name)) with (strncpy MAX_NAME_LEN name).
    rewrite <-(app_nil_r (strncpy _ _)). by apply cstr_strncpy.
Qed.

(** A remote call by name that is too short, or names a device the
    client does not own or a function that is not registered, is refused
    without touching a device; otherwise the plugin registered under the name
    is called on the device with the bytes after the name. *)
Lemma handle_remote_call_correct l header c s w :
  length (tx_buffer s) = BUFFER_SIZE -> heap s !! l = Some c ->
  let res := handle_remote_call l header (s, w) in
  (body_len header < 129 -> refused MALFORMED_PACKET "REMOTE CALL: size too small" (s, w) res) /\
  forall dev_id name, 129 <= body_len header -> rx_holds s (enc_RemoteCall dev_id name) ->
  0 <= dev_id < 65536 -> no_nul name -> (String.length name < MAX_NAME_LEN)%nat ->
  match client_get_dev c dev_id with
  | None => refused ACCESS_DENIED "REMOTE CALL: device is not allocated" (s, w) res
  | Some dev =>
      match plugins s !! name with
      | None => refused MALFORMED_PACKET
          ("REMOTE CALL: RPC function " +:+ name +:+ " not registered on server") (s, w) res
      | Some p => plugin_called p dev (rx_tail s sizeof_RemoteCall) s w res
      end
  end.
Proof.
  intros Htx Hc res. unfold res, handle_remote_call.
  change (Z.of_nat sizeof_RemoteCall - 1) with 129. split.
  { intros Hlt. rewrite (proj2 (Z.ltb_lt _ _)) by done. by apply send_err_refused; [|short_msg]. }
  intros dev_id name Hlen Hrx Hd Hn Hnl. rewrite (proj2 (Z.ltb_ge _ _)) by done.
  erewrite st_bind_ret by (apply (rx_at_run s w _ 0 2 Hrx); rewrite enc_RemoteCall_length; lia).
  rewrite (st_bind_ret _ _ _ _ _ (get_client_run _ _ _ w Hc)).
  pose proof (enc_RemoteCall_dev dev_id name [] Hd) as Hdev. rewrite app_nil_r in Hdev.
  rewrite Hdev. destruct (client_get_dev c dev_id) as [dev|];
    [|by apply send_err_refused; [|short_msg]].
  rewrite (st_bind_ret _ _ _ _ _ (rx_fn_name_run _ w _ _ Hrx Hn Hnl)).
  rewrite (st_bind_ret _ _ _ _ _ (server_get_run _)). cbn [fst].
  destruct (plugins s !! name) as [p|].
  - rewrite (st_bind_ret _ _ _ _ _ (rx_mem_tail s w (rx_holds_live _ _ Hrx))), drop_rx_tail.
    by apply call_plugin_called.
  - apply send_err_refused; [done|]. apply short_msg_around. cbn. unfold MAX_NAME_LEN in Hnl. lia.
Qed.

Lemma to_dec_u32_length n : 0 <= n < 2 ^ 32 -> (String.length (to_dec n) <= 20)%nat.
Proof.
  intros Hn. rewrite <-chars_length. unfold to_dec.
  rewrite (proj2 (Z.ltb_ge _ _)) by lia. rewrite chars_of_chars.
  assert (forall k m acc, (length (dec_digits k m acc) <= k + length acc)%nat) as G.
  { induction k as [|k IH]; intros m acc; cbn [dec_digits]; [lia|].
    destruct (m <? 10); [cbn [length]; lia|].
    etransitivity; [apply IH|]. cbn [length]. lia. }
  etransitivity; [apply G|]. cbn [length]. lia.
Qed.

(** A remote call by number, on every branch, as [handle_remote_call]:
    the plugin is the one installed at the position [fn_id]. *)
Lemma handle_fast_remote_call_correct l header c s w :
  length (tx_buffer s) = BUFFER_SIZE -> heap s !! l = Some c ->
  let res := handle_fast_remote_call l header (s, w) in
  (body_len header < 5 -> refused MALFORMED_PACKET "REMOTE CALL: size too small" (s, w) res) /\
  forall dev_id fn_id, 5 <= body_len header -> rx_holds s (enc_RemoteCallFast dev_id fn_id) ->
  0 <= dev_id < 65536 -> 0 <= fn_id < 2 ^ 32 ->
  match client_get_dev c dev_id with
  | None => refused ACCESS_DENIED "REMOTE CALL: device is not allocated" (s, w) res
  | Some dev =>
      match plugins_fast s !! Z.to_nat fn_id with
      | None => refused MALFORMED_PACKET
          ("REMOTE CALL: RPC function with id " +:+ to_dec fn_id
           +:+ " is not registered on server") (s, w) res
      | Some p => plugin_called p dev (rx_tail s sizeof_RemoteCallFast) s w res
      end
  end.
Proof.
  intros Htx Hc res. unfold res, handle_fast_remote_call.
  change (Z.of_nat sizeof_RemoteCallFast - 1) with 5. split.
  { intros Hlt. rewrite (proj2 (Z.ltb_lt _ _)) by done. by apply send_err_refused; [|short_msg]. }
  intros dev_id fn_id Hlen Hrx Hd Hf. rewrite (proj2 (Z.ltb_ge _ _)) by done.
  erewrite st_bind_ret by (apply (rx_at_run s w _ 0 2 Hrx); cbn; lia).
  rewrite (st_bind_ret _ _ _ _ _ (get_client_run _ _ _ w Hc)).
  change (field 0 2 (slice 0 2 (enc_RemoteCallFast dev_id fn_id))) with (le_to_Z (le_of_Z 2 dev_id)).
  rewrite (le_to_Z_small 2) by done.
  destruct (client_get_dev c dev_id) as [dev|]; [|by apply send_err_refused; [|short_msg]].
  erewrite st_bind_ret by (apply (rx_at_run s w _ 2 4 Hrx); cbn; lia).
  change (field 0 4 (slice 2 4 (enc_RemoteCallFast dev_id fn_id))) with (le_to_Z (le_of_Z 4 fn_id)).
  rewrite (le_to_Z_small 4) by done. cbv zeta.
  rewrite (st_bind_ret _ _ _ _ _ (server_get_run _)). cbn [fst].
  destruct (plugins_fast s !! Z.to_nat fn_id) as [p|].
  - rewrite (st_bind_ret _ _ _ _ _ (rx_mem_tail s w (rx_holds_live _ _ Hrx))), drop_rx_tail.
    by apply call_plugin_called.
  - apply send_err_refused; [done|]. apply short_msg_around.
    pose proof (to_dec_u32_length fn_id Hf). cbn [String.length]. lia.
Qed.

(** ** Ids of remote functions *)

Lemma find_fn_id_spec names name k :
  match find_fn_id names name k with
  | Some i => (k <= i)%nat /\ names !! (i - k)%nat = Some name /\
      forall j, (j < i - k)%nat -> names !! j <> Some name
  | None => name ∉ names
  end.
Proof.
  revert k. induction names as [|n t IH]; intros k; cbn [find_fn_id]; [set_solver|].
  case_bool_decide as E.
  - subst n. rewrite Nat.sub_diag. split_and!; [done|done|lia].
  - specialize (IH (S k)). destruct (find_fn_id t name (S k)) as [i|].
    + destruct IH as (H1 & H2 & H3). split_and!; [lia| |].
      * by replace (i - k)%nat with (S (i - S k)) by lia.
      * intros [|j] Hj; cbn; [congruence|]. apply H3. lia.
    + by rewrite not_elem_of_cons.
Qed.

(** The answer's buffer: a header of three bytes, the flag, the id, the rest. *)
Lemma found_stores hd x y x' y' rest s w {A} (k : unit -> ST (Sys (W:=W) (D:=D) (B:=B)) A) :
  length hd = 3%nat -> length x = 1%nat -> length y = 4%nat -> length x' = 1%nat ->
  length y' = 4%nat ->
  (tx_store 3 x' ≫= fun _ => tx_store 4 y' ≫= k) (set_tx_buffer (hd ++ x ++ y ++ rest) s, w) =
  k tt (set_tx_buffer (hd ++ x' ++ y' ++ rest) s, w).
Proof.
  intros Hhd Hx Hy Hx' Hy'.
  erewrite st_bind_ret.
  2: { apply tx_store_run. cbn [tx_buffer set_tx_buffer]. rewrite !length_app. lia. }
  cbn [tx_buffer set_tx_buffer]. rewrite (splice_mid 3 x' hd x) by lia.
  erewrite st_bind_ret.
  2: { apply tx_store_run. cbn [tx_buffer set_tx_buffer]. rewrite !length_app. lia. }
  cbn [tx_buffer set_tx_buffer]. rewrite (app_assoc hd x').
  rewrite (splice_mid 4 y' (hd ++ x') y) by (rewrite ?length_app; lia).
  by rewrite <-app_assoc.
Qed.

Lemma st_bind_assoc_run {A} (m1 m2 : ST (Sys (W:=W) (D:=D) (B:=B)) unit)
    (k : unit -> ST (Sys (W:=W) (D:=D) (B:=B)) A) st :
  ((m1 ≫= fun _ => m2) ≫= k) st = (m1 ≫= fun _ => m2 ≫= k) st.
Proof. unfold mbind, ST_bind. by destruct (m1 st) as [[] ?]. Qed.

Lemma tx_split s :
  length (tx_buffer s) = BUFFER_SIZE ->
  exists a b rest, drop 3 (tx_buffer s) = a ++ b ++ rest /\ length a = 1%nat /\
    length b = 4%nat /\ length rest = 2040%nat.
Proof.
  unfold BUFFER_SIZE. intros H.
  destruct (split_at 1 (drop 3 (tx_buffer s))) as (a & r & E & Ha); [rewrite length_drop; lia|].
  pose proof (f_equal length E) as El. rewrite length_drop, length_app in El.
  destruct (split_at 4 r) as (b & rest & -> & Hb); [lia|]. rewrite length_app in El.
  exists a, b, rest. split_and!; [done|done|done|lia].
Qed.

Lemma rpc_id_answered found id rest s w :
  length rest = 2040%nat ->
  answered HWIO_CMD_GET_REMOTE_CALL_ID_RESP (enc_GetRemoteCallIdResp found id) (s, w)
    ((tx_field 1 2 ≫= fun len => mret (PRes false (3 + Z.to_nat len)))
     (set_tx_buffer (enc_header (Header HWIO_CMD_GET_REMOTE_CALL_ID_RESP 5) ++
        le_of_Z 1 (Z.b2z found) ++ le_of_Z 4 id ++ rest) s, w)).
Proof.
  intros Hrest. split; [done|]. eexists. split; [done|]. split.
  - rewrite !length_app, !le_of_Z_length, enc_header_length, Hrest. done.
  - exists rest. unfold frame, enc_GetRemoteCallIdResp. rewrite <-!app_assoc. done.
Qed.

Lemma refused_tx code msg tx s w res :
  refused code msg (set_tx_buffer tx s, w) res -> refused code msg (s, w) res.
Proof. intros (H1 & t & H2 & H3 & H4). split; [done|]. by exists t. Qed.

(** The query of a function id on every branch: refused when it is too
    short or the device is not owned; otherwise the answer holds the lowest
    position of the name among the installed functions, or says that there is
    none (with the id 2^32 - 1). *)
Lemma handle_get_rpc_fn_id_correct l header c s w :
  length (tx_buffer s) = BUFFER_SIZE -> heap s !! l = Some c ->
  let res := handle_get_rpc_fn_id l header (s, w) in
  (body_len header < 130 ->
    refused MALFORMED_PACKET "GET REMOTE CALL ID: size too small" (s, w) res) /\
  forall dev_id name, 130 <= body_len header -> rx_holds s (enc_RemoteCall dev_id name) ->
  0 <= dev_id < 65536 -> no_nul name -> (String.length name < MAX_NAME_LEN)%nat ->
  match client_get_dev c dev_id with
  | None => refused ACCESS_DENIED "GET REMOTE CALL ID: device is not allocated" (s, w) res
  | Some _ =>
      exists found fn_id,
      answered HWIO_CMD_GET_REMOTE_CALL_ID_RESP (enc_GetRemoteCallIdResp found fn_id) (s, w) res /\
      if found then exists i, fn_id = Z.of_nat i /\ plugins_fast_names s !! i = Some name /\
        forall j, (j < i)%nat -> plugins_fast_names s !! j <> Some name
      else fn_id = -1 /\ name ∉ plugins_fast_names s
  end.
Proof.
  intros Htx Hc res. unfold res, handle_get_rpc_fn_id.
  change (Z.of_nat sizeof_GetRemoteCallId) with 130. split.
  { intros Hlt. rewrite (proj2 (Z.ltb_lt _ _)) by done. by apply send_err_refused; [|short_msg]. }
  intros dev_id name Hlen Hrx Hd Hn Hnl. rewrite (proj2 (Z.ltb_ge _ _)) by done.
  rewrite header_stores by done. change (Z.of_nat sizeof_GetRemoteCallIdResp) with 5.
  destruct (tx_split s Htx) as (a & b & rest & E & Ha & Hb & Hrest). rewrite E.
  rewrite (found_stores _ a b) by done.
  match goal with |- context [set_tx_buffer ?tx s] => set (tx1 := tx) end.
  assert (rx_holds (set_tx_buffer tx1 s) (enc_RemoteCall dev_id name)) as Hrx1 by done.
  erewrite st_bind_ret
    by (apply (rx_at_run _ w _ 0 2 Hrx1); rewrite enc_RemoteCall_length; lia).
  rewrite (st_bind_ret (on_server (get_client l)) _ _ _ _ (get_client_run l c (set_tx_buffer tx1 s) w Hc)).
  pose proof (enc_RemoteCall_dev dev_id name [] Hd) as Hdev. rewrite app_nil_r in Hdev.
  rewrite Hdev. destruct (client_get_dev c dev_id) as [dev|].
  2: { apply (refused_tx _ _ tx1), send_err_refused; [|short_msg].
       cbn [fst tx_buffer set_tx_buffer]. unfold tx1.
       rewrite !length_app, !le_of_Z_length, enc_header_length, Hrest. done. }
  rewrite (st_bind_ret _ _ _ _ _ (rx_fn_name_run _ w _ _ Hrx1 Hn Hnl)).
  rewrite (st_bind_ret (on_server st_get) _ _ _ _ (server_get_run _)).
  cbn [fst plugins_fast_names set_tx_buffer].
  pose proof (find_fn_id_spec (plugins_fast_names s) name 0) as Hf.
  destruct (find_fn_id _ name 0) as [i|].
  - destruct Hf as (_ & Hi & Hlt). rewrite Nat.sub_0_r in Hi, Hlt.
    exists true, (Z.of_nat i). split; [|by exists i]. rewrite st_bind_assoc_run.
    unfold tx1. rewrite (found_stores _ (le_of_Z 1 0)) by done.
    by apply (rpc_id_answered true).
  - exists false, (-1). split; [|done]. erewrite (st_bind_ret (mret tt)) by done.
    by apply (rpc_id_answered false).
Qed.

(** ** Installed functions *)

(** A series of [install_plugin_fn]. *)
Definition install_all (fns : list (string * plugin_info W D)) s : HwioServer W D B :=
  fold_left (fun s '(name, p) => install_plugin_fn name p s) fns s.

(** The last function of the series with the name. *)
Definition last_named (fns : list (string * plugin_info W D)) (name : string) :
    option (plugin_info W D) :=
  fold_left (fun o '(n, p) => if bool_decide (n = name) then Some p else o) fns None.

Lemma install_all_app fns x s :
  install_all (fns ++ [x]) s = install_plugin_fn x.1 x.2 (install_all fns s).
Proof. unfold install_all. rewrite fold_left_app. by destruct x. Qed.

Lemma last_named_app fns x name :
  last_named (fns ++ [x]) name =
  if bool_decide (x.1 = name) then Some x.2 else last_named fns name.
Proof. unfold last_named. rewrite fold_left_app. by destruct x. Qed.

Lemma install_all_tables fns tx (bs : list B) :
  let s := install_all fns (new_HwioServer tx bs) in
  plugins_fast_names s = fns.*1 /\ plugins_fast s = fns.*2 /\
  forall name, plugins s !! name = last_named fns name.
Proof.
  induction fns as [|x fns (H1 & H2 & H3)] using rev_ind; [done|].
  cbv zeta. rewrite install_all_app. cbn. rewrite H1, H2, !fmap_app. split_and!; [done..|].
  intros name. rewrite last_named_app. case_bool_decide as E.
  - rewrite E. apply lookup_insert_eq.
  - by rewrite lookup_insert_ne.
Qed.

Lemma last_named_NoDup fns name i p :
  NoDup fns.*1 -> fns !! i = Some (name, p) -> last_named fns name = Some p.
Proof.
  revert i. induction fns as [|[n q] fns IH] using rev_ind; intros i Hnd Hi; [done|].
  rewrite last_named_app. rewrite fmap_app in Hnd. apply NoDup_app in Hnd as (Hnd & Hdis & _).
  apply lookup_app_Some in Hi as [Hi|[Hl Hi]]; cbn [fst snd].
  - rewrite bool_decide_eq_false_2; [by eapply IH|]. intros ->. eapply (Hdis name); [|left].
    apply list_elem_of_fmap. exists (name, p). split; [done|]. by eapply list_elem_of_lookup_2.
  - destruct (i - length fns)%nat; [|done]. cbn in Hi. simplify_eq.
    by rewrite bool_decide_eq_true_2.
Qed.

(** C15: on a server with the functions [fns] installed, the id answered for a
    name calls the first function installed under it, a call by name the last
    one; they are the same when the names are distinct, and a name has an id
    exactly when it can be called. *)
Theorem rpc_id_and_name_agree fns name tx (bs : list B) :
  let s := install_all fns (new_HwioServer tx bs) in
  plugins s !! name = last_named fns name /\
  match find_fn_id (plugins_fast_names s) name 0 with
  | Some i => exists p, fns !! i = Some (name, p) /\ plugins_fast s !! i = Some p /\
      (forall j q, (j < i)%nat -> fns !! j <> Some (name, q)) /\ is_Some (plugins s !! name) /\
      (NoDup fns.*1 -> plugins s !! name = Some p)
  | None => plugins s !! name = None
  end.
Proof.
  cbv zeta. destruct (install_all_tables fns tx bs) as (H1 & H2 & H3).
  rewrite H1, H2, H3. split; [done|].
  pose proof (find_fn_id_spec fns.*1 name 0) as Hf. destruct (find_fn_id _ _ _) as [i|].
  - destruct Hf as (_ & Hi & Hlt). rewrite Nat.sub_0_r in Hi, Hlt.
    apply list_lookup_fmap_Some in Hi as ([n p] & E & Hi). cbn in E. subst name. rename n into name.
    exists p. split_and!; [done|by rewrite list_lookup_fmap, Hi| | |].
    + intros j q Hj Hq. apply (Hlt j Hj). by rewrite list_lookup_fmap, Hq.
    + clear -Hi. revert i Hi. induction fns as [|[n q] fns IH] using rev_ind; intros i Hi; [done|].
      rewrite last_named_app. case_bool_decide as E; [by eexists|].
      apply lookup_app_Some in Hi as [Hi|[Hl Hi]].
      * by eapply IH.
      * destruct (i - length fns)%nat; [|done]. cbn in Hi. by simplify_eq.
    + intros Hnd. by eapply last_named_NoDup.
  - revert Hf. clear. induction fns as [|[n q] fns IH] using rev_ind; [done|].
    rewrite fmap_app, not_elem_of_app. intros [Hf Hn]. rewrite last_named_app.
    rewrite bool_decide_eq_false_2; [by apply IH|]. cbn. set_solver.
Qed.
End spec.
