(* ===== verification/ServerQuery.v ===== *)
(** * HwioServer: the device query

    The query handler of [src/server/hwio_server_query.cpp] at work: decoding
    the items, the lookup on the buses, and the registration of the devices
    found under the ids the client will use. *)

From Stdlib Require Import ZArith Lia Ascii String.
From stdpp Require Import base tactics list numbers strings gmap fin_maps.
From S2P Require Import Prelude CxxString Version CompSpec Device Bus Wire Protocol Server ServerHandlers.
From S2P Require Import ServerFrame ServerSpec.

Section query.
Context {W D B : Type} `{!IDev W D} `{!IBus W D B}.
Implicit Types (l : loc) (s : HwioServer W D B) (w : W).

(** ** Decoding *)

(** The fields of an item at its place in the message. *)
Lemma item_fields pre x rest :
  spec_sendable x -> let m := pre ++ enc_query_item x ++ rest in let o := length pre in
  cstr (drop o m) = Some (chars (cs_name x)) /\
  cstr (drop (o + 128) m) = Some (chars (cs_vendor x)) /\
  cstr (drop (o + 256) m) = Some (chars (cs_type x)) /\
  slice (o + 384) 12 m = enc_version (cs_version x).
Proof.
  intros ([Hn Hnl] & [Hv Hvl] & [Ht Htl] & Hver) m o. unfold m, o, enc_query_item.
  rewrite <-!app_assoc.
  set (N := strncpy MAX_NAME_LEN (cs_name x)). set (V := strncpy MAX_NAME_LEN (cs_vendor x)).
  set (T := strncpy MAX_NAME_LEN (cs_type x)).
  assert (length N = 128%nat /\ length V = 128%nat /\ length T = 128%nat) as (HN & HV & HT)
    by (unfold N, V, T; by rewrite !strncpy_length).
  split_and!.
  - rewrite drop_app_length. by apply cstr_strncpy.
  - rewrite <-drop_drop, drop_app_length, drop_app_length' by done. by apply cstr_strncpy.
  - replace (length pre + 256)%nat with (length pre + (128 + 128))%nat by lia.
    rewrite <-!drop_drop, drop_app_length, !drop_app_length' by done. by apply cstr_strncpy.
  - unfold slice. replace (length pre + 384)%nat with (length pre + (128 + (128 + 128)))%nat by lia.
    rewrite <-!drop_drop, drop_app_length, !drop_app_length' by done.
    by rewrite take_app_length' by done.
Qed.

Lemma extractSpec_run s w k pre specs :
  rx_holds s (pre ++ enc_query specs) -> length pre = (k * sizeof_Dev_query_item)%nat ->
  Forall spec_sendable specs ->
  extractSpec k (length specs) (s, w) = (Ret specs, (s, w)).
Proof.
  revert k pre. induction specs as [|x t IH]; intros k pre Hrx Hpre Hs; [done|].
  apply Forall_cons in Hs as [Hx Ht].
  change (enc_query (x :: t)) with (enc_query_item x ++ enc_query t) in Hrx.
  destruct (item_fields pre x (enc_query t) Hx) as (Fn & Fv & Ft & Fr).
  set (m := pre ++ enc_query_item x ++ enc_query t) in *.
  assert (length pre + 396 <= length m)%nat as Hl
    by (unfold m; rewrite !length_app, enc_query_item_length; lia).
  cbn [length extractSpec]. cbv zeta. rewrite <-Hpre.
  rewrite (st_bind_ret _ _ _ _ _ (rx_cstr_run s w m (length pre + 128) _ Hrx ltac:(lia) Fv)).
  rewrite (st_bind_ret _ _ _ _ _ (rx_cstr_run s w m (length pre + 256) _ Hrx ltac:(lia) Ft)).
  rewrite (st_bind_ret _ _ _ _ _ (rx_at_run s w m (length pre + 384) 12 Hrx ltac:(lia))).
  rewrite (st_bind_ret _ _ _ _ _ (rx_cstr_run s w m (length pre) _ Hrx ltac:(lia) Fn)).
  assert (extractSpec (S k) (length t) (s, w) = (Ret t, (s, w))) as Et.
  { apply (IH _ (pre ++ enc_query_item x)); [by rewrite <-app_assoc| |done].
    rewrite length_app, enc_query_item_length, Hpre. unfold sizeof_Dev_query_item. lia. }
  rewrite (st_bind_ret _ _ _ _ _ Et).
  rewrite !of_chars_chars, Fr. destruct Hx as (_ & _ & _ & Hver).
  pose proof (dec_enc_version (cs_version x) [] Hver) as Ev. rewrite app_nil_r in Ev.
  rewrite Ev. by destruct x.
Qed.

(** ** The lookup *)

Lemma find_on_buses_run bs spec s w r w' :
  composite_find_devices bs spec w = (r, w') -> find_on_buses bs spec (s, w) = (r, (s, w')).
Proof.
  revert w r w'. induction bs as [|b t IH]; intros w r w' H; [by injection H as <- <-|].
  cbn [composite_find_devices find_on_buses] in *. unfold mbind, ST_bind in *.
  unfold on_world, st_snd. cbn [fst snd].
  destruct (find_devices b spec w) as [[ds|e|f] w1]; [|by injection H as <- <-..].
  destruct (composite_find_devices t spec w1) as [r2 w2] eqn:E.
  rewrite (IH _ _ _ E). by destruct r2; injection H as <- <-.
Qed.

(** ** Registration *)

(** The devices found that the client does not have, in order, once each. *)
Fixpoint fresh_devices (known : list (option D)) (ds : list D) : list D :=
  match ds with
  | [] => []
  | d :: t => if decide (Some d ∈ known) then fresh_devices known t
              else d :: fresh_devices (Some d :: known) t
  end.

Lemma fresh_devices_equiv known1 known2 ds :
  (forall d, Some d ∈ known1 <-> Some d ∈ known2) ->
  fresh_devices known1 ds = fresh_devices known2 ds.
Proof.
  revert known1 known2. induction ds as [|d t IH]; intros k1 k2 H; cbn; [done|].
  destruct (decide (Some d ∈ k1)) as [H1|H1]; destruct (decide (Some d ∈ k2)) as [H2|H2];
    [by apply IH|naive_solver|naive_solver|].
  f_equal. apply IH. intros x. rewrite !elem_of_cons. by rewrite H.
Qed.

(** What a registration of the devices [ds] makes of the list [devs]: the id
    of each device and the new list. *)
Definition registered (devs : list (option D)) (ds : list D) (ids : list Z)
    (devs' : list (option D)) : Prop :=
  length ids = length ds /\
  (forall k d, ds !! k = Some d ->
    exists i, ids !! k = Some (Z.of_nat i) /\ devs' !! i = Some (Some d)) /\
  (forall i d, devs !! i = Some (Some d) -> devs' !! i = Some (Some d)) /\
  (forall i d, devs' !! i = Some (Some d) -> devs !! i = Some (Some d) \/ d ∈ ds) /\
  (devs_wf devs -> devs_wf devs').

(** The same as a relation on each step; it determines the ids. *)
Inductive registers : list (option D) -> list D -> list Z -> list (option D) -> Prop :=
  | registers_nil devs : registers devs [] [] devs
  | registers_cons devs d i devs1 ds ids devs' :
      registered_at devs d i devs1 -> (i < Z.to_nat 65536)%nat -> registers devs1 ds ids devs' ->
      registers devs (d :: ds) (Z.of_nat i :: ids) devs'.

Lemma registered_at_det (devs : list (option D)) d i1 devs1 i2 devs2 :
  devs_wf devs -> registered_at devs d i1 devs1 -> registered_at devs d i2 devs2 ->
  i1 = i2 /\ devs1 = devs2.
Proof.
  intros [_ Hnd].
  assert (forall i, devs !! i = Some (Some d) -> Some d ∈ devs) as Hin
    by (intros i Hi; by eapply list_elem_of_lookup_2).
  assert (forall i, devs !! i = Some None -> None ∈ devs) as Hno
    by (intros i Hi; by eapply list_elem_of_lookup_2).
  intros [[H1 ->]|[N1 [(-> & E1 & ->)|(H1 & L1 & ->)]]]
         [[H2 ->]|[N2 [(-> & E2 & ->)|(H2 & L2 & ->)]]];
    try (exfalso; by eauto); [split; [by eapply Hnd|done]|done|].
  assert (i1 = i2) as ->; [|done]. destruct (Nat.lt_trichotomy i1 i2) as [?|[?|?]]; [|done|].
  - by destruct (L2 i1).
  - by destruct (L1 i2).
Qed.

Lemma registers_det devs ds ids1 devs1 ids2 devs2 :
  devs_wf devs -> registers devs ds ids1 devs1 -> registers devs ds ids2 devs2 ->
  ids1 = ids2 /\ devs1 = devs2.
Proof.
  intros Hwf H1. revert ids2 devs2. induction H1 as [|devs d i dv ds ids devs' Hr Hi H1 IH];
    intros ids2 devs2 H2; inversion H2 as [|? ? i' dv' ? ids' ? Hr' Hi' H2']; subst; [done|].
  destruct (registered_at_det devs d i dv i' dv' Hwf Hr Hr') as [-> ->].
  by destruct (IH (registered_at_wf _ _ _ _ Hr Hi Hwf) ids' devs2 H2') as [-> ->].
Qed.

Lemma registered_nil devs : registered devs [] [] devs.
Proof. split_and!; [done|by intros|done|by left|done]. Qed.

Lemma registered_cons devs dev i devs1 ds ids devs' :
  registered_at devs dev i devs1 -> (i < Z.to_nat 65536)%nat -> registered devs1 ds ids devs' ->
  registered devs (dev :: ds) (Z.of_nat i :: ids) devs'.
Proof.
  intros Hr Hi (Hl & Hids & Hk & Hnew & Hwf). split_and!.
  - cbn. by rewrite Hl.
  - intros [|k] d Hd; cbn in Hd; simplify_eq; cbn; [|by apply Hids].
    exists i. split; [done|]. apply Hk. by eapply registered_at_lookup.
  - intros j d Hj. apply Hk. by eapply registered_at_kept.
  - intros j d Hj. destruct (Hnew _ _ Hj) as [Hj1|Hin]; [|right; by right].
    destruct (registered_at_inv _ _ _ _ _ _ Hr Hj1) as [?|(_ & -> & _)]; [by left|right; left].
  - intros Hw. apply Hwf. by eapply registered_at_wf.
Qed.

Lemma registers_registered devs ds ids devs' : registers devs ds ids devs' -> registered devs ds ids devs'.
Proof. induction 1; [apply registered_nil|by eapply registered_cons]. Qed.

Lemma registered_at_length (devs : list (option D)) dev i devs1 :
  registered_at devs dev i devs1 -> (length devs1 <= S (length devs))%nat.
Proof.
  intros [[_ ->]|[_ [(_ & _ & ->)|(_ & _ & ->)]]]; rewrite ?length_app, ?length_insert; cbn; lia.
Qed.

Lemma registered_at_elem (devs : list (option D)) dev i devs1 d :
  registered_at devs dev i devs1 -> Some d ∈ devs1 <-> Some d ∈ Some dev :: devs.
Proof.
  intros Hr. rewrite elem_of_cons, !list_elem_of_lookup. split.
  - intros [j Hj]. destruct (registered_at_inv _ _ _ _ _ _ Hr Hj) as [?|(_ & -> & _)]; eauto.
  - intros [[= ->]|[j Hj]]; [exists i; by eapply registered_at_lookup|].
    exists j. by eapply registered_at_kept.
Qed.

(** The answer under construction after [ids] were stored. *)
Definition ids_tx (ids : list Z) (rest : list byte) : list byte :=
  enc_header (Header HWIO_CMD_QUERY_RESP (2 * Z.of_nat (length ids))) ++ enc_ids ids ++ rest.

Lemma enc_ids_snoc ids id : enc_ids (ids ++ [id]) = enc_ids ids ++ le_of_Z 2 id.
Proof. unfold enc_ids. rewrite flat_map_app. cbn [flat_map]. by rewrite app_nil_r. Qed.

(** Storing one more id. *)
Lemma store_id_run ids rest id s w {A} (k : unit -> ST (Sys (W:=W) (D:=D) (B:=B)) A) :
  (length (ids_tx ids rest) <= BUFFER_SIZE)%nat -> (2 <= length rest)%nat ->
  (tx_field 1 2 ≫= fun len => tx_store 1 (le_of_Z 2 (len + 2)) ≫= fun _ =>
   tx_store (3 + 2 * length ids) (le_of_Z 2 id) ≫= k) (set_tx_buffer (ids_tx ids rest) s, w) =
  k tt (set_tx_buffer (ids_tx (ids ++ [id]) (drop 2 rest)) s, w).
Proof.
  intros Hl Hr. unfold BUFFER_SIZE in Hl.
  assert (length (ids_tx ids rest) = 3 + 2 * length ids + length rest)%nat as Hlen.
  { unfold ids_tx. by rewrite !length_app, enc_ids_length, enc_header_length, Nat.add_assoc. }
  assert (field 1 2 (ids_tx ids rest) = 2 * Z.of_nat (length ids)) as Hf.
  { unfold ids_tx. rewrite field_app_l by (cbn; lia).
    change (field 1 2 _) with (le_to_Z (le_of_Z 2 (2 * Z.of_nat (length ids)))).
    apply (le_to_Z_small 2). change (256 ^ Z.of_nat 2) with 65536. lia. }
  erewrite (st_bind_ret (tx_field 1 2)) by done. cbn [fst tx_buffer set_tx_buffer]. rewrite Hf.
  erewrite st_bind_ret by (apply tx_store_run; cbn [tx_buffer set_tx_buffer]; cbn [length le_of_Z]; lia).
  cbn [tx_buffer set_tx_buffer].
  assert (splice 1 (le_of_Z 2 (2 * Z.of_nat (length ids) + 2)) (ids_tx ids rest) =
    enc_header (Header HWIO_CMD_QUERY_RESP (2 * Z.of_nat (length (ids ++ [id])))) ++
    enc_ids ids ++ rest) as ->.
  { unfold ids_tx, enc_header. cbn [command body_len]. rewrite <-!app_assoc.
    rewrite splice_mid by done. do 3 f_equal. rewrite length_app. cbn [length]. lia. }
  erewrite st_bind_ret.
  2: { apply tx_store_run. cbn [tx_buffer set_tx_buffer].
       rewrite !length_app, enc_ids_length, enc_header_length, le_of_Z_length. lia. }
  cbn [tx_buffer set_tx_buffer]. do 2 f_equal.
  rewrite app_assoc, splice_prefix; [|by rewrite length_app, enc_ids_length, enc_header_length].
  unfold ids_tx. rewrite enc_ids_snoc, le_of_Z_length, <-!app_assoc. done.
Qed.

(** One more id takes the place of two bytes. *)
Lemma ids_tx_snoc_fits ids id rest :
  (length (ids_tx ids rest) <= BUFFER_SIZE)%nat -> (2 <= length rest)%nat ->
  (length (ids_tx (ids ++ [id]) (drop 2 rest)) <= BUFFER_SIZE)%nat.
Proof.
  unfold ids_tx. rewrite !length_app, !enc_ids_length, length_app, length_drop, !enc_header_length.
  cbn [length]. lia.
Qed.

Lemma with_devices_same l c s : heap s !! l = Some c -> with_devices l c (ci_devices c) s = s.
Proof.
  intros Hc. destruct s; cbn in *. unfold with_devices, set_heap. cbn. f_equal.
  apply insert_id. rewrite Hc. by destruct c.
Qed.

Lemma with_devices_again l c devs devs' s :
  with_devices l (Client (ci_id c) (ci_fd c) (ci_rx c) devs) devs' (with_devices l c devs s) =
  with_devices l c devs' s.
Proof. unfold with_devices, set_heap. cbn. by rewrite insert_insert_eq. Qed.

(** The loop over the devices found. *)
Lemma lookup_loop_run l c ds ids rest s w w' :
  heap s !! l = Some c -> devs_wf (ci_devices c) ->
  (length (ci_devices c) + length ds <= Z.to_nat 65536)%nat ->
  (length (ids_tx ids rest) <= BUFFER_SIZE)%nat -> (2 * length ds <= length rest)%nat ->
  st_iter attach (fresh_devices (ci_devices c) ds) w = (Ret tt, w') ->
  exists new devs', registers (ci_devices c) ds new devs' /\
    lookup_loop l ds (length ids) (set_tx_buffer (ids_tx ids rest) s, w) =
    (Ret tt, (set_tx_buffer (ids_tx (ids ++ new) (drop (2 * length ds) rest))
                (with_devices l c devs' s), w')).
Proof.
  revert ids rest s c w. induction ds as [|d t IH]; intros ids rest s c w Hc Hwf Hcnt Hl Hr Hat.
  { exists [], (ci_devices c). split; [constructor|].
    rewrite with_devices_same by done. injection Hat as <-. by rewrite app_nil_r. }
  cbn [length] in *. destruct Hwf as [Hb Hnd].
  set (s1 := set_tx_buffer (ids_tx ids rest) s).
  assert (forall id, length (ids_tx (ids ++ [id]) (drop 2 rest)) <= BUFFER_SIZE)%nat as Hfit
    by (intros id; apply ids_tx_snoc_fits; lia).
  cbn [lookup_loop].
  destruct (register_device_cases l d s1 w c Hc Hb)
    as [(i & Hi & Hlt & Hreg)|[(i & devs & Hn & Hra & Hlt & Hreg)|(_ & _ & E)]]; [| |lia].
  - cbn [fresh_devices] in Hat.
    rewrite decide_True in Hat by (by eapply list_elem_of_lookup_2).
    rewrite (st_bind_ret _ _ _ _ _ Hreg). unfold s1. rewrite store_id_run by lia.
    destruct (IH (ids ++ [Z.of_nat i]) (drop 2 rest) s c w) as (new & devs' & Hn & Hrun);
      [done|done|lia|done|rewrite length_drop; lia|done|].
    exists (Z.of_nat i :: new), devs'. split.
    { apply (registers_cons _ d i (ci_devices c)); [by left|done|done]. }
    rewrite length_app in Hrun. cbn [length] in Hrun.
    replace (S (length ids)) with (length ids + 1)%nat by lia. rewrite Hrun.
    rewrite <-app_assoc, drop_drop. do 5 f_equal. lia.
  - cbn [fresh_devices] in Hat. rewrite decide_False in Hat by done. cbn [st_iter] in Hat.
    apply st_bind_inv in Hat as ([] & w1 & Hd & Hat).
    assert (register_device l d (s1, w) = (Ret (Z.of_nat i), (with_devices l c devs s1, w1))) as Hreg'.
    { rewrite Hreg. by erewrite st_bind_ret by by apply on_world_run. }
    rewrite (st_bind_ret _ _ _ _ _ Hreg').
    change (with_devices l c devs s1) with (set_tx_buffer (ids_tx ids rest) (with_devices l c devs s)).
    rewrite store_id_run by lia.
    set (c1 := Client (ci_id c) (ci_fd c) (ci_rx c) devs).
    destruct (IH (ids ++ [Z.of_nat i]) (drop 2 rest) (with_devices l c devs s) c1 w1)
      as (new & devs' & Hn' & Hrun).
    + apply lookup_insert_eq.
    + by apply (registered_at_wf _ _ _ _ Hra Hlt).
    + cbn. apply registered_at_length in Hra. lia.
    + apply Hfit.
    + rewrite length_drop. lia.
    + cbn. rewrite <-Hat. f_equal. apply fresh_devices_equiv. intros x.
      by apply (registered_at_elem _ _ _ _ _ Hra).
    + exists (Z.of_nat i :: new), devs'. split; [by apply (registers_cons _ d i devs)|].
      rewrite length_app in Hrun. cbn [length] in Hrun.
      replace (S (length ids)) with (length ids + 1)%nat by lia. rewrite Hrun.
      unfold c1. rewrite with_devices_again, <-app_assoc, drop_drop. do 5 f_equal. lia.
Qed.

(** The dispatch of a query of [n] items. *)
Lemma handle_msg_query l n :
  (1 <= n <= 5)%nat ->
  handle_msg l (Header HWIO_CMD_QUERY (Z.of_nat (n * 396))) = device_lookup_resp l n.
Proof.
  intros Hn. unfold handle_msg. cbn [command body_len].
  change (Z.of_nat sizeof_Dev_query_item) with 396. unfold MAX_ITEMS_PER_QUERY.
  replace (Z.of_nat (n * 396) / 396) with (Z.of_nat n) by (rewrite Nat2Z.inj_mul, Z.div_mul; lia).
  change (HWIO_CMD_QUERY =? HWIO_CMD_REMOTE_CALL_FAST) with false.
  change (HWIO_CMD_QUERY =? HWIO_CMD_READ) with false.
  change (HWIO_CMD_QUERY =? HWIO_CMD_WRITE) with false.
  change (HWIO_CMD_QUERY =? HWIO_CMD_REMOTE_CALL) with false.
  change (HWIO_CMD_QUERY =? HWIO_CMD_PING_REQUEST) with false.
  change (HWIO_CMD_QUERY =? HWIO_CMD_QUERY) with true. cbv iota zeta.
  rewrite Nat2Z.inj_mul, Z.eqb_refl. cbn [negb].
  rewrite (proj2 (Z.eqb_neq _ _)), (proj2 (Z.ltb_ge _ _)) by lia. by rewrite Nat2Z.id.
Qed.

Lemma device_lookup_resp_run l c s w specs ds w1 w2 :
  length (tx_buffer s) = BUFFER_SIZE -> heap s !! l = Some c -> devs_wf (ci_devices c) ->
  rx_holds s (enc_query specs) -> Forall spec_sendable specs ->
  composite_find_devices (buses s) specs w = (Ret ds, w1) ->
  st_iter attach (fresh_devices (ci_devices c) ds) w1 = (Ret tt, w2) ->
  (length ds <= 1022)%nat -> (length (ci_devices c) + length ds <= Z.to_nat 65536)%nat ->
  exists ids devs', registers (ci_devices c) ds ids devs' /\
    answered HWIO_CMD_QUERY_RESP (enc_ids ids) (with_devices l c devs' s, w2)
      (device_lookup_resp l (length specs) (s, w)).
Proof.
  intros Htx Hc Hwf Hrx Hs Hfind Hat Hds Hcnt. unfold BUFFER_SIZE in Htx.
  unfold device_lookup_resp, extractSpecFromClientQuery.
  rewrite (st_bind_ret _ _ _ _ _ (extractSpec_run s w 0 [] specs Hrx eq_refl Hs)).
  erewrite st_bind_ret by (apply tx_store_run; cbn; lia).
  rewrite (st_bind_ret _ _ _ _ _ (server_get_run _)). cbn [fst buses set_tx_buffer].
  rewrite (st_bind_ret _ _ _ _ _ (find_on_buses_run _ _ _ _ _ _ Hfind)).
  set (rest := drop 3 (tx_buffer s)).
  erewrite st_bind_ret.
  2: { apply tx_store_run. cbn [tx_buffer set_tx_buffer]. rewrite splice_length; cbn; lia. }
  cbn [tx_buffer set_tx_buffer].
  assert (splice 1 (le_of_Z 2 0) (splice 0 (le_of_Z 1 HWIO_CMD_QUERY_RESP) (tx_buffer s)) =
    ids_tx [] rest) as ->.
  { rewrite splice_0, splice_prefix by done. rewrite !le_of_Z_length, drop_drop. done. }
  assert (length rest = 2045)%nat as Hrest by (unfold rest; rewrite length_drop; lia).
  destruct (lookup_loop_run l c ds [] rest s w1 w2) as (ids & devs' & Hreg & Hrun); try done.
  { unfold ids_tx. rewrite !length_app, enc_header_length, Hrest. unfold BUFFER_SIZE. cbn. lia. }
  { lia. }
  change (length (@nil Z)) with 0%nat in Hrun.
  rewrite (st_bind_ret _ _ _ _ _ Hrun). cbn [app].
  exists ids, devs'. split; [done|]. destruct (registers_registered _ _ _ _ Hreg) as (Hl & _).
  assert (field 1 2 (ids_tx ids (drop (2 * length ds) rest)) = 2 * Z.of_nat (length ids)) as Hf.
  { unfold ids_tx. rewrite field_app_l by (cbn; lia).
    change (field 1 2 _) with (le_to_Z (le_of_Z 2 (2 * Z.of_nat (length ids)))).
    apply (le_to_Z_small 2). change (256 ^ Z.of_nat 2) with 65536. lia. }
  erewrite (st_bind_ret (tx_field 1 2)) by done. cbn [fst tx_buffer set_tx_buffer].
  rewrite Hf. replace (Z.to_nat (2 * Z.of_nat (length ids))) with (2 * length ids)%nat by lia.
  split; [cbn [fst]; by rewrite enc_ids_length|].
  eexists. split; [done|]. split.
  - unfold ids_tx. rewrite !length_app, enc_ids_length, length_drop, enc_header_length.
    unfold BUFFER_SIZE. lia.
  - exists (drop (2 * length ds) rest). unfold ids_tx, frame.
    rewrite enc_ids_length, <-app_assoc. do 4 f_equal. lia.
Qed.

(** ** Properties *)

(** C14: a query for one to five specifications is answered with one id for
    each device the buses find, in their order.  Afterwards each id names its
    device, the ids the client already had are unchanged, no device has two
    ids, the client has gained no device but those found, and exactly the
    devices that were new to it have been attached, once each. *)
Theorem device_query_correct l c s w specs ds w1 w2 :
  length (tx_buffer s) = BUFFER_SIZE -> heap s !! l = Some c -> devs_wf (ci_devices c) ->
  rx_holds s (enc_query specs) -> Forall spec_sendable specs -> (1 <= length specs <= 5)%nat ->
  composite_find_devices (buses s) specs w = (Ret ds, w1) ->
  st_iter attach (fresh_devices (ci_devices c) ds) w1 = (Ret tt, w2) ->
  (length ds <= 1022)%nat -> (length (ci_devices c) + length ds <= Z.to_nat 65536)%nat ->
  exists ids devs',
    answered HWIO_CMD_QUERY_RESP (enc_ids ids) (with_devices l c devs' s, w2)
      (handle_msg l (Header HWIO_CMD_QUERY (Z.of_nat (length (enc_query specs)))) (s, w)) /\
    length ids = length ds /\
    (forall k d, ds !! k = Some d -> exists id, ids !! k = Some id /\
      client_get_dev (Client (ci_id c) (ci_fd c) (ci_rx c) devs') id = Some d) /\
    (forall i d, ci_devices c !! i = Some (Some d) -> devs' !! i = Some (Some d)) /\
    (forall i d, devs' !! i = Some (Some d) -> ci_devices c !! i = Some (Some d) \/ d ∈ ds) /\
    devs_wf devs'.
Proof.
  intros Htx Hc Hwf Hrx Hs Hn Hfind Hat Hds Hcnt.
  destruct (device_lookup_resp_run l c s w specs ds w1 w2)
    as (ids & devs' & (H1 & H2 & H3 & H4 & H5)%registers_registered & Ha); [done..|].
  exists ids, devs'. rewrite enc_query_length, handle_msg_query by done.
  split_and!; [done|done| |done|done|by apply H5].
  intros k d Hk. destruct (H2 _ _ Hk) as (i & Hi & Hd). exists (Z.of_nat i). split; [done|].
  unfold client_get_dev. cbn [ci_devices]. rewrite Nat2Z.id, Hd.
  by rewrite (proj2 (Nat.ltb_lt _ _)) by (by eapply lookup_lt_Some).
Qed.
End query.

(** ** Registration in a list without holes *)

Section registration.
Context {D : Type} `{!EqDecision D}.
Implicit Types (devs : list (option D)).

Lemma full_no_none devs i : None ∉ devs -> devs !! i <> Some None.
Proof. intros H Hi. by apply H, (list_elem_of_lookup_2 _ i). Qed.

Lemma registers_full devs ds :
  None ∉ devs -> (length devs + length ds <= Z.to_nat 65536)%nat ->
  exists ids devs', registers devs ds ids devs' /\ None ∉ devs' /\
    (forall d, Some d ∈ devs' <-> Some d ∈ devs \/ d ∈ ds).
Proof.
  revert devs. induction ds as [|d ds IH]; intros devs Hn Hl.
  - exists [], devs. split_and!; [constructor|done|]. intros d. rewrite elem_of_nil. naive_solver.
  - cbn [length] in Hl. destruct (decide (Some d ∈ devs)) as [Hd|Hd].
    + apply list_elem_of_lookup in Hd as Hi. destruct Hi as [i Hi].
      destruct (IH devs) as (ids & devs' & Hr & Hn' & He); [done|lia|].
      exists (Z.of_nat i :: ids), devs'. split_and!; [|done|].
      * econstructor; [by left| |exact Hr]. apply lookup_lt_Some in Hi. lia.
      * intros x. rewrite He, elem_of_cons. naive_solver.
    + destruct (IH (devs ++ [Some d])) as (ids & devs' & Hr & Hn' & He).
      { rewrite elem_of_app, list_elem_of_singleton. naive_solver. }
      { rewrite length_app. cbn. lia. }
      exists (Z.of_nat (length devs) :: ids), devs'. split_and!; [|done|].
      * econstructor; [right; split; [done|left]| |exact Hr]; [split_and!; done|lia].
      * intros x. rewrite He, elem_of_app, list_elem_of_singleton, elem_of_cons. naive_solver.
Qed.

(** Such a list is no longer than a list with its elements. *)
Lemma devs_bounded devs (all : list D) :
  None ∉ devs -> devs_wf devs -> (forall d, Some d ∈ devs -> d ∈ all) ->
  (length devs <= length all)%nat.
Proof.
  intros Hn [_ Hnd] Hall.
  assert (NoDup devs) as HN.
  { apply NoDup_alt. intros i j [d|] Hi Hj; [by eapply Hnd|by apply full_no_none in Hi]. }
  rewrite <-(length_map Some all). apply submseteq_length, NoDup_submseteq; [done|].
  intros [d|] Hd; [|done]. by apply list_elem_of_fmap_2, Hall.
Qed.
End registration.
