(* ===== verification/ServerSafety.v ===== *)
(** * HwioServer: safety of the message handlers

    Two properties of [handle_msg] for every message a client may send:
    a message that names a device the client does not own is refused without
    touching any device, and whatever is sent is one well-formed frame that
    fits the answer buffer. *)

From Stdlib Require Import ZArith Lia Ascii String.
From stdpp Require Import base tactics list numbers strings gmap fin_maps.
From S2P Require Import Prelude CxxString Version CompSpec Device Bus Wire Protocol Server ServerHandlers.
From S2P Require Import ServerFrame ServerSpec ServerQuery.

Section access.
Context {W D B : Type} `{!IDev W D} `{!IBus W D B}.
Implicit Types (l : loc) (s : HwioServer W D B) (w : W).

(** ** The refusals *)

(** The error code and text for a message whose size or command the protocol
    does not have. *)
Definition malformed_refusal (h : Hwio_packet_header) : option (Z * string) :=
  let cmd := command h in
  let n := body_len h in
  let bad (test : bool) (msg : string) := if test then Some (MALFORMED_PACKET, msg) else None in
  if cmd =? HWIO_CMD_REMOTE_CALL_FAST then bad (n <? 5) "REMOTE CALL: size too small"
  else if cmd =? HWIO_CMD_READ then bad (negb (n =? 8)) "READ: size too small"
  else if cmd =? HWIO_CMD_WRITE then bad (n <? 8) "WRITE: size too small"
  else if cmd =? HWIO_CMD_REMOTE_CALL then bad (n <? 129) "REMOTE CALL: size too small"
  else if cmd =? HWIO_CMD_PING_REQUEST then bad (negb (n =? 0)) "ECHO_REQUEST: size has to be 0"
  else if cmd =? HWIO_CMD_QUERY then
    let cnt := n / 396 in
    if negb (n =? cnt * 396) then
      Some (MALFORMED_PACKET, ("QUERY: wrong size of packet " +:+ to_dec n +:+
        "(not divisible by " +:+ to_dec 396 +:+ ")")%string)
    else if (cnt =? 0) || (5 <? cnt) then
      Some (UNKNOWN_COMMAND, ("Unsupported number of queries (" +:+ to_dec cnt +:+ ")" +:+ endl)%string)
    else None
  else if cmd =? HWIO_CMD_GET_REMOTE_CALL_ID then bad (n <? 130) "GET REMOTE CALL ID: size too small"
  else if (cmd =? HWIO_CMD_BYE) || (cmd =? HWIO_CMD_MSG) then None
  else Some (UNKNOWN_COMMAND, ""%string).

(** The error code and text for a message about a device the client does not
    own; [dev] are the devices by their ids. *)
Definition access_refusal (dev : Z -> option D) (cmd : Z) (body : list byte) : option (Z * string) :=
  let id := field 0 2 body in
  let deny (msg : string) :=
    match dev id with Some _ => None | None => Some (ACCESS_DENIED, msg) end in
  if cmd =? HWIO_CMD_REMOTE_CALL_FAST then deny "REMOTE CALL: device is not allocated"
  else if cmd =? HWIO_CMD_READ then deny "READ: device is not allocated"
  else if cmd =? HWIO_CMD_WRITE then
    if MAX_DEVICES <=? id then Some (MALFORMED_PACKET, "WRITE: wrong device id"%string)
    else deny "WRITE: device is not allocated"
  else if cmd =? HWIO_CMD_REMOTE_CALL then deny "REMOTE CALL: device is not allocated"
  else if cmd =? HWIO_CMD_GET_REMOTE_CALL_ID then deny "GET REMOTE CALL ID: device is not allocated"
  else None.

(** The refusal of a complete message. *)
Definition frame_refusal (dev : Z -> option D) (cmd : Z) (body : list byte) : option (Z * string) :=
  match malformed_refusal (Header cmd (Z.of_nat (length body))) with
  | Some e => Some e
  | None => access_refusal dev cmd body
  end.

Lemma query_numbers_short (n : Z) (a b : string) :
  0 <= n < 2 ^ 32 -> (String.length a + String.length b < 1000)%nat ->
  (length (upto_nul (chars (a +:+ to_dec n +:+ b))) < MAX_ERR_MSG_LEN)%nat.
Proof. intros Hn Hl. apply short_msg_around. pose proof (to_dec_u32_length n Hn). lia. Qed.

Lemma query_refused l s w n code msg :
  length (tx_buffer s) = BUFFER_SIZE -> 0 <= n < 65536 ->
  malformed_refusal (Header HWIO_CMD_QUERY n) = Some (code, msg) ->
  refused code msg (s, w) (handle_msg l (Header HWIO_CMD_QUERY n) (s, w)).
Proof.
  intros Htx Hn. assert (0 <= n / 396 < 2 ^ 32) as Hq.
  { pose proof (Z.div_le_upper_bound n 396 65536 ltac:(lia) ltac:(lia)).
    pose proof (Z.div_pos n 396 ltac:(lia) ltac:(lia)). lia. }
  unfold malformed_refusal, handle_msg. cbv zeta. cbn [command body_len Z.eqb Pos.eqb].
  change (Z.of_nat sizeof_Dev_query_item) with 396. change MAX_ITEMS_PER_QUERY with 5.
  destruct (n =? n / 396 * 396); cbn [negb].
  - destruct ((n / 396 =? 0) || (5 <? n / 396)); intros [= <- <-].
    apply send_err_refused; [done|]. apply query_numbers_short; [done|].
    change (String.length (")" +:+ endl)) with 2%nat. cbn. lia.
  - intros [= <- <-]. apply send_err_refused; [done|]. apply query_numbers_short; [lia|].
    change (String.length ("(not divisible by " +:+ to_dec 396 +:+ ")")) with 22%nat. cbn. lia.
Qed.

(** A refusal decided by the size: the test of the source is the test of
    [malformed_refusal]. *)
Ltac size_refused :=
  match goal with
  | |- (if ?b then _ else None) = _ -> refused _ _ _ ((if ?b' then _ else _) _) =>
      change b' with b; destruct b; [|done]
  end; intros [= <- <-]; apply send_err_refused; [done|short_msg].

Lemma malformed_refused l s w h code msg :
  length (tx_buffer s) = BUFFER_SIZE -> (command h = HWIO_CMD_QUERY -> 0 <= body_len h < 65536) ->
  malformed_refusal h = Some (code, msg) -> refused code msg (s, w) (handle_msg l h (s, w)).
Proof.
  intros Htx Hn. destruct h as [cmd n]. cbn [command body_len] in Hn.
  destruct (Z.eqb_spec cmd HWIO_CMD_QUERY) as [->|Hq]; [by apply query_refused; auto|].
  unfold malformed_refusal, handle_msg. cbv zeta. cbn [command body_len].
  rewrite (proj2 (Z.eqb_neq _ _) Hq).
  destruct (cmd =? HWIO_CMD_REMOTE_CALL_FAST); [unfold handle_fast_remote_call; size_refused|].
  destruct (cmd =? HWIO_CMD_READ); [unfold handle_read; size_refused|].
  destruct (cmd =? HWIO_CMD_WRITE); [unfold handle_write; size_refused|].
  destruct (cmd =? HWIO_CMD_REMOTE_CALL); [unfold handle_remote_call; size_refused|].
  destruct (cmd =? HWIO_CMD_PING_REQUEST); [size_refused|].
  destruct (cmd =? HWIO_CMD_GET_REMOTE_CALL_ID); [unfold handle_get_rpc_fn_id; size_refused|].
  destruct (cmd =? HWIO_CMD_BYE); [done|]. destruct (cmd =? HWIO_CMD_MSG); [done|]. cbn [orb].
  intros [= <- <-]. apply send_err_refused; [done|short_msg].
Qed.

Lemma field_slice off1 n off k (bs : list byte) :
  (off + k <= n)%nat -> field off k (slice off1 n bs) = field (off1 + off) k bs.
Proof. intros H. unfold field. by rewrite slice_slice. Qed.

Section unowned.
Context (l : loc) (c : ClientInfo D) (s : HwioServer W D B) (w : W) (body : list byte) (h : Hwio_packet_header).
Context (Htx : length (tx_buffer s) = BUFFER_SIZE) (Hc : heap s !! l = Some c).
Context (Hrx : rx_holds s body) (Hl : body_len h = Z.of_nat (length body)).

(** The answer buffer may have been written before the check. *)
Lemma check_refused code msg tx (n : nat)
    (k : ClientInfo D -> list byte -> ST (Sys (W:=W) (D:=D) (B:=B)) PProcRes) :
  (n <= length body)%nat ->
  refused code msg (s, w) (k c (slice 0 n body) (set_tx_buffer tx s, w)) ->
  refused code msg (s, w) ((rx_at 0 n ≫= fun bs => on_server (get_client l) ≫= fun c => k c bs)
    (set_tx_buffer tx s, w)).
Proof.
  intros Hn Hk. assert (rx_holds (set_tx_buffer tx s) body) as Hrx' by done.
  erewrite st_bind_ret by (apply (rx_at_run _ w _ 0 n Hrx'); lia).
  by rewrite (st_bind_ret _ _ _ _ _ (get_client_run l c (set_tx_buffer tx s) w Hc)).
Qed.

Lemma refuse_tx code msg tx :
  length tx = BUFFER_SIZE -> (length (upto_nul (chars msg)) < MAX_ERR_MSG_LEN)%nat ->
  refused code msg (s, w) (send_err code msg (set_tx_buffer tx s, w)).
Proof. intros H1 H2. by apply (refused_tx _ _ tx), send_err_refused. Qed.

Lemma same_tx : set_tx_buffer (tx_buffer s) s = s.
Proof. by destruct s. Qed.

Lemma dev_id_field n : (2 <= n)%nat -> field 0 2 (slice 0 n body) = field 0 2 body.
Proof. intros H. by rewrite field_slice. Qed.

(** The id is too large for a write. *)
Lemma write_wrong_id :
  8 <= body_len h -> MAX_DEVICES <= field 0 2 body ->
  refused MALFORMED_PACKET "WRITE: wrong device id" (s, w) (handle_write l h (s, w)).
Proof.
  intros Hn Hid. unfold handle_write. change (Z.of_nat sizeof_WrReq) with 8.
  rewrite (proj2 (Z.ltb_ge _ _)) by done.
  erewrite st_bind_ret by (apply (rx_at_run s w _ 0 sizeof_RdReq Hrx); unfold sizeof_RdReq; lia).
  cbv zeta. change (rq_devId (dec_RdReq (slice 0 sizeof_RdReq body))) with (field 0 2 (slice 0 8 body)).
  rewrite dev_id_field, (proj2 (Z.leb_le _ _)) by lia. apply send_err_refused; [done|short_msg].
Qed.

Context (Hno : client_get_dev c (field 0 2 body) = None).

Lemma read_unowned : body_len h = 8 ->
  refused ACCESS_DENIED "READ: device is not allocated" (s, w) (handle_read l h (s, w)).
Proof.
  intros Hn. unfold handle_read. rewrite (proj2 (Z.eqb_eq _ _)) by done. cbn [negb].
  rewrite <-same_tx. apply check_refused; [unfold sizeof_RdReq; lia|]. cbv zeta.
  change (rq_devId (dec_RdReq (slice 0 sizeof_RdReq body))) with (field 0 2 (slice 0 8 body)).
  rewrite dev_id_field, Hno by lia. apply refuse_tx; [done|short_msg].
Qed.

Lemma write_unowned : 8 <= body_len h -> field 0 2 body < MAX_DEVICES ->
  refused ACCESS_DENIED "WRITE: device is not allocated" (s, w) (handle_write l h (s, w)).
Proof.
  intros Hn Hid. unfold handle_write. change (Z.of_nat sizeof_WrReq) with 8.
  rewrite (proj2 (Z.ltb_ge _ _)) by done.
  erewrite st_bind_ret by (apply (rx_at_run s w _ 0 sizeof_RdReq Hrx); unfold sizeof_RdReq; lia).
  cbv zeta. change (rq_devId (dec_RdReq (slice 0 sizeof_RdReq body))) with (field 0 2 (slice 0 8 body)).
  rewrite dev_id_field, (proj2 (Z.leb_gt _ _)) by lia.
  rewrite (st_bind_ret _ _ _ _ _ (get_client_run _ _ _ w Hc)), Hno.
  apply send_err_refused; [done|short_msg].
Qed.

Lemma remote_call_unowned : 129 <= body_len h ->
  refused ACCESS_DENIED "REMOTE CALL: device is not allocated" (s, w) (handle_remote_call l h (s, w)).
Proof.
  intros Hn. unfold handle_remote_call. change (Z.of_nat sizeof_RemoteCall - 1) with 129.
  rewrite (proj2 (Z.ltb_ge _ _)), <-same_tx by done. apply check_refused; [lia|].
  rewrite dev_id_field, Hno by lia. apply refuse_tx; [done|short_msg].
Qed.

Lemma fast_remote_call_unowned : 5 <= body_len h ->
  refused ACCESS_DENIED "REMOTE CALL: device is not allocated" (s, w) (handle_fast_remote_call l h (s, w)).
Proof.
  intros Hn. unfold handle_fast_remote_call. change (Z.of_nat sizeof_RemoteCallFast - 1) with 5.
  rewrite (proj2 (Z.ltb_ge _ _)), <-same_tx by done. apply check_refused; [lia|].
  rewrite dev_id_field, Hno by lia. apply refuse_tx; [done|short_msg].
Qed.

Lemma rpc_fn_id_unowned : 130 <= body_len h ->
  refused ACCESS_DENIED "GET REMOTE CALL ID: device is not allocated" (s, w)
    (handle_get_rpc_fn_id l h (s, w)).
Proof.
  intros Hn. unfold handle_get_rpc_fn_id. change (Z.of_nat sizeof_GetRemoteCallId) with 130.
  rewrite (proj2 (Z.ltb_ge _ _)), header_stores by done.
  destruct (tx_split s Htx) as (a & b & rest & E & Ha & Hb & Hrest). rewrite E.
  rewrite (found_stores _ a b) by done. apply check_refused; [lia|].
  rewrite dev_id_field, Hno by lia. apply refuse_tx; [|short_msg].
  rewrite !length_app, !le_of_Z_length, enc_header_length, Hrest. done.
Qed.
End unowned.

(** The device named by a message of the right size is not the client's. *)
Lemma access_refused l c s w cmd body code msg :
  length (tx_buffer s) = BUFFER_SIZE -> heap s !! l = Some c -> rx_holds s body ->
  let h := Header cmd (Z.of_nat (length body)) in
  malformed_refusal h = None -> access_refusal (client_get_dev c) cmd body = Some (code, msg) ->
  refused code msg (s, w) (handle_msg l h (s, w)).
Proof.
  intros Htx Hc Hrx h. unfold malformed_refusal, access_refusal, handle_msg, h. cbv zeta.
  cbn [command body_len].
  destruct (cmd =? HWIO_CMD_REMOTE_CALL_FAST).
  { destruct (Z.ltb_spec (Z.of_nat (length body)) 5); [done|]. intros _.
    destruct (client_get_dev _ _) eqn:Hno; [done|]. intros [= <- <-]. by eapply fast_remote_call_unowned. }
  destruct (cmd =? HWIO_CMD_READ).
  { destruct (Z.eqb_spec (Z.of_nat (length body)) 8); [|done]. intros _.
    destruct (client_get_dev _ _) eqn:Hno; [done|]. intros [= <- <-]. by eapply read_unowned. }
  destruct (cmd =? HWIO_CMD_WRITE).
  { destruct (Z.ltb_spec (Z.of_nat (length body)) 8); [done|]. intros _.
    destruct (Z.leb_spec MAX_DEVICES (field 0 2 body)).
    - intros [= <- <-]. by eapply write_wrong_id.
    - destruct (client_get_dev _ _) eqn:Hno; [done|]. intros [= <- <-]. by eapply write_unowned. }
  destruct (cmd =? HWIO_CMD_REMOTE_CALL).
  { destruct (Z.ltb_spec (Z.of_nat (length body)) 129); [done|]. intros _.
    destruct (client_get_dev _ _) eqn:Hno; [done|]. intros [= <- <-]. by eapply remote_call_unowned. }
  destruct (cmd =? HWIO_CMD_PING_REQUEST) eqn:Ep.
  { apply Z.eqb_eq in Ep as ->. done. }
  destruct (cmd =? HWIO_CMD_QUERY) eqn:Eq.
  { apply Z.eqb_eq in Eq as ->. done. }
  destruct (cmd =? HWIO_CMD_GET_REMOTE_CALL_ID); [|done].
  destruct (Z.ltb_spec (Z.of_nat (length body)) 130); [done|]. intros _.
  destruct (client_get_dev _ _) eqn:Hno; [done|]. intros [= <- <-]. by eapply rpc_fn_id_unowned.
Qed.

Lemma frame_refused l c s w cmd body code msg :
  length (tx_buffer s) = BUFFER_SIZE -> heap s !! l = Some c -> rx_holds s body ->
  (cmd = HWIO_CMD_QUERY -> Z.of_nat (length body) < 65536) ->
  frame_refusal (client_get_dev c) cmd body = Some (code, msg) ->
  refused code msg (s, w) (handle_msg l (Header cmd (Z.of_nat (length body))) (s, w)).
Proof.
  intros Htx Hc Hrx Hn. unfold frame_refusal.
  destruct (malformed_refusal _) as [e|] eqn:E.
  - intros [= ->]. apply malformed_refused; [done| |done]. cbn. intros H. specialize (Hn H). lia.
  - by eapply access_refused.
Qed.

(** *** Which messages are refused *)

(** The requests whose body starts with a device id. *)
Definition names_device (cmd : Z) : Prop :=
  cmd ∈ [HWIO_CMD_READ; HWIO_CMD_WRITE; HWIO_CMD_REMOTE_CALL; HWIO_CMD_REMOTE_CALL_FAST;
         HWIO_CMD_GET_REMOTE_CALL_ID].

Lemma unowned_is_refused dev cmd body :
  names_device cmd -> dev (field 0 2 body) = None -> is_Some (frame_refusal dev cmd body).
Proof.
  intros Hcmd Hno. unfold frame_refusal. destruct (malformed_refusal _) as [e|]; [by eexists|].
  unfold access_refusal. rewrite Hno.
  repeat (apply elem_of_cons in Hcmd as [->|Hcmd]); cbn [Z.eqb Pos.eqb]; try by eexists.
  - destruct (MAX_DEVICES <=? _); by eexists.
  - by apply elem_of_nil in Hcmd.
Qed.

(** The messages whose size or command the protocol does not have. *)
Definition malformed (h : Hwio_packet_header) : Prop :=
  (command h = HWIO_CMD_READ /\ body_len h <> 8) \/
  (command h = HWIO_CMD_WRITE /\ body_len h < 8) \/
  (command h = HWIO_CMD_REMOTE_CALL /\ body_len h < 129) \/
  (command h = HWIO_CMD_REMOTE_CALL_FAST /\ body_len h < 5) \/
  (command h = HWIO_CMD_GET_REMOTE_CALL_ID /\ body_len h < 130) \/
  (command h = HWIO_CMD_PING_REQUEST /\ body_len h <> 0) \/
  (command h = HWIO_CMD_QUERY /\
    (body_len h mod 396 <> 0 \/ body_len h = 0 \/ 5 * 396 < body_len h)) \/
  command h ∉ [HWIO_CMD_READ; HWIO_CMD_WRITE; HWIO_CMD_REMOTE_CALL; HWIO_CMD_REMOTE_CALL_FAST;
               HWIO_CMD_GET_REMOTE_CALL_ID; HWIO_CMD_PING_REQUEST; HWIO_CMD_QUERY; HWIO_CMD_BYE;
               HWIO_CMD_MSG].

Lemma query_size (n : Z) :
  0 <= n < 65536 -> n mod 396 <> 0 \/ n = 0 \/ 5 * 396 < n ->
  n = n / 396 * 396 -> n / 396 = 0 \/ 5 < n / 396.
Proof.
  intros Hn Hbad. pose proof (Z.div_mod n 396 ltac:(lia)) as Hdm.
  pose proof (Z.mod_pos_bound n 396 ltac:(lia)) as Hm. lia.
Qed.

Lemma malformed_is_refused h :
  0 <= body_len h < 65536 -> malformed h -> is_Some (malformed_refusal h).
Proof.
  destruct h as [cmd n]. cbn [body_len]. intros Hn Hbad. unfold malformed in Hbad. cbn [command body_len] in Hbad.
  unfold malformed_refusal. cbv zeta. cbn [command body_len].
  destruct Hbad as [[-> H]|[[-> H]|[[-> H]|[[-> H]|[[-> H]|[[-> H]|[[-> H]|H]]]]]]]; cbn [Z.eqb Pos.eqb].
  - rewrite (proj2 (Z.eqb_neq n 8)) by done. by eexists.
  - rewrite (proj2 (Z.ltb_lt n 8)) by done. by eexists.
  - rewrite (proj2 (Z.ltb_lt n 129)) by done. by eexists.
  - rewrite (proj2 (Z.ltb_lt n 5)) by done. by eexists.
  - rewrite (proj2 (Z.ltb_lt n 130)) by done. by eexists.
  - rewrite (proj2 (Z.eqb_neq n 0)) by done. by eexists.
  - pose proof (query_size n Hn H) as Hq.
    destruct (Z.eqb_spec n (n / 396 * 396)) as [E|E]; cbn [negb]; [|by eexists].
    assert ((n / 396 =? 0) || (5 <? n / 396) = true) as ->; [|by eexists].
    apply orb_true_iff. rewrite Z.eqb_eq, Z.ltb_lt. by apply Hq.
  - rewrite !not_elem_of_cons in H. destruct H as (? & ? & ? & ? & ? & ? & ? & ? & ? & _).
    rewrite !(proj2 (Z.eqb_neq _ _)) by done. by eexists.
Qed.

(** ** Properties *)

(** The request was refused with some error. *)
Definition refused_any st (res : outcome PProcRes * Sys (W:=W) (D:=D) (B:=B)) : Prop :=
  exists code msg, refused code msg st res.

(** C11: a complete message that reads, writes or calls a device the client
    does not own is refused, for every content of the message: the devices
    are as before and the client will be disconnected. *)
Theorem unowned_device_refused l c s w header body :
  length (tx_buffer s) = BUFFER_SIZE -> heap s !! l = Some c ->
  rx_holds s body -> Z.of_nat (length body) = body_len header ->
  names_device (command header) -> client_get_dev c (field 0 2 body) = None ->
  refused_any (s, w) (handle_msg l header (s, w)).
Proof.
  intros Htx Hc Hrx Hl Hcmd Hno. destruct header as [cmd n]. cbn [command body_len] in *. subst n.
  destruct (unowned_is_refused _ _ _ Hcmd Hno) as [[code msg] E]. exists code, msg.
  apply (frame_refused l c); try done. intros ->.
  repeat (apply elem_of_cons in Hcmd as [[=]|Hcmd]). by apply elem_of_nil in Hcmd.
Qed.

(** C31: a message of a size the server does not accept for its command, or
    with a command it does not know, is refused for every state of the client:
    the devices are not touched and the client will be disconnected.  The sizes
    are those the code tests: READ other than 8, WRITE below 8, GET_REMOTE_CALL_ID
    below 130, a ping with a body, a QUERY that is not one to five items of 396
    bytes, and a call by name below 129 and by id below 5, which is one less
    than the structures of 130 and 6 bytes that are then read.  A BYE with a
    body and a MSG of any size are not refused. *)
Theorem malformed_request_refused l s w h :
  length (tx_buffer s) = BUFFER_SIZE -> 0 <= body_len h < 65536 -> malformed h ->
  refused_any (s, w) (handle_msg l h (s, w)).
Proof.
  intros Htx Hn Hbad. destruct (malformed_is_refused h Hn Hbad) as [[code msg] E].
  exists code, msg. by apply malformed_refused; auto.
Qed.
End access.

(** The contracts of the code the server calls through pointers: a device's
    [read] that returns has stored the bytes asked for, and a plugin that
    returns has stored its result. *)
Class DevReadExact (W D : Type) `{!IDev W D} : Prop :=
  dev_read_exact : forall d addr n (w w' : W) bs,
    dev_read d addr n (w, []) = (Ret tt, (w', bs)) -> length bs = n.

Definition plugin_exact {W D} (p : plugin_info W D) : Prop :=
  forall d args w ret w', fn p d args w = (Ret ret, w') -> length ret = ret_size p.

Section answers.
Context {W D B : Type} `{!IDev W D} `{!IBus W D B}.
Implicit Types (l : loc) (s : HwioServer W D B) (st : Sys (W:=W) (D:=D) (B:=B)).

(** What may be sent for the result [r]: nothing, an error message of a fixed
    size before a disconnection, or one frame. *)
Definition good_answer (r : PProcRes) (tx : list byte) : Prop :=
  (tx_size r <= BUFFER_SIZE)%nat /\
  (tx_size r = 0%nat \/
   if disconnect r then tx_size r = sizeof_ErrMsg
   else exists cmd body, tx_size r = (3 + length body)%nat /\ Z.of_nat (length body) < 65536 /\
     take (tx_size r) tx = frame cmd body).

(** The server between two messages: the size of the answer buffer, and
    plugins that keep their contract. *)
Definition sys_ok st : Prop :=
  length (tx_buffer st.1) = BUFFER_SIZE /\
  (forall name p, plugins st.1 !! name = Some p -> plugin_exact p) /\
  (forall i p, plugins_fast st.1 !! i = Some p -> plugin_exact p).

(** Every result of the computation is a good answer. *)
Definition ensures (m : ST (Sys (W:=W) (D:=D) (B:=B)) PProcRes) : Prop :=
  forall st r st', sys_ok st -> m st = (Ret r, st') -> sys_ok st' /\ good_answer r (tx_buffer st'.1).

Definition keeps_ok st st' : Prop := sys_ok st -> sys_ok st'.

#[local] Instance keeps_ok_preorder : PreOrder keeps_ok.
Proof. split; [by intros st ?|]. unfold keeps_ok. intros s1 s2 s3. auto. Qed.

Lemma frame_ok l st st' : client_frame l st.1 st'.1 -> sys_ok st -> sys_ok st'.
Proof.
  intros [M _ _ _] (H1 & H2 & H3). unfold sys_ok.
  by rewrite (kept_tx _ _ M), (kept_plugins _ _ M), (kept_fast _ _ M).
Qed.

(** A computation within the frame of every client keeps the server ready. *)
Lemma frame_keeps_ok {A} (m : ST (Sys (W:=W) (D:=D) (B:=B)) A) :
  (forall l, within (sys_frame l) m) -> within keeps_ok m.
Proof. intros H st Hok. eapply frame_ok; [apply (H _ st eq_refl)|exact Hok]. Qed.

Lemma ensures_bind {A} (m : ST (Sys (W:=W) (D:=D) (B:=B)) A) f :
  within keeps_ok m -> (forall a, ensures (f a)) -> ensures (m ≫= f).
Proof.
  intros Hm Hf st r st' Hok H. apply st_bind_inv in H as (a & st1 & H1 & H2).
  eapply Hf; [|exact H2]. specialize (Hm st). rewrite H1 in Hm. by apply Hm.
Qed.

Lemma ensures_undef f : ensures (st_undef f).
Proof. intros st r st' _ [=]. Qed.

Lemma ensures_quiet b : ensures (mret (PRes b 0)).
Proof.
  intros st r st' Hok [<- <-]%st_ret_inv. split; [done|]. split; [cbn; lia|by left].
Qed.

Lemma ensures_send_err code msg : ensures (send_err code msg).
Proof.
  intros st r st' Hok H.
  assert (sys_ok st') as Hk.
  { change st' with (Ret r, st').2. rewrite <-H.
    apply frame_keeps_ok; [|done]. intros l. apply within_send_err. }
  assert (r = PRes true sizeof_ErrMsg) as ->.
  { unfold send_err in H. do 4 (apply st_bind_inv in H as (? & ? & _ & H)).
    destruct (cstr _); [|done]. apply st_bind_inv in H as (? & ? & _ & H).
    by apply st_ret_inv in H as [<- _]. }
  split; [done|]. split; [cbn; unfold sizeof_ErrMsg, BUFFER_SIZE; lia|by right].
Qed.

Lemma ensures_bool (b : bool) m1 m2 : ensures m1 -> ensures m2 -> ensures (if b then m1 else m2).
Proof. by destruct b. Qed.

(** A response built as a header and a body. *)
Lemma good_frame cmd body rest :
  (3 + length body <= BUFFER_SIZE)%nat ->
  good_answer (PRes false (3 + length body))
    (enc_header (Header cmd (Z.of_nat (length body))) ++ body ++ rest).
Proof.
  intros H. split; [done|]. right. cbn [disconnect tx_size]. exists cmd, body.
  split_and!; [done|unfold BUFFER_SIZE in H; lia|].
  rewrite app_assoc. by apply take_app_length'.
Qed.

(** The tail of [handle_read]. *)
Lemma ensures_read {HD : DevReadExact W D} dev addr n :
  0 <= n < 65536 ->
  ensures (tx_store 0 (le_of_Z 1 HWIO_CMD_READ_RESP) ≫= fun _ =>
    tx_store 1 (le_of_Z 2 n) ≫= fun _ =>
    st_try (read_to_tx dev addr 3 (Z.to_nat n) ≫= fun _ => mret (PRes false (3 + Z.to_nat n)))
      (fun _ => send_err IO_ERROR "Can not read from device")).
Proof.
  intros Hn [s w] r st' [Hok Hpl] H. rewrite header_stores in H by exact Hok.
  cbn [fst] in Hok.
  match type of H with st_try _ _ (?s', _) = _ => set (s1 := s') in * end.
  assert (length (tx_buffer s1) = BUFFER_SIZE) as Hok1.
  { unfold s1. cbn [tx_buffer set_tx_buffer].
    rewrite length_app, length_drop, enc_header_length, Hok. done. }
  unfold st_try in H.
  destruct (dev_read dev addr (Z.to_nat n) (w, [])) as [rd [w' bs]] eqn:E.
  pose proof (read_to_tx_run _ _ _ s1 w _ _ _ E) as Hrun.
  destruct (Nat.leb_spec (3 + length bs) (length (tx_buffer s1))) as [Hfit|Hbig].
  2: { by rewrite (st_bind_undef _ _ _ _ _ Hrun) in H. }
  destruct rd as [[]|e|f].
  - rewrite (st_bind_ret _ _ _ _ _ Hrun) in H.
    assert (PRes false (3 + Z.to_nat n) = r /\ (set_tx_buffer (splice 3 bs (tx_buffer s1)) s1, w') = st')
      as [<- <-] by (by injection H).
    apply dev_read_exact in E. split.
    { split; [|done]. cbn [fst tx_buffer set_tx_buffer]. by rewrite splice_length. }
    change (tx_buffer (set_tx_buffer (splice 3 bs (tx_buffer s1)) s1, w').1)
      with (splice 3 bs (enc_header (Header HWIO_CMD_READ_RESP n) ++ drop 3 (tx_buffer s))).
    rewrite splice_prefix by done. rewrite <-E.
    replace n with (Z.of_nat (length bs)) by lia. apply good_frame.
    lia.
  - rewrite (st_bind_throw _ _ _ _ _ Hrun) in H. destruct (is_runtime_error e); [|done].
    eapply ensures_send_err; [|exact H]. split; [|done].
    cbn [fst tx_buffer set_tx_buffer]. by rewrite splice_length.
  - by rewrite (st_bind_undef _ _ _ _ _ Hrun) in H.
Qed.

Lemma answered_good cmd body st r st' :
  answered cmd body st (Ret r, st') ->
  (tx_size r <= BUFFER_SIZE)%nat /\ length (tx_buffer st'.1) = BUFFER_SIZE /\
  good_answer r (tx_buffer st'.1).
Proof.
  intros ([= ->] & tx & E & Hl & [rest Hp]). cbn in E. subst st'. cbn [fst tx_buffer set_tx_buffer].
  rewrite Hp in *. pose proof Hl as Hl2. rewrite length_app, frame_length in Hl2.
  split_and!; [cbn [tx_size]; lia|done|]. unfold frame in *. rewrite <-app_assoc.
  apply good_frame. lia.
Qed.

Lemma ensures_call_plugin p dev args : plugin_exact p -> ensures (call_plugin p dev args).
Proof.
  intros Hp [s w] r st' [Hok Hpl] H.
  assert (sys_ok st') as Hok'.
  { change st' with (Ret r, st').2. rewrite <-H.
    apply frame_keeps_ok; [|done]. intros l. apply within_call_plugin. }
  split; [done|]. pose proof (call_plugin_called p dev args s w Hok) as Hc.
  rewrite H in Hc. unfold plugin_called in Hc.
  destruct (fn p dev args w) as [[ret|e|f] w'] eqn:E; [|clear Hc|done].
  - specialize (Hc (Hp _ _ _ _ _ E)). destruct (2045 <? ret_size p)%nat; [done|].
    destruct (ret_size p =? 0)%nat; [|by apply answered_good in Hc as (_ & _ & ?)].
    destruct Hc as ([= ->] & _). split; [cbn; lia|by left].
  - unfold call_plugin in H. rewrite header_stores in H by exact Hok. unfold st_try in H.
    rewrite (st_bind_throw _ _ _ _ _ (on_world_run _ _ w _ _ E)) in H.
    destruct (is_runtime_error e); [|done]. eapply ensures_send_err; [|exact H].
    split; [|done]. cbn [fst tx_buffer set_tx_buffer] in *.
    rewrite length_app, length_drop, enc_header_length, Hok. done.
Qed.

(** Reading the message changes nothing. *)
Definition unchanged st st' : Prop := st = st'.
#[local] Instance unchanged_preorder : PreOrder unchanged.
Proof. split; [done|]. intros ??? H1 H2. unfold unchanged in *. congruence. Qed.

Lemma get_client_same l : within unchanged (on_server (get_client (W:=W) (D:=D) (B:=B) l)).
Proof.
  intros [s w]. unfold unchanged, on_server, st_fst, get_client. cbn.
  by destruct (heap s !! l).
Qed.

Lemma rx_mem_same : within unchanged (rx_mem (W:=W) (D:=D) (B:=B)).
Proof.
  intros [s w]. unfold unchanged, rx_mem, on_server, st_fst, mbind, ST_bind, get_client. cbn.
  by destruct (heap s !! _).
Qed.

Hint Resolve get_client_same rx_mem_same : frame.

Lemma rx_at_same off n : within unchanged (rx_at (W:=W) (D:=D) (B:=B) off n).
Proof. unfold rx_at. frame. Qed.
Lemma rx_cstr_same off : within unchanged (rx_cstr (W:=W) (D:=D) (B:=B) off).
Proof. unfold rx_cstr. frame. Qed.

Lemma same_bind_inv {A C} (m : ST (Sys (W:=W) (D:=D) (B:=B)) A) (f : A -> ST Sys C) st c st' :
  within unchanged m -> (m ≫= f) st = (Ret c, st') -> exists a, f a st = (Ret c, st').
Proof.
  intros Hm H. apply st_bind_inv in H as (a & st1 & H1 & H2). exists a.
  specialize (Hm st). rewrite H1 in Hm. unfold unchanged in Hm. cbn in Hm. by subst.
Qed.

Lemma ensures_rpc_fn_id l h : ensures (handle_get_rpc_fn_id l h).
Proof.
  unfold handle_get_rpc_fn_id. apply ensures_bool; [apply ensures_send_err|].
  intros [s w] r st' [Hok Hpl] H.
  rewrite header_stores in H by exact Hok. change (Z.of_nat sizeof_GetRemoteCallIdResp) with 5 in H.
  destruct (tx_split s Hok) as (a & b & rest & E & Ha & Hb & Hrest). rewrite E in H.
  rewrite (found_stores _ a b) in H by done.
  match type of H with _ (set_tx_buffer ?tx _, _) = _ => set (tx1 := tx) in * end.
  apply same_bind_inv in H as [bs H]; [|apply rx_at_same].
  apply same_bind_inv in H as [c H]; [|apply get_client_same].
  destruct (client_get_dev c _) as [d|].
  2: { eapply ensures_send_err; [|exact H]. split; [|done]. cbn [fst tx_buffer set_tx_buffer].
       unfold tx1. by rewrite !length_app, !le_of_Z_length, enc_header_length, Hrest. }
  apply same_bind_inv in H as [name H]; [|apply rx_cstr_same].
  rewrite (st_bind_ret (on_server st_get) _ _ _ _ (server_get_run _)) in H.
  destruct (find_fn_id _ name 0) as [i|].
  - rewrite st_bind_assoc_run in H. unfold tx1 in H.
    rewrite (found_stores _ (le_of_Z 1 0)) in H by done.
    pose proof (rpc_id_answered true (Z.of_nat i) rest s w Hrest) as Han.
    change (Z.b2z true) with 1 in Han. rewrite H in Han.
    destruct (proj2 Han) as (tx & E2 & Ht & _). apply answered_good in Han as (_ & ? & ?).
    cbn in E2. subst st'. done.
  - erewrite (st_bind_ret (mret tt)) in H by done. unfold tx1 in H.
    pose proof (rpc_id_answered false (-1) rest s w Hrest) as Han.
    change (Z.b2z false) with 0 in Han. rewrite H in Han.
    destruct (proj2 Han) as (tx & E2 & Ht & _). apply answered_good in Han as (_ & ? & ?).
    cbn in E2. subst st'. done.
Qed.

(** *** The query *)

(** Registering devices leaves the answer and the plugins alone. *)
Definition answer_kept st st' : Prop :=
  tx_buffer st'.1 = tx_buffer st.1 /\ plugins st'.1 = plugins st.1 /\
  plugins_fast st'.1 = plugins_fast st.1.

#[local] Instance answer_kept_preorder : PreOrder answer_kept.
Proof.
  split; [done|]. intros ??? (?&?&?) (?&?&?). unfold answer_kept. split_and!; congruence.
Qed.

Lemma register_device_kept l dev : within answer_kept (register_device (B:=B) l dev).
Proof.
  intros [s w]. unfold register_device, mbind, ST_bind, on_server, st_fst, on_world, st_snd, get_client.
  cbn [fst snd]. destruct (heap s !! l) as [c|]; [|done].
  destruct (find_registered _ _ _ _) as [[[] id] fe]; [done|].
  destruct (fe <? 0).
  - destruct (_ =? id); [|done]. unfold put_client, st_modify, mret, ST_ret. cbn [fst snd].
    by destruct (attach dev w) as [[] ?].
  - unfold put_client, st_modify, mret, ST_ret. cbn [fst snd].
    by destruct (attach dev w) as [[] ?].
Qed.

Lemma set_same_tx s tx : tx_buffer s = tx -> set_tx_buffer tx s = s.
Proof. intros <-. by destruct s. Qed.

(** One id is stored, or the answer overflows. *)
Lemma store_id_inv ids rest id (k : unit -> ST (Sys (W:=W) (D:=D) (B:=B)) unit) st st' :
  tx_buffer st.1 = ids_tx ids rest -> length (ids_tx ids rest) = BUFFER_SIZE ->
  (tx_field 1 2 ≫= fun len => tx_store 1 (le_of_Z 2 (len + 2)) ≫= fun _ =>
   tx_store (3 + 2 * length ids) (le_of_Z 2 id) ≫= k) st = (Ret tt, st') ->
  length (ids_tx (ids ++ [id]) (drop 2 rest)) = BUFFER_SIZE /\
  k tt (set_tx_buffer (ids_tx (ids ++ [id]) (drop 2 rest)) st.1, st.2) = (Ret tt, st').
Proof.
  destruct st as [s w]. cbn [fst snd]. intros Htx Hl H. rewrite <-(set_same_tx s _ Htx) in H.
  assert (length (ids_tx ids rest) = 3 + 2 * length ids + length rest)%nat as Hlen.
  { unfold ids_tx. by rewrite !length_app, enc_ids_length, enc_header_length, Nat.add_assoc. }
  destruct (decide (2 <= length rest)%nat) as [Hr|Hr].
  - rewrite store_id_run in H by lia. split; [|done].
    unfold ids_tx. rewrite !length_app, enc_ids_length, length_app, length_drop, enc_header_length.
    cbn [length]. lia.
  - exfalso. unfold BUFFER_SIZE in Hl.
    erewrite (st_bind_ret (tx_field 1 2)) in H by done.
    erewrite st_bind_ret in H.
    2: { apply tx_store_run. cbn [fst snd tx_buffer set_tx_buffer]. rewrite le_of_Z_length. lia. }
    erewrite st_bind_undef in H; [done|]. apply tx_store_oob.
    cbn [fst snd tx_buffer set_tx_buffer]. rewrite splice_length; rewrite !le_of_Z_length; lia.
Qed.

Lemma lookup_loop_inv l ds ids rest st st' :
  tx_buffer st.1 = ids_tx ids rest -> length (ids_tx ids rest) = BUFFER_SIZE ->
  lookup_loop l ds (length ids) st = (Ret tt, st') ->
  exists ids' rest', tx_buffer st'.1 = ids_tx ids' rest' /\
    length (ids_tx ids' rest') = BUFFER_SIZE /\
    plugins st'.1 = plugins st.1 /\ plugins_fast st'.1 = plugins_fast st.1.
Proof.
  revert ids rest st. induction ds as [|d t IH]; intros ids rest st Htx Hl H; cbn [lookup_loop] in H.
  { apply st_ret_inv in H as [_ <-]. by exists ids, rest. }
  apply st_bind_inv in H as (id & st1 & H1 & H).
  pose proof (register_device_kept l d st) as (K1 & K2 & K3). rewrite H1 in K1, K2, K3.
  cbn [snd] in K1, K2, K3. rewrite <-K1 in Htx.
  apply (store_id_inv ids rest) in H as [Hl2 H]; [|done..].
  replace (S (length ids)) with (length (ids ++ [id])) in H by (rewrite length_app; cbn; lia).
  apply (IH _ (drop 2 rest)) in H as (ids' & rest' & E1 & E2 & E3 & E4); [|done|done].
  cbn in E3, E4. exists ids', rest'. split_and!; congruence.
Qed.

Lemma extractSpec_same k cnt : within unchanged (extractSpec (W:=W) (D:=D) (B:=B) k cnt).
Proof.
  revert k. induction cnt as [|n IH]; intros k; cbn [extractSpec]; [frame|].
  repeat (first [apply within_bind; [apply _|first [apply rx_cstr_same|apply rx_at_same|apply IH]|intros ?]]).
  frame.
Qed.

Lemma find_on_buses_kept bs spec : within answer_kept (find_on_buses (W:=W) (D:=D) (B:=B) bs spec).
Proof.
  induction bs as [|b t IH]; cbn [find_on_buses]; [frame|].
  apply within_bind; [apply _| |intros ds].
  - intros [s w]. unfold on_world, st_snd. cbn. by destruct (find_devices b spec w).
  - apply within_bind; [apply _|exact IH|intros res; frame].
Qed.

Lemma ids_tx_good ids rest :
  length (ids_tx ids rest) = BUFFER_SIZE ->
  good_answer (PRes false (3 + Z.to_nat (field 1 2 (ids_tx ids rest)))) (ids_tx ids rest).
Proof.
  intros Hl. assert (3 + length (enc_ids ids) <= BUFFER_SIZE)%nat as Hb.
  { rewrite <-Hl. unfold ids_tx. rewrite !length_app, enc_header_length. lia. }
  rewrite enc_ids_length in Hb. unfold BUFFER_SIZE in Hb.
  assert (field 1 2 (ids_tx ids rest) = 2 * Z.of_nat (length ids)) as ->.
  { unfold ids_tx. rewrite field_app_l by (cbn; lia).
    change (field 1 2 _) with (le_to_Z (le_of_Z 2 (2 * Z.of_nat (length ids)))).
    apply (le_to_Z_small 2). change (256 ^ Z.of_nat 2) with 65536. lia. }
  replace (Z.to_nat (2 * Z.of_nat (length ids))) with (length (enc_ids ids))
    by (rewrite enc_ids_length; lia).
  unfold ids_tx. replace (2 * Z.of_nat (length ids)) with (Z.of_nat (length (enc_ids ids)))
    by (rewrite enc_ids_length; lia).
  apply good_frame. rewrite enc_ids_length. unfold BUFFER_SIZE. lia.
Qed.

Lemma ensures_device_lookup l cnt : ensures (device_lookup_resp l cnt).
Proof.
  intros [s w] r st' [Hok Hpl] H. cbn [fst] in Hok. unfold device_lookup_resp in H.
  apply same_bind_inv in H as [spec H]; [|apply extractSpec_same].
  erewrite st_bind_ret in H by (apply tx_store_run; rewrite Hok; unfold BUFFER_SIZE; cbn; lia).
  rewrite (st_bind_ret _ _ _ _ _ (server_get_run _)) in H.
  apply st_bind_inv in H as (ds & [s1 w1] & Hf & H).
  match type of Hf with find_on_buses ?b ?sp ?st0 = _ =>
    pose proof (find_on_buses_kept b sp st0) as K end.
  rewrite Hf in K.
  destruct K as (K1 & K2 & K3). cbn [fst snd tx_buffer set_tx_buffer plugins plugins_fast] in K1, K2, K3.
  set (rest := drop 3 (tx_buffer s)).
  assert (length (tx_buffer s1) = 2048%nat) as Hl1.
  { rewrite K1, splice_length; [done|]. rewrite Hok. unfold BUFFER_SIZE. cbn. lia. }
  erewrite st_bind_ret in H by (apply tx_store_run; rewrite Hl1; cbn; lia).
  assert (splice 1 (le_of_Z 2 0) (tx_buffer s1) = ids_tx [] rest) as Etx.
  { rewrite K1, splice_0, splice_prefix by done. rewrite !le_of_Z_length, drop_drop. done. }
  rewrite Etx in H.
  apply st_bind_inv in H as ([] & st2 & H2 & H).
  apply (lookup_loop_inv l ds [] rest) in H2 as (ids & rest' & E1 & E2 & E3 & E4); [|done|].
  2: { rewrite <-Etx, splice_length; [done|]. rewrite Hl1. cbn. lia. }
  cbn [fst plugins plugins_fast set_tx_buffer] in E3, E4.
  apply st_bind_inv in H as (len & st3 & H3 & H). apply st_ret_inv in H as [<- <-].
  assert (field 1 2 (ids_tx ids rest') = len /\ st2 = st3) as [<- <-].
  { destruct st2 as [s2 w2]. cbn [fst] in E1. rewrite <-E1. injection H3 as <- <-. done. }
  rewrite E1. split; [|by apply ids_tx_good].
  split; [congruence|]. rewrite E3, E4, K2, K3. exact Hpl.
Qed.

Lemma ensures_ping :
  ensures (tx_store 0 (le_of_Z 1 HWIO_CMD_PING_REPLY) ≫= fun _ =>
           tx_store 1 (le_of_Z 2 0) ≫= fun _ => mret (PRes false sizeof_header)).
Proof.
  intros [s w] r st' [Hok Hpl] H. rewrite header_stores in H by exact Hok.
  apply st_ret_inv in H as [<- <-]. cbn [fst] in Hok. split.
  - split; [|done]. cbn [fst tx_buffer set_tx_buffer].
    by rewrite length_app, length_drop, enc_header_length, Hok.
  - cbn [fst tx_buffer set_tx_buffer]. apply (good_frame HWIO_CMD_PING_REPLY []).
    unfold BUFFER_SIZE. cbn. lia.
Qed.

(** *** The read and write requests, the calls *)

Hint Resolve within_get_client within_server_get within_rx_at within_rx_cstr within_rx_mem
  within_rx_zero within_tx_store within_on_world : frame.

Lemma ensures_step {A} (m : ST (Sys (W:=W) (D:=D) (B:=B)) A) f :
  (forall l, within (sys_frame l) m) -> (forall a, ensures (f a)) -> ensures (m ≫= f).
Proof. intros Hm. by apply ensures_bind, frame_keeps_ok. Qed.

Lemma field_range off n bs : 0 <= field off n bs < 256 ^ Z.of_nat n.
Proof.
  unfold field. pose proof (le_to_Z_bound (slice off n bs)) as H.
  assert (length (slice off n bs) <= n)%nat as Hn by (unfold slice; rewrite length_take; lia).
  split; [lia|]. eapply Z.lt_le_trans; [apply H|]. apply Z.pow_le_mono_r; lia.
Qed.

Lemma ensures_handle_read {HD : DevReadExact W D} l h : ensures (handle_read l h).
Proof.
  unfold handle_read. apply ensures_bool; [apply ensures_send_err|].
  apply ensures_step; [auto with frame|intros bs]. cbv zeta.
  apply ensures_step; [auto with frame|intros c].
  destruct (client_get_dev _ _) as [dev|]; [|apply ensures_send_err].
  apply ensures_read. apply (field_range 6 2).
Qed.

Lemma ensures_handle_write l h : ensures (handle_write l h).
Proof.
  unfold handle_write. apply ensures_bool; [apply ensures_send_err|].
  apply ensures_step; [auto with frame|intros bs]. cbv zeta.
  apply ensures_bool; [apply ensures_send_err|].
  apply ensures_step; [auto with frame|intros c].
  destruct (client_get_dev _ _) as [dev|]; [|apply ensures_send_err].
  do 2 (apply ensures_step; [auto with frame|intros ?]). apply ensures_quiet.
Qed.

(** The plugins of the state at the look-up are the installed ones. *)
Lemma ensures_get_server f :
  (forall st, sys_ok st -> ensures (f st.1)) -> ensures (on_server st_get ≫= f).
Proof.
  intros Hf st r st' Hok H. rewrite (st_bind_ret _ _ _ _ _ (server_get_run _)) in H.
  by eapply Hf.
Qed.

Lemma ensures_remote_call l h : ensures (handle_remote_call l h).
Proof.
  unfold handle_remote_call. apply ensures_bool; [apply ensures_send_err|].
  do 2 (apply ensures_step; [auto with frame|intros ?]).
  destruct (client_get_dev _ _) as [dev|]; [|apply ensures_send_err].
  apply ensures_step; [auto with frame|intros name].
  apply ensures_get_server. intros st (_ & Hp & _).
  destruct (plugins st.1 !! name) as [p|] eqn:E; [|apply ensures_send_err].
  apply ensures_step; [auto with frame|intros m]. apply ensures_call_plugin. by eapply Hp.
Qed.

Lemma ensures_fast_remote_call l h : ensures (handle_fast_remote_call l h).
Proof.
  unfold handle_fast_remote_call. apply ensures_bool; [apply ensures_send_err|].
  do 2 (apply ensures_step; [auto with frame|intros ?]).
  destruct (client_get_dev _ _) as [dev|]; [|apply ensures_send_err].
  apply ensures_step; [auto with frame|intros fbs]. cbv zeta.
  apply ensures_get_server. intros st (_ & _ & Hp).
  destruct (plugins_fast st.1 !! _) as [p|] eqn:E; [|apply ensures_send_err].
  apply ensures_step; [auto with frame|intros m]. apply ensures_call_plugin. by eapply Hp.
Qed.

(** C12: for every message, whatever its bytes: when the handler returns, the
    bytes to send fit the answer buffer, and they are nothing, an error
    message of fixed size that ends the connection, or exactly one frame whose
    header gives the length of its body. *)
Theorem handle_msg_answers {HD : DevReadExact W D} l header st r st' :
  sys_ok st -> handle_msg l header st = (Ret r, st') ->
  sys_ok st' /\ good_answer r (tx_buffer st'.1).
Proof.
  revert st r st'. change (ensures (handle_msg l header)). unfold handle_msg. cbv zeta.
  repeat match goal with |- ensures (if _ then _ else _) => apply ensures_bool end;
    try apply ensures_send_err; try apply ensures_quiet.
  - apply ensures_fast_remote_call.
  - apply ensures_handle_read.
  - apply ensures_handle_write.
  - apply ensures_remote_call.
  - apply ensures_ping.
  - apply ensures_device_lookup.
  - apply ensures_rpc_fn_id.
  - apply ensures_step; [auto with frame|intros ?]. apply ensures_quiet.
Qed.
End answers.
