(* ===== verification/ServerLoop.v ===== *)
(** * HwioServer: sockets, message framing and the poll loop

    Models [prepare_server_socket], [read_from_socket], [parse_msgs],
    [handle_multiple_client_requests] and [pool_client_msgs] of
    [src/server/hwio_server.cpp].  What the sockets do is the state [Net]: the
    results [recv], [send], [accept] and [ppoll] will give, in order, and the
    bytes sent so far.  [Platform] holds what the C++ language leaves open. *)

From Stdlib Require Import ZArith Lia Ascii String.
From stdpp Require Import base tactics list numbers strings gmap fin_maps.
From S2P Require Import Prelude CxxString Version CompSpec Device Bus Wire Server ServerHandlers.

Definition POLLIN : Z := 1.
Definition POLLERR : Z := 8.
Definition POLLHUP : Z := 16.
Definition POLLNVAL : Z := 32.
Definition MAX_PENDING_CONNECTIONS : Z := 32.

(** The value read from the member [fd] of a deleted [ClientInfo] whose
    descriptor was the argument, about which nothing is assumed; the storage
    of a new [ClientInfo]. *)
Class Platform := {
  freed_fd : Z -> Z;
  fresh_storage : loc -> list byte;
  fresh_storage_length l : length (fresh_storage l) = RX_BUFFER_SIZE
}.

(** The result of one [recv]: bytes, [EAGAIN]/[EWOULDBLOCK]/[EINTR], another
    error, or 0. *)
Inductive recv_event := RecvData (bs : list byte) | RecvAgain | RecvError | RecvEof.

(** The result of one [send]: the most bytes it takes, a retry, or an error. *)
Inductive send_event := SendOk (n : nat) | SendAgain | SendError.

(** The result of one [ppoll]; [revents] by the position in [poll_fds]. *)
Inductive poll_event := PollTimeout | PollInterrupted | PollError (errno : Z)
  | PollEvents (revents : list Z).

(** A [send] after the listed ones takes all its bytes; a [recv] or [ppoll]
    after the listed ones never returns. *)
Record Net := MkNet {
  net_in : gmap Z (list recv_event);
  net_send : list send_event;
  net_sent : list (Z * list byte);
  net_accept : list Z;
  net_poll : list poll_event
}.

(** The socket calls of [prepare_server_socket]. *)
Class SocketApi := {
  api_socket : Z;
  api_setsockopt : Z -> string -> Z;
  api_bind : Z -> Z;
  api_listen : Z -> Z -> Z;
  api_gai_strerror : Z -> string
}.

Section prepare.
Context {W D B : Type} {SA : SocketApi} {VG : VectorGrowth}.

Definition server_error (msg : string) : exn :=
  Exn EX_runtime_error ("[HWIO, server]" +:+ msg).

Definition set_master (fd : Z) (s : HwioServer W D B) : HwioServer W D B :=
  Server fd (client_timeout s) (rx_buffer s) (tx_buffer s) (poll_fds s) (poll_cap s)
    (removed_poll_fds s) (fd_to_client s) (clients s) (buses s) (plugins s) (plugins_fast s)
    (plugins_fast_names s) (heap s) (next_loc s) (closed s).

(** [HwioServer::prepare_server_socket]; [revents] of the new [pollfd] is not
    initialised, here 0. *)
Definition prepare_server_socket : ST (HwioServer W D B) unit :=
  let fd := api_socket in
  st_modify (set_master fd) ≫= fun _ =>
  if fd =? 0 then
    st_throw (server_error ("hwio_server socket failed: " +:+ api_gai_strerror fd))
  else if api_setsockopt fd "SO_REUSEADDR" <? 0 then
    st_throw (server_error ("hwio_server setsockopt SO_REUSEADDR failed: " +:+ api_gai_strerror fd))
  else if api_setsockopt fd "SO_KEEPALIVE" <? 0 then
    st_throw (server_error ("hwio_server setsockopt SO_KEEPALIVE failed: " +:+ api_gai_strerror fd))
  else
    let err := api_bind fd in
    if err <? 0 then
      st_throw (server_error ("hwio_server bind failed: " +:+ api_gai_strerror err))
    else
      let err := api_listen fd MAX_PENDING_CONNECTIONS in
      if err <? 0 then
        st_throw (server_error ("hwio_server listen failed: " +:+ api_gai_strerror err))
      else push_poll_fd (PollFd fd 0).
End prepare.

Section loop.
Context {W D B : Type} `{!IDev W D} `{!IBus W D B} {VG : VectorGrowth} {PL : Platform}.

(** The server, the devices and the sockets. *)
Definition World : Type := Sys (W:=W) (D:=D) (B:=B) * Net.

Definition in_sys {A} (m : ST (Sys (W:=W) (D:=D) (B:=B)) A) : ST World A := st_fst m.
Definition in_server {A} (m : ST (HwioServer W D B) A) : ST World A := st_fst (on_server m).
Definition in_net {A} (m : ST Net A) : ST World A := st_snd m.

(** ** Receiving *)

(** [memcpy(buffer, buffer + off, n)]: undefined when the [n] bytes at [off]
    overlap the first [n]. *)
Definition memcpy_front (off n : nat) (buf : list byte) : outcome (list byte) :=
  if (n <=? off)%nat then Ret (splice 0 (slice off n buf) buf) else Undef OverlappingCopy.

(** The bytes of the partial message are moved to the front. *)
Definition compact (rx : RxBuffer) : outcome RxBuffer :=
  if (0 <? curr_len rx)%nat then
    if negb (curr_ptr rx =? 0)%nat then
      memcpy_front (curr_ptr rx) (curr_len rx) (rb_buffer rx) ≫= fun buffer =>
      mret (Rx buffer 0 (curr_len rx))
    else mret rx
  else mret (Rx (rb_buffer rx) 0 (curr_len rx)).

(** The loop around [recv(fd, rd_ptr, rd_len, MSG_DONTWAIT)]: the bytes
    received, none on an error or 0, and the events left. *)
Fixpoint recv_loop (rd_len : nat) (evs : list recv_event) :
    outcome (option (list byte) * list recv_event) :=
  match evs with
  | [] => Undef Hang
  | RecvAgain :: t => recv_loop rd_len t
  | RecvError :: t => Ret (None, t)
  | RecvEof :: t => Ret (None, evs)
  | RecvData bs :: t =>
      match take rd_len bs with
      | [] => Ret (None, evs)
      | got => Ret (Some got,
          match drop rd_len bs with [] => t | more => RecvData more :: t end)
      end
  end.

Definition net_recv (fd : Z) (rd_len : nat) : ST Net (option (list byte)) := fun n =>
  match recv_loop rd_len (default [] (net_in n !! fd)) with
  | Ret (r, evs) => (Ret r, MkNet (<[fd := evs]> (net_in n)) (net_send n) (net_sent n)
                             (net_accept n) (net_poll n))
  | Throw e => (Throw e, n)
  | Undef f => (Undef f, n)
  end.

Definition with_rx (c : ClientInfo D) (rx : RxBuffer) : ClientInfo D :=
  Client (ci_id c) (ci_fd c) rx (ci_devices c).

(** [HwioServer::read_from_socket] *)
Definition read_from_socket (client : loc) : ST World bool :=
  in_server (get_client client) ≫= fun c =>
  st_lift (compact (ci_rx c)) ≫= fun rx =>
  in_server (put_client client (with_rx c rx)) ≫= fun _ =>
  in_net (net_recv (ci_fd c) (RX_BUFFER_SIZE - curr_len rx)) ≫= fun r =>
  match r with
  | None => mret false
  | Some bs =>
      in_server (put_client client (with_rx c
        (Rx (splice (curr_len rx) bs (rb_buffer rx)) (curr_ptr rx) (curr_len rx + length bs))))
        ≫= fun _ => mret true
  end.

(** ** Sending *)

(** The loop around [send]: is the answer sent, the bytes taken, the events
    left. *)
Fixpoint send_loop (evs : list send_event) (bytes : list byte) :
    bool * list byte * list send_event :=
  match bytes with
  | [] => (true, [], evs)
  | _ =>
      match evs with
      | [] => (true, bytes, [])
      | SendAgain :: t => send_loop t bytes
      | SendError :: t => (false, [], t)
      | SendOk n :: t =>
          let '(ok, sent, evs') := send_loop t (drop n bytes) in (ok, take n bytes ++ sent, evs')
      end
  end.

Definition net_send_all (fd : Z) (bytes : list byte) : ST Net bool := fun n =>
  let '(ok, sent, evs) := send_loop (net_send n) bytes in
  (Ret ok, MkNet (net_in n) evs (net_sent n ++ [(fd, sent)]) (net_accept n) (net_poll n)).

(** [if (respMeta.tx_size) while (bytesWr < respMeta.tx_size) ...] *)
Definition send_answer (client : loc) (respMeta : PProcRes) : ST World PProcRes :=
  if (tx_size respMeta =? 0)%nat then mret respMeta
  else
    in_server (get_client client) ≫= fun c =>
    in_server st_get ≫= fun s =>
    if (tx_size respMeta <=? length (tx_buffer s))%nat then
      in_net (net_send_all (ci_fd c) (take (tx_size respMeta) (tx_buffer s))) ≫= fun ok =>
      mret (if ok : bool then respMeta else PRes true 0)
    else st_undef OutOfBounds.

(** ** The messages in the buffer *)

Definition push_removed (fd : Z) : ST World unit :=
  in_server (st_modify (fun s => set_removed (removed_poll_fds s ++ [fd]) s)).

(** One complete message of the client: its dispatch and its answer. *)
Definition serve_message (client : loc) (off : nat) (header : Hwio_packet_header) :
    ST World PProcRes :=
  in_server (st_modify (set_rx_buffer (client, off))) ≫= fun _ =>
  in_sys (handle_msg client header) ≫= fun respMeta => send_answer client respMeta.

(** One iteration of the loop of [parse_msgs]; [continue] is the rest. *)
Definition parse_iter (continue : ST World unit) (client : loc) : ST World unit :=
  in_server (get_client client) ≫= fun c =>
  let rx := ci_rx c in
  if negb (sizeof_header <=? curr_len rx)%nat then mret tt
  else
    let header := dec_header (slice (curr_ptr rx) sizeof_header (rb_buffer rx)) in
    let msg_len := (sizeof_header + Z.to_nat (body_len header))%nat in
    if (msg_len <=? curr_len rx)%nat then
      serve_message client (curr_ptr rx + sizeof_header) header ≫= fun respMeta =>
      in_server (get_client client) ≫= fun c =>
      let rx := ci_rx c in
      in_server (put_client client (with_rx c
        (Rx (rb_buffer rx) (curr_ptr rx + msg_len) (curr_len rx - msg_len)))) ≫= fun _ =>
      if negb (disconnect respMeta) then continue
      else in_server (remove_client (ci_fd c)) ≫= fun _ => push_removed (freed_fd (ci_fd c))
    else mret tt.

(** [HwioServer::parse_msgs]; [fuel] bounds the number of messages. *)
Fixpoint parse_loop (fuel : nat) (client : loc) : ST World unit :=
  match fuel with
  | O => st_undef Hang
  | S fuel' => parse_iter (parse_loop fuel' client) client
  end.

(** A message takes at least three bytes of the buffer. *)
Definition parse_msgs (client : loc) : ST World unit :=
  in_server (get_client client) ≫= fun c => parse_loop (S (curr_len (ci_rx c))) client.

(** [HwioServer::handle_multiple_client_requests] *)
Definition handle_multiple_client_requests (sd : Z) : ST World unit :=
  in_server st_get ≫= fun s =>
  (match fd_to_client s !! sd with
   | None => in_server (add_new_client (fresh_storage (next_loc s)) sd)
   | Some client => mret client
   end) ≫= fun client =>
  in_server (get_client client) ≫= fun c =>
  if negb (ci_fd c =? sd) then st_undef AssertFailed
  else
    read_from_socket client ≫= fun ok =>
    if ok : bool then parse_msgs client
    else in_server (remove_client sd) ≫= fun _ => push_removed sd.

(** ** One round of polling *)

Definition next_poll : ST Net poll_event := fun n =>
  match net_poll n with
  | [] => (Undef Hang, n)
  | e :: t => (Ret e, MkNet (net_in n) (net_send n) (net_sent n) (net_accept n) t)
  end.

Definition next_accept : ST Net Z := fun n =>
  match net_accept n with
  | [] => (Ret (-1), n)
  | fd :: t => (Ret fd, MkNet (net_in n) (net_send n) (net_sent n) t (net_poll n))
  end.

(** The body of the loop over [poll_fds] for one entry. *)
Definition poll_entry (fd : pollfd) : ST World unit :=
  let e := pf_revents fd in
  if (pf_fd fd <? 0) || (e =? 0) then mret tt
  else
    in_server st_get ≫= fun s =>
    if negb (Z.lor (Z.lor (Z.land e POLLERR) (Z.land e POLLHUP)) (Z.land e POLLNVAL) =? 0) then
      if pf_fd fd =? master_socket s then
        st_throw (Exn EX_runtime_error
          ("Error condition on master socket! fd.revents = " +:+ to_dec e))
      else in_server (remove_client (pf_fd fd)) ≫= fun _ => push_removed (pf_fd fd)
    else if pf_fd fd =? master_socket s then
      in_net next_accept ≫= fun new_socket =>
      if new_socket <? 0 then
        st_throw (Exn EX_runtime_error "error in accept for client socket")
      else
        in_server (add_new_client (fresh_storage (next_loc s)) new_socket) ≫= fun _ => mret tt
    else handle_multiple_client_requests (pf_fd fd).

(** The range-based loop over [poll_fds]: its iterators point into the
    storage at its start, so an element pushed to the full vector leaves them
    dangling, and the next entry is read from freed storage. *)
Fixpoint poll_entries (fds : list pollfd) : ST World unit :=
  match fds with
  | [] => mret tt
  | fd :: t =>
      in_server st_get ≫= fun s =>
      poll_entry fd ≫= fun _ =>
      in_server st_get ≫= fun s' =>
      if (poll_cap s <=? length (poll_fds s))%nat && (length (poll_fds s) <? length (poll_fds s'))%nat
         && negb (length t =? 0)%nat
      then st_undef UseAfterFree
      else poll_entries t
  end.

(** [ppoll] fills in [revents]. *)
Definition set_revents (revents : list Z) (fds : list pollfd) : list pollfd :=
  imap (fun i p => PollFd (pf_fd p) (default 0 (revents !! i))) fds.

Fixpoint removed_loop (fd : Z) (removed : list Z) : bool :=
  match removed with
  | [] => true
  | rfd :: t => if fd =? rfd then false else removed_loop fd t
  end.

(** The capacity of a vector after [n] elements were pushed to it. *)
Definition cap_after (n : nat) : nat :=
  fold_left (fun cap i => if (i <? cap)%nat then cap else vec_grow i) (seq 0 n) 0%nat.

(** The clean up of [poll_fds]. *)
Definition clean_poll_fds : ST (HwioServer W D B) unit :=
  st_modify (fun s =>
    if (0 <? length (removed_poll_fds s))%nat then
      let fds := base.filter (fun p => removed_loop (pf_fd p) (removed_poll_fds s) = true) (poll_fds s) in
      set_removed [] (set_poll_fds fds (cap_after (length fds)) s)
    else s).

(** [HwioServer::pool_client_msgs] *)
Definition pool_client_msgs : ST World unit :=
  in_net next_poll ≫= fun ev =>
  match ev with
  | PollTimeout | PollInterrupted => mret tt
  | PollError errno =>
      st_throw (Exn EX_runtime_error
        ("Error condition upon execution of ppoll()! errno = " +:+ to_dec errno))
  | PollEvents revents =>
      in_server (st_modify (fun s =>
        set_poll_fds (set_revents revents (poll_fds s)) (poll_cap s) s)) ≫= fun _ =>
      in_server st_get ≫= fun s =>
      poll_entries (poll_fds s) ≫= fun _ => in_server clean_poll_fds
  end.
End loop.
