(* ===== verification/ServerLoopSpec.v ===== *)
(** * HwioServer: the receive buffer and the message loop

    The properties of [read_from_socket], [parse_msgs] and one polling round:
    what a read leaves in the buffer, the termination of the message loop, the
    disconnections, and the invariant of the client table. *)

From Stdlib Require Import ZArith Lia Ascii String.
From stdpp Require Import base tactics list numbers strings gmap fin_maps.
From S2P Require Import Prelude CxxString Version CompSpec Device Bus Wire Protocol Server ServerHandlers.
From S2P Require Import ServerFrame ServerSpec ServerLoop.

Section loop_spec.
Context {W D B : Type} `{!IDev W D} `{!IBus W D B} {VG : VectorGrowth} {PL : Platform}.
Implicit Types (l : loc) (s : HwioServer W D B) (w : W) (n : Net).

(** The bytes received and not processed. *)
Definition pending (c : ClientInfo D) : list byte :=
  slice (curr_ptr (ci_rx c)) (curr_len (ci_rx c)) (rb_buffer (ci_rx c)).

(** ** Running the parts *)

Lemma in_server_run {A} (m : ST (HwioServer W D B) A) s w n r s' :
  m s = (r, s') -> in_server m ((s, w), n) = (r, ((s', w), n)).
Proof.
  intros H. unfold in_server, on_server. by rewrite (st_fst_run _ (s, w) n r (s', w)) by by apply st_fst_run.
Qed.

Lemma in_get_run l c s w n :
  heap s !! l = Some c -> in_server (get_client l) ((s, w), n) = (Ret c, ((s, w), n)).
Proof. intros Hc. apply in_server_run. unfold get_client. by rewrite Hc. Qed.

Definition with_client l (c : ClientInfo D) s : HwioServer W D B :=
  set_heap (<[l := c]> (heap s)) (next_loc s) (closed s) s.

Lemma with_client_again l c c' s : with_client l c (with_client l c' s) = with_client l c s.
Proof. unfold with_client, set_heap. cbn. by rewrite insert_insert_eq. Qed.

Lemma in_put_run l c s w n :
  in_server (put_client l c) ((s, w), n) = (Ret tt, ((with_client l c s, w), n)).
Proof. by apply in_server_run. Qed.

Lemma in_modify_run f s w n :
  in_server (st_modify f) ((s, w), n) = (Ret tt, ((f s, w), n)).
Proof. by apply in_server_run. Qed.

Lemma in_net_run {A} (m : ST Net A) (st : Sys (W:=W) (D:=D) (B:=B)) n r n' :
  m n = (r, n') -> in_net m (st, n) = (r, (st, n')).
Proof. intros H. unfold in_net, st_snd. cbn. by rewrite H. Qed.

Lemma in_sys_run {A} (m : ST (Sys (W:=W) (D:=D) (B:=B)) A) st n r st' :
  m st = (r, st') -> in_sys m (st, n) = (r, (st', n)).
Proof. intros H. unfold in_sys. by apply st_fst_run. Qed.

(** ** The termination of the message loop *)

(** Sending changes the sockets only. *)
Lemma send_answer_server l r (st st' : Sys (W:=W) (D:=D) (B:=B)) n r' n' :
  send_answer l r (st, n) = (Ret r', (st', n')) -> st' = st.
Proof.
  unfold send_answer. destruct (tx_size r =? 0)%nat.
  { by intros [_ [= -> _]]%st_ret_inv. }
  destruct st as [s w]. intros H.
  apply st_bind_inv in H as (c & [st1 n1] & H1 & H).
  assert (st1 = (s, w)) as ->.
  { unfold in_server, on_server, st_fst, get_client in H1. cbn in H1.
    by destruct (heap s !! l); simplify_eq. }
  apply st_bind_inv in H as (s0 & [st2 n2] & H2 & H). injection H2 as <- <- <-.
  destruct (_ <=? _)%nat; [|done].
  apply st_bind_inv in H as (ok & [st3 n3] & H3 & H).
  apply st_ret_inv in H as [_ [= <- <-]].
  unfold in_net, st_snd in H3. cbn in H3. by destruct (net_send_all _ _ _); simplify_eq.
Qed.

(** The client after its message was served: still there, with the same
    receive state. *)
Lemma serve_message_client l off h c s w n r (st' : Sys (W:=W) (D:=D) (B:=B)) n' :
  heap s !! l = Some c ->
  serve_message l off h ((s, w), n) = (Ret r, (st', n')) ->
  exists c', heap st'.1 !! l = Some c' /\ client_kept c c'.
Proof.
  intros Hc H. unfold serve_message in H.
  rewrite (st_bind_ret _ _ _ _ _ (in_modify_run _ s w n)) in H.
  apply st_bind_inv in H as (r0 & [st1 n1] & H1 & H).
  apply send_answer_server in H as ->.
  unfold in_sys, st_fst in H1. cbn [fst snd] in H1.
  pose proof (within_handle_msg l h (set_rx_buffer (l, off) s, w) eq_refl) as [_ _ _ Hs].
  destruct (handle_msg l h (set_rx_buffer (l, off) s, w)) as [r1 st2]. simplify_eq.
  exact (Hs c Hc).
Qed.

(** An iteration depends on the rest of the loop only for shorter buffers. *)
Lemma parse_iter_ext l k1 k2 c s w n :
  heap s !! l = Some c ->
  (forall c' s' w' n', heap s' !! l = Some c' -> (curr_len (ci_rx c') < curr_len (ci_rx c))%nat ->
    k1 ((s', w'), n') = k2 ((s', w'), n')) ->
  parse_iter k1 l ((s, w), n) = parse_iter k2 l ((s, w), n).
Proof.
  intros Hc Hk. unfold parse_iter.
  rewrite !(st_bind_ret _ _ _ _ _ (in_get_run l c s w n Hc)). cbv zeta. unfold sizeof_header.
  destruct (Nat.leb_spec 3 (curr_len (ci_rx c))) as [Eh|Eh]; [|done]. cbn [negb].
  match goal with |- context [(?a <=? curr_len _)%nat] => set (len := a) end.
  destruct (Nat.leb_spec len (curr_len (ci_rx c))) as [Em|Em]; [|done].
  assert (3 <= len)%nat as H3 by (unfold len; lia). clearbody len.
  match goal with |- (?m ≫= _) ?st = _ => destruct (m st) as [[r|e|x] [[s1 w1] n1]] eqn:E end.
  2: { by rewrite !(st_bind_throw _ _ _ _ _ E). }
  2: { by rewrite !(st_bind_undef _ _ _ _ _ E). }
  rewrite !(st_bind_ret _ _ _ _ _ E).
  destruct (serve_message_client _ _ _ c _ _ _ _ _ _ Hc E) as (c' & Hc' & K).
  rewrite !(st_bind_ret _ _ _ _ _ (in_get_run l c' _ _ _ Hc')).
  rewrite !(st_bind_ret _ _ _ _ _ (in_put_run _ _ _ _ _)).
  destruct (disconnect r); [done|]. cbn [negb].
  eapply Hk; [apply lookup_insert_eq|]. cbn. rewrite (kept_len _ _ K). lia.
Qed.

(** The loop does not depend on the fuel once it exceeds the bytes left. *)
Lemma parse_loop_fuel l f1 f2 c s w n :
  heap s !! l = Some c -> (curr_len (ci_rx c) < f1)%nat -> (curr_len (ci_rx c) < f2)%nat ->
  parse_loop f1 l ((s, w), n) = parse_loop f2 l ((s, w), n).
Proof.
  revert f2 c s w n. induction f1 as [|f1 IH]; intros f2 c s w n Hc H1 H2; [lia|].
  destruct f2 as [|f2]; [lia|]. cbn [parse_loop].
  eapply parse_iter_ext; [done|]. intros c' s' w' n' Hc' Hl. by apply (IH _ c'); [done|lia..].
Qed.

(** Any larger bound gives the same. *)
Lemma parse_msgs_fuel l c s w n fuel :
  heap s !! l = Some c -> (curr_len (ci_rx c) < fuel)%nat ->
  parse_loop fuel l ((s, w), n) = parse_msgs l ((s, w), n).
Proof.
  intros Hc Hl. unfold parse_msgs. rewrite (st_bind_ret _ _ _ _ _ (in_get_run l c s w n Hc)).
  apply (parse_loop_fuel l _ _ c); [done|done|lia].
Qed.

Lemma parse_msgs_iter l c s w n :
  heap s !! l = Some c -> parse_msgs l ((s, w), n) = parse_iter (parse_msgs l) l ((s, w), n).
Proof.
  intros Hc. rewrite <-(parse_msgs_fuel l c s w n (S (curr_len (ci_rx c)))) by (done || lia).
  cbn [parse_loop]. eapply parse_iter_ext; [done|].
  intros c' s' w' n' Hc' Hl. by apply (parse_msgs_fuel l c').
Qed.

(** The message loop terminates: with its bound it computes the fixed
    point of its iteration, the same as with any larger bound. *)
Theorem parse_msgs_unroll l c s w n :
  heap s !! l = Some c ->
  parse_msgs l ((s, w), n) = parse_iter (parse_msgs l) l ((s, w), n) /\
  forall fuel, (curr_len (ci_rx c) < fuel)%nat ->
    parse_loop fuel l ((s, w), n) = parse_msgs l ((s, w), n).
Proof.
  intros Hc. split; [by eapply parse_msgs_iter|]. intros fuel. by apply (parse_msgs_fuel l c).
Qed.

(** ** Receiving *)

(** The move of a partial message is defined: it is at the front already, or
    there is room for it before the place where it is. *)
Definition move_ok (rx : RxBuffer) : Prop := curr_ptr rx = 0%nat \/ (curr_len rx <= curr_ptr rx)%nat.

#[export] Instance move_ok_dec rx : Decision (move_ok rx).
Proof. unfold move_ok. apply _. Defined.

Lemma move_ok_nil rx : curr_len rx = 0%nat -> move_ok rx.
Proof. intros E. right. rewrite E. lia. Qed.

Lemma compact_spec rx :
  rx_wf rx -> move_ok rx ->
  exists rx', compact rx = Ret rx' /\ rx_wf rx' /\ curr_ptr rx' = 0%nat /\ curr_len rx' = curr_len rx /\
    slice 0 (curr_len rx) (rb_buffer rx') = slice (curr_ptr rx) (curr_len rx) (rb_buffer rx).
Proof.
  intros Hw Hm. pose proof Hw as [Hl Hb]. unfold compact.
  destruct (Nat.ltb_spec 0 (curr_len rx)) as [Hpos|Hz].
  - destruct (Nat.eqb_spec (curr_ptr rx) 0) as [E|E]; cbn [negb].
    { exists rx. by rewrite E. }
    destruct Hm as [?|Hm]; [done|]. unfold memcpy_front. rewrite (proj2 (Nat.leb_le _ _)) by done.
    eexists. split; [done|]. cbn [curr_ptr curr_len rb_buffer].
    assert (length (slice (curr_ptr rx) (curr_len rx) (rb_buffer rx)) = curr_len rx) as Hs
      by (apply slice_length; lia).
    split_and!; [|done|done|].
    + split; cbn [curr_ptr curr_len rb_buffer]; [rewrite splice_length|]; lia.
    + rewrite <-Hs at 1. apply slice_splice_same. lia.
  - eexists. split; [done|]. cbn. assert (curr_len rx = 0)%nat as -> by lia.
    split_and!; [split; cbn; lia|done|done|]. by unfold slice.
Qed.

(** A partial message that has moved less than its length overlaps. *)
Lemma compact_overlap rx : ~ move_ok rx -> compact rx = Undef OverlappingCopy.
Proof.
  unfold move_ok. intros Hm. unfold compact. rewrite (proj2 (Nat.ltb_lt _ _)) by lia.
  rewrite (proj2 (Nat.eqb_neq _ _)) by lia. cbn [negb]. unfold memcpy_front.
  by rewrite (proj2 (Nat.leb_gt _ _)) by lia.
Qed.

Definition set_in (fd : Z) (evs : list recv_event) n : Net :=
  MkNet (<[fd := evs]> (net_in n)) (net_send n) (net_sent n) (net_accept n) (net_poll n).

(** The bytes of one [recv] fit the space it was given. *)
Lemma recv_loop_bound rd evs bs evs' :
  recv_loop rd evs = Ret (Some bs, evs') -> bs <> [] /\ (length bs <= rd)%nat.
Proof.
  induction evs as [|[d| | |] t IH]; cbn; intros H; [done| |auto|done|done].
  destruct (take rd d) as [|b bs'] eqn:E; [done|]. simplify_eq. split; [done|].
  rewrite <-E, length_take. lia.
Qed.

Lemma recv_loop_no_throw rd evs e : recv_loop rd evs <> Throw e.
Proof. induction evs as [|[d| | |] t IH]; cbn; try done. by destruct (take rd d). Qed.

(** A read from the socket, on every result of [recv]: the bytes received
    are appended to the bytes still to be processed, which are first moved to
    the start of the buffer; nothing is lost and the buffer is not overrun.
    On an error, the end of the stream or a full buffer the read fails. *)
Lemma read_from_socket_correct l c s w n :
  heap s !! l = Some c -> rx_wf (ci_rx c) -> move_ok (ci_rx c) ->
  match recv_loop (RX_BUFFER_SIZE - curr_len (ci_rx c)) (default [] (net_in n !! ci_fd c)) with
  | Ret (r, evs) => exists rx,
      read_from_socket l ((s, w), n) =
        (Ret (bool_decide (is_Some r)),
         ((with_client l (with_rx c rx) s, w), set_in (ci_fd c) evs n)) /\
      rx_wf rx /\ curr_ptr rx = 0%nat /\
      pending (with_rx c rx) = pending c ++ default [] r
  | Throw e => False
  | Undef f => exists st', read_from_socket l ((s, w), n) = (Undef f, st')
  end.
Proof.
  intros Hc Hw Hm. destruct (compact_spec _ Hw Hm) as (rx & Hcp & Hw1 & Hp1 & Hl1 & Hs1).
  unfold read_from_socket. rewrite (st_bind_ret _ _ _ _ _ (in_get_run l c s w n Hc)).
  rewrite Hcp. erewrite (st_bind_ret (st_lift _)) by done.
  rewrite (st_bind_ret _ _ _ _ _ (in_put_run l _ s w n)). rewrite Hl1.
  destruct (recv_loop _ _) as [[r evs]|e|f] eqn:E.
  - erewrite st_bind_ret.
    2: { apply in_net_run. unfold net_recv. rewrite E. reflexivity. }
    destruct r as [bs|].
    + destruct (recv_loop_bound _ _ _ _ E) as [_ Hb]. destruct Hw1 as [Hw1 Hw2].
      rewrite (st_bind_ret _ _ _ _ _ (in_put_run l _ _ w _)).
      exists (Rx (splice (curr_len (ci_rx c)) bs (rb_buffer rx)) 0 (curr_len (ci_rx c) + length bs)).
      split_and!.
      * rewrite bool_decide_eq_true_2 by done. by rewrite with_client_again, Hp1.
      * split; cbn [rb_buffer curr_ptr curr_len]; [rewrite splice_length|]; lia.
      * done.
      * unfold pending. cbn [ci_rx with_rx rb_buffer curr_ptr curr_len default].
        rewrite <-Hs1, slice_split. f_equal.
        -- apply slice_splice_below; lia.
        -- apply slice_splice_same. unfold id. lia.
    + exists rx. split_and!; [by rewrite bool_decide_eq_false_2 by (by intros [])|done|done|].
      unfold pending. cbn [ci_rx with_rx default]. rewrite Hp1, Hl1, Hs1. by rewrite app_nil_r.
  - by apply recv_loop_no_throw in E.
  - eexists. apply st_bind_undef, in_net_run. unfold net_recv. by rewrite E.
Qed.

(** A read that would move the partial message onto itself is undefined. *)
Lemma read_from_socket_overlap l c s w n :
  heap s !! l = Some c -> ~ move_ok (ci_rx c) ->
  read_from_socket l ((s, w), n) = (Undef OverlappingCopy, ((s, w), n)).
Proof.
  intros Hc Hm. unfold read_from_socket. rewrite (st_bind_ret _ _ _ _ _ (in_get_run l c s w n Hc)).
  by rewrite compact_overlap.
Qed.

(** ** The invariant of the client table *)

Definition table_ok (st : World (W:=W) (D:=D) (B:=B)) : Prop := server_wf st.1.1.

(** Computations that keep the invariant. *)
Definition keeps_table {A} (m : ST (World (W:=W) (D:=D) (B:=B)) A) : Prop :=
  triple table_ok table_ok m (fun _ => table_ok).

Lemma keeps_bind {A C} (m : ST (World (W:=W) (D:=D) (B:=B)) A) (f : A -> ST World C) :
  keeps_table m -> (forall a, keeps_table (f a)) -> keeps_table (m ≫= f).
Proof. apply triple_bind. Qed.

Lemma keeps_ret {A} (a : A) : keeps_table (mret a).
Proof. apply triple_ret. Qed.
Lemma keeps_undef {A} f : keeps_table (st_undef f : ST (World (W:=W) (D:=D) (B:=B)) A).
Proof. apply triple_undef. Qed.
Lemma keeps_throw {A} e : keeps_table (st_throw e : ST (World (W:=W) (D:=D) (B:=B)) A).
Proof. by apply triple_throw. Qed.

Lemma keeps_net {A} (m : ST Net A) : keeps_table (in_net m).
Proof. intros [[s w] n] H. unfold in_net, st_snd. cbn. by destruct (m n) as [[] ?]. Qed.

Lemma keeps_server {A} (m : ST (HwioServer W D B) A) :
  triple server_wf server_wf m (fun _ => server_wf) -> keeps_table (in_server m).
Proof.
  intros Hm [[s w] n] H. specialize (Hm s H). unfold in_server, on_server, st_fst. cbn.
  by destruct (m s) as [[] ?].
Qed.

Lemma keeps_modify f : (forall s, server_wf s -> server_wf (f s)) -> keeps_table (in_server (st_modify f)).
Proof. intros H. apply keeps_server. intros s Hs. by apply H. Qed.

Lemma keeps_get_client l : keeps_table (in_server (get_client l)).
Proof. apply keeps_server. intros s Hs. unfold get_client. by destruct (heap s !! l). Qed.

Lemma keeps_get : keeps_table (in_server st_get).
Proof. apply keeps_server. by intros s Hs. Qed.

Lemma keeps_remove fd : keeps_table (in_server (remove_client fd)).
Proof.
  apply keeps_server. intros s Hs. by destruct (remove_client_total fd s Hs) as (s' & -> & Hw & _).
Qed.

Lemma keeps_add garbage fd :
  length garbage = RX_BUFFER_SIZE -> keeps_table (in_server (add_new_client garbage fd)).
Proof.
  intros Hg. apply keeps_server. intros s Hs.
  destruct (fd_to_client s !! fd) as [l|] eqn:E.
  - unfold add_new_client. erewrite st_bind_ret by done. cbv beta zeta.
    erewrite st_bind_ret by done. erewrite st_bind_ret by done. by rewrite E.
  - rewrite add_new_client_run by done. by apply added_state_wf.
Qed.

Lemma with_client_wf l c c' s :
  server_wf s -> heap s !! l = Some c -> ci_id c' = ci_id c -> ci_fd c' = ci_fd c ->
  client_wf c' -> server_wf (with_client l c' s).
Proof.
  intros [Hfd Hsl Hh Htx] Hc Hi Hf Hw. split; cbn; [..|done].
  - intros fd m Hm. destruct (Hfd _ _ Hm) as (x & Hx & E). destruct (decide (m = l)) as [->|Hne].
    + exists c'. rewrite lookup_insert_eq. split; [done|]. simplify_eq. by rewrite Hf.
    + exists x. by rewrite lookup_insert_ne.
  - intros i m Hm. destruct (Hsl _ _ Hm) as (x & Hx & E). destruct (decide (m = l)) as [->|Hne].
    + exists c'. rewrite lookup_insert_eq. split; [done|]. simplify_eq. by rewrite Hi.
    + exists x. by rewrite lookup_insert_ne.
  - intros m x Hm. destruct (decide (m = l)) as [->|Hne].
    + rewrite lookup_insert_eq in Hm. simplify_eq. destruct (Hh _ _ Hc) as (? & ? & ? & _).
      by rewrite Hi, Hf.
    + rewrite lookup_insert_ne in Hm by done. by apply Hh.
Qed.

(** An update of the receive state of a client, in a state where it is [c]. *)
Lemma keeps_with_rx {A} l (f : ClientInfo D -> RxBuffer) (k : ClientInfo D -> ST (World (W:=W) (D:=D) (B:=B)) A) :
  (forall c, client_wf c -> rx_wf (f c)) -> (forall c, keeps_table (k c)) ->
  keeps_table (in_server (get_client l) ≫= fun c =>
    in_server (put_client l (with_rx c (f c))) ≫= fun _ => k c).
Proof.
  intros Hf Hk [[s w] n] Hs. cbn in Hs.
  destruct (heap s !! l) as [c|] eqn:Hc.
  - rewrite (st_bind_ret _ _ _ _ _ (in_get_run l c s w n Hc)).
    rewrite (st_bind_ret _ _ _ _ _ (in_put_run l _ s w n)).
    apply Hk. cbn. destruct (wf_heap _ Hs _ _ Hc) as (_ & _ & _ & Hw).
    eapply with_client_wf; [done|done|done|done|]. split; [by apply Hf|apply Hw].
  - unfold in_server, on_server, st_fst, mbind, ST_bind, get_client. cbn. by rewrite Hc.
Qed.

Lemma compact_wf rx : rx_wf rx ->
  match compact rx with
  | Ret rx' => rx_wf rx' /\ curr_len rx' = curr_len rx /\ curr_ptr rx' = 0%nat
  | Throw _ => False
  | Undef _ => True
  end.
Proof.
  intros Hw. destruct (decide (move_ok rx)) as [Hm|Hm]; [|by rewrite compact_overlap].
  by destruct (compact_spec rx Hw Hm) as (rx' & -> & ? & ? & ? & _).
Qed.

Lemma keeps_read l : keeps_table (read_from_socket l).
Proof.
  intros [[s w] n] Hs. cbn in Hs. unfold read_from_socket.
  destruct (heap s !! l) as [c|] eqn:Hc.
  2: { unfold in_server, on_server, st_fst, mbind, ST_bind, get_client. cbn. by rewrite Hc. }
  rewrite (st_bind_ret _ _ _ _ _ (in_get_run l c s w n Hc)).
  destruct (wf_heap _ Hs _ _ Hc) as (_ & _ & _ & [Hrx Hdv]). pose proof (compact_wf _ Hrx) as Hcp.
  destruct (compact (ci_rx c)) as [rx|e|f]; [|done|done]. destruct Hcp as (Hwf & E1 & E2).
  pose proof Hwf as [Hl Hb]. erewrite (st_bind_ret (st_lift _)) by done.
  rewrite (st_bind_ret _ _ _ _ _ (in_put_run l _ s w n)). rewrite E1, E2 in *.
  unfold mbind at 1, ST_bind at 1, in_net, st_snd, net_recv. cbn [fst snd].
  destruct (recv_loop _ _) as [[[bs|] evs]|e|x] eqn:Er;
    [| |by apply recv_loop_no_throw in Er|done].
  - destruct (recv_loop_bound _ _ _ _ Er) as [_ Hbs].
    rewrite (st_bind_ret _ _ _ _ _ (in_put_run l _ _ w _)).
    unfold table_ok. cbn. rewrite with_client_again.
    eapply with_client_wf; [done|done|done|done|]. split; [|done].
    split; cbn; [rewrite splice_length|]; lia.
  - unfold table_ok. cbn. by eapply with_client_wf.
Qed.

Lemma keeps_send l r : keeps_table (send_answer l r).
Proof.
  unfold send_answer. apply triple_bool; [apply keeps_ret|].
  apply keeps_bind; [apply keeps_get_client|intros c]. apply keeps_bind; [apply keeps_get|intros s].
  apply triple_bool; [|apply keeps_undef].
  apply keeps_bind; [apply keeps_net|intros ok]. apply keeps_ret.
Qed.

Lemma set_rx_wf p s : server_wf s -> server_wf (set_rx_buffer p s).
Proof. by intros []. Qed.

Lemma keeps_serve l off h : keeps_table (serve_message l off h).
Proof.
  unfold serve_message.
  apply (triple_bind _ _ (fun _ st => table_ok st /\ (rx_buffer st.1.1).1 = l)).
  { intros [[s w] n] Hs. split; [by apply set_rx_wf|done]. }
  intros _. apply (triple_bind _ _ (fun _ => table_ok)); [|intros r; apply keeps_send].
  intros [st n] [Hs Hl]. unfold in_sys, st_fst. cbn [fst snd] in *.
  pose proof (client_frame_wf l _ _ (within_handle_msg l h st Hl) Hs) as Hw.
  by destruct (handle_msg l h st) as [[] ?].
Qed.

Lemma keeps_push fd : keeps_table (push_removed fd).
Proof. apply keeps_modify. by intros s []. Qed.

Lemma keeps_iter k l : keeps_table k -> keeps_table (parse_iter k l).
Proof.
  intros Hk [[s w] n] Hs. unfold table_ok in Hs. cbn [fst] in Hs. unfold parse_iter.
  destruct (heap s !! l) as [c|] eqn:Hc.
  2: { unfold in_server, on_server, st_fst, mbind, ST_bind, get_client. cbn. by rewrite Hc. }
  rewrite (st_bind_ret _ _ _ _ _ (in_get_run l c s w n Hc)). cbv zeta.
  destruct (negb _); [done|].
  match goal with |- context [(?a <=? curr_len _)%nat] => set (len := a) end.
  destruct (Nat.leb_spec len (curr_len (ci_rx c))) as [Em|Em]; [|done]. clearbody len.
  match goal with |- context [(?m ≫= _) ?st] =>
    pose proof (keeps_serve l (curr_ptr (ci_rx c) + sizeof_header) (dec_header
      (slice (curr_ptr (ci_rx c)) sizeof_header (rb_buffer (ci_rx c)))) st Hs) as Hsv;
    destruct (m st) as [[r|e|x] [[s1 w1] n1]] eqn:E end.
  2: { by rewrite (st_bind_throw _ _ _ _ _ E). }
  2: { by rewrite (st_bind_undef _ _ _ _ _ E). }
  rewrite (st_bind_ret _ _ _ _ _ E). unfold table_ok in Hsv. cbn [fst] in Hsv.
  destruct (serve_message_client _ _ _ c _ _ _ _ _ _ Hc E) as (c' & Hc' & K). cbn [fst] in Hc'.
  rewrite (st_bind_ret _ _ _ _ _ (in_get_run l c' _ _ _ Hc')).
  rewrite (st_bind_ret _ _ _ _ _ (in_put_run _ _ _ _ _)).
  match goal with |- context [with_client l ?c2 s1] => set (c2' := c2) end.
  assert (server_wf (with_client l c2' s1)) as Hw2.
  { destruct (wf_heap _ Hsv _ _ Hc') as (_ & _ & _ & [[Hl Hb] Hdv]).
    eapply with_client_wf; [done|done|done|done|]. split; [|done].
    split; cbn; [done|]. rewrite (kept_len _ _ K) in *. lia. }
  destruct (disconnect r); cbn [negb]; [|by apply (Hk (with_client l c2' s1, w1, n1))].
  assert (keeps_table (in_server (remove_client (ci_fd c')) ≫= fun _ =>
    push_removed (freed_fd (ci_fd c')))) as Hrm
    by (apply keeps_bind; [apply keeps_remove|intros _; apply keeps_push]).
  by apply (Hrm (with_client l c2' s1, w1, n1)).
Qed.

Lemma keeps_parse_msgs l : keeps_table (parse_msgs l).
Proof.
  unfold parse_msgs. apply keeps_bind; [apply keeps_get_client|intros c].
  generalize (S (curr_len (ci_rx c))). intros f.
  induction f as [|f IH]; cbn [parse_loop]; [apply keeps_undef|by apply keeps_iter].
Qed.

Lemma keeps_requests sd : keeps_table (handle_multiple_client_requests sd).
Proof.
  unfold handle_multiple_client_requests. apply keeps_bind; [apply keeps_get|intros s].
  apply keeps_bind.
  { destruct (fd_to_client s !! sd); [apply keeps_ret|apply keeps_add, fresh_storage_length]. }
  intros l. apply keeps_bind; [apply keeps_get_client|intros c].
  apply triple_bool; [apply keeps_undef|].
  apply keeps_bind; [apply keeps_read|intros [|]]; [apply keeps_parse_msgs|].
  apply keeps_bind; [apply keeps_remove|intros _; apply keeps_push].
Qed.

Lemma keeps_entry fd : keeps_table (poll_entry fd).
Proof.
  unfold poll_entry. cbv zeta. apply triple_bool; [apply keeps_ret|].
  apply keeps_bind; [apply keeps_get|intros s]. apply triple_bool.
  - apply triple_bool; [apply keeps_throw|].
    apply keeps_bind; [apply keeps_remove|intros _; apply keeps_push].
  - apply triple_bool; [|apply keeps_requests].
    apply keeps_bind; [apply keeps_net|intros fd']. apply triple_bool; [apply keeps_throw|].
    apply keeps_bind; [apply keeps_add, fresh_storage_length|intros _; apply keeps_ret].
Qed.

Lemma keeps_entries fds : keeps_table (poll_entries fds).
Proof.
  induction fds as [|fd t IH]; cbn [poll_entries]; [apply keeps_ret|].
  apply keeps_bind; [apply keeps_get|intros s]. apply keeps_bind; [apply keeps_entry|intros _].
  apply keeps_bind; [apply keeps_get|intros s']. by apply triple_bool; [apply keeps_undef|].
Qed.

(** C17: a polling round that returns or ends in an exception keeps the
    invariant of the client table, with any events and any behaviour of the
    sockets, the devices and the plugins.  Nothing is said of a round that
    leaves the language (a [ppoll] or [recv] that never returns, an
    overlapping [memcpy], a fault of a device or of a plugin). *)
Theorem pool_client_msgs_wf s w n :
  server_wf s ->
  match pool_client_msgs ((s, w), n) with
  | (Undef _, _) => True
  | (_, st') => server_wf st'.1.1
  end.
Proof.
  intros Hs. assert (keeps_table pool_client_msgs) as H.
  { unfold pool_client_msgs. apply keeps_bind; [apply keeps_net|intros [| |e|revs]].
    - apply keeps_ret.
    - apply keeps_ret.
    - apply keeps_throw.
    - apply keeps_bind; [by apply keeps_modify; intros s0 []|intros _].
      apply keeps_bind; [apply keeps_get|intros s0].
      apply keeps_bind; [apply keeps_entries|intros _].
      apply keeps_modify. intros s1 Hs1. destruct (0 <? _)%nat; [|done]. by destruct Hs1. }
  specialize (H ((s, w), n) Hs). by destruct (pool_client_msgs _) as [[] ?].
Qed.
End loop_spec.
