(* ===== verification/ServerStream.v ===== *)
(** * HwioServer: the protocol the server implements

    An abstract server: requests as data, and what each does to the devices of
    the client and the bytes it answers ([serves]), with no buffers, pointers
    or chunks.  [handle_msg] refines it on every well-formed request, and the
    receive and message loops refine its run on the byte stream of the
    requests, however the stream is cut into pieces. *)

From Stdlib Require Import ZArith Lia Ascii String.
From stdpp Require Import base tactics list numbers strings gmap fin_maps.
From S2P Require Import Prelude CxxString Version CompSpec Device Bus Wire Protocol Server ServerHandlers.
From S2P Require Import ServerFrame ServerSpec ServerQuery ServerSafety ServerLoop ServerLoopSpec.

(** A plugin that reads only its arguments. *)
Definition plugin_local {W D} (p : plugin_info W D) : Prop :=
  forall d args tail w, length args = args_size p -> fn p d (args ++ tail) w = fn p d args w.

Section protocol.
Context {W D B : Type} `{!IDev W D} `{!IBus W D B}.
Implicit Types (l : loc) (s : HwioServer W D B) (w : W) (devs : list (option D)).

(** The device an id names. *)
Definition owned devs (id : Z) : option D :=
  client_get_dev (Client 0 0 (Rx [] 0 0) devs) id.

(** The refusals: the error code and text, when the request is not served. *)
Definition refusal s devs (rq : request) : option (Z * string) :=
  match rq with
  | RqRead r =>
      match owned devs (rq_devId r) with
      | None => Some (ACCESS_DENIED, "READ: device is not allocated"%string)
      | Some _ => None
      end
  | RqWrite r _ =>
      if 256 <=? rq_devId r then Some (MALFORMED_PACKET, "WRITE: wrong device id"%string)
      else match owned devs (rq_devId r) with
      | None => Some (ACCESS_DENIED, "WRITE: device is not allocated"%string)
      | Some _ => None
      end
  | RqFnId d _ =>
      match owned devs d with
      | None => Some (ACCESS_DENIED, "GET REMOTE CALL ID: device is not allocated"%string)
      | Some _ => None
      end
  | RqCall d name _ =>
      match owned devs d with
      | None => Some (ACCESS_DENIED, "REMOTE CALL: device is not allocated"%string)
      | Some _ =>
          match plugins s !! name with
          | None => Some (MALFORMED_PACKET,
              ("REMOTE CALL: RPC function " +:+ name +:+ " not registered on server")%string)
          | Some _ => None
          end
      end
  | RqFast d f _ =>
      match owned devs d with
      | None => Some (ACCESS_DENIED, "REMOTE CALL: device is not allocated"%string)
      | Some _ =>
          match plugins_fast s !! Z.to_nat f with
          | None => Some (MALFORMED_PACKET,
              ("REMOTE CALL: RPC function with id " +:+ to_dec f +:+
               " is not registered on server")%string)
          | Some _ => None
          end
      end
  | _ => None
  end.

(** The plugin a call selects. *)
Definition selected s (rq : request) : option (plugin_info W D) :=
  match rq with
  | RqCall _ name _ => plugins s !! name
  | RqFast _ f _ => plugins_fast s !! Z.to_nat f
  | _ => None
  end.

Definition answer_of_plugin (ret : list byte) : list byte :=
  match ret with [] => [] | _ => frame HWIO_CMD_REMOTE_CALL_RET ret end.

(** [serves s devs w rq out devs' w' bye]: for a client with the devices
    [devs] the request [rq] is answered with the bytes [out]; the client then
    has the devices [devs'] and is disconnected when [bye]. *)
Inductive serves s devs w : request -> list byte -> list (option D) -> W -> bool -> Prop :=
  | sv_ping : serves s devs w RqPing (frame HWIO_CMD_PING_REPLY []) devs w false
  | sv_bye : serves s devs w RqBye [] devs w true
  | sv_refused rq code msg :
      refusal s devs rq = Some (code, msg) ->
      serves s devs w rq (error_bytes code msg) devs w true
  | sv_read r dev bs w' :
      owned devs (rq_devId r) = Some dev ->
      dev_read dev (rq_addr r) (Z.to_nat (rq_size r)) (w, []) = (Ret tt, (w', bs)) ->
      Z.of_nat (length bs) = rq_size r -> (length bs <= 2045)%nat ->
      serves s devs w (RqRead r) (frame HWIO_CMD_READ_RESP bs) devs w' false
  | sv_read_error r dev bs w' e :
      owned devs (rq_devId r) = Some dev ->
      dev_read dev (rq_addr r) (Z.to_nat (rq_size r)) (w, []) = (Throw e, (w', bs)) ->
      is_runtime_error e = true -> (length bs <= 2045)%nat ->
      serves s devs w (RqRead r) (error_bytes IO_ERROR "Can not read from device") devs w' true
  | sv_write r data dev w' :
      rq_devId r < 256 -> owned devs (rq_devId r) = Some dev ->
      dev_write dev (rq_addr r) data w = (Ret tt, w') ->
      serves s devs w (RqWrite r data) [] devs w' false
  | sv_query specs ds ids devs' w1 w2 :
      composite_find_devices (buses s) specs w = (Ret ds, w1) ->
      st_iter attach (fresh_devices devs ds) w1 = (Ret tt, w2) ->
      (length ds <= 1022)%nat -> (length devs + length ds <= Z.to_nat 65536)%nat ->
      registers devs ds ids devs' ->
      serves s devs w (RqQuery specs) (frame HWIO_CMD_QUERY_RESP (enc_ids ids)) devs' w2 false
  | sv_fn_id d name dev i :
      owned devs d = Some dev -> find_fn_id (plugins_fast_names s) name 0 = Some i ->
      serves s devs w (RqFnId d name) (frame HWIO_CMD_GET_REMOTE_CALL_ID_RESP
        (enc_GetRemoteCallIdResp true (Z.of_nat i))) devs w false
  | sv_no_fn_id d name dev :
      owned devs d = Some dev -> find_fn_id (plugins_fast_names s) name 0 = None ->
      serves s devs w (RqFnId d name) (frame HWIO_CMD_GET_REMOTE_CALL_ID_RESP
        (enc_GetRemoteCallIdResp false (-1))) devs w false
  | sv_call rq d args dev p ret w' :
      (exists name, rq = RqCall d name args) \/ (exists f, rq = RqFast d f args) ->
      owned devs d = Some dev -> selected s rq = Some p -> plugin_local p ->
      length args = args_size p -> fn p dev args w = (Ret ret, w') ->
      length ret = ret_size p -> (length ret <= 2045)%nat ->
      serves s devs w rq (answer_of_plugin ret) devs w' false.

(** ** The handlers refine the protocol *)

(** The handler returned: the bytes to send, the rest of the state, and
    whether the client is to be disconnected. *)
Definition delivers (out : list byte) (st : Sys (W:=W) (D:=D) (B:=B)) (bye : bool)
    (res : outcome PProcRes * Sys (W:=W) (D:=D) (B:=B)) : Prop :=
  exists r tx, res = (Ret r, (set_tx_buffer tx st.1, st.2)) /\ length tx = BUFFER_SIZE /\
    disconnect r = bye /\ (tx_size r <= BUFFER_SIZE)%nat /\ take (tx_size r) tx = out.

Lemma answered_delivers cmd body st res :
  answered cmd body st res -> delivers (frame cmd body) st false res.
Proof.
  intros (H1 & tx & H2 & Hl & [rest Hp]). exists (PRes false (3 + length body)), tx.
  assert (3 + length body <= BUFFER_SIZE)%nat as Hb.
  { rewrite <-Hl, Hp, length_app, frame_length. lia. }
  split_and!; [destruct res; cbn in *; by subst|done|done|done|].
  cbn [tx_size]. rewrite Hp. by apply take_app_length'.
Qed.

Lemma refused_delivers code msg st res :
  refused code msg st res -> delivers (error_bytes code msg) st true res.
Proof.
  intros (H1 & tx & H2 & Hl & [rest Hp]). exists (PRes true sizeof_ErrMsg), tx.
  split_and!; [destruct res; cbn in *; by subst|done|done| |].
  - cbn. unfold sizeof_ErrMsg, BUFFER_SIZE. lia.
  - cbn [tx_size]. rewrite Hp. unfold error_bytes. apply take_app_le.
    rewrite error_frame_length. unfold sizeof_ErrMsg. lia.
Qed.

Lemma quiet_delivers s w tx bye :
  length tx = BUFFER_SIZE ->
  delivers [] (s, w) bye (Ret (PRes bye 0), (set_tx_buffer tx s, w)).
Proof. intros H. exists (PRes bye 0), tx. split_and!; [done..|cbn; lia|done]. Qed.

Lemma quiet_delivers_same s w bye :
  length (tx_buffer s) = BUFFER_SIZE -> delivers [] (s, w) bye (Ret (PRes bye 0), (s, w)).
Proof.
  intros H. pose proof (quiet_delivers s w (tx_buffer s) bye H) as Hq.
  by replace (set_tx_buffer (tx_buffer s) s) with s in Hq by by destruct s.
Qed.

Section one.
Context (l : loc) (c : ClientInfo D) (s : HwioServer W D B) (w : W).
Context (Htx : length (tx_buffer s) = BUFFER_SIZE) (Hc : heap s !! l = Some c).

Lemma plugin_delivers p dev args tail ret w' res :
  plugin_called p dev (args ++ tail) s w res -> plugin_local p ->
  length args = args_size p -> fn p dev args w = (Ret ret, w') ->
  length ret = ret_size p -> (length ret <= 2045)%nat ->
  delivers (answer_of_plugin ret) (s, w') false res.
Proof.
  intros H Hp Ha Hf Hr Hb. unfold plugin_called in H. rewrite Hp, Hf in H by done.
  specialize (H Hr). rewrite (proj2 (Nat.ltb_ge _ _)) in H by lia.
  destruct (Nat.eqb_spec (ret_size p) 0) as [E|E].
  - destruct H as (H1 & tx & Hl & H2). destruct ret; [|cbn in Hr; lia].
    destruct res as [r st]. cbn in H1, H2. subst. by apply quiet_delivers.
  - apply answered_delivers in H. destruct ret; [cbn in Hr; lia|done].
Qed.

Lemma rx_tail_args body args n :
  rx_holds s (body ++ args) -> length body = n -> exists tail, rx_tail s n = args ++ tail.
Proof.
  intros (c0 & rest & Hc0 & Hr) <-. exists rest. unfold rx_tail.
  by rewrite Hc0, Hr, <-app_assoc, drop_app_length.
Qed.

Lemma read_refines r out devs' w' bye :
  rx_holds s (enc_RdReq r) -> RdReq_wf r ->
  serves s (ci_devices c) w (RqRead r) out devs' w' bye ->
  devs' = ci_devices c /\
  delivers out (s, w') bye (handle_read l (Header HWIO_CMD_READ 8) (s, w)).
Proof.
  intros Hrx Hwf Hs.
  destruct (handle_read_correct l (Header HWIO_CMD_READ 8) c s w Htx Hc) as [_ H].
  specialize (H r eq_refl Hrx Hwf). change (client_get_dev c) with (owned (ci_devices c)) in H.
  inversion Hs as [| |rq code msg Hrf|r0 dev bs w0 Ho Hrd Hl Hb|r0 dev bs w0 e Ho Hrd He Hb| | | |
    |rq d args dev p ret w0 [[? ?]|[? ?]]]; subst; try done; (split; [done|]).
  - cbn in Hrf. destruct (owned _ _); [done|]. injection Hrf as <- <-.
    by apply refused_delivers.
  - rewrite Ho in H. specialize (H _ _ _ Hrd).
    rewrite (proj2 (Nat.ltb_ge _ _)) in H by lia. by apply answered_delivers, H.
  - rewrite Ho in H. specialize (H _ _ _ Hrd).
    rewrite (proj2 (Nat.ltb_ge _ _)) in H by lia. by apply refused_delivers, H.
Qed.

Lemma write_refines r data out devs' w' bye :
  rx_holds s (enc_RdReq r ++ data) -> RdReq_wf r -> Z.of_nat (length data) = rq_size r ->
  serves s (ci_devices c) w (RqWrite r data) out devs' w' bye ->
  devs' = ci_devices c /\
  delivers out (s, w') bye
    (handle_write l (Header HWIO_CMD_WRITE (Z.of_nat (length (enc_RdReq r ++ data)))) (s, w)).
Proof.
  intros Hrx Hwf Hsz Hs.
  destruct (handle_write_correct l (Header HWIO_CMD_WRITE
    (Z.of_nat (length (enc_RdReq r ++ data)))) c s w Htx Hc) as [_ H].
  specialize (H r data). cbn [body_len] in H. rewrite length_app, enc_RdReq_length in *.
  specialize (H ltac:(lia) Hrx Hwf Hsz).
  change (client_get_dev c) with (owned (ci_devices c)) in H.
  inversion Hs as [| |rq code msg Hrf| | |r0 dd dev w0 Hid Ho Hwr| | |
    |rq d args dev p ret w0 [[? ?]|[? ?]]]; subst; try done; (split; [done|]).
  - cbn in Hrf. destruct (256 <=? rq_devId r); [|destruct (owned _ _); [done|]];
      injection Hrf as <- <-; by apply refused_delivers.
  - rewrite (proj2 (Z.leb_gt _ _)), Ho, Hwr in H by done. rewrite H.
    by apply quiet_delivers_same.
Qed.

Lemma fn_id_refines d name out devs' w' bye :
  rx_holds s (enc_RemoteCall d name) -> dev_id_ok d -> name_ok name ->
  serves s (ci_devices c) w (RqFnId d name) out devs' w' bye ->
  devs' = ci_devices c /\
  delivers out (s, w') bye
    (handle_get_rpc_fn_id l (Header HWIO_CMD_GET_REMOTE_CALL_ID 130) (s, w)).
Proof.
  intros Hrx Hd [Hn Hnl] Hs.
  destruct (handle_get_rpc_fn_id_correct l (Header HWIO_CMD_GET_REMOTE_CALL_ID 130) c s w Htx Hc)
    as [_ H].
  specialize (H d name ltac:(done) Hrx Hd Hn Hnl).
  change (client_get_dev c) with (owned (ci_devices c)) in H.
  pose proof (find_fn_id_spec (plugins_fast_names s) name 0) as Hf.
  inversion Hs as [| |rq code msg Hrf| | | | |d0 n0 dev i Ho Hi|d0 n0 dev Ho Hi
    |rq d0 args dev p ret w0 [[? ?]|[? ?]]]; subst; try done; (split; [done|]).
  - cbn in Hrf. destruct (owned _ _); [done|]. injection Hrf as <- <-.
    by apply refused_delivers.
  - rewrite Ho in H. destruct H as ([|] & id & Ha & Hid).
    + destruct Hid as (j & -> & Hj & Hlt). rewrite Hi in Hf. destruct Hf as (_ & Hi2 & Hlt2).
      rewrite Nat.sub_0_r in Hi2, Hlt2.
      destruct (Nat.lt_trichotomy i j) as [Hl|[->|Hl]]; [by destruct (Hlt i)| |by destruct (Hlt2 j)].
      by apply answered_delivers.
    + exfalso. destruct Hid as [_ Hno]. rewrite Hi in Hf. destruct Hf as (_ & Hi2 & _).
      apply Hno. by eapply list_elem_of_lookup_2.
  - rewrite Ho in H. rewrite Hi in Hf. destruct H as ([|] & id & Ha & Hid).
    + exfalso. destruct Hid as (j & _ & Hj & _). apply Hf. by eapply list_elem_of_lookup_2.
    + destruct Hid as [-> _]. by apply answered_delivers.
Qed.

Lemma call_refines d name args out devs' w' bye :
  rx_holds s (enc_RemoteCall d name ++ args) -> dev_id_ok d -> name_ok name ->
  serves s (ci_devices c) w (RqCall d name args) out devs' w' bye ->
  devs' = ci_devices c /\
  delivers out (s, w') bye (handle_remote_call l
    (Header HWIO_CMD_REMOTE_CALL (Z.of_nat (length (enc_RemoteCall d name ++ args)))) (s, w)).
Proof.
  intros Hrx Hd [Hn Hnl] Hs.
  destruct (handle_remote_call_correct l (Header HWIO_CMD_REMOTE_CALL
    (Z.of_nat (length (enc_RemoteCall d name ++ args)))) c s w Htx Hc) as [_ H].
  cbn [body_len] in H. rewrite length_app, enc_RemoteCall_length in *.
  specialize (H d name ltac:(lia) (rx_holds_app _ _ _ Hrx) Hd Hn Hnl).
  change (client_get_dev c) with (owned (ci_devices c)) in H.
  inversion Hs as [| |rq code msg Hrf| | | | | | |rq d0 ar dev p ret w0 Hrq Ho Hsel Hp Ha Hf Hr Hb];
    subst; try done; (split; [done|]).
  - cbn in Hrf. destruct (owned _ _); [|by injection Hrf as <- <-; apply refused_delivers].
    destruct (plugins s !! name); [done|]. injection Hrf as <- <-. by apply refused_delivers.
  - destruct Hrq as [[? [= -> <- ->]]|[? [=]]]. cbn in Hsel. rewrite Ho, Hsel in H.
    destruct (rx_tail_args _ _ 130 Hrx) as [tail Ht]; [apply enc_RemoteCall_length|].
    unfold sizeof_RemoteCall in H. rewrite Ht in H. by eapply plugin_delivers.
Qed.

Lemma fast_refines d f args out devs' w' bye :
  rx_holds s (enc_RemoteCallFast d f ++ args) -> dev_id_ok d -> 0 <= f < 2 ^ 32 ->
  serves s (ci_devices c) w (RqFast d f args) out devs' w' bye ->
  devs' = ci_devices c /\
  delivers out (s, w') bye (handle_fast_remote_call l
    (Header HWIO_CMD_REMOTE_CALL_FAST (Z.of_nat (length (enc_RemoteCallFast d f ++ args)))) (s, w)).
Proof.
  intros Hrx Hd Hf32 Hs.
  destruct (handle_fast_remote_call_correct l (Header HWIO_CMD_REMOTE_CALL_FAST
    (Z.of_nat (length (enc_RemoteCallFast d f ++ args)))) c s w Htx Hc) as [_ H].
  cbn [body_len] in H. rewrite length_app in *.
  change (length (enc_RemoteCallFast d f)) with 6%nat in *.
  specialize (H d f ltac:(lia) (rx_holds_app _ _ _ Hrx) Hd Hf32).
  change (client_get_dev c) with (owned (ci_devices c)) in H.
  inversion Hs as [| |rq code msg Hrf| | | | | | |rq d0 ar dev p ret w0 Hrq Ho Hsel Hp Ha Hf Hr Hb];
    subst; try done; (split; [done|]).
  - cbn in Hrf. destruct (owned _ _); [|by injection Hrf as <- <-; apply refused_delivers].
    destruct (plugins_fast s !! _); [done|]. injection Hrf as <- <-. by apply refused_delivers.
  - destruct Hrq as [[? [=]]|[? [= -> <- ->]]]. cbn in Hsel. rewrite Ho, Hsel in H.
    destruct (rx_tail_args _ _ 6 Hrx) as [tail Ht]; [done|].
    unfold sizeof_RemoteCallFast in H. rewrite Ht in H. by eapply plugin_delivers.
Qed.

Lemma query_refines specs out devs' w' bye :
  devs_wf (ci_devices c) -> rx_holds s (enc_query specs) -> Forall spec_sendable specs ->
  (1 <= length specs <= 5)%nat ->
  serves s (ci_devices c) w (RqQuery specs) out devs' w' bye ->
  delivers out (with_devices l c devs' s, w') bye
    (handle_msg l (Header HWIO_CMD_QUERY (Z.of_nat (length (enc_query specs)))) (s, w)).
Proof.
  intros Hwf Hrx Hsp Hn Hs. rewrite enc_query_length, handle_msg_query by done.
  inversion Hs as [| |rq code msg Hrf| | | |sp ds ids dv w1 w2 Hfind Hat Hds Hcnt Hreg| |
    |rq d0 args dev p ret w0 [[? ?]|[? ?]]]; subst; try done.
  destruct (device_lookup_resp_run l c s w specs ds w1 w' Htx Hc Hwf Hrx Hsp Hfind Hat Hds Hcnt)
    as (ids2 & devs2 & Hreg2 & Ha).
  destruct (registers_det _ _ _ _ _ _ Hwf Hreg Hreg2) as [-> ->].
  by apply answered_delivers.
Qed.
End one.

Lemma ping_delivers l s w :
  length (tx_buffer s) = BUFFER_SIZE ->
  delivers (frame HWIO_CMD_PING_REPLY []) (s, w) false (handle_msg l (Header HWIO_CMD_PING_REQUEST 0) (s, w)).
Proof.
  intros Htx. change (handle_msg l _ (s, w)) with
    ((tx_store 0 (le_of_Z 1 HWIO_CMD_PING_REPLY) ≫= fun _ => tx_store 1 (le_of_Z 2 0) ≫= fun _ =>
      mret (PRes false sizeof_header) : ST Sys PProcRes) (s, w)).
  rewrite header_stores by done. apply answered_delivers. split; [done|].
  eexists. split; [done|]. split; [|by exists (drop 3 (tx_buffer s))].
  by rewrite length_app, length_drop, enc_header_length, Htx.
Qed.

Lemma handle_msg_delivers l c s w rq out devs' w' bye :
  length (tx_buffer s) = BUFFER_SIZE -> heap s !! l = Some c -> devs_wf (ci_devices c) ->
  rx_holds s (rq_body rq) -> request_wf rq ->
  serves s (ci_devices c) w rq out devs' w' bye ->
  delivers out (with_devices l c devs' s, w') bye
    (handle_msg l (Header (rq_cmd rq) (Z.of_nat (length (rq_body rq)))) (s, w)).
Proof.
  intros Htx Hc Hwf Hrx [Hlen Hrq] Hs.
  assert (forall st, devs' = ci_devices c /\ delivers out (s, w') bye st ->
    delivers out (with_devices l c devs' s, w') bye st) as Same.
  { intros st [-> H]. by rewrite with_devices_same. }
  destruct rq; cbn [rq_body rq_cmd] in *.
  - apply Same. inversion Hs as [| |rq code msg Hrf| | | | | | |rq d0 args dev p ret w0 [[? ?]|[? ?]]];
      subst; try done. split; [done|]. by apply ping_delivers.
  - apply Same. by eapply read_refines.
  - apply Same. destruct Hrq. by eapply write_refines.
  - destruct Hrq. by eapply query_refines.
  - apply Same. destruct Hrq. rewrite enc_RemoteCall_length. by eapply fn_id_refines.
  - apply Same. destruct Hrq. by eapply call_refines.
  - apply Same. destruct Hrq. by eapply fast_refines.
  - apply Same. inversion Hs as [| |rq code msg Hrf| | | | | | |rq d0 args dev p ret w0 [[? ?]|[? ?]]];
      subst; try done. split; [done|]. by apply quiet_delivers_same.
Qed.

(** C9: on every well-formed request [handle_msg] does what the protocol
    says: the bytes to send, the devices of the client, the state of the
    devices and the disconnection are those of the abstract server, nothing
    else of the server changes and its invariant is kept. *)
Theorem handle_msg_refines l c s w rq out devs' w' bye :
  server_wf s -> heap s !! l = Some c -> (rx_buffer s).1 = l ->
  rx_holds s (rq_body rq) -> request_wf rq ->
  serves s (ci_devices c) w rq out devs' w' bye ->
  let res := handle_msg l (Header (rq_cmd rq) (Z.of_nat (length (rq_body rq)))) (s, w) in
  delivers out (with_devices l c devs' s, w') bye res /\ server_wf res.2.1.
Proof.
  intros Hw Hc Hl Hrx Hwf Hs res. destruct (wf_heap _ Hw _ _ Hc) as (_ & _ & _ & [_ Hdw]). split.
  - by apply handle_msg_delivers; [apply (wf_tx _ Hw)|..].
  - eapply client_frame_wf; [|exact Hw]. by apply (within_handle_msg l _ (s, w)).
Qed.
End protocol.
