(* ===== verification/ServerFrames.v ===== *)
(** * HwioServer: every message the protocol answers

    [serves] speaks of well-formed requests.  [replies] adds the messages of a
    wrong size, with an unknown command or about a device that is not the
    client's, with the text of each refusal, and speaks of messages as frames:
    a command and a body, whatever their bytes. *)

From Stdlib Require Import ZArith Lia Ascii String.
From stdpp Require Import base tactics list numbers strings gmap fin_maps.
From S2P Require Import Prelude CxxString Version CompSpec Device Bus Wire Protocol Server ServerHandlers.
From S2P Require Import ServerFrame ServerSpec ServerQuery ServerSafety ServerLoop ServerLoopSpec ServerStream.

(** ** Streams of frames *)

(** A command and a body. *)
Definition message : Type := Z * list byte.

Definition enc_message (m : message) : list byte := frame m.1 m.2.

Definition message_wf (m : message) : Prop := 0 <= m.1 < 256 /\ Z.of_nat (length m.2) < 65536.

(** The message that carries a request. *)
Definition of_request (rq : request) : message := (rq_cmd rq, rq_body rq).

Lemma of_request_wf rq : request_wf rq -> message_wf (of_request rq).
Proof. intros [H _]. split; [by destruct rq|done]. Qed.

Lemma enc_of_requests rqs :
  concat (map enc_message (map of_request rqs)) = concat (map enc_request rqs).
Proof. by rewrite map_map. Qed.

Lemma enc_message_length m : length (enc_message m) = (3 + length m.2)%nat.
Proof. apply frame_length. Qed.

Lemma enc_message_header m rest : message_wf m ->
  dec_header (enc_message m ++ rest) = Header m.1 (Z.of_nat (length m.2)).
Proof.
  intros [H1 H2]. unfold enc_message, frame. rewrite <-app_assoc. apply dec_enc_header.
  split; cbn [command body_len]; lia.
Qed.

(** No complete message. *)
Definition incomplete (part : list byte) : Prop :=
  (length part < 3 \/ length part < 3 + Z.to_nat (body_len (dec_header part)))%nat.

Lemma dec_header_split b0 b1 b2 rest :
  dec_header (b0 :: b1 :: b2 :: rest) = Header (le_to_Z [b0]) (le_to_Z [b1; b2]).
Proof. done. Qed.

(** Bytes that are not incomplete start with a message. *)
Lemma first_message bs :
  ~ incomplete bs ->
  exists m rest, bs = enc_message m ++ rest /\ message_wf m /\ (length rest < length bs)%nat.
Proof.
  intros Hc. unfold incomplete in Hc.
  destruct bs as [|b0 [|b1 [|b2 bs]]]; try (exfalso; apply Hc; left; cbn; lia).
  rewrite dec_header_split in Hc. cbn [body_len length] in Hc.
  set (n := le_to_Z [b1; b2]) in *. pose proof (le_to_Z_bound [b1; b2]) as Hn.
  pose proof (le_to_Z_bound [b0]) as H0. fold n in Hn. cbn [length] in Hn, H0.
  assert (length (take (Z.to_nat n) bs) = Z.to_nat n) as Hl by (rewrite length_take; lia).
  exists (le_to_Z [b0], take (Z.to_nat n) bs), (drop (Z.to_nat n) bs). split_and!.
  - unfold enc_message, frame, enc_header. cbn [fst snd command body_len].
    rewrite Hl, Z2Nat.id by lia. pose proof (le_of_Z_to_Z [b0]) as E0. pose proof (le_of_Z_to_Z [b1; b2]) as E1.
    cbn [length] in E0, E1. unfold n. rewrite E0, E1. cbn [app]. by rewrite take_drop.
  - split; cbn [fst snd]; [lia|]. rewrite Hl. change (256 ^ Z.of_nat 2) with 65536 in Hn. lia.
  - rewrite length_drop. cbn [length]. lia.
Qed.

#[export] Instance incomplete_dec bs : Decision (incomplete bs).
Proof. unfold incomplete. apply _. Defined.

(** Every stream of bytes is a sequence of messages and a part of one. *)
Lemma split_messages bs :
  exists ms part, bs = concat (map enc_message ms) ++ part /\ Forall message_wf ms /\ incomplete part.
Proof.
  induction bs as [bs IH] using list_len_ind.
  destruct (decide (incomplete bs)) as [Hi|Hc]; [by exists [], bs|].
  destruct (first_message bs Hc) as (m & rest & -> & Hm & Hlt).
  destruct (IH rest Hlt) as (ms & part & -> & Hms & Hp). exists (m :: ms), part.
  split_and!; [cbn [map concat]; by rewrite <-app_assoc|by constructor|done].
Qed.

Section replies.
Context {W D B : Type} `{!IDev W D} `{!IBus W D B}.
Implicit Types (l : loc) (s : HwioServer W D B) (w : W) (devs : list (option D)).

(** ** What the protocol depends on *)

(** The tables alone. *)
Record same_tables s s' : Prop := {
  st_buses : buses s' = buses s;
  st_plugins : plugins s' = plugins s;
  st_fast : plugins_fast s' = plugins_fast s;
  st_names : plugins_fast_names s' = plugins_fast_names s
}.

#[export] Instance same_tables_preorder : PreOrder same_tables.
Proof. split; [intros s; by split|]. intros s1 s2 s3 [] []. split; congruence. Qed.

Lemma refusal_tables s s' devs rq : same_tables s s' -> refusal s' devs rq = refusal s devs rq.
Proof. intros [E1 E2 E3 E4]. destruct rq; cbn; rewrite ?E2, ?E3; done. Qed.

Lemma serves_tables s s' devs w rq out devs' w' bye :
  same_tables s s' -> serves s devs w rq out devs' w' bye ->
  serves s' devs w rq out devs' w' bye.
Proof.
  intros Hss H. pose proof Hss as [E1 E2 E3 E4].
  destruct H; try (by econstructor; eauto; rewrite ?E1, ?E2, ?E3, ?E4; eauto).
  - apply sv_refused. by rewrite (refusal_tables s).
  - eapply sv_call; eauto. destruct rq; cbn in *; rewrite ?E2, ?E3; done.
Qed.

Lemma serves_devs_wf s devs w rq out devs' w' bye :
  serves s devs w rq out devs' w' bye -> devs_wf devs -> devs_wf devs'.
Proof. intros H Hwf. destruct H; try done. by eapply registers_registered. Qed.

(** ** Answers *)

(** [replies s devs w m out devs' w' bye]: the answer to the message [m].  A
    [HWIO_CMD_MSG] has none; the handler terminates its text, which must be
    long enough for the byte to be a part of it. *)
Inductive replies s devs w : message -> list byte -> list (option D) -> W -> bool -> Prop :=
  | rp_request rq out devs' w' bye :
      request_wf rq -> serves s devs w rq out devs' w' bye ->
      replies s devs w (of_request rq) out devs' w' bye
  | rp_refused m code msg :
      message_wf m -> frame_refusal (owned devs) m.1 m.2 = Some (code, msg) ->
      replies s devs w m (error_bytes code msg) devs w true
  | rp_message m :
      message_wf m -> m.1 = HWIO_CMD_MSG -> (4 + MAX_NAME_LEN <= length m.2)%nat ->
      replies s devs w m [] devs w false.

Lemma replies_wf s devs w m out devs' w' bye :
  replies s devs w m out devs' w' bye -> message_wf m.
Proof. destruct 1; [by apply of_request_wf|done..]. Qed.

Lemma replies_devs_wf s devs w m out devs' w' bye :
  replies s devs w m out devs' w' bye -> devs_wf devs -> devs_wf devs'.
Proof. intros H Hwf. destruct H; [by eapply serves_devs_wf|done..]. Qed.

Lemma replies_tables s s' devs w m out devs' w' bye :
  same_tables s s' -> replies s devs w m out devs' w' bye -> replies s' devs w m out devs' w' bye.
Proof. intros Hss H. destruct H; constructor; by try eapply serves_tables. Qed.

(** A run of the abstract server without a disconnection. *)
Inductive serves_all s : list (option D) -> W -> list request -> list (list byte) ->
    list (option D) -> W -> Prop :=
  | sa_nil devs w : serves_all s devs w [] [] devs w
  | sa_cons devs w rq out devs1 w1 rqs outs devs' w' :
      serves s devs w rq out devs1 w1 false -> serves_all s devs1 w1 rqs outs devs' w' ->
      serves_all s devs w (rq :: rqs) (out :: outs) devs' w'.

Lemma serves_all_tables s s' devs w rqs outs devs' w' :
  same_tables s s' -> serves_all s devs w rqs outs devs' w' ->
  serves_all s' devs w rqs outs devs' w'.
Proof. intros Hss. induction 1; econstructor; [by eapply serves_tables|done]. Qed.

Lemma serves_all_app s devs w rqs1 rqs2 outs devs' w' :
  serves_all s devs w (rqs1 ++ rqs2) outs devs' w' ->
  exists outs1 outs2 devs1 w1, outs = outs1 ++ outs2 /\
    serves_all s devs w rqs1 outs1 devs1 w1 /\ serves_all s devs1 w1 rqs2 outs2 devs' w'.
Proof.
  revert devs w outs. induction rqs1 as [|rq rqs1 IH]; intros devs w outs H.
  - exists [], outs, devs, w. split_and!; [done|constructor|done].
  - cbn in H. inversion H as [|? ? ? out devs1 w1 ? outs0 ? ? H1 H2]; subst.
    destruct (IH _ _ _ H2) as (o1 & o2 & d1 & w2 & -> & Ha & Hb).
    exists (out :: o1), o2, d1, w2. split_and!; [done|by econstructor|done].
Qed.

(** A run on messages without a disconnection. *)
Inductive replies_all s : list (option D) -> W -> list message -> list (list byte) ->
    list (option D) -> W -> Prop :=
  | ra_nil devs w : replies_all s devs w [] [] devs w
  | ra_cons devs w m out devs1 w1 ms outs devs' w' :
      replies s devs w m out devs1 w1 false -> replies_all s devs1 w1 ms outs devs' w' ->
      replies_all s devs w (m :: ms) (out :: outs) devs' w'.

Lemma replies_all_tables s s' devs w ms outs devs' w' :
  same_tables s s' -> replies_all s devs w ms outs devs' w' ->
  replies_all s' devs w ms outs devs' w'.
Proof. intros Hss. induction 1; econstructor; [by eapply replies_tables|done]. Qed.

Lemma serves_replies_all s devs w rqs outs devs' w' :
  Forall request_wf rqs -> serves_all s devs w rqs outs devs' w' ->
  replies_all s devs w (map of_request rqs) outs devs' w'.
Proof.
  intros Hwf Hs. induction Hs; [constructor|]. apply Forall_cons in Hwf as [? ?].
  econstructor; [by constructor|auto].
Qed.

(** The object of the client, with the bytes [rb] in its buffer. *)
Definition rebuffered (c : ClientInfo D) (rb : list byte) : ClientInfo D :=
  with_rx c (Rx rb (curr_ptr (ci_rx c)) (curr_len (ci_rx c))).

Lemma rebuffered_same (c : ClientInfo D) : rebuffered c (rb_buffer (ci_rx c)) = c.
Proof. by destruct c as [? ? [] ?]. Qed.

Lemma with_devices_rebuffered l c rb s :
  with_devices l (rebuffered c rb) (ci_devices c) s =
  set_heap (<[l := rebuffered c rb]> (heap s)) (next_loc s) (closed s) s.
Proof. done. Qed.

(** The handler of [HWIO_CMD_MSG] writes a zero where the last byte of the
    longest text is, whatever the length of the message. *)
Lemma handle_msg_text l c s w n :
  length (tx_buffer s) = BUFFER_SIZE -> heap s !! l = Some c -> (rx_buffer s).1 = l ->
  ((rx_buffer s).2 + 131 < length (rb_buffer (ci_rx c)))%nat ->
  delivers [] (with_devices l (rebuffered c (splice ((rx_buffer s).2 + 131) [NUL] (rb_buffer (ci_rx c))))
      (ci_devices c) s, w) false
    (handle_msg l (Header HWIO_CMD_MSG n) (s, w)).
Proof.
  intros Htx Hc Hl Hlt. destruct (rx_buffer s) as [l' p] eqn:Erx. cbn [fst snd] in *. subst l'.
  exists (PRes false 0), (tx_buffer s). split_and!; [|done|done|cbn; lia|done].
  change (handle_msg l (Header HWIO_CMD_MSG n))
    with (rx_zero (W:=W) (D:=D) (B:=B) 131 ≫= fun _ => mret (PRes false 0)).
  erewrite st_bind_ret; [reflexivity|]. unfold rx_zero, on_server, st_fst. cbn [fst snd].
  erewrite (st_bind_ret st_get) by done. rewrite Erx.
  erewrite (st_bind_ret (get_client l)) by (unfold get_client; by rewrite Hc).
  rewrite (proj2 (Nat.ltb_lt _ _)) by done. cbn [fst snd]. rewrite with_devices_rebuffered. by destruct s.
Qed.

(** Inside the message when that is long enough. *)
Lemma handle_msg_message l c s w m :
  length (tx_buffer s) = BUFFER_SIZE -> heap s !! l = Some c -> (rx_buffer s).1 = l -> rx_holds s m.2 ->
  m.1 = HWIO_CMD_MSG -> (4 + MAX_NAME_LEN <= length m.2)%nat ->
  exists rb, length rb = length (rb_buffer (ci_rx c)) /\
    drop ((rx_buffer s).2 + length m.2) rb = drop ((rx_buffer s).2 + length m.2) (rb_buffer (ci_rx c)) /\
    delivers [] (with_devices l (rebuffered c rb) (ci_devices c) s, w) false
      (handle_msg l (Header m.1 (Z.of_nat (length m.2))) (s, w)).
Proof.
  intros Htx Hc Hl (c' & rest & Hc' & Hd) -> Hlen. rewrite Hl, Hc in Hc'. injection Hc' as <-.
  apply (f_equal length) in Hd. rewrite length_drop, length_app in Hd. unfold MAX_NAME_LEN in Hlen.
  exists (splice ((rx_buffer s).2 + 131) [NUL] (rb_buffer (ci_rx c))).
  split_and!; [apply splice_length; cbn; lia| |apply handle_msg_text; [done..|lia]].
  unfold splice. cbn [length].
  rewrite drop_app_ge, length_take, Nat.min_l by (rewrite ?length_take; lia).
  rewrite drop_app_ge by (cbn; lia). rewrite drop_drop. f_equal. cbn. lia.
Qed.

(** In the bytes of the next messages when it is not. *)
Lemma short_text_damages_next l c s w body rest :
  length (tx_buffer s) = BUFFER_SIZE -> heap s !! l = Some c -> (rx_buffer s).1 = l ->
  drop (rx_buffer s).2 (rb_buffer (ci_rx c)) = body ++ rest ->
  (length body <= 131 < length body + length rest)%nat ->
  exists rb, drop ((rx_buffer s).2 + length body) rb = <[(131 - length body)%nat := NUL]> rest /\
    delivers [] (with_devices l (rebuffered c rb) (ci_devices c) s, w) false
      (handle_msg l (Header HWIO_CMD_MSG (Z.of_nat (length body))) (s, w)).
Proof.
  intros Htx Hc Hl Hd Hlen. pose proof (f_equal length Hd) as Hld. rewrite length_drop, length_app in Hld.
  exists (splice ((rx_buffer s).2 + 131) [NUL] (rb_buffer (ci_rx c))).
  split; [|apply handle_msg_text; [done..|lia]]. set (p := (rx_buffer s).2) in *. unfold splice. cbn [length].
  rewrite drop_app_le by (rewrite length_take; lia).
  assert (drop (p + length body) (rb_buffer (ci_rx c)) = rest) as Hr.
  { rewrite <-drop_drop, Hd. apply drop_app_length. }
  replace (drop (p + length body) (take (p + 131) (rb_buffer (ci_rx c)))) with (take (131 - length body) rest).
  2:{ rewrite <-Hr, skipn_firstn_comm. f_equal. lia. }
  replace (drop (p + 131 + 1) (rb_buffer (ci_rx c))) with (drop (S (131 - length body)) rest).
  2:{ rewrite <-Hr, drop_drop. f_equal. lia. }
  symmetry. apply insert_take_drop. lia.
Qed.

(** [handle_msg] gives the answer of the protocol, and keeps what follows the
    message in the buffer. *)
Lemma handle_msg_replies l c s w m out devs' w' bye :
  length (tx_buffer s) = BUFFER_SIZE -> heap s !! l = Some c -> devs_wf (ci_devices c) ->
  (rx_buffer s).1 = l -> rx_holds s m.2 -> replies s (ci_devices c) w m out devs' w' bye ->
  exists rb, length rb = length (rb_buffer (ci_rx c)) /\
    drop ((rx_buffer s).2 + length m.2) rb = drop ((rx_buffer s).2 + length m.2) (rb_buffer (ci_rx c)) /\
    delivers out (with_devices l (rebuffered c rb) devs' s, w') bye
      (handle_msg l (Header m.1 (Z.of_nat (length m.2))) (s, w)).
Proof.
  intros Htx Hc Hwf Hl Hrx Hr. destruct Hr as [rq out devs' w' bye Hrq Hs|m code msg [_ Hn] Hf|m _ Hm Hlen].
  - exists (rb_buffer (ci_rx c)). rewrite rebuffered_same. split_and!; [done..|]. by apply handle_msg_delivers.
  - exists (rb_buffer (ci_rx c)). rewrite rebuffered_same, with_devices_same by done. split_and!; [done..|].
    apply refused_delivers. by apply (frame_refused l c).
  - by apply handle_msg_message.
Qed.
End replies.
