(* ===== verification/ServerRun.v ===== *)
(** * HwioServer: the server on a byte stream

    The receive loop and the message loop refine the abstract server of
    [ServerStream]: the requests of a client are answered in order, with the
    same answers, however TCP cuts their bytes into pieces. *)

From Stdlib Require Import ZArith Lia Ascii String.
From stdpp Require Import base tactics list numbers strings gmap fin_maps.
From S2P Require Import Prelude CxxString Version CompSpec Device Bus Wire Protocol Server ServerHandlers.
From S2P Require Import ServerFrame ServerSpec ServerQuery ServerSafety ServerLoop ServerLoopSpec.
From S2P Require Import ServerStream ServerFrames.

Section run.
Context {W D B : Type} `{!IDev W D} `{!IBus W D B} {VG : VectorGrowth} {PL : Platform}.
Implicit Types (l : loc) (s : HwioServer W D B) (w : W) (n : Net) (devs : list (option D)).

(** ** What stays while a client is served *)

(** The tables of the server and the descriptors it polls are the same, the
    other clients untouched. *)
Record same_server l s s' : Prop := {
  ss_buses : buses s' = buses s;
  ss_plugins : plugins s' = plugins s;
  ss_fast : plugins_fast s' = plugins_fast s;
  ss_names : plugins_fast_names s' = plugins_fast_names s;
  ss_fds : fd_to_client s' = fd_to_client s;
  ss_other m : m <> l -> heap s' !! m = heap s !! m;
  ss_master : master_socket s' = master_socket s;
  ss_poll : poll_fds s' = poll_fds s;
  ss_cap : poll_cap s' = poll_cap s;
  ss_removed : removed_poll_fds s' = removed_poll_fds s
}.

#[export] Instance same_server_preorder l : PreOrder (same_server l).
Proof.
  split.
  - intros s. by split.
  - intros s1 s2 s3 [? ? ? ? ? O1 ? ? ? ?] [? ? ? ? ? O2 ? ? ? ?]. split; try congruence.
    intros m Hm. rewrite O2 by done. by apply O1.
Qed.

Lemma same_server_tables l s s' : same_server l s s' -> same_tables s s'.
Proof. intros []. by split. Qed.

(** ** One message *)

(** The bytes sent to the client, one entry for each answer. *)
Definition sent (fd : Z) (outs : list (list byte)) n : Net :=
  MkNet (net_in n) (net_send n)
    (net_sent n ++ map (fun out => (fd, out)) (base.filter (fun out => out <> []) outs))
    (net_accept n) (net_poll n).

Lemma sent_app fd outs1 outs2 n : sent fd outs2 (sent fd outs1 n) = sent fd (outs1 ++ outs2) n.
Proof. unfold sent. cbn. f_equal. by rewrite filter_app, map_app, app_assoc. Qed.

Lemma sent_nil fd n : sent fd [] n = n.
Proof. unfold sent. cbn. rewrite app_nil_r. by destruct n. Qed.

Lemma sent_empty fd n : sent fd [[]] n = n.
Proof. unfold sent. rewrite filter_cons_False by (by intros []). by apply sent_nil. Qed.

Lemma sent_one fd out n : out <> [] ->
  sent fd [out] n = MkNet (net_in n) (net_send n) (net_sent n ++ [(fd, out)]) (net_accept n) (net_poll n).
Proof. intros H. unfold sent. by rewrite filter_cons_True. Qed.

Lemma net_send_all_run fd b bs n :
  net_send n = [] ->
  net_send_all fd (b :: bs) n =
    (Ret true, MkNet (net_in n) (net_send n) (net_sent n ++ [(fd, b :: bs)]) (net_accept n) (net_poll n)).
Proof. intros Hn. unfold net_send_all. by rewrite Hn. Qed.

Lemma send_answer_run l c s w n r :
  heap s !! l = Some c -> net_send n = [] -> (tx_size r <= length (tx_buffer s))%nat ->
  send_answer l r ((s, w), n) =
  (Ret r, ((s, w), sent (ci_fd c) [take (tx_size r) (tx_buffer s)] n)).
Proof.
  intros Hc Hn Hl. unfold send_answer. destruct (Nat.eqb_spec (tx_size r) 0) as [E|E].
  - rewrite E. cbn [take]. by rewrite sent_empty.
  - rewrite (st_bind_ret _ _ _ _ _ (in_get_run l c s w n Hc)).
    erewrite (st_bind_ret (in_server st_get)) by done. cbn [fst snd].
    rewrite (proj2 (Nat.leb_le _ _)) by done.
    destruct (take (tx_size r) (tx_buffer s)) as [|b bs] eqn:Et.
    { apply (f_equal length) in Et. rewrite length_take in Et. cbn in Et. lia. }
    rewrite sent_one by done. rewrite (st_bind_ret _ _ _ true _ (in_net_run _ (s, w) n _ _
      (net_send_all_run (ci_fd c) b bs n Hn))). done.
Qed.

(** The connection of a client between two messages. *)
Record conn l (c : ClientInfo D) s n (devs : list (option D)) (pend : list byte) : Prop := {
  cn_heap : heap s !! l = Some c;
  cn_rx : rx_wf (ci_rx c);
  cn_devs : ci_devices c = devs;
  cn_wf : devs_wf devs;
  cn_pend : pending c = pend;
  cn_tx : length (tx_buffer s) = BUFFER_SIZE;
  cn_send : net_send n = []
}.

Lemma pending_drop (c : ClientInfo D) pend :
  rx_wf (ci_rx c) -> pending c = pend ->
  length pend = curr_len (ci_rx c) /\
  exists tail, drop (curr_ptr (ci_rx c)) (rb_buffer (ci_rx c)) = pend ++ tail.
Proof.
  intros [Hl Hb] <-. unfold pending. split; [apply slice_length; lia|].
  exists (drop (curr_len (ci_rx c)) (drop (curr_ptr (ci_rx c)) (rb_buffer (ci_rx c)))).
  unfold slice. by rewrite take_drop.
Qed.

(** The header and the body of the first message in the buffer. *)
Lemma conn_message l c s n devs m rest :
  conn l c s n devs (enc_message m ++ rest) -> message_wf m ->
  (3 + length m.2 <= curr_len (ci_rx c))%nat /\
  dec_header (slice (curr_ptr (ci_rx c)) 3 (rb_buffer (ci_rx c))) =
    Header m.1 (Z.of_nat (length m.2)) /\
  rx_holds (set_rx_buffer (l, (curr_ptr (ci_rx c) + 3)%nat) s) m.2 /\
  slice (curr_ptr (ci_rx c) + (3 + length m.2))
    (curr_len (ci_rx c) - (3 + length m.2)) (rb_buffer (ci_rx c)) = rest.
Proof.
  intros [Hc Hrx _ _ Hp _ _] Hwf. destruct (pending_drop c _ Hrx Hp) as [Hl [tail Ht]].
  rewrite length_app, enc_message_length in Hl. split_and!.
  - lia.
  - unfold slice. rewrite dec_header_take3, Ht, <-app_assoc. by apply enc_message_header.
  - exists c, (rest ++ tail). split; [done|]. cbn [rx_buffer set_rx_buffer snd].
    rewrite <-drop_drop, Ht. unfold enc_message, frame. rewrite <-!app_assoc.
    by apply drop_app_length'.
  - unfold slice. rewrite <-drop_drop, Ht, <-app_assoc.
    rewrite drop_app_length' by apply enc_message_length. apply take_app_length'. lia.
Qed.

(** The server after a message of the client [c]: the answer buffer, the
    message pointer and the object of the client. *)
Definition after l (c2 : ClientInfo D) tx (p : loc * nat) s : HwioServer W D B :=
  set_tx_buffer tx (set_rx_buffer p (with_client l c2 s)).

Lemma after_same l c2 tx p s : same_server l s (after l c2 tx p s).
Proof. split; try done. intros m Hm. cbn. by rewrite lookup_insert_ne. Qed.

Lemma after_wf l c c2 tx p s :
  server_wf s -> heap s !! l = Some c -> ci_id c2 = ci_id c -> ci_fd c2 = ci_fd c ->
  client_wf c2 -> length tx = BUFFER_SIZE -> server_wf (after l c2 tx p s).
Proof.
  intros Hw Hc Hi Hf Hcw Htx. destruct (with_client_wf l c c2 s Hw Hc Hi Hf Hcw).
  by split.
Qed.

Lemma set_rx_same l p s : same_server l s (set_rx_buffer p s).
Proof. by split. Qed.

(** One message in the buffer is answered as the protocol says. *)
Lemma parse_message l c s w n devs m rest out devs' w' bye :
  conn l c s n devs (enc_message m ++ rest) ->
  replies s devs w m out devs' w' bye ->
  exists c' s', conn l c' s' (sent (ci_fd c) [out] n) devs' rest /\
    ci_fd c' = ci_fd c /\ same_server l s s' /\ (server_wf s -> server_wf s') /\
    curr_ptr (ci_rx c') = (curr_ptr (ci_rx c) + length (enc_message m))%nat /\
    parse_msgs l ((s, w), n) =
    (if bye then in_server (remove_client (ci_fd c)) ≫= fun _ => push_removed (freed_fd (ci_fd c))
     else parse_msgs l) ((s', w'), sent (ci_fd c) [out] n).
Proof.
  intros Hconn Hs. pose proof (replies_wf _ _ _ _ _ _ _ _ Hs) as Hwf. pose proof Hconn as [Hc Hrx Hdv Hdw Hp Htx Hsend]. subst devs.
  destruct (conn_message _ _ _ _ _ _ _ Hconn Hwf) as (Hlen & Hhd & Hbody & Hrest).
  set (p := (l, (curr_ptr (ci_rx c) + 3)%nat)) in *. set (s1 := set_rx_buffer p s).
  destruct (handle_msg_replies l c s1 w m out devs' w' bye Htx Hc Hdw eq_refl Hbody
    (replies_tables s s1 _ _ _ _ _ _ _ (same_server_tables l _ _ (set_rx_same l p s)) Hs))
    as (rb & Hrl & Hrd & r & tx & Hrun & Hl & Hbye & Hsz & Hout).
  set (c1 := Client (ci_id c) (ci_fd c) (Rx rb (curr_ptr (ci_rx c)) (curr_len (ci_rx c))) devs').
  set (msg_len := (3 + length m.2)%nat) in *.
  set (c2 := with_rx c1 (Rx rb (curr_ptr (ci_rx c) + msg_len)
                           (curr_len (ci_rx c) - msg_len))).
  pose proof (replies_devs_wf _ _ _ _ _ _ _ _ Hs Hdw) as Hdw'.
  assert (client_wf c2) as Hcw2.
  { split; [|done]. destruct Hrx. split; cbn; [congruence|]. unfold msg_len in *. lia. }
  set (s2 := set_tx_buffer tx (with_devices l (rebuffered c rb) devs' s1)) in *.
  assert (heap s2 !! l = Some c1) as Hc1 by apply lookup_insert_eq.
  assert (with_client l c2 s2 = after l c2 tx p s) as Eaft.
  { unfold after, s2, s1, with_client, with_devices, set_heap. cbn. by rewrite insert_insert_eq. }
  exists c2, (after l c2 tx p s). split_and!.
  - split; try done; [apply lookup_insert_eq|apply Hcw2|].
    rewrite <-Hrest. unfold pending, slice, c2. cbn [with_rx ci_rx curr_len curr_ptr rb_buffer]. f_equal.
    change (rx_buffer s1).2 with (curr_ptr (ci_rx c) + 3)%nat in Hrd.
    by rewrite <-Nat.add_assoc in Hrd.
  - done.
  - apply after_same.
  - intros Hw. by eapply after_wf.
  - by rewrite enc_message_length.
  - rewrite (parse_msgs_iter l c s w n Hc). unfold parse_iter.
    rewrite (st_bind_ret _ _ _ _ _ (in_get_run l c s w n Hc)). cbv zeta. unfold sizeof_header.
    rewrite (proj2 (Nat.leb_le 3 _)) by (unfold msg_len in *; lia). cbn [negb].
    rewrite Hhd. cbn [body_len]. rewrite Nat2Z.id. fold msg_len.
    rewrite (proj2 (Nat.leb_le _ _)) by done.
    assert (serve_message l (curr_ptr (ci_rx c) + 3) (Header (m.1) (Z.of_nat (length m.2)))
      ((s, w), n) = (Ret r, ((s2, w'), sent (ci_fd c) [out] n))) as Hserve.
    { unfold serve_message. rewrite (st_bind_ret _ _ _ _ _ (in_modify_run _ s w n)).
      rewrite (st_bind_ret _ _ _ _ _ (in_sys_run _ _ n _ _ Hrun)).
      refine (eq_trans (send_answer_run l c1 s2 w' n r Hc1 Hsend _) _).
      - change (tx_buffer s2) with tx. by rewrite Hl.
      - change (tx_buffer s2) with tx. by rewrite Hout. }
    rewrite (st_bind_ret _ _ _ _ _ Hserve).
    rewrite (st_bind_ret _ _ _ _ _ (in_get_run l c1 s2 w' _ Hc1)).
    change (with_rx c1 _) with c2. rewrite (st_bind_ret _ _ _ _ _ (in_put_run l c2 s2 w' _)).
    rewrite Eaft, Hbye. by destruct bye.
Qed.

Lemma parse_incomplete l c s w n devs part :
  conn l c s n devs part -> incomplete part -> parse_msgs l ((s, w), n) = (Ret tt, ((s, w), n)).
Proof.
  intros [Hc Hrx _ _ Hp _ _] Hi. destruct (pending_drop c part Hrx Hp) as [Hl [tail Ht]].
  rewrite (parse_msgs_iter l c s w n Hc). unfold parse_iter.
  rewrite (st_bind_ret _ _ _ _ _ (in_get_run l c s w n Hc)). cbv zeta. unfold sizeof_header.
  destruct (Nat.leb_spec 3 (curr_len (ci_rx c))) as [H3|H3]; [|done]. cbn [negb].
  destruct Hi as [Hi|Hi]; [lia|].
  rewrite (proj2 (Nat.leb_gt _ _)); [done|]. unfold slice. rewrite Ht, take_app_le by lia.
  rewrite dec_header_take3. lia.
Qed.

(** The messages complete in the buffer are answered, the rest stays. *)
Lemma parse_messages l c s w n devs ms rest outs devs' w' :
  conn l c s n devs (concat (map enc_message ms) ++ rest) ->
  replies_all s devs w ms outs devs' w' ->
  exists c' s', conn l c' s' (sent (ci_fd c) outs n) devs' rest /\
    ci_fd c' = ci_fd c /\ same_server l s s' /\ (server_wf s -> server_wf s') /\
    curr_ptr (ci_rx c') = (curr_ptr (ci_rx c) + length (concat (map enc_message ms)))%nat /\
    parse_msgs l ((s, w), n) = parse_msgs l ((s', w'), sent (ci_fd c) outs n).
Proof.
  intros Hconn Hs. revert c s n outs devs w Hconn Hs.
  induction ms as [|m ms IH]; intros c s n outs devs w Hconn Hs.
  - inversion Hs; subst. exists c, s. rewrite sent_nil. cbn. by rewrite Nat.add_0_r.
  - inversion Hs as [|? ? ? out devs1 w1 ? outs0 ? ? H1 H2]; subst.
    cbn [map concat] in Hconn. rewrite <-app_assoc in Hconn.
    destruct (parse_message _ _ _ _ _ _ _ _ _ _ _ _ Hconn H1)
      as (c1 & s1 & Hc1 & Hf1 & Hss1 & Hw1 & Hg1 & Hrun1). cbn iota in Hrun1.
    destruct (IH c1 s1 _ outs0 devs1 w1 Hc1 (replies_all_tables _ _ _ _ _ _ _ _ (same_server_tables _ _ _ Hss1) H2))
      as (c2 & s2 & Hc2 & Hf2 & Hss2 & Hw2 & Hg2 & Hrun2).
    rewrite Hf1, sent_app in *. exists c2, s2.
    split_and!; [done|congruence|by etransitivity|auto| |by rewrite Hrun1].
    cbn [map concat]. rewrite Hg2, Hg1, length_app. lia.
Qed.

Lemma parse_all l c s w n devs rqs part outs devs' w' :
  conn l c s n devs (concat (map enc_request rqs) ++ part) -> Forall request_wf rqs ->
  serves_all s devs w rqs outs devs' w' -> incomplete part ->
  exists c' s', conn l c' s' (sent (ci_fd c) outs n) devs' part /\
    ci_fd c' = ci_fd c /\ same_server l s s' /\ (server_wf s -> server_wf s') /\
    curr_ptr (ci_rx c') = (curr_ptr (ci_rx c) + length (concat (map enc_request rqs)))%nat /\
    parse_msgs l ((s, w), n) = (Ret tt, ((s', w'), sent (ci_fd c) outs n)).
Proof.
  intros Hconn Hwf Hs Hi. rewrite <-enc_of_requests in Hconn |- *.
  destruct (parse_messages _ _ _ _ _ _ _ _ _ _ _ Hconn (serves_replies_all _ _ _ _ _ _ _ Hwf Hs))
    as (c' & s' & Hc & Hf & Hss & Hw & Hg & Hrun).
  exists c', s'. split_and!; try done. rewrite Hrun. by eapply parse_incomplete.
Qed.

(** ** Chunks *)

(** A chunk arrives after some [recv] calls that found nothing. *)
Definition arrival (ch : nat * list byte) : list recv_event :=
  replicate ch.1 RecvAgain ++ [RecvData ch.2].

Lemma recv_arrival k bs rd evs :
  bs <> [] -> (length bs <= rd)%nat ->
  recv_loop rd (replicate k RecvAgain ++ RecvData bs :: evs) = Ret (Some bs, evs).
Proof.
  intros Hne Hl. induction k as [|k IH]; [|done]. cbn. rewrite take_ge, drop_ge by done.
  by destruct bs.
Qed.

(** [gap] bytes lie in the buffer before the partial message [part]: can it be
    moved to the front without an overlap? *)
Definition apart (gap : nat) (part : list byte) : Prop := gap = 0%nat \/ (length part <= gap)%nat.

#[export] Instance apart_dec gap part : Decision (apart gap part).
Proof. unfold apart. apply _. Defined.

Lemma apart_nil gap : apart gap [].
Proof. right. cbn. lia. Qed.

Lemma conn_apart l c s n devs part : conn l c s n devs part -> move_ok (ci_rx c) <-> apart (curr_ptr (ci_rx c)) part.
Proof. intros []. unfold move_ok, apart. by destruct (pending_drop c part) as [-> _]. Qed.

(** One round of the server on a client: what [recv] gives is appended and
    parsed, or the client leaves. *)
Lemma round_recv l c s w n devs part fd r evs :
  conn l c s n devs part -> fd_to_client s !! fd = Some l -> ci_fd c = fd ->
  apart (curr_ptr (ci_rx c)) part ->
  recv_loop (RX_BUFFER_SIZE - length part) (default [] (net_in n !! fd)) = Ret (r, evs) ->
  exists c1 s1, conn l c1 s1 (set_in fd evs n) devs (part ++ default [] r) /\
    ci_fd c1 = fd /\ same_server l s s1 /\ (server_wf s -> server_wf s1) /\
    curr_ptr (ci_rx c1) = 0%nat /\
    handle_multiple_client_requests fd ((s, w), n) =
    match r with
    | Some _ => parse_msgs l
    | None => in_server (remove_client fd) ≫= fun _ => push_removed fd
    end ((s1, w), set_in fd evs n).
Proof.
  intros Hconn Hfd Hcf Hap%(conn_apart _ _ _ _ _ _ Hconn) Hrecv.
  destruct Hconn as [Hc Hrx Hdv Hdw Hp Htx Hsend].
  destruct (pending_drop c part Hrx Hp) as [Hlen _].
  pose proof (read_from_socket_correct l c s w n Hc Hrx Hap) as Hread.
  rewrite <-Hlen, Hcf, Hrecv in Hread. destruct Hread as (rx & Hrun & Hrx2 & Hptr & Hp2).
  rewrite Hp in Hp2.
  exists (with_rx c rx), (with_client l (with_rx c rx) s). split_and!.
  - split; try done. apply lookup_insert_eq.
  - done.
  - split; try done. intros m Hm. cbn. by rewrite lookup_insert_ne.
  - intros Hw. eapply with_client_wf; [done|done|done|done|]. split; [done|]. cbn. by rewrite Hdv.
  - done.
  - unfold handle_multiple_client_requests. erewrite (st_bind_ret (in_server st_get)) by done.
    cbn [fst snd]. rewrite Hfd. erewrite (st_bind_ret (mret l)) by done.
    rewrite (st_bind_ret _ _ _ _ _ (in_get_run l c s w n Hc)). rewrite Hcf, Z.eqb_refl. cbn [negb].
    rewrite (st_bind_ret _ _ _ _ _ Hrun). by destruct r.
Qed.

(** A round that has to move the partial message onto itself. *)
Lemma round_overlap l c s w n devs part fd :
  conn l c s n devs part -> fd_to_client s !! fd = Some l -> ci_fd c = fd ->
  ~ apart (curr_ptr (ci_rx c)) part ->
  handle_multiple_client_requests fd ((s, w), n) = (Undef OverlappingCopy, ((s, w), n)).
Proof.
  intros Hconn Hfd Hcf Hap. rewrite <-(conn_apart _ _ _ _ _ _ Hconn) in Hap. destruct Hconn as [Hc _ _ _ _ _ _].
  unfold handle_multiple_client_requests. erewrite (st_bind_ret (in_server st_get)) by done.
  cbn [fst snd]. rewrite Hfd. erewrite (st_bind_ret (mret l)) by done.
  rewrite (st_bind_ret _ _ _ _ _ (in_get_run l c s w n Hc)). rewrite Hcf, Z.eqb_refl. cbn [negb].
  by apply st_bind_undef, (read_from_socket_overlap l c).
Qed.

Lemma round_run l c s w n devs part fd k bs evs :
  conn l c s n devs part -> fd_to_client s !! fd = Some l -> ci_fd c = fd ->
  apart (curr_ptr (ci_rx c)) part -> bs <> [] ->
  (length part + length bs <= RX_BUFFER_SIZE)%nat ->
  net_in n !! fd = Some (arrival (k, bs) ++ evs) ->
  exists c1 s1, conn l c1 s1 (set_in fd evs n) devs (part ++ bs) /\
    ci_fd c1 = fd /\ same_server l s s1 /\ (server_wf s -> server_wf s1) /\
    curr_ptr (ci_rx c1) = 0%nat /\
    handle_multiple_client_requests fd ((s, w), n) = parse_msgs l ((s1, w), set_in fd evs n).
Proof.
  intros Hconn Hfd Hcf Hap Hne Hl Hin. apply (round_recv l c s w n devs part fd (Some bs) evs); try done.
  rewrite Hin. unfold arrival. rewrite <-app_assoc. apply recv_arrival; [done|lia].
Qed.

(** A client leaves: its object and its entries in the table are gone, and
    [x] is on the list of descriptors to stop polling. *)
Record leaves l fd x s s' : Prop := {
  lv_wf : server_wf s';
  lv_tables : same_tables s s';
  lv_fds : fd_to_client s' = delete fd (fd_to_client s);
  lv_heap : heap s' = delete l (heap s);
  lv_closed : closed s' = closed s ++ if 0 <=? fd then [fd] else [];
  lv_master : master_socket s' = master_socket s;
  lv_poll : poll_fds s' = poll_fds s;
  lv_cap : poll_cap s' = poll_cap s;
  lv_removed : removed_poll_fds s' = removed_poll_fds s ++ [x]
}.

Lemma leave_run l fd x c s w n :
  server_wf s -> fd_to_client s !! fd = Some l -> heap s !! l = Some c ->
  exists s', (in_server (remove_client fd) ≫= fun _ => push_removed x) ((s, w), n) =
    (Ret tt, ((s', w), n)) /\ leaves l fd x s s'.
Proof.
  intros Hw Hfd Hc. pose proof (wf_fd _ Hw _ _ Hfd) as (c0 & Hc0 & Hcf). simplify_eq.
  exists (set_removed (removed_poll_fds s ++ [x]) (removed_state (ci_fd c) l c s)). split.
  - rewrite (st_bind_ret _ _ _ _ _ (in_server_run _ s w _ _ _ (remove_client_run _ _ _ _ Hw Hfd Hc))).
    unfold push_removed. by rewrite in_modify_run.
  - pose proof (removed_state_wf (ci_fd c) l c s Hw Hfd Hc) as Hw'.
    split; [by destruct Hw'|by split|done..].
Qed.

(** A proper prefix of a request. *)
Lemma incomplete_prefix rq pre post rest :
  request_wf rq -> pre ++ post = enc_request rq ++ rest ->
  (length pre < length (enc_request rq))%nat -> incomplete pre.
Proof.
  intros Hrq H Hlt. destruct (Nat.lt_ge_cases (length pre) 3) as [?|H3]; [by left|right].
  rewrite <-dec_header_take3, <-(take_app_le pre post), H, dec_header_take3 by lia.
  rewrite enc_request_header by done. cbn [body_len]. rewrite Nat2Z.id.
  by rewrite enc_request_length in Hlt.
Qed.

(** A prefix of the stream of requests: complete requests and a part. *)
Lemma split_requests rqs pre post :
  Forall request_wf rqs -> pre ++ post = concat (map enc_request rqs) ->
  exists rqs1 rqs2 part, rqs = rqs1 ++ rqs2 /\ pre = concat (map enc_request rqs1) ++ part /\
    part ++ post = concat (map enc_request rqs2) /\ incomplete part /\
    (part = [] \/ exists rq, rq ∈ rqs2 /\ (length part < length (enc_request rq))%nat).
Proof.
  intros Hwf. revert pre. induction Hwf as [|rq rqs Hrq _ IH]; intros pre H; cbn [map concat] in H.
  - apply app_eq_nil in H as [-> ->]. exists [], [], []. split_and!; [done..|left; cbn; lia|by left].
  - destruct (Nat.lt_ge_cases (length pre) (length (enc_request rq))) as [Hlt|Hge].
    + exists [], (rq :: rqs), pre. split_and!; [done|done|done| |].
      * by eapply incomplete_prefix.
      * right. exists rq. split; [left|done].
    + assert (pre = enc_request rq ++ drop (length (enc_request rq)) pre) as E.
      { rewrite <-(take_drop (length (enc_request rq)) pre) at 1. f_equal.
        rewrite <-(take_app_le pre post), H by done. apply take_app_length. }
      rewrite E, <-app_assoc in H. apply app_inv_head in H.
      destruct (IH _ H) as (r1 & r2 & part & -> & Hp & Hpost & Hi & Hs).
      exists (rq :: r1), r2, part. split_and!; [done| |done|done|done].
      rewrite E, Hp. cbn [map concat]. by rewrite <-app_assoc.
Qed.

(** The server on the chunks, one round for each. *)
Definition serve_chunks (fd : Z) (chunks : list (nat * list byte)) : ST World unit :=
  st_iter (fun _ => handle_multiple_client_requests fd) chunks.

(** The bytes of the complete messages at the front of [bs]. *)
Fixpoint complete (fuel : nat) (bs : list byte) : nat :=
  match fuel with
  | O => 0
  | S fuel =>
      if bool_decide (incomplete bs) then 0
      else let m := (3 + Z.to_nat (body_len (dec_header bs)))%nat in m + complete fuel (drop m bs)
  end%nat.

Definition complete_len (bs : list byte) : nat := complete (length bs) bs.

Lemma complete_run fuel ms part :
  Forall message_wf ms -> incomplete part -> (length ms <= fuel)%nat ->
  complete fuel (concat (map enc_message ms) ++ part) = length (concat (map enc_message ms)).
Proof.
  intros Hms Hi. revert fuel. induction Hms as [|m ms Hm _ IH]; intros fuel Hf.
  - destruct fuel; [done|]. cbn [map concat app complete]. by rewrite bool_decide_eq_true_2.
  - destruct fuel as [|fuel]; [cbn in Hf; lia|]. cbn [map concat complete length] in *. rewrite <-app_assoc.
    rewrite bool_decide_eq_false_2.
    + rewrite enc_message_header by done. cbn [body_len]. rewrite Nat2Z.id, <-enc_message_length.
      rewrite drop_app_length, IH by lia. by rewrite length_app.
    + unfold incomplete. rewrite enc_message_header, length_app, enc_message_length by done.
      cbn [body_len]. lia.
Qed.

Lemma complete_requests rqs part :
  Forall request_wf rqs -> incomplete part ->
  complete_len (concat (map enc_request rqs) ++ part) = length (concat (map enc_request rqs)).
Proof.
  intros Hwf Hi. unfold complete_len. rewrite <-enc_of_requests. apply complete_run; [|done|].
  - apply Forall_map. eapply Forall_impl; [exact Hwf|]. apply of_request_wf.
  - rewrite length_app, length_map. clear. induction rqs as [|rq rqs IH]; [cbn; lia|].
    cbn [map concat]. rewrite length_app, enc_message_length. cbn [length]. lia.
Qed.

(** Is every move of a partial message, before the chunks [chunks] are
    received, one between ranges that do not overlap? *)
Fixpoint moves_apart (gap : nat) (part : list byte) (chunks : list (list byte)) : bool :=
  match chunks with
  | [] => true
  | bs :: t => bool_decide (apart gap part) &&
      let gap' := complete_len (part ++ bs) in moves_apart gap' (drop gap' (part ++ bs)) t
  end.

Lemma moves_apart_nil gap chunks : moves_apart gap [] chunks = moves_apart 0 [] chunks.
Proof. destruct chunks; [done|]. cbn [moves_apart]. by rewrite !bool_decide_eq_true_2 by apply apart_nil. Qed.

(** A chunk fits behind the part received before it. *)
Lemma chunk_fits rqs part bs post :
  part ++ bs ++ post = concat (map enc_request rqs) -> bs <> [] ->
  (part = [] \/ exists rq, rq ∈ rqs /\ (length part < length (enc_request rq))%nat) ->
  (forall rq, rq ∈ rqs -> (length (enc_request rq) + length bs <= RX_BUFFER_SIZE)%nat) ->
  (length part + length bs <= RX_BUFFER_SIZE)%nat.
Proof.
  intros Hst Hne [->|(rq & Hrq & Hlt)] Hsz; [|specialize (Hsz rq Hrq); lia].
  destruct rqs as [|rq rqs].
  - cbn in Hst. by apply app_eq_nil in Hst as [-> _].
  - specialize (Hsz rq ltac:(left)). cbn [length]. lia.
Qed.

Lemma serve_chunks_run l fd chunks evs c s w n devs part rqs outs devs' w' :
  conn l c s n devs part -> fd_to_client s !! fd = Some l -> ci_fd c = fd ->
  part ++ concat chunks.*2 = concat (map enc_request rqs) ->
  (part = [] \/ exists rq, rq ∈ rqs /\ (length part < length (enc_request rq))%nat) ->
  Forall request_wf rqs ->
  (forall ch, ch ∈ chunks -> ch.2 <> [] /\
    forall rq, rq ∈ rqs -> (length (enc_request rq) + length ch.2 <= RX_BUFFER_SIZE)%nat) ->
  net_in n !! fd = Some (concat (map arrival chunks) ++ evs) ->
  serves_all s devs w rqs outs devs' w' ->
  if moves_apart (curr_ptr (ci_rx c)) part chunks.*2 then
    exists c' s' n', serve_chunks fd chunks ((s, w), n) = (Ret tt, ((s', w'), n')) /\
      conn l c' s' n' devs' [] /\ net_sent n' = net_sent (sent fd outs n) /\
      same_server l s s' /\ (server_wf s -> server_wf s')
  else exists st', serve_chunks fd chunks ((s, w), n) = (Undef OverlappingCopy, st').
Proof.
  revert c s w n devs part rqs outs.
  induction chunks as [|[k bs] chunks IH];
    intros c s w n devs part rqs outs Hconn Hfd Hcf Hst Hshort Hwf Hch Hin Hs.
  - cbn in Hst. rewrite app_nil_r in Hst.
    assert (rqs = []) as ->.
    { destruct Hshort as [->|(rq & Hrq & Hlt)]; [by apply enc_requests_nil|].
      apply enc_request_le in Hrq. rewrite <-Hst in Hrq. lia. }
    inversion Hs; subst. cbn in Hconn. exists c, s, n. rewrite sent_nil.
    split_and!; [done|done|done|reflexivity|done].
  - cbn [fmap list_fmap map concat snd] in Hst. cbn [map concat] in Hin. rewrite <-app_assoc in Hin.
    cbn [fmap list_fmap snd moves_apart]. unfold serve_chunks in *. cbn [st_iter].
    destruct (decide (apart (curr_ptr (ci_rx c)) part)) as [Hap|Hap].
    2: { rewrite bool_decide_eq_false_2 by done. eexists. by apply st_bind_undef, (round_overlap l c s w n devs part). }
    rewrite bool_decide_eq_true_2 by done. cbn [andb].
    destruct (Hch (k, bs)) as [Hne Hsz]; [left|]. cbn [snd] in Hne, Hsz.
    pose proof (chunk_fits rqs part bs _ Hst Hne Hshort Hsz) as Hfit.
    destruct (round_run l c s w n devs part fd k bs _ Hconn Hfd Hcf Hap Hne Hfit Hin)
      as (c1 & s1 & Hconn1 & Hf1 & Hss1 & Hw1 & Hg1 & Hrun1).
    rewrite app_assoc in Hst.
    destruct (split_requests rqs (part ++ bs) _ Hwf Hst) as (r1 & r2 & p2 & -> & Hp & Hpost & Hi & Hsh2).
    rewrite Hp in Hconn1 |- *. apply Forall_app in Hwf as [Hwf1 Hwf2].
    rewrite complete_requests, drop_app_length by done.
    destruct (serves_all_app _ _ _ _ _ _ _ _ Hs) as (o1 & o2 & d1 & w1 & -> & Hs1 & Hs2).
    destruct (parse_all l c1 s1 w _ devs r1 p2 o1 d1 w1 Hconn1 Hwf1
      (serves_all_tables _ _ _ _ _ _ _ _ (same_server_tables _ _ _ Hss1) Hs1) Hi)
      as (c2 & s2 & Hconn2 & Hf2 & Hss2 & Hw2 & Hg2 & Hrun2).
    rewrite Hf1 in *. rewrite Hg1 in Hg2. cbn [Nat.add] in Hg2. rewrite <-Hg2.
    rewrite (st_bind_ret _ _ _ _ _ (eq_trans Hrun1 Hrun2)).
    assert (same_server l s s2) as Hss by (by etransitivity).
    assert (forall ch, ch ∈ chunks -> ch.2 <> [] /\
      forall rq, rq ∈ r2 -> (length (enc_request rq) + length ch.2 <= RX_BUFFER_SIZE)%nat) as Hch2.
    { intros ch Hin'. destruct (Hch ch) as [? Hb]; [by right|]. split; [done|].
      intros rq Hrq. apply Hb, elem_of_app. by right. }
    pose proof (serves_all_tables _ _ _ _ _ _ _ _ (same_server_tables l _ _ Hss) Hs2) as Hs2'.
    specialize (IH c2 s2 w1 _ d1 p2 r2 o2 Hconn2 ltac:(by rewrite (ss_fds _ _ _ Hss)) Hf2 Hpost Hsh2
      Hwf2 Hch2 ltac:(apply lookup_insert_eq) Hs2').
    destruct (moves_apart _ _ _); [|done].
    destruct IH as (c3 & s3 & n3 & Hrun3 & Hconn3 & Hsent & Hss3 & Hw3).
    exists c3, s3, n3. split_and!; [done|done| |by etransitivity|auto].
    rewrite Hsent, sent_app. unfold sent. cbn [net_sent set_in]. done.
Qed.

(** A message that ends the connection. *)
Lemma disconnect_message l c s w n devs m rest out devs' w' :
  server_wf s -> fd_to_client s !! ci_fd c = Some l ->
  conn l c s n devs (enc_message m ++ rest) -> replies s devs w m out devs' w' true ->
  exists c1 s1 s', parse_msgs l ((s, w), n) = (Ret tt, ((s', w'), sent (ci_fd c) [out] n)) /\
    conn l c1 s1 (sent (ci_fd c) [out] n) devs' rest /\ ci_fd c1 = ci_fd c /\ server_wf s1 /\
    same_server l s s1 /\ leaves l (ci_fd c) (freed_fd (ci_fd c)) s1 s'.
Proof.
  intros Hw Hfd Hconn Hs.
  destruct (parse_message _ _ _ _ _ _ _ _ _ _ _ _ Hconn Hs)
    as (c1 & s1 & Hc1 & Hf1 & Hss & Hw1 & _ & Hrun). cbn iota in Hrun.
  destruct (leave_run l (ci_fd c) (freed_fd (ci_fd c)) c1 s1 w' (sent (ci_fd c) [out] n))
    as (s' & Hrun' & Hl); [by apply Hw1|by rewrite (ss_fds _ _ _ Hss)|apply Hc1|].
  exists c1, s1, s'. rewrite Hrun, Hrun'. split_and!; auto.
Qed.

(** A request that ends the connection: the state after the removal. *)
Lemma disconnect_run l c s w n devs rq rest out devs' w' :
  server_wf s -> fd_to_client s !! ci_fd c = Some l -> 0 <= ci_fd c ->
  conn l c s n devs (enc_request rq ++ rest) -> request_wf rq ->
  serves s devs w rq out devs' w' true ->
  exists s', parse_msgs l ((s, w), n) = (Ret tt, ((s', w'), sent (ci_fd c) [out] n)) /\
    server_wf s' /\ heap s' !! l = None /\
    fd_to_client s' = delete (ci_fd c) (fd_to_client s) /\
    (exists more, removed_poll_fds s' = more ++ [freed_fd (ci_fd c)]) /\
    (exists more, closed s' = more ++ [ci_fd c]) /\ poll_fds s' = poll_fds s.
Proof.
  intros Hw Hfd H0 Hconn Hwf Hs.
  destruct (disconnect_message l c s w n devs (of_request rq) rest out devs' w' Hw Hfd Hconn)
    as (c1 & s1 & s' & Hrun & _ & _ & _ & Hss & Hl); [by constructor|].
  exists s'. destruct Hl as [Hw' _ Hf Hh Hcl _ Hp _ Hr]. split_and!; try done.
  - rewrite Hh. apply lookup_delete_eq.
  - by rewrite Hf, (ss_fds _ _ _ Hss).
  - by eexists.
  - eexists. by rewrite Hcl, (proj2 (Z.leb_le _ _)).
  - by rewrite Hp, (ss_poll _ _ _ Hss).
Qed.

(** ** Properties *)

(** C8: the requests of a client reach the server as one byte stream, cut
    into chunks anywhere (inside a header, several requests at once), with any
    number of empty-handed reads between them.  A request and a chunk together
    fit the receive buffer, every [send] takes all its bytes, and the protocol
    serves the requests without a disconnection.  If no partial message has to
    be moved onto itself ([moves_apart], decided from the bytes of the
    chunks), the server answers each request in order with the bytes of the
    protocol and leaves the devices as the protocol does; no request is lost,
    repeated or split, and the client table stays consistent.  Otherwise the
    [memcpy] of [read_from_socket] gets ranges that overlap, and the run has
    no defined result. *)
Theorem server_stream_correct l fd chunks evs c s w n rqs outs devs' w' :
  server_wf s -> fd_to_client s !! fd = Some l -> heap s !! l = Some c ->
  pending c = [] -> net_send n = [] ->
  Forall request_wf rqs -> concat chunks.*2 = concat (map enc_request rqs) ->
  (forall ch, ch ∈ chunks -> ch.2 <> [] /\
    forall rq, rq ∈ rqs -> (length (enc_request rq) + length ch.2 <= RX_BUFFER_SIZE)%nat) ->
  net_in n !! fd = Some (concat (map arrival chunks) ++ evs) ->
  serves_all s (ci_devices c) w rqs outs devs' w' ->
  if moves_apart 0 [] chunks.*2 then
    exists c' s' n', serve_chunks fd chunks ((s, w), n) = (Ret tt, ((s', w'), n')) /\
      net_sent n' = net_sent n ++ map (pair fd) (base.filter (fun out => out <> []) outs) /\
      heap s' !! l = Some c' /\ ci_devices c' = devs' /\ pending c' = [] /\
      server_wf s' /\ fd_to_client s' = fd_to_client s
  else exists st', serve_chunks fd chunks ((s, w), n) = (Undef OverlappingCopy, st').
Proof.
  intros Hw Hfd Hc Hp Hn Hwf Hst Hch Hin Hs.
  destruct (wf_heap _ Hw _ _ Hc) as (_ & _ & _ & [Hrx Hdw]).
  destruct (wf_fd _ Hw _ _ Hfd) as (c0 & Hc0 & Hcf). simplify_eq.
  assert (conn l c s n (ci_devices c) []) as Hconn by (split; try done; apply (wf_tx _ Hw)).
  rewrite <-(moves_apart_nil (curr_ptr (ci_rx c))).
  pose proof (serve_chunks_run l (ci_fd c) chunks evs c s w n _ [] rqs outs devs' w' Hconn) as H.
  destruct (moves_apart _ _ _); [|by apply H; try done; left].
  destruct H as (c' & s' & n' & Hrun & Hc' & Hsent & Hss & Hw'); [done|done|done|by left|done..|].
  exists c', s', n'. destruct Hc'. split_and!; try done; [by auto|by apply (ss_fds _ _ _ Hss)].
Qed.

(** C16: a request that ends the connection (a refused one or BYE) is
    answered, and then the client is removed: its object is deleted and its
    descriptor closed; nothing it sent after that request is served.  The
    descriptor put on the list to stop polling is read from the deleted
    object, so the entry is removed only where that storage still holds it. *)
Theorem disconnecting_request l c s w n devs rq rest out devs' w' :
  server_wf s -> fd_to_client s !! ci_fd c = Some l -> 0 <= ci_fd c ->
  conn l c s n devs (enc_request rq ++ rest) -> request_wf rq ->
  serves s devs w rq out devs' w' true ->
  exists s', parse_msgs l ((s, w), n) = (Ret tt, ((s', w'), sent (ci_fd c) [out] n)) /\
    server_wf s' /\ heap s' !! l = None /\
    fd_to_client s' = delete (ci_fd c) (fd_to_client s) /\
    (exists more, removed_poll_fds s' = more ++ [freed_fd (ci_fd c)]) /\
    (exists more, closed s' = more ++ [ci_fd c]).
Proof.
  intros Hw Hfd H0 Hconn Hwf Hs.
  destruct (disconnect_run l c s w n devs rq rest out devs' w' Hw Hfd H0 Hconn Hwf Hs)
    as (s' & ? & ? & ? & ? & ? & ? & _). by exists s'.
Qed.

(** C33: a message with a body of more than 65533 bytes can not be received:
    when the buffer is full and the message in it is not complete, the next
    event on the socket, whatever it brings, disconnects the client. *)
Theorem full_buffer_disconnects l c s w n fd bs evs :
  server_wf s -> fd_to_client s !! fd = Some l -> heap s !! l = Some c ->
  curr_ptr (ci_rx c) = 0%nat -> curr_len (ci_rx c) = RX_BUFFER_SIZE ->
  net_in n !! fd = Some (RecvData bs :: evs) ->
  exists s' n', handle_multiple_client_requests fd ((s, w), n) = (Ret tt, ((s', w), n')) /\
    server_wf s' /\ heap s' !! l = None /\ fd_to_client s' = delete fd (fd_to_client s) /\
    net_sent n' = net_sent n /\ removed_poll_fds s' = removed_poll_fds s ++ [fd].
Proof.
  intros Hw Hfd Hc Hp Hl Hin.
  destruct (wf_fd _ Hw _ _ Hfd) as (c0 & Hc0 & Hcf). simplify_eq.
  destruct (wf_heap _ Hw _ _ Hc) as (_ & _ & _ & [Hrx Hdw]).
  pose proof (read_from_socket_correct l c s w n Hc Hrx (or_introl Hp)) as Hread.
  rewrite Hin, Hl, Nat.sub_diag in Hread. cbn [default recv_loop take] in Hread.
  destruct Hread as (rx & Hrun & Hrx2 & _ & _).
  rewrite bool_decide_eq_false_2 in Hrun by (by intros []).
  set (s1 := with_client l (with_rx c rx) s) in *.
  assert (heap s1 !! l = Some (with_rx c rx)) as Hc1 by apply lookup_insert_eq.
  assert (server_wf s1) as Hw1 by (eapply with_client_wf; done).
  pose proof (remove_client_run (ci_fd c) l _ s1 Hw1 Hfd Hc1) as Hrm.
  eexists (set_removed (removed_poll_fds s ++ [ci_fd c]) (removed_state (ci_fd c) l (with_rx c rx) s1)),
    (set_in (ci_fd c) _ n). split_and!.
  - unfold handle_multiple_client_requests. erewrite (st_bind_ret (in_server st_get)) by done.
    cbn [fst snd]. rewrite Hfd. erewrite (st_bind_ret (mret l)) by done.
    rewrite (st_bind_ret _ _ _ _ _ (in_get_run l c s w n Hc)). rewrite Z.eqb_refl. cbn [negb].
    rewrite (st_bind_ret _ _ _ _ _ Hrun).
    rewrite (st_bind_ret _ _ _ _ _ (in_server_run _ s1 w _ _ _ Hrm)).
    unfold push_removed. by rewrite in_modify_run.
  - pose proof (removed_state_wf (ci_fd c) l _ s1 Hw1 Hfd Hc1) as [].  by split.
  - apply lookup_delete_eq.
  - done.
  - done.
  - done.
Qed.
End run.
