(* ===== verification/ServerSingle.v ===== *)
(** * HwioServer: the handler of a single request

    [handle_client_requests] of [server/hwio_server.cpp], the handler of one
    request that nothing calls any more: it receives the header into a local
    variable and the body over the member [rx_buffer], which became a pointer
    when the clients got buffers of their own. *)

From Stdlib Require Import ZArith Lia Ascii String.
From stdpp Require Import base tactics list numbers strings gmap fin_maps.
From S2P Require Import Prelude CxxString Version CompSpec Device Bus Wire Protocol Server ServerHandlers.
From S2P Require Import ServerFrame ServerSpec ServerQuery ServerSafety ServerLoop ServerLoopSpec.
From S2P Require Import ServerStream ServerFrames ServerRun.

(** The pointer whose first bytes were overwritten. *)
Class PointerBytes := { overwrite_pointer : loc * nat -> list byte -> loc * nat }.

Definition sizeof_pointer : nat := 8.

(** The loops around [recv(sd, data_ptr + rx_data_size, n - rx_data_size,
    MSG_DONTWAIT)]: are all bytes received, the bytes stored, and the events
    left. *)
Fixpoint recv_exact (want : nat) (evs : list recv_event) : outcome (bool * list byte * list recv_event) :=
  match want, evs with
  | O, _ => Ret (true, [], evs)
  | _, [] => Undef Hang
  | _, RecvAgain :: t => recv_exact want t
  | _, RecvError :: t => Ret (false, [], t)
  | _, RecvEof :: _ => Ret (false, [], evs)
  | _, RecvData [] :: _ => Ret (false, [], evs)
  | _, RecvData bs :: t =>
      if (length bs <=? want)%nat then
        recv_exact (want - length bs) t ≫= fun '(ok, got, evs') => Ret (ok, bs ++ got, evs')
      else Ret (true, take want bs, RecvData (drop want bs) :: t)
  end.

Section single.
Context {W D B : Type} `{!IDev W D} `{!IBus W D B} {VG : VectorGrowth} {PL : Platform} {PB : PointerBytes}.
Implicit Types (l : loc) (s : HwioServer W D B) (w : W) (n : Net) (devs : list (option D)) (sd : Z).

Definition net_recv_exact sd (want : nat) : ST Net (bool * list byte) := fun n =>
  match recv_exact want (default [] (net_in n !! sd)) with
  | Ret (r, evs) => (Ret r, MkNet (<[sd := evs]> (net_in n)) (net_send n) (net_sent n)
                             (net_accept n) (net_poll n))
  | Throw e => (Throw e, n)
  | Undef f => (Undef f, n)
  end.

(** The body is received over the member [rx_buffer], a pointer. *)
Definition recv_body sd (len : nat) : ST (World (W:=W) (D:=D) (B:=B)) bool :=
  in_net (net_recv_exact sd len) ≫= fun '(ok, got) =>
  if (length got <=? sizeof_pointer)%nat then
    in_server (st_modify (fun s => set_rx_buffer (overwrite_pointer (rx_buffer s) got) s)) ≫= fun _ => mret ok
  else st_undef OutOfBounds.

(** The request after its header. *)
Definition serve_single (client : loc) sd (header : Hwio_packet_header) :
    ST (World (W:=W) (D:=D) (B:=B)) PProcRes :=
  (if body_len header =? 0 then mret true else recv_body sd (Z.to_nat (body_len header))) ≫= fun ok : bool =>
  if ok then
    in_sys (handle_msg client header) ≫= fun respMeta => send_answer client respMeta
  else
    in_sys (send_err MALFORMED_PACKET
      ("Wrong frame body (expectedSize=" +:+ to_dec (body_len header) +:+ " got=" +:+ to_dec 0)).

(** [HwioServer::handle_client_requests] *)
Definition handle_client_requests sd : ST (World (W:=W) (D:=D) (B:=B)) unit :=
  in_server st_get ≫= fun s =>
  (match fd_to_client s !! sd with
   | None => in_server (add_new_client (fresh_storage (next_loc s)) sd)
   | Some client => mret client
   end) ≫= fun client =>
  in_server (get_client client) ≫= fun c =>
  if negb (ci_fd c =? sd) then st_undef AssertFailed
  else
    in_net (net_recv_exact sd sizeof_header) ≫= fun '(ok, bs) =>
    (if ok : bool then serve_single client sd (dec_header bs) else mret (PRes true 0)) ≫= fun respMeta =>
    if disconnect respMeta then in_server (remove_client sd) ≫= fun _ => push_removed sd
    else mret tt.

(** ** Messages without a body *)

(** The answer to a message without a body does not depend on [rx_buffer]. *)
Lemma bodyless_delivers l c s w cmd out devs' w' bye :
  length (tx_buffer s) = BUFFER_SIZE -> heap s !! l = Some c ->
  replies s (ci_devices c) w (cmd, []) out devs' w' bye ->
  devs' = ci_devices c /\ delivers out (s, w') bye (handle_msg l (Header cmd 0) (s, w)).
Proof.
  intros Htx Hc Hr. remember (cmd, []) as m eqn:Em.
  destruct Hr as [rq out devs' w' bye [_ Hrq] Hs|m code msg [Hcmd _] Hf|m _ _ Hlen]; subst.
  - assert (rq = RqPing \/ rq = RqBye) as [-> | ->].
    { injection Em as _ Hb. apply (f_equal length) in Hb.
      destruct rq; cbn [rq_body] in Hb; [by left|exfalso..|by right];
        rewrite ?length_app, ?enc_query_length, ?enc_RemoteCall_length, ?enc_RdReq_length in Hb; cbn in Hb; lia. }
    + injection Em as <-. inversion Hs as [| |rq code msg Hrf| | | | | | |rq d args dev p ret w0 [[? ?]|[? ?]]];
        subst; try done. split; [done|]. by apply ping_delivers.
    + injection Em as <-. inversion Hs as [| |rq code msg Hrf| | | | | | |rq d args dev p ret w0 [[? ?]|[? ?]]];
        subst; try done. split; [done|]. by apply quiet_delivers_same.
  - split; [done|]. apply refused_delivers. cbn [fst snd] in *. apply malformed_refused; [done|cbn; lia|].
    unfold frame_refusal in Hf. change (Z.of_nat (length [])) with 0 in Hf.
    destruct (malformed_refusal (Header cmd 0)) as [e|] eqn:E; [by injection Hf as ->|]. exfalso.
    revert E Hf. unfold malformed_refusal, access_refusal. cbn [command body_len].
    repeat match goal with |- context [cmd =? ?x] => destruct (Z.eqb_spec cmd x) as [->|]; [done|] end. done.
  - cbn in Hlen. lia.
Qed.

(** ** Receiving *)

Lemma recv_exact_0 evs : recv_exact 0 evs = Ret (true, [], evs).
Proof. by destruct evs. Qed.

Lemma recv_exact_arrives chunks evs want :
  Forall (fun ch : nat * list byte => ch.2 <> []) chunks -> length (concat chunks.*2) = want ->
  recv_exact want (concat (map arrival chunks) ++ evs) = Ret (true, concat chunks.*2, evs).
Proof.
  intros Hne. revert want. induction Hne as [|[k bs] chunks Hbs _ IH]; intros want Hl.
  - cbn in *. subst. apply recv_exact_0.
  - cbn [fmap list_fmap map concat fst snd] in *. rewrite length_app in Hl. unfold arrival at 1. cbn [fst snd].
    rewrite <-!app_assoc. destruct bs as [|b bs]; [done|]. cbn [length] in Hl. destruct want as [|want]; [lia|].
    induction k as [|k IHk]; [|exact IHk].
    cbn [replicate app recv_exact]. rewrite (proj2 (Nat.leb_le _ _)) by (cbn [length]; lia).
    rewrite IH by (cbn [length]; lia). done.
Qed.

(** More bytes than fit the pointer. *)
Lemma recv_body_overflow sd (st : Sys (W:=W) (D:=D) (B:=B)) n len chunks evs :
  Forall (fun ch : nat * list byte => ch.2 <> []) chunks -> length (concat chunks.*2) = len ->
  (sizeof_pointer < len)%nat -> net_in n !! sd = Some (concat (map arrival chunks) ++ evs) ->
  exists st', recv_body sd len (st, n) = (Undef OutOfBounds, st').
Proof.
  intros Hne Hl Hlt Hin. unfold recv_body. eexists.
  erewrite st_bind_ret by (apply in_net_run; unfold net_recv_exact; rewrite Hin; cbn [default]; unfold id;
    rewrite recv_exact_arrives by done; reflexivity).
  cbn beta iota. rewrite Hl, (proj2 (Nat.leb_gt _ _)) by done. done.
Qed.

(** ** The handler up to the body of the request *)

Lemma single_header l sd c s w n chunks evs cmd len :
  fd_to_client s !! sd = Some l -> heap s !! l = Some c -> ci_fd c = sd ->
  header_wf (Header cmd len) -> Forall (fun ch : nat * list byte => ch.2 <> []) chunks ->
  concat chunks.*2 = enc_header (Header cmd len) ->
  net_in n !! sd = Some (concat (map arrival chunks) ++ evs) ->
  handle_client_requests sd ((s, w), n) =
  (serve_single l sd (Header cmd len) ≫= fun respMeta =>
   if disconnect respMeta then in_server (remove_client sd) ≫= fun _ => push_removed sd
   else mret tt) ((s, w), set_in sd evs n).
Proof.
  intros Hfd Hc Hcf Hwf Hne Hch Hin. unfold handle_client_requests.
  erewrite (st_bind_ret (in_server st_get)) by done. cbn [fst snd]. rewrite Hfd.
  erewrite (st_bind_ret (mret l)) by done. rewrite (st_bind_ret _ _ _ _ _ (in_get_run l c s w n Hc)).
  rewrite Hcf, Z.eqb_refl. cbn [negb].
  erewrite st_bind_ret by (apply in_net_run; unfold net_recv_exact; rewrite Hin; cbn [default]; unfold id;
    rewrite recv_exact_arrives by (done || by rewrite Hch); reflexivity).
  cbn beta iota. rewrite Hch, <-(app_nil_r (enc_header _)), dec_enc_header by done. done.
Qed.

(** ** Properties *)

(** C32: the unused handler of one request answers a message without a body as
    the protocol says, however its header is cut, and removes a client that
    is refused or says BYE; a body of more than eight bytes overwrites the
    server object behind the pointer [rx_buffer]. *)
Theorem single_request_handler l sd c s w n chunks evs cmd len :
  server_wf s -> fd_to_client s !! sd = Some l -> heap s !! l = Some c -> net_send n = [] ->
  header_wf (Header cmd len) -> Forall (fun ch : nat * list byte => ch.2 <> []) chunks ->
  concat chunks.*2 = enc_header (Header cmd len) ->
  net_in n !! sd = Some (concat (map arrival chunks) ++ evs) ->
  (forall out devs' w' bye, len = 0 -> replies s (ci_devices c) w (cmd, []) out devs' w' bye ->
    exists s', handle_client_requests sd ((s, w), n) =
        (Ret tt, ((s', w'), sent sd [out] (set_in sd evs n))) /\ server_wf s' /\
      if bye then fd_to_client s' = delete sd (fd_to_client s) /\ heap s' = delete l (heap s) /\
        removed_poll_fds s' = removed_poll_fds s ++ [sd]
      else devs' = ci_devices c /\ heap s' = heap s /\ fd_to_client s' = fd_to_client s) /\
  (forall body more, Z.of_nat (sizeof_pointer) < len ->
    Forall (fun ch : nat * list byte => ch.2 <> []) body -> Z.of_nat (length (concat body.*2)) = len ->
    evs = concat (map arrival body) ++ more ->
    exists st', handle_client_requests sd ((s, w), n) = (Undef OutOfBounds, st')).
Proof.
  intros Hw Hfd Hc Hn Hwf Hne Hch Hin. destruct (wf_fd _ Hw _ _ Hfd) as (c0 & Hc0 & Hcf). simplify_eq.
  rewrite (single_header l (ci_fd c) c s w n chunks evs cmd len Hfd Hc eq_refl Hwf Hne Hch Hin).
  unfold serve_single. cbn [body_len]. split.
  - intros out devs' w' bye -> Hr.
    destruct (bodyless_delivers l c s w cmd out devs' w' bye (wf_tx _ Hw) Hc Hr) as [-> (r & tx & Hrun & Hl & Hbye & Hsz & Hout)].
    assert (server_wf (set_tx_buffer tx s)) as Hw1 by (destruct Hw; by split).
    cbn [Z.eqb]. erewrite (st_bind_ret _ _ _ r).
    2:{ erewrite (st_bind_ret (mret true)) by done. cbv iota. rewrite (st_bind_ret _ _ _ _ _ (in_sys_run _ _ _ _ _ Hrun)).
        cbn [fst snd]. eapply (send_answer_run l c); [exact Hc|done|]. cbn. by rewrite Hl. }
    cbn [tx_buffer set_tx_buffer]. rewrite Hout, Hbye. destruct bye.
    + destruct (leave_run l (ci_fd c) (ci_fd c) c (set_tx_buffer tx s) w' (sent (ci_fd c) [out] (set_in (ci_fd c) evs n)) Hw1 Hfd Hc)
        as (s' & Hrun' & Hlv). exists s'. split; [exact Hrun'|]. destruct Hlv. by split_and!.
    + exists (set_tx_buffer tx s). by split_and!.
  - intros body more Hlt Hbne Hbl ->. rewrite (proj2 (Z.eqb_neq _ _)) by lia.
    destruct (recv_body_overflow (ci_fd c) (s, w) (set_in (ci_fd c) (concat (map arrival body) ++ more) n)
      (Z.to_nat len) body more) as [st' Hrun]; [done|lia|lia|apply lookup_insert_eq|].
    exists st'. apply st_bind_undef, st_bind_undef. exact Hrun.
Qed.
End single.
