(* ===== verification/ServerRounds.v ===== *)
(** * HwioServer: many clients in the polling loop

    The abstract server of [ServerFrames] for one client becomes one for all
    of them ([hub]): a round of polling is a sequence of turns, one for each
    descriptor that [ppoll] reports, in which a client is accepted, sends
    bytes, is answered, or leaves.  [pool_client_msgs] refines the rounds, and
    every client is answered while the others do what they like. *)

From Stdlib Require Import ZArith Lia Ascii String.
From stdpp Require Import base tactics list numbers strings gmap fin_maps.
From S2P Require Import Prelude CxxString Version CompSpec Device Bus Wire Protocol Server ServerHandlers.
From S2P Require Import ServerFrame ServerSpec ServerQuery ServerSafety ServerLoop ServerLoopSpec.
From S2P Require Import ServerStream ServerFrames ServerRun.

(** The bits of [revents] that report an error. *)
Definition poll_error (r : Z) : bool :=
  negb (Z.lor (Z.lor (Z.land r POLLERR) (Z.land r POLLHUP)) (Z.land r POLLNVAL) =? 0).

Section hub.
Context {W D B : Type} `{!IDev W D} `{!IBus W D B} {VG : VectorGrowth} {PL : Platform}.
Implicit Types (l : loc) (s : HwioServer W D B) (w : W) (n : Net) (devs : list (option D)) (fd : Z).

(** ** The abstract server *)

(** The clients by their descriptors, with their devices, the bytes of the
    message they have not completed and the number of bytes before it in
    their buffer; the descriptors polled and the capacity of their vector; the
    descriptors to stop polling; what the sockets have in store; the devices. *)
Record hub := Hub {
  hub_peers : gmap Z (list (option D) * list byte * nat);
  hub_polled : list Z;
  hub_cap : nat;
  hub_removed : list Z;
  hub_in : gmap Z (list recv_event);
  hub_accept : list Z;
  hub_world : W
}.
Implicit Types (h : hub).

(** The client [fd] is gone, and [x] is not to be polled any more. *)
Definition without fd (x : Z) h : hub :=
  Hub (delete fd (hub_peers h)) (hub_polled h) (hub_cap h) (hub_removed h ++ [x]) (hub_in h)
    (hub_accept h) (hub_world h).

(** The client [fd] after [recv] left the events [evs]. *)
Definition heard fd devs part (gap : nat) evs w h : hub :=
  Hub (<[fd := (devs, part, gap)]> (hub_peers h)) (hub_polled h) (hub_cap h) (hub_removed h)
    (<[fd := evs]> (hub_in h)) (hub_accept h) w.

Definition joined new rest h : hub :=
  Hub (<[new := ([], [], 0%nat)]> (hub_peers h)) (hub_polled h ++ [new])
    (if (length (hub_polled h) <? hub_cap h)%nat then hub_cap h else vec_grow (length (hub_polled h)))
    (hub_removed h) (hub_in h) rest (hub_world h).

Definition to_client fd (outs : list (list byte)) : list (Z * list byte) :=
  map (pair fd) (base.filter (fun out => out <> []) outs).

Section turns.
Context (s0 : HwioServer W D B) (master : Z).

(** What [recv] gives to the client [fd]. *)
Definition receives fd h (part : list byte) (r : option (list byte)) (evs : list recv_event) : Prop :=
  recv_loop (RX_BUFFER_SIZE - length part) (default [] (hub_in h !! fd)) = Ret (r, evs).

(** The bytes of complete messages. *)
Definition used (ms : list message) : nat := length (concat (map enc_message ms)).

(** One entry of [poll_fds] with its [revents], and what is sent.  A client
    has a turn when its partial message can be moved to the front.  After a
    message that ends the connection the descriptor to stop polling is read
    from the deleted object. *)
Inductive turn : Z -> Z -> hub -> list (Z * list byte) -> hub -> Prop :=
  | tn_quiet fd h : turn fd 0 h [] h
  | tn_accept r h new rest :
      r <> 0 -> poll_error r = false -> hub_accept h = new :: rest -> 0 <= new -> new <> master ->
      new ∉ hub_polled h -> hub_peers h !! new = None -> turn master r h [] (joined new rest h)
  | tn_error fd r h :
      poll_error r = true -> 0 <= fd -> fd <> master -> turn fd r h [] (without fd fd h)
  | tn_gone fd r h devs part gap evs :
      r <> 0 -> poll_error r = false -> hub_peers h !! fd = Some (devs, part, gap) -> apart gap part ->
      receives fd h part None evs ->
      turn fd r h [] (without fd fd (heard fd devs part 0 evs (hub_world h) h))
  | tn_serve fd r h devs part gap bs evs ms outs devs' w' part' :
      r <> 0 -> poll_error r = false -> hub_peers h !! fd = Some (devs, part, gap) -> apart gap part ->
      receives fd h part (Some bs) evs -> part ++ bs = concat (map enc_message ms) ++ part' ->
      replies_all s0 devs (hub_world h) ms outs devs' w' -> incomplete part' ->
      turn fd r h (to_client fd outs) (heard fd devs' part' (used ms) evs w' h)
  | tn_bye fd r h devs part gap bs evs ms outs devs1 w1 m out devs' w' rest :
      r <> 0 -> poll_error r = false -> hub_peers h !! fd = Some (devs, part, gap) -> apart gap part ->
      receives fd h part (Some bs) evs ->
      part ++ bs = concat (map enc_message ms) ++ enc_message m ++ rest ->
      replies_all s0 devs (hub_world h) ms outs devs1 w1 ->
      replies s0 devs1 w1 m out devs' w' true ->
      turn fd r h (to_client fd (outs ++ [out]))
        (without fd (freed_fd fd) (heard fd devs' rest 0 evs w' h)).

(** The entries in order.  A client accepted when the vector is full moves
    the entries the loop has still to visit. *)
Inductive turns : list (Z * Z) -> hub -> list (Z * list byte) -> hub -> Prop :=
  | tns_nil h : turns [] h [] h
  | tns_cons fd r es h out h1 outs h' :
      turn fd r h out h1 ->
      es = [] \/ length (hub_polled h1) = length (hub_polled h) \/
        (length (hub_polled h) < hub_cap h)%nat ->
      turns es h1 outs h' -> turns ((fd, r) :: es) h (out ++ outs) h'.

(** The descriptors on the list are polled no more. *)
Definition swept h : hub :=
  match hub_removed h with
  | [] => h
  | removed =>
      let keep := base.filter (fun fd => fd ∉ removed) (hub_polled h) in
      Hub (hub_peers h) keep (cap_after (length keep)) [] (hub_in h) (hub_accept h) (hub_world h)
  end.

Definition reported (revents : list Z) h : list (Z * Z) :=
  imap (fun i fd => (fd, default 0 (revents !! i))) (hub_polled h).

(** The results of [ppoll] in order. *)
Inductive rounds : list poll_event -> hub -> list (Z * list byte) -> hub -> Prop :=
  | rds_nil h : rounds [] h [] h
  | rds_timeout evs h outs h' : rounds evs h outs h' -> rounds (PollTimeout :: evs) h outs h'
  | rds_interrupted evs h outs h' : rounds evs h outs h' -> rounds (PollInterrupted :: evs) h outs h'
  | rds_events revents evs h out h1 outs h' :
      turns (reported revents h) h out h1 -> rounds evs (swept h1) outs h' ->
      rounds (PollEvents revents :: evs) h (out ++ outs) h'.

(** ** What the state of the server stands for *)

(** The server serves the clients of [h] and polls its descriptors. *)
Record stands_for (wd : World (W:=W) (D:=D) (B:=B)) h : Prop := {
  sf_world : wd.1.2 = hub_world h;
  sf_tables : same_tables s0 wd.1.1;
  sf_wf : server_wf wd.1.1;
  sf_peers fd devs part gap : hub_peers h !! fd = Some (devs, part, gap) ->
    0 <= fd /\ exists l c, fd_to_client wd.1.1 !! fd = Some l /\
      conn l c wd.1.1 wd.2 devs part /\ ci_fd c = fd /\ curr_ptr (ci_rx c) = gap;
  sf_fds fd : is_Some (fd_to_client wd.1.1 !! fd) -> is_Some (hub_peers h !! fd);
  sf_polled : map pf_fd (poll_fds wd.1.1) = hub_polled h;
  sf_cap : poll_cap wd.1.1 = hub_cap h;
  sf_in : net_in wd.2 = hub_in h;
  sf_accept : net_accept wd.2 = hub_accept h;
  sf_send : net_send wd.2 = [];
  sf_master : master_socket wd.1.1 = master /\ 0 <= master /\ hub_peers h !! master = None;
  sf_nodup : NoDup (hub_polled h);
  sf_removed : removed_poll_fds wd.1.1 = hub_removed h
}.

Lemma conn_move l c s s' n n' devs part :
  conn l c s n devs part -> heap s' !! l = heap s !! l -> server_wf s' -> net_send n' = [] ->
  conn l c s' n' devs part.
Proof. intros [] Hh Hw Hn. split; try done; [congruence|by apply wf_tx]. Qed.

(** The objects of two clients are different. *)
Lemma peers_apart wd h fd fd' l l' :
  stands_for wd h -> fd_to_client wd.1.1 !! fd = Some l -> fd_to_client wd.1.1 !! fd' = Some l' ->
  fd <> fd' -> l <> l'.
Proof.
  intros Hs H1 H2 Hne ->. destruct (wf_fd _ (sf_wf _ _ Hs) _ _ H1) as (c & Hc & E1).
  destruct (wf_fd _ (sf_wf _ _ Hs) _ _ H2) as (c' & Hc' & E2). congruence.
Qed.

(** The abstract server is determined by the state. *)
Lemma stands_for_unique wd h1 h2 : stands_for wd h1 -> stands_for wd h2 -> h1 = h2.
Proof.
  assert (forall h h' fd p, stands_for wd h -> stands_for wd h' ->
    hub_peers h !! fd = Some p -> hub_peers h' !! fd = Some p) as Hle.
  { intros h h' fd [[devs part] gap] H1 H2 Hp.
    destruct (sf_peers _ _ H1 _ _ _ _ Hp) as (_ & l & c & Hl & [Hc _ Hd _ Hpd _ _] & _ & Hg).
    destruct (sf_fds _ _ H2 fd) as [[[devs' part'] gap'] Hp']; [by exists l|].
    destruct (sf_peers _ _ H2 _ _ _ _ Hp') as (_ & l' & c' & Hl' & [Hc' _ Hd' _ Hpd' _ _] & _ & Hg').
    rewrite Hp'. congruence. }
  intros H1 H2. destruct h1 as [p1 f1 c1 r1 i1 a1 w1], h2 as [p2 f2 c2 r2 i2 a2 w2].
  pose proof (sf_world _ _ H1). pose proof (sf_world _ _ H2). pose proof (sf_polled _ _ H1).
  pose proof (sf_polled _ _ H2). pose proof (sf_cap _ _ H1). pose proof (sf_cap _ _ H2).
  pose proof (sf_removed _ _ H1). pose proof (sf_removed _ _ H2).
  pose proof (sf_in _ _ H1). pose proof (sf_in _ _ H2). pose proof (sf_accept _ _ H1). pose proof (sf_accept _ _ H2).
  cbn [hub_world hub_polled hub_cap hub_removed hub_in hub_accept] in *.
  assert (p1 = p2) as ->; [|congruence]. apply map_eq. intros fd.
  apply option_eq. intros p. split; [by apply (Hle _ _ fd p H1 H2)|by apply (Hle _ _ fd p H2 H1)].
Qed.

(** The client [fd] was served. *)
Lemma stands_heard s w n s' w' n' h fd l c devs part gap evs p :
  stands_for ((s, w), n) h -> hub_peers h !! fd = Some p -> fd_to_client s !! fd = Some l ->
  same_server l s s' -> server_wf s' -> conn l c s' n' devs part -> ci_fd c = fd ->
  curr_ptr (ci_rx c) = gap ->
  net_in n' = <[fd := evs]> (net_in n) -> net_accept n' = net_accept n ->
  stands_for ((s', w'), n') (heard fd devs part gap evs w' h).
Proof.
  intros Hst Hp Hfd Hss Hw Hc Hcf Hg Hin Hacc. destruct p as [[devs0 part0] gap0].
  pose proof (sf_peers _ _ Hst _ _ _ _ Hp) as (H0 & _). cbn [fst snd] in *.
  assert (fd <> master) as Hm.
  { intros ->. destruct (sf_master _ _ Hst) as (_ & _ & E). congruence. }
  split; cbn [fst snd heard hub_peers hub_polled hub_cap hub_removed hub_in hub_accept hub_world].
  - done.
  - etransitivity; [apply (sf_tables _ _ Hst)|]. by eapply same_server_tables.
  - done.
  - intros fd' devs' part' gap'. destruct (decide (fd' = fd)) as [->|Hne].
    + rewrite lookup_insert_eq. intros [= <- <- <-]. split; [done|].
      exists l, c. by rewrite (ss_fds _ _ _ Hss).
    + rewrite lookup_insert_ne by done. intros Hp'.
      destruct (sf_peers _ _ Hst _ _ _ _ Hp') as (? & l' & c' & Hfd' & Hc' & ? & ?).
      split; [done|]. exists l', c'. rewrite (ss_fds _ _ _ Hss). split_and!; [done| |done|done].
      apply (conn_move _ _ s _ n); [done| |done|apply Hc]. apply (ss_other _ _ _ Hss).
      by apply (peers_apart _ _ _ _ _ _ Hst Hfd' Hfd).
  - intros fd' Hi. rewrite (ss_fds _ _ _ Hss) in Hi. apply lookup_insert_is_Some'. right.
    by apply (sf_fds _ _ Hst).
  - rewrite (ss_poll _ _ _ Hss). apply (sf_polled _ _ Hst).
  - rewrite (ss_cap _ _ _ Hss). apply (sf_cap _ _ Hst).
  - by rewrite Hin, <-(sf_in _ _ Hst).
  - rewrite Hacc. apply (sf_accept _ _ Hst).
  - apply Hc.
  - rewrite (ss_master _ _ _ Hss), lookup_insert_ne by done. apply (sf_master _ _ Hst).
  - apply (sf_nodup _ _ Hst).
  - rewrite (ss_removed _ _ _ Hss). apply (sf_removed _ _ Hst).
Qed.

(** The client [fd] left. *)
Lemma stands_without s w n s' h fd x l :
  stands_for ((s, w), n) h -> fd <> master -> fd_to_client s !! fd = Some l ->
  leaves l fd x s s' -> stands_for ((s', w), n) (without fd x h).
Proof.
  intros Hst Hm Hfd Hl. cbn [fst snd] in *.
  split; cbn [fst snd without hub_peers hub_polled hub_cap hub_removed hub_in hub_accept hub_world].
  - apply (sf_world _ _ Hst).
  - etransitivity; [apply (sf_tables _ _ Hst)|]. apply (lv_tables _ _ _ _ _ Hl).
  - apply (lv_wf _ _ _ _ _ Hl).
  - intros fd' devs' part' gap' [Hne Hp']%lookup_delete_Some.
    destruct (sf_peers _ _ Hst _ _ _ _ Hp') as (? & l' & c' & Hfd' & Hc' & ? & ?).
    split; [done|]. exists l', c'. rewrite (lv_fds _ _ _ _ _ Hl), lookup_delete_ne by done.
    split_and!; [done| |done|done].
    apply (conn_move _ _ s _ n); [done| |apply (lv_wf _ _ _ _ _ Hl)|apply Hc'].
    rewrite (lv_heap _ _ _ _ _ Hl). apply lookup_delete_ne.
    by apply (peers_apart _ _ _ _ _ _ Hst Hfd Hfd').
  - intros fd' Hi. rewrite (lv_fds _ _ _ _ _ Hl) in Hi.
    apply lookup_delete_is_Some in Hi as [Hne Hi]. apply lookup_delete_is_Some. split; [done|].
    by apply (sf_fds _ _ Hst).
  - rewrite (lv_poll _ _ _ _ _ Hl). apply (sf_polled _ _ Hst).
  - rewrite (lv_cap _ _ _ _ _ Hl). apply (sf_cap _ _ Hst).
  - apply (sf_in _ _ Hst).
  - apply (sf_accept _ _ Hst).
  - apply (sf_send _ _ Hst).
  - rewrite (lv_master _ _ _ _ _ Hl), lookup_delete_ne by done. apply (sf_master _ _ Hst).
  - apply (sf_nodup _ _ Hst).
  - rewrite (lv_removed _ _ _ _ _ Hl). f_equal. apply (sf_removed _ _ Hst).
Qed.

(** An error is reported for a descriptor without a client. *)
Lemma stands_unknown s w n h fd x :
  stands_for ((s, w), n) h -> fd_to_client s !! fd = None ->
  stands_for ((set_removed (removed_poll_fds s ++ [x]) s, w), n) (without fd x h).
Proof.
  intros Hst Hfd. assert (hub_peers h !! fd = None) as Hno.
  { destruct (hub_peers h !! fd) as [[[devs part] gap]|] eqn:E; [|done].
    destruct (sf_peers _ _ Hst _ _ _ _ E) as (_ & l & c & Hl & _). cbn [fst snd] in *. congruence. }
  destruct Hst as [H1 H2 H3 H4 H5 H6 H7 H8 H9 H10 H11 H12 H13]. cbn [fst snd] in *.
  assert (server_wf (set_removed (removed_poll_fds s ++ [x]) s)) as Hw by by destruct H3.
  split; cbn [fst snd without hub_peers hub_polled hub_cap hub_removed hub_in hub_accept hub_world];
    rewrite ?(delete_id (hub_peers h)) by done; try done.
  - by destruct H2.
  - intros fd' devs part gap Hp. destruct (H4 _ _ _ _ Hp) as (? & l & c & ? & Hc & ? & ?).
    split; [done|]. exists l, c. split_and!; [done| |done..]. by apply (conn_move _ _ s _ n).
  - cbn. by rewrite H13.
Qed.

(** A client joined. *)
Lemma stands_joined s w n h new rest :
  stands_for ((s, w), n) h -> hub_accept h = new :: rest -> 0 <= new -> new <> master ->
  new ∉ hub_polled h -> hub_peers h !! new = None ->
  fd_to_client s !! new = None /\
  stands_for ((added_state (fresh_storage (next_loc s)) new s, w),
    MkNet (net_in n) (net_send n) (net_sent n) rest (net_poll n)) (joined new rest h).
Proof.
  intros Hst Hacc H0 Hnm Hnew Hnp. cbn [fst snd] in *.
  assert (fd_to_client s !! new = None) as Hnf.
  { apply eq_None_not_Some. intros Hi%(sf_fds _ _ Hst). rewrite Hnp in Hi. by destruct Hi. }
  split; [done|]. destruct (sf_master _ _ Hst) as (Hm1 & Hm2 & Hm3). cbn [fst snd] in *.
  pose proof (added_state_wf (fresh_storage (next_loc s)) new s (fresh_storage_length _)
    (sf_wf _ _ Hst) Hnf) as Hw.
  assert (heap s !! next_loc s = None) as Hfresh.
  { destruct (heap s !! next_loc s) as [c|] eqn:E; [|done].
    destruct (wf_heap _ (sf_wf _ _ Hst) _ _ E) as (_ & _ & Hlt & _). cbn in Hlt. lia. }
  split; cbn [fst snd joined hub_peers hub_polled hub_cap hub_removed hub_in hub_accept hub_world net_in net_send
    net_accept added_state set_poll_fds poll_fds poll_cap master_socket removed_poll_fds].
  - apply (sf_world _ _ Hst).
  - etransitivity; [apply (sf_tables _ _ Hst)|]. by split.
  - done.
  - intros fd devs part gap. destruct (decide (fd = new)) as [->|Hne].
    + rewrite lookup_insert_eq. intros [= <- <- <-]. split; [done|].
      exists (next_loc s), (new_ClientInfo (fresh_storage (next_loc s)) (free_slot (clients s) 0) new).
      split_and!; [apply lookup_insert_eq| |done|done].
      destruct (new_client_wf (D:=D) (fresh_storage (next_loc s)) (free_slot (clients s) 0) new (fresh_storage_length _)).
      split; try done; [apply lookup_insert_eq|apply (wf_tx _ Hw)|apply (sf_send _ _ Hst)].
    + rewrite lookup_insert_ne by done. intros Hp.
      destruct (sf_peers _ _ Hst _ _ _ _ Hp) as (? & l & c & Hfd & Hc & ? & ?).
      split; [done|]. exists l, c. split_and!; [| |done|done].
      * by apply lookup_insert_Some; right.
      * apply (conn_move _ _ s _ n); [done| |done|apply (sf_send _ _ Hst)]. apply lookup_insert_ne.
        intros <-. destruct Hc. cbn [fst snd] in *. congruence.
  - intros fd Hi. change (is_Some (<[new := next_loc s]> (fd_to_client s) !! fd)) in Hi.
    apply lookup_insert_is_Some'. apply lookup_insert_is_Some' in Hi as [->|Hi]; [by left|].
    right. by apply (sf_fds _ _ Hst).
  - rewrite map_app. f_equal. apply (sf_polled _ _ Hst).
  - rewrite <-(sf_polled _ _ Hst), length_map, <-(sf_cap _ _ Hst). done.
  - apply (sf_in _ _ Hst).
  - done.
  - apply (sf_send _ _ Hst).
  - by rewrite lookup_insert_ne.
  - apply NoDup_app. split_and!; [apply (sf_nodup _ _ Hst)| |apply NoDup_singleton].
    intros fd Hfd ->%list_elem_of_singleton. done.
  - apply (sf_removed _ _ Hst).
Qed.

(** ** The loops refine the abstract rounds *)

(** An entry the loop handles. *)
Lemma entry_run fd r s w n :
  r <> 0 -> 0 <= fd -> poll_error r = false -> fd <> master_socket s ->
  poll_entry (PollFd fd r) ((s, w), n) = handle_multiple_client_requests fd ((s, w), n).
Proof.
  intros Hr H0 He Hm. unfold poll_entry. cbn [pf_fd pf_revents].
  rewrite (proj2 (Z.ltb_ge _ _)), (proj2 (Z.eqb_neq r 0)) by done. cbn [orb].
  erewrite (st_bind_ret (in_server st_get)) by done. cbn [fst snd].
  change (negb _) with (poll_error r) at 1. rewrite He. by rewrite (proj2 (Z.eqb_neq _ _)).
Qed.

Lemma entry_error fd r s w n :
  0 <= fd -> poll_error r = true -> fd <> master_socket s ->
  poll_entry (PollFd fd r) ((s, w), n) =
    (in_server (remove_client fd) ≫= fun _ => push_removed fd) ((s, w), n).
Proof.
  intros H0 He Hm. unfold poll_entry. cbn [pf_fd pf_revents].
  assert (r <> 0) as Hr by by intros ->.
  rewrite (proj2 (Z.ltb_ge _ _)), (proj2 (Z.eqb_neq r 0)) by done. cbn [orb].
  erewrite (st_bind_ret (in_server st_get)) by done. cbn [fst snd].
  change (negb _) with (poll_error r) at 1. rewrite He. by rewrite (proj2 (Z.eqb_neq _ _)).
Qed.

Lemma entry_accept r s w n new rest :
  r <> 0 -> 0 <= master_socket s -> poll_error r = false -> 0 <= new ->
  net_accept n = new :: rest -> fd_to_client s !! new = None ->
  poll_entry (PollFd (master_socket s) r) ((s, w), n) =
    (Ret tt, ((added_state (fresh_storage (next_loc s)) new s, w),
       MkNet (net_in n) (net_send n) (net_sent n) rest (net_poll n))).
Proof.
  intros Hr H0 He Hnew Hacc Hno. unfold poll_entry. cbn [pf_fd pf_revents].
  rewrite (proj2 (Z.ltb_ge _ _)), (proj2 (Z.eqb_neq r 0)) by done. cbn [orb].
  erewrite (st_bind_ret (in_server st_get)) by done. cbn [fst snd].
  change (negb _) with (poll_error r) at 1. rewrite He, Z.eqb_refl.
  erewrite st_bind_ret by (apply in_net_run; unfold next_accept; by rewrite Hacc).
  rewrite (proj2 (Z.ltb_ge _ _)) by done.
  erewrite st_bind_ret by (apply in_server_run; by apply add_new_client_run). done.
Qed.

(** What is sent, and that [ppoll] is not called in a turn. *)
Definition sends (outs : list (Z * list byte)) n n' : Prop :=
  net_sent n' = net_sent n ++ outs /\ net_poll n' = net_poll n.

(** A client whose [recv] returned. *)
Lemma heard_run s w n h fd devs part gap r evs :
  stands_for ((s, w), n) h -> hub_peers h !! fd = Some (devs, part, gap) -> apart gap part ->
  receives fd h part r evs ->
  exists l c s1, fd_to_client s1 !! fd = Some l /\ ci_fd c = fd /\ server_wf s1 /\
    conn l c s1 (set_in fd evs n) devs (part ++ default [] r) /\ curr_ptr (ci_rx c) = 0%nat /\
    same_server l s s1 /\
    stands_for ((s1, w), set_in fd evs n) (heard fd devs (part ++ default [] r) 0 evs w h) /\
    handle_multiple_client_requests fd ((s, w), n) =
    match r with
    | Some _ => parse_msgs l
    | None => in_server (remove_client fd) ≫= fun _ => push_removed fd
    end ((s1, w), set_in fd evs n).
Proof.
  intros Hst Hp Hap Hr. destruct (sf_peers _ _ Hst _ _ _ _ Hp) as (H0 & l & c & Hfd & Hc & Hcf & Hg).
  unfold receives in Hr. rewrite <-(sf_in _ _ Hst) in Hr. cbn [fst snd] in *.
  destruct (round_recv l c s w n devs part fd r evs Hc Hfd Hcf) as (c1 & s1 & Hc1 & Hf1 & Hss & Hw1 & Hg1 & Hrun);
    [by rewrite Hg|done|].
  specialize (Hw1 (sf_wf _ _ Hst)). exists l, c1, s1. split_and!; try done.
  - by rewrite (ss_fds _ _ _ Hss).
  - by eapply stands_heard.
Qed.

(** The turn of a client that is answered. *)
Lemma turn_serve s w n h fd r devs part gap bs evs ms outs devs' w' part' :
  stands_for ((s, w), n) h -> 0 <= fd -> fd <> master_socket s ->
  r <> 0 -> poll_error r = false -> hub_peers h !! fd = Some (devs, part, gap) -> apart gap part ->
  receives fd h part (Some bs) evs -> part ++ bs = concat (map enc_message ms) ++ part' ->
  replies_all s0 devs (hub_world h) ms outs devs' w' -> incomplete part' ->
  exists s' n', poll_entry (PollFd fd r) ((s, w), n) = (Ret tt, ((s', w'), n')) /\
    stands_for ((s', w'), n') (heard fd devs' part' (used ms) evs w' h) /\ sends (to_client fd outs) n n'.
Proof.
  intros Hst H0 Hm Hr He Hp Hap Hrc Hbs Hall Hi.
  destruct (heard_run _ _ _ _ _ _ _ _ _ _ Hst Hp Hap Hrc)
    as (l & c & s1 & Hl & Hcf & Hw1 & Hc & Hg1 & Hss & Hst1 & Hrun).
  cbn [default] in Hc. unfold id in Hc. rewrite Hbs in Hc. rewrite <-(sf_world _ _ Hst) in Hall.
  destruct (parse_messages l c s1 w _ devs ms part' outs devs' w' Hc)
    as (c2 & s2 & Hc2 & Hf2 & Hss2 & Hw2 & Hg2 & Hrun2).
  { eapply replies_all_tables; [exact (sf_tables _ _ Hst1)|done]. }
  rewrite Hcf in *. exists s2, (sent fd outs (set_in fd evs n)). split; [|split; [|by split]].
  - rewrite entry_run, Hrun, Hrun2 by done. by eapply parse_incomplete.
  - eapply (stands_heard s w n);
      [done|done| |by etransitivity|by apply Hw2|done|congruence|by rewrite Hg2, Hg1|done|done].
    by rewrite <-(ss_fds _ _ _ Hss).
Qed.

Lemma without_heard fd x devs part gap gap' evs w h :
  without fd x (heard fd devs part gap evs w h) = without fd x (heard fd devs part gap' evs w h).
Proof. unfold without. cbn [heard hub_peers]. by rewrite !delete_insert_eq. Qed.

(** The turn of a client whose last message ends the connection. *)
Lemma turn_bye s w n h fd r devs part gap bs evs ms outs devs1 w1 m out devs' w' rest :
  stands_for ((s, w), n) h -> 0 <= fd -> fd <> master_socket s ->
  r <> 0 -> poll_error r = false -> hub_peers h !! fd = Some (devs, part, gap) -> apart gap part ->
  receives fd h part (Some bs) evs ->
  part ++ bs = concat (map enc_message ms) ++ enc_message m ++ rest ->
  replies_all s0 devs (hub_world h) ms outs devs1 w1 -> replies s0 devs1 w1 m out devs' w' true ->
  exists s' n', poll_entry (PollFd fd r) ((s, w), n) = (Ret tt, ((s', w'), n')) /\
    stands_for ((s', w'), n') (without fd (freed_fd fd) (heard fd devs' rest 0 evs w' h)) /\
    sends (to_client fd (outs ++ [out])) n n'.
Proof.
  intros Hst H0 Hm Hr He Hp Hap Hrc Hbs Hall Hbye.
  destruct (heard_run _ _ _ _ _ _ _ _ _ _ Hst Hp Hap Hrc)
    as (l & c & s1 & Hl & Hcf & Hw1 & Hc & _ & Hss & Hst1 & Hrun).
  cbn [default] in Hc. unfold id in Hc. rewrite Hbs in Hc. rewrite <-(sf_world _ _ Hst) in Hall.
  destruct (parse_messages l c s1 w _ devs ms _ outs devs1 w1 Hc)
    as (c2 & s2 & Hc2 & Hf2 & Hss2 & Hw2 & _ & Hrun2).
  { eapply replies_all_tables; [exact (sf_tables _ _ Hst1)|done]. }
  rewrite Hcf in *.
  destruct (disconnect_message l c2 s2 w1 (sent fd outs (set_in fd evs n)) devs1 m rest out devs' w')
    as (c3 & s3 & s' & Hrun3 & Hc3 & Hf3 & Hw3 & Hss3 & Hlv).
  - by apply Hw2.
  - by rewrite Hf2, (ss_fds _ _ _ Hss2).
  - done.
  - eapply replies_tables; [|exact Hbye].
    etransitivity; [exact (sf_tables _ _ Hst1)|]. by eapply same_server_tables.
  - rewrite Hf2, sent_app in *. exists s', (sent fd (outs ++ [out]) (set_in fd evs n)).
    split; [by rewrite entry_run, Hrun, Hrun2|]. split; [|by split].
    rewrite (without_heard _ _ _ _ 0 (curr_ptr (ci_rx c3))).
    destruct (sf_master _ _ Hst) as (Hm' & _). cbn [fst] in Hm'.
    eapply stands_without; [|congruence| |exact Hlv].
    + eapply (stands_heard s w n); [done|done| | |done|done|done|done|done|done].
      * by rewrite <-(ss_fds _ _ _ Hss).
      * do 2 (etransitivity; [eassumption|]). done.
    + by rewrite (ss_fds _ _ _ Hss3), (ss_fds _ _ _ Hss2).
Qed.

(** The turn of a descriptor with an error. *)
Lemma turn_error s w n h fd r :
  stands_for ((s, w), n) h -> poll_error r = true -> 0 <= fd -> fd <> master ->
  exists s', poll_entry (PollFd fd r) ((s, w), n) = (Ret tt, ((s', w), n)) /\
    stands_for ((s', w), n) (without fd fd h).
Proof.
  intros Hst He H0 Hne. destruct (sf_master _ _ Hst) as (Hm & _). cbn [fst snd] in Hm.
  rewrite entry_error by (done || congruence).
  destruct (fd_to_client s !! fd) as [l|] eqn:Hl.
  - destruct (wf_fd _ (sf_wf _ _ Hst) _ _ Hl) as (c & Hc & _).
    destruct (leave_run l fd fd c s w n (sf_wf _ _ Hst) Hl Hc) as (s' & Hrun & Hlv).
    exists s'. split; [done|]. by eapply stands_without.
  - exists (set_removed (removed_poll_fds s ++ [fd]) s). split; [|by apply stands_unknown].
    rewrite (st_bind_ret _ _ _ _ _ (in_server_run _ s w _ _ _ (remove_client_unknown _ _ Hl))).
    unfold push_removed. by rewrite in_modify_run.
Qed.

(** A turn of the abstract server is an iteration of the loop. *)
Lemma turn_run s w n h fd r out h' :
  stands_for ((s, w), n) h -> turn fd r h out h' ->
  exists s' w' n', poll_entry (PollFd fd r) ((s, w), n) = (Ret tt, ((s', w'), n')) /\
    stands_for ((s', w'), n') h' /\ sends out n n'.
Proof.
  intros Hst Ht. destruct (sf_master _ _ Hst) as (Hm & Hm0 & Hmno). cbn [fst snd] in Hm.
  assert (forall p, hub_peers h !! fd = Some p -> 0 <= fd /\ fd <> master_socket s) as Hfd.
  { intros [[d p] g] Hp. rewrite Hm. destruct (sf_peers _ _ Hst _ _ _ _ Hp). split; [done|]. congruence. }
  destruct Ht as [fd h|r h new rest Hr He Hacc H0 Hnm Hnew Hno|fd r h He H0 Hne
    |fd r h devs part gap evs Hr He Hp Hap Hrc
    |fd r h devs part gap bs evs ms outs devs' w2 part' Hr He Hp Hap Hrc Hbs Hall Hi
    |fd r h devs part gap bs evs ms outs devs1 w1 m out devs' w2 rest Hr He Hp Hap Hrc Hbs Hall Hbye].
  - exists s, w, n. split; [|split; [done|by split; [rewrite app_nil_r|]]].
    unfold poll_entry. cbn [pf_fd pf_revents]. by rewrite orb_true_r.
  - destruct (stands_joined _ _ _ _ _ _ Hst Hacc H0 Hnm Hnew Hno) as [Hno' Hst'].
    eexists _, w, _. split; [|split; [exact Hst'|by split; [rewrite app_nil_r|]]].
    rewrite <-Hm. apply entry_accept; try done; [by rewrite Hm|by rewrite <-Hacc, <-(sf_accept _ _ Hst)].
  - destruct (turn_error s w n h fd r Hst He H0 Hne) as (s' & Hrun & Hst').
    exists s', w, n. split; [done|]. split; [done|by split; [rewrite app_nil_r|]].
  - destruct (Hfd _ Hp) as [H0 Hne].
    destruct (heard_run _ _ _ _ _ _ _ _ _ _ Hst Hp Hap Hrc)
      as (l & c & s1 & Hl & Hcf & Hw1 & Hc & _ & _ & Hst1 & Hrun).
    destruct (leave_run l fd fd c s1 w (set_in fd evs n) Hw1 Hl (cn_heap _ _ _ _ _ _ Hc)) as (s' & Hrun' & Hlv).
    rewrite app_nil_r in Hst1. exists s', w, (set_in fd evs n).
    split; [by rewrite entry_run, Hrun, Hrun'|]. split; [|by split; [rewrite app_nil_r|]].
    rewrite <-(sf_world _ _ Hst). eapply stands_without; [exact Hst1|congruence|exact Hl|exact Hlv].
  - destruct (Hfd _ Hp) as [H0 Hne].
    destruct (turn_serve s w n h fd r devs part gap bs evs ms outs devs' w2 part') as (s' & n' & ?); try done.
    by exists s', w2, n'.
  - destruct (Hfd _ Hp) as [H0 Hne].
    destruct (turn_bye s w n h fd r devs part gap bs evs ms outs devs1 w1 m out devs' w2 rest)
      as (s' & n' & ?); try done.
    by exists s', w2, n'.
Qed.

(** The loop over the entries. *)
Lemma turns_run es s w n h outs h' :
  stands_for ((s, w), n) h -> turns es h outs h' ->
  exists s' w' n', poll_entries (map (uncurry PollFd) es) ((s, w), n) = (Ret tt, ((s', w'), n')) /\
    stands_for ((s', w'), n') h' /\ sends outs n n'.
Proof.
  intros Hst Ht. revert s w n Hst.
  induction Ht as [h|fd r es h out h1 outs h' Ht Hroom _ IH]; intros s w n Hst.
  - exists s, w, n. split; [done|]. split; [done|]. by split; [rewrite app_nil_r|].
  - destruct (turn_run _ _ _ _ _ _ _ _ Hst Ht) as (s1 & w1 & n1 & Hrun & Hst1 & Hs1 & Hp1).
    destruct (IH _ _ _ Hst1) as (s2 & w2 & n2 & Hrun2 & Hst2 & Hs2 & Hp2).
    exists s2, w2, n2. split; [|split; [done|split; [by rewrite Hs2, Hs1, app_assoc|congruence]]].
    cbn [map uncurry poll_entries]. erewrite (st_bind_ret (in_server st_get)) by done. cbn [fst snd].
    rewrite (st_bind_ret _ _ _ _ _ Hrun). erewrite (st_bind_ret (in_server st_get)) by done. cbn [fst snd].
    assert (length (poll_fds s) = length (hub_polled h)) as L1 by by rewrite <-(sf_polled _ _ Hst), length_map.
    assert (length (poll_fds s1) = length (hub_polled h1)) as L2 by by rewrite <-(sf_polled _ _ Hst1), length_map.
    pose proof (sf_cap _ _ Hst) as Hcap. cbn [fst snd] in Hcap. rewrite L1, L2, Hcap, length_map.
    assert ((hub_cap h <=? length (hub_polled h))%nat && (length (hub_polled h) <? length (hub_polled h1))%nat &&
      negb (length es =? 0)%nat = false) as ->; [|done].
    destruct Hroom as [->|[->|Hlt]].
    + apply andb_false_r.
    + by rewrite Nat.ltb_irrefl, andb_false_r.
    + by rewrite (proj2 (Nat.leb_gt _ _)).
Qed.

Lemma set_revents_reported revents s h :
  map pf_fd (poll_fds s) = hub_polled h ->
  set_revents revents (poll_fds s) = map (uncurry PollFd) (reported revents h).
Proof.
  intros E. unfold set_revents, reported. rewrite <-E. apply list_eq. intros i.
  rewrite list_lookup_imap, list_lookup_fmap, list_lookup_imap, list_lookup_fmap.
  by destruct (poll_fds s !! i).
Qed.

(** The sweep. *)
Lemma removed_loop_spec fd removed : removed_loop fd removed = true <-> fd ∉ removed.
Proof.
  induction removed as [|x removed IH]; cbn [removed_loop]; [set_solver|].
  destruct (Z.eqb_spec fd x) as [->|Hne]; [set_solver|]. rewrite IH. set_solver.
Qed.

Lemma filter_pollfds (P : Z -> Prop) `{!forall fd, Decision (P fd)} (f : Z -> bool) (fds : list pollfd) :
  (forall fd, fd ∈ map pf_fd fds -> f fd = true <-> P fd) ->
  map pf_fd (base.filter (fun p => f (pf_fd p) = true) fds) = base.filter P (map pf_fd fds).
Proof.
  induction fds as [|p fds IH]; intros HP; [done|]. cbn [map].
  assert (f (pf_fd p) = true <-> P (pf_fd p)) as Hp by (apply HP; left).
  assert (map pf_fd (base.filter (fun p => f (pf_fd p) = true) fds) = base.filter P (map pf_fd fds)) as E
    by (apply IH; intros fd Hfd; apply HP; by right).
  rewrite !filter_cons. destruct (decide (f (pf_fd p) = true)) as [Hf|Hf].
  - rewrite decide_True by by apply Hp. cbn [map]. by rewrite E.
  - rewrite decide_False by by rewrite <-Hp. done.
Qed.

Lemma sweep_run s w n h :
  stands_for ((s, w), n) h ->
  exists s', clean_poll_fds s = (Ret tt, s') /\ stands_for ((s', w), n) (swept h) /\
    hub_removed (swept h) = [].
Proof.
  intros Hst. unfold clean_poll_fds, st_modify, swept. eexists. split; [done|].
  pose proof (sf_removed _ _ Hst) as Er. cbn [fst] in Er. rewrite Er.
  destruct (hub_removed h) as [|x removed] eqn:Eh; [by split|]. cbn [length Nat.ltb Nat.leb].
  split; [|done]. set (dead := x :: removed).
  assert (map pf_fd (base.filter (fun p => removed_loop (pf_fd p) dead = true) (poll_fds s)) =
    base.filter (fun fd => fd ∉ dead) (hub_polled h)) as Efilter.
  { rewrite <-(sf_polled _ _ Hst). apply (filter_pollfds (fun fd => fd ∉ dead) (fun fd => removed_loop fd dead)).
    intros fd _. apply removed_loop_spec. }
  rewrite <-(length_map pf_fd), Efilter.
  destruct Hst as [H1 H2 H3 H4 H5 H6 H7 H8 H9 H10 H11 H12 H13].
  split; cbn [fst snd hub_peers hub_polled hub_cap hub_removed hub_in hub_accept hub_world] in *; try done.
  - by destruct H2.
  - by destruct H3.
  - intros fd devs part gap Hp. destruct (H4 _ _ _ _ Hp) as (? & l & c & ? & Hc & ? & ?).
    split; [done|]. exists l, c. split_and!; [done| |done..].
    apply (conn_move _ _ s _ n); [done..| |done]. by destruct H3.
  - by apply NoDup_filter.
Qed.

(** [ppoll] wrote the [revents] of the entries. *)
Lemma stands_polled s w n h fds polls :
  stands_for ((s, w), n) h -> map pf_fd fds = map pf_fd (poll_fds s) ->
  stands_for ((set_poll_fds fds (poll_cap s) s, w),
    MkNet (net_in n) (net_send n) (net_sent n) (net_accept n) polls) h.
Proof.
  intros [H1 H2 H3 H4 H5 H6 H7 H8 H9 H10 H11 H12 H13] E. cbn [fst snd] in *.
  split; cbn [fst snd]; try done; [by destruct H2|by destruct H3| |by rewrite <-H6].
  intros fd devs part gap Hp. destruct (H4 _ _ _ _ Hp) as (? & l & c & ? & Hc & ? & ?).
  split; [done|]. exists l, c. split_and!; [done| |done..].
  apply (conn_move _ _ s _ n); [done..| |done]. by destruct H3.
Qed.

(** Between two rounds. *)
Definition at_rest (wd : World (W:=W) (D:=D) (B:=B)) h : Prop :=
  stands_for wd h /\ hub_removed h = [].

Lemma pool_events revents polls out s w n h h1 :
  at_rest ((s, w), n) h -> net_poll n = PollEvents revents :: polls ->
  turns (reported revents h) h out h1 ->
  exists wd', pool_client_msgs ((s, w), n) = (Ret tt, wd') /\ at_rest wd' (swept h1) /\
    net_sent wd'.2 = net_sent n ++ out /\ net_poll wd'.2 = polls.
Proof.
  intros [Hst Hr] Hpoll Ht. unfold pool_client_msgs.
  erewrite st_bind_ret by (apply in_net_run; unfold next_poll; by rewrite Hpoll). cbv beta iota.
  erewrite (st_bind_ret (in_server (st_modify _))) by done.
  erewrite (st_bind_ret (in_server st_get)) by done. cbn [fst snd].
  pose proof (sf_polled _ _ Hst) as Ep. cbn [fst snd] in Ep.
  assert (map pf_fd (set_revents revents (poll_fds s)) = map pf_fd (poll_fds s)) as Ef.
  { unfold set_revents. apply list_eq. intros i. rewrite !list_lookup_fmap, list_lookup_imap.
    by destruct (poll_fds s !! i). }
  pose proof (stands_polled s w n h _ polls Hst Ef) as Hst1.
  destruct (turns_run _ _ _ _ _ _ _ Hst1 Ht) as (s2 & w2 & n2 & Hrun & Hst2 & Hs2 & Hp2).
  destruct (sweep_run _ _ _ _ Hst2) as (s3 & Hrun3 & Hst3 & Hr3).
  rewrite <-(set_revents_reported revents s h Ep) in Hrun. cbn [poll_fds set_poll_fds].
  rewrite (st_bind_ret _ _ _ _ _ Hrun).
  exists ((s3, w2), n2). split; [by apply in_server_run|]. split; [done|]. cbn [snd]. by rewrite Hs2, Hp2.
Qed.

(** The program calls [pool_client_msgs] in a loop. *)
Definition serve_rounds (k : nat) : ST (World (W:=W) (D:=D) (B:=B)) unit :=
  st_iter (fun _ => pool_client_msgs) (replicate k tt).

Lemma serve_rounds_S k wd wd1 :
  pool_client_msgs wd = (Ret tt, wd1) -> serve_rounds (S k) wd = serve_rounds k wd1.
Proof.
  intros H. unfold serve_rounds. cbn [replicate st_iter]. by rewrite (st_bind_ret _ _ _ _ _ H).
Qed.

Lemma rounds_run evs out wd h h' polls :
  at_rest wd h -> net_poll wd.2 = evs ++ polls -> rounds evs h out h' ->
  exists wd', serve_rounds (length evs) wd = (Ret tt, wd') /\ at_rest wd' h' /\
    net_sent wd'.2 = net_sent wd.2 ++ out /\ net_poll wd'.2 = polls.
Proof.
  intros Hr Hp Hrs. revert wd Hr Hp.
  assert (forall ev evs' s w n h, at_rest ((s, w), n) h -> net_poll n = ev :: evs' ->
    ev = PollTimeout \/ ev = PollInterrupted ->
    exists wd', pool_client_msgs ((s, w), n) = (Ret tt, wd') /\ at_rest wd' h /\
      net_sent wd'.2 = net_sent n /\ net_poll wd'.2 = evs') as Hidle.
  { intros ev evs' s w n h0 [Hst Hr] Hp Hev. eexists. split.
    - unfold pool_client_msgs.
      erewrite st_bind_ret by (apply in_net_run; unfold next_poll; by rewrite Hp).
      destruct Hev as [->| ->]; done.
    - split; [|done]. split; [|done]. replace s with (set_poll_fds (poll_fds s) (poll_cap s) s) by by destruct s.
      by apply stands_polled. }
  induction Hrs as [h|evs h out h' _ IH|evs h out h' _ IH|revents evs h out h1 outs h' Ht _ IH];
    intros [[s w] n] Hr Hp; cbn [snd] in Hp.
  - exists ((s, w), n). split_and!; [done|done|by rewrite app_nil_r|done].
  - destruct (Hidle _ _ _ _ _ _ Hr Hp) as (wd1 & Hrun & Hr1 & Hs1 & Hp1); [by left|].
    destruct (IH _ Hr1 Hp1) as (wd' & Hrun' & ? & Hs' & ?).
    exists wd'. cbn [length]. rewrite (serve_rounds_S _ _ _ Hrun). by rewrite Hs', Hs1.
  - destruct (Hidle _ _ _ _ _ _ Hr Hp) as (wd1 & Hrun & Hr1 & Hs1 & Hp1); [by right|].
    destruct (IH _ Hr1 Hp1) as (wd' & Hrun' & ? & Hs' & ?).
    exists wd'. cbn [length]. rewrite (serve_rounds_S _ _ _ Hrun). by rewrite Hs', Hs1.
  - destruct (pool_events _ _ _ _ _ _ _ _ Hr Hp Ht) as (wd1 & Hrun & Hr1 & Hs1 & Hp1).
    destruct (IH _ Hr1 Hp1) as (wd' & Hrun' & ? & Hs' & ?).
    exists wd'. cbn [length]. rewrite (serve_rounds_S _ _ _ Hrun). by rewrite Hs', Hs1, app_assoc.
Qed.
End turns.
End hub.
