(* ===== verification/ServerProgress.v ===== *)
(** * HwioServer: a polling round returns

    [ServerRounds] shows that the server takes the turns the protocol
    describes; this file shows that there is a turn to take.  [Answering] is
    the promise of devices and functions: they keep a condition on their state
    under which every message of a class of messages has an answer.  A round
    then returns for whatever descriptors are ready, in any order. *)

From Stdlib Require Import ZArith Lia Ascii String.
From stdpp Require Import base tactics list numbers strings gmap fin_maps.
From S2P Require Import Prelude CxxString Version CompSpec Device Bus Wire Protocol Server ServerHandlers.
From S2P Require Import ServerFrame ServerSpec ServerQuery ServerSafety ServerLoop ServerLoopSpec.
From S2P Require Import ServerStream ServerFrames ServerRun ServerRounds.

(** In a sound state of the devices each message that is [ok] has an answer
    for every client whose devices are good, and leaves the state sound and
    the devices of all clients good. *)
Class Answering {W D B : Type} `{!IDev W D} `{!IBus W D B} (s0 : HwioServer W D B)
    (sound : W -> Prop) (good : W -> list (option D) -> Prop) (ok : message -> Prop) : Prop := {
  an_new w : sound w -> good w [];
  an_reply w devs m : sound w -> good w devs -> message_wf m -> ok m ->
    exists out devs' w' bye, replies s0 devs w m out devs' w' bye /\ sound w' /\ good w' devs' /\
      forall devs2, good w devs2 -> good w' devs2
}.

Section progress.
Context {W D B : Type} `{!IDev W D} `{!IBus W D B} {VG : VectorGrowth} {PL : Platform}.
Context (s0 : HwioServer W D B) (master : Z).
Context (sound : W -> Prop) (good : W -> list (option D) -> Prop) (ok : message -> Prop).
Context `{!Answering s0 sound good ok}.
Implicit Types (h : hub (W:=W) (D:=D)) (w : W) (devs : list (option D)) (fd r : Z).

(** Several messages: all are answered, or one of them ends the connection. *)
Lemma an_replies devs w ms : sound w -> good w devs -> Forall message_wf ms -> Forall ok ms ->
  exists outs devs' w', sound w' /\ good w' devs' /\ (forall devs2, good w devs2 -> good w' devs2) /\
    (replies_all s0 devs w ms outs devs' w' \/
     exists ms1 m ms2 outs1 devs1 w1 out, ms = ms1 ++ m :: ms2 /\ outs = outs1 ++ [out] /\
       replies_all s0 devs w ms1 outs1 devs1 w1 /\ replies s0 devs1 w1 m out devs' w' true).
Proof.
  intros Hs Hg Hwf Hok. revert devs w Hs Hg. induction ms as [|m ms IH]; intros devs w Hs Hg.
  - exists [], devs, w. split_and!; try done. left. constructor.
  - apply Forall_cons in Hwf as [Hm Hwf]. apply Forall_cons in Hok as [Hokm Hok].
    destruct (an_reply w devs m Hs Hg Hm Hokm) as (out & devs1 & w1 & bye & Hr & Hs1 & Hg1 & Hk1).
    destruct bye.
    + exists ([] ++ [out]), devs1, w1. split_and!; [done..|]. right.
      exists [], m, ms, [], devs, w, out. split_and!; [done|done|constructor|done].
    + destruct (IH Hwf Hok devs1 w1 Hs1 Hg1) as (outs & devs' & w' & Hs' & Hg' & Hk' & Hrs).
      exists (out :: outs), devs', w'. split_and!; [done|done|by auto|].
      destruct Hrs as [Hrs|(ms1 & m' & ms2 & outs1 & devs2 & w2 & out' & -> & -> & Hrs & Hbye)].
      * left. by econstructor.
      * right. exists (m :: ms1), m', ms2, (out :: outs1), devs2, w2, out'.
        split_and!; [done|done|by econstructor|done].
Qed.

(** Sound devices, and good ones for each client. *)
Definition hub_good h : Prop :=
  sound (hub_world h) /\
  forall fd devs part gap, hub_peers h !! fd = Some (devs, part, gap) -> good (hub_world h) devs.

(** What a descriptor reported with [r] must have in store: nothing for
    [r = 0]; for an error it is not the listening socket; for the listening
    socket a connection on a new descriptor and room for it in the vector; for
    a client something [recv] returns, with messages that are [ok], and a
    partial message that can be moved to the front of the buffer. *)
Definition prepared h fd r : Prop :=
  r = 0 \/
  (poll_error r = true /\ 0 <= fd /\ fd <> master) \/
  (r <> 0 /\ poll_error r = false /\ fd = master /\ exists new rest, hub_accept h = new :: rest /\ 0 <= new /\
     new <> master /\ new ∉ hub_polled h /\ hub_peers h !! new = None /\
     (length (hub_polled h) < hub_cap h)%nat) \/
  (r <> 0 /\ poll_error r = false /\ exists devs part gap res evs, hub_peers h !! fd = Some (devs, part, gap) /\
     apart gap part /\ receives fd h part res evs /\ forall bs ms part', res = Some bs ->
       part ++ bs = concat (map enc_message ms) ++ part' -> Forall message_wf ms -> incomplete part' ->
       Forall ok ms).

(** The other descriptors are as ready as before. *)
Definition keeps_others fd h h1 : Prop :=
  (forall fd', fd' ∈ hub_polled h -> fd' ∈ hub_polled h1) /\
  forall fd' r', fd' <> fd -> fd' ∈ hub_polled h -> prepared h fd' r' -> prepared h1 fd' r'.

Lemma prepared_same fd h h1 :
  hub_polled h1 = hub_polled h -> hub_cap h1 = hub_cap h -> hub_accept h1 = hub_accept h ->
  (forall fd', fd' <> fd -> hub_peers h1 !! fd' = hub_peers h !! fd' /\ hub_in h1 !! fd' = hub_in h !! fd') ->
  (hub_peers h !! fd = None -> hub_peers h1 !! fd = None) ->
  keeps_others fd h h1.
Proof.
  intros E1 E2 E3 E Hno. split; [by rewrite E1|]. intros fd' r' Hne _. unfold prepared, receives.
  assert (forall x, hub_peers h !! x = None -> hub_peers h1 !! x = None) as Hnone.
  { intros x Hx. destruct (decide (x = fd)) as [->|Hx']; [by apply Hno|]. by rewrite (proj1 (E x Hx')). }
  destruct (E fd' Hne) as [-> ->]. rewrite E1, E2, E3. naive_solver.
Qed.

Lemma keeps_heard fd p devs part gap evs w h :
  hub_peers h !! fd = Some p -> keeps_others fd h (heard fd devs part gap evs w h).
Proof. intros Hp. apply prepared_same; [done..| |by rewrite Hp]. intros fd' Hne. cbn. by rewrite !lookup_insert_ne. Qed.

Lemma keeps_without fd x h h1 : keeps_others fd h h1 -> keeps_others fd h (without fd x h1).
Proof.
  intros [H1 H2]. split; [done|]. intros fd' r' Hne Hin Hp. specialize (H2 fd' r' Hne Hin Hp).
  unfold prepared, receives, without in *. cbn in *. rewrite lookup_delete_ne by done.
  destruct H2 as [?|[?|[(? & ? & ? & new & rest & ? & ? & ? & ? & Hno & ?)|?]]]; [by left|by right; left| |by right; right; right].
  right; right; left. split_and!; [done..|]. exists new, rest. split_and!; try done.
  by apply lookup_delete_None; right.
Qed.

Lemma good_without fd x h : hub_good h -> hub_good (without fd x h).
Proof.
  intros [Hs Hg]. split; [done|]. intros fd' devs part gap. cbn. intros [_ Hp]%lookup_delete_Some.
  by apply (Hg fd' devs part gap).
Qed.

Lemma good_heard fd devs part gap evs w h :
  hub_good h -> sound w -> good w devs -> (forall devs2, good (hub_world h) devs2 -> good w devs2) ->
  hub_good (heard fd devs part gap evs w h).
Proof.
  intros [_ Hg] Hs Hd Hk. split; [done|]. intros fd' devs' part' gap'. cbn [heard hub_peers hub_world].
  intros [[_ [= <- <- <-]]|[_ Hp]]%lookup_insert_Some; [done|]. by apply Hk, (Hg fd' devs' part' gap').
Qed.

Lemma good_joined new rest h : hub_good h -> hub_good (joined new rest h).
Proof.
  intros [Hs Hg]. split; [done|]. intros fd' devs part gap. cbn [joined hub_peers hub_world].
  intros [[_ [= <- <- <-]]|[_ Hp]]%lookup_insert_Some; [by apply an_new|by apply (Hg fd' devs part gap)].
Qed.

Lemma keeps_joined new rest h : new ∉ hub_polled h -> keeps_others master h (joined new rest h).
Proof.
  intros Hn. split; [intros fd' Hin; cbn; apply elem_of_app; by left|]. intros fd' r' Hne Hin.
  assert (new <> fd') as Hnew by naive_solver. unfold prepared, receives. cbn [joined hub_peers hub_in].
  rewrite lookup_insert_ne by done. naive_solver.
Qed.

(** A ready descriptor has a turn. *)
Lemma turn_exists fd r h : hub_good h -> prepared h fd r -> exists out h1,
  turn s0 master fd r h out h1 /\ hub_good h1 /\ keeps_others fd h h1 /\
  (length (hub_polled h1) = length (hub_polled h) \/ (length (hub_polled h) < hub_cap h)%nat).
Proof.
  intros Hh [->|[(He & H0 & Hne)|[(Hr & He & -> & new & rest & Ha & H0 & Hm & Hn & Hno & Hc)
    |(Hr & He & devs & part & gap & res & evs & Hp & Hap & Hrc & Hok)]]].
  - exists [], h. split_and!; [constructor|done|by apply prepared_same|by left].
  - exists [], (without fd fd h). split_and!; [by constructor|by apply good_without| |by left].
    apply keeps_without. by apply prepared_same.
  - exists [], (joined new rest h). split_and!; [by constructor|by apply good_joined|by apply keeps_joined|by right].
  - pose proof Hh as [Hs Hg]. pose proof (Hg _ _ _ _ Hp) as Hd. destruct res as [bs|].
    + destruct (split_messages (part ++ bs)) as (ms & part' & E & Hms & Hi).
      destruct (an_replies devs (hub_world h) ms Hs Hd Hms (Hok bs ms part' eq_refl E Hms Hi))
        as (outs & devs' & w' & Hs' & Hg' & Hk & [Hall|(ms1 & m & ms2 & outs1 & devs1 & w1 & out & -> & -> & Hall & Hbye)]).
      * exists (to_client fd outs), (heard fd devs' part' (used ms) evs w' h).
        split_and!; [by econstructor|by apply good_heard|by eapply keeps_heard|by left].
      * exists (to_client fd (outs1 ++ [out])),
          (without fd (freed_fd fd) (heard fd devs' (concat (map enc_message ms2) ++ part') 0 evs w' h)).
        split_and!; [|by apply good_without, good_heard|by eapply keeps_without, keeps_heard|by left].
        eapply tn_bye; [done..| |exact Hall|exact Hbye].
        rewrite E, map_app, concat_app. cbn [map concat]. by rewrite <-!app_assoc.
    + exists [], (without fd fd (heard fd devs part 0 evs (hub_world h) h)).
      split_and!; [by eapply tn_gone|by apply good_without, good_heard|by eapply keeps_without, keeps_heard|by left].
Qed.

Lemma turns_exist es h :
  hub_good h -> NoDup (map fst es) -> (forall fd r, (fd, r) ∈ es -> fd ∈ hub_polled h /\ prepared h fd r) ->
  exists out h1, turns s0 master es h out h1 /\ hub_good h1.
Proof.
  revert h. induction es as [|[fd r] es IH]; intros h Hh Hnd Hes; [exists [], h; by split; [constructor|]|].
  cbn [map fst] in Hnd. apply NoDup_cons in Hnd as [Hfd Hnd].
  destruct (Hes fd r ltac:(by left)) as [_ Hp].
  destruct (turn_exists fd r h Hh Hp) as (out & h1 & Ht & Hh1 & [Hin Hk] & Hl).
  destruct (IH h1 Hh1 Hnd) as (outs & h' & Hts & Hh').
  - intros fd' r' Hin'. destruct (Hes fd' r' ltac:(by right)) as [Hpl Hp']. split; [by apply Hin|].
    apply Hk; [|done|done]. intros ->. apply Hfd. apply list_elem_of_fmap. by exists (fd, r').
  - exists (out ++ outs), h'. split; [|done]. econstructor; [done| |done]. by right.
Qed.

Lemma good_swept h : hub_good h -> hub_good (swept h).
Proof. intros Hh. unfold swept. by destruct (hub_removed h). Qed.

(** The round runs, turn by turn. *)
Lemma round_exists wd h revents polls :
  at_rest s0 master wd h -> net_poll wd.2 = PollEvents revents :: polls -> hub_good h ->
  (forall i fd, hub_polled h !! i = Some fd -> prepared h fd (default 0 (revents !! i))) ->
  exists wd' out h1, pool_client_msgs wd = (Ret tt, wd') /\
    turns s0 master (reported revents h) h out h1 /\ at_rest s0 master wd' (swept h1) /\
    hub_good (swept h1) /\ net_sent wd'.2 = net_sent wd.2 ++ out /\ net_poll wd'.2 = polls.
Proof.
  intros Hr Hp Hh Hprep.
  destruct (turns_exist (reported revents h) h Hh) as (out & h1 & Ht & Hh1).
  - replace (map fst (reported revents h)) with (hub_polled h); [by apply (sf_nodup _ _ _ _ (proj1 Hr))|].
    unfold reported. apply list_eq. intros i. rewrite list_lookup_fmap, list_lookup_imap. by destruct (hub_polled h !! i).
  - intros fd r [i Hi]%list_elem_of_lookup. unfold reported in Hi. rewrite list_lookup_imap in Hi.
    destruct (hub_polled h !! i) as [fd'|] eqn:E; [|done]. injection Hi as -> <-.
    split; [by eapply list_elem_of_lookup_2|by apply Hprep].
  - destruct wd as [[s w] n]. destruct (pool_events _ _ _ _ _ _ _ _ _ _ Hr Hp Ht) as (wd' & Hrun & Hr' & Hs & Hp').
    exists wd', out, h1. split_and!; [done..|by apply good_swept|done|done].
Qed.

(** ** Properties *)

(** C6: when the devices keep their promise, a polling round returns whatever
    subset of the descriptors is ready: each connection is accepted, each
    client is served, refused or removed as the protocol says, and the server
    stands again for an abstract server between two rounds.  Needed is
    [prepared] for each descriptor reported: [recv] returns for it, its
    messages are those the devices answer, its partial message is not moved
    onto itself, a connection comes on a new descriptor, the vector of
    descriptors need not grow, and no error is reported for the listening
    socket; all bytes are sent.  It holds whatever the read of the deleted
    client object gives: that value is the one the next rounds do not poll. *)
Theorem polling_round_returns wd h revents polls :
  at_rest s0 master wd h -> net_poll wd.2 = PollEvents revents :: polls -> hub_good h ->
  (forall i fd, hub_polled h !! i = Some fd -> prepared h fd (default 0 (revents !! i))) ->
  exists wd' out h', pool_client_msgs wd = (Ret tt, wd') /\
    rounds s0 master [PollEvents revents] h out h' /\ at_rest s0 master wd' h' /\ hub_good h' /\
    net_sent wd'.2 = net_sent wd.2 ++ out /\ net_poll wd'.2 = polls.
Proof.
  intros Hr Hp Hh Hprep. destruct (round_exists wd h revents polls Hr Hp Hh Hprep) as (wd' & out & h1 & H1 & Ht & ? & ? & ? & ?).
  exists wd', out, (swept h1). split_and!; try done.
  rewrite <-(app_nil_r out). eapply rds_events; [exact Ht|constructor].
Qed.
End progress.
