(* ===== verification/ServerLiveness.v ===== *)
(** * HwioServer: every client is answered

    What one client sees of the rounds of [ServerRounds]: whatever the other
    clients send and whenever they come and go, the messages of a client that
    stays are answered in order, each in the round that receives its last
    byte. *)

From Stdlib Require Import ZArith Lia Ascii String.
From stdpp Require Import base tactics list numbers strings gmap fin_maps.
From S2P Require Import Prelude CxxString Version CompSpec Device Bus Wire Protocol Server ServerHandlers.
From S2P Require Import ServerFrame ServerSpec ServerQuery ServerSafety ServerLoop ServerLoopSpec.
From S2P Require Import ServerStream ServerFrames ServerRun ServerRounds.

(** The bytes a socket has in store. *)
Definition bytes_of (evs : list recv_event) : list byte :=
  concat (map (fun e => match e with RecvData bs => bs | _ => [] end) evs).

Lemma recv_loop_bytes rd evs bs evs' :
  recv_loop rd evs = Ret (Some bs, evs') -> bytes_of evs = bs ++ bytes_of evs'.
Proof.
  induction evs as [|[d| | |] t IH]; cbn [recv_loop]; intros H; [done| |by apply IH|done|done].
  destruct (take rd d) as [|b got] eqn:E; [done|]. injection H as <- <-. unfold bytes_of.
  cbn [map concat]. rewrite <-(take_drop rd d) at 1. rewrite E, <-app_assoc. f_equal.
  by destruct (drop rd d).
Qed.

(** A stream is cut into messages in one way. *)
Lemma first_message_not_incomplete m rest : message_wf m -> ~ incomplete (enc_message m ++ rest).
Proof.
  intros Hm. unfold incomplete. rewrite enc_message_header, length_app, enc_message_length by done.
  cbn [body_len]. lia.
Qed.

Lemma enc_message_inj m1 m2 r1 r2 :
  message_wf m1 -> message_wf m2 -> enc_message m1 ++ r1 = enc_message m2 ++ r2 -> m1 = m2 /\ r1 = r2.
Proof.
  intros H1 H2 E. pose proof (enc_message_header m1 r1 H1) as E1.
  rewrite E, enc_message_header in E1 by done. destruct m1 as [c1 b1], m2 as [c2 b2]. cbn [fst snd] in *.
  injection E1 as -> Hl. unfold enc_message, frame in E. cbn [fst snd] in E. rewrite Hl, <-!app_assoc in E.
  apply app_inv_head in E. apply app_inj_1 in E as [-> ->]; [done|lia].
Qed.

Lemma messages_unique ms1 ms2 p1 p2 :
  Forall message_wf ms1 -> Forall message_wf ms2 -> incomplete p1 -> incomplete p2 ->
  concat (map enc_message ms1) ++ p1 = concat (map enc_message ms2) ++ p2 -> ms1 = ms2 /\ p1 = p2.
Proof.
  intros Hw1. revert ms2. induction Hw1 as [|m1 ms1 Hm1 _ IH]; intros ms2 Hw2 Hi1 Hi2 E;
    destruct Hw2 as [|m2 ms2 Hm2 Hw2]; cbn [map concat app] in E; rewrite <-?app_assoc in E.
  - done.
  - subst p1. by apply first_message_not_incomplete in Hi1.
  - subst p2. by apply first_message_not_incomplete in Hi2.
  - apply enc_message_inj in E as [-> E]; [|done..]. by destruct (IH _ Hw2 Hi1 Hi2 E) as [-> ->].
Qed.

Section view.
Context {W D B : Type} `{!IDev W D} `{!IBus W D B} {VG : VectorGrowth} {PL : Platform}.
Context (s0 : HwioServer W D B) (master fd : Z).
Implicit Types (devs : list (option D)) (h : hub (W:=W) (D:=D)).

(** The messages of one client answered in order; between two of them the
    other clients may have used the devices. *)
Inductive answered_among : list (option D) -> list message -> list (list byte) -> list (option D) -> Prop :=
  | aa_nil devs : answered_among devs [] [] devs
  | aa_cons devs w m out devs1 w1 ms outs devs' :
      replies s0 devs w m out devs1 w1 false -> answered_among devs1 ms outs devs' ->
      answered_among devs (m :: ms) (out :: outs) devs'.

Lemma answered_among_app devs ms1 outs1 devs1 ms2 outs2 devs2 :
  answered_among devs ms1 outs1 devs1 -> answered_among devs1 ms2 outs2 devs2 ->
  answered_among devs (ms1 ++ ms2) (outs1 ++ outs2) devs2.
Proof. induction 1; [done|]. intros H2. cbn [app]. econstructor; eauto. Qed.

Lemma answered_among_wf devs ms outs devs' : answered_among devs ms outs devs' -> Forall message_wf ms.
Proof. induction 1; constructor; [by eapply replies_wf|done]. Qed.

Lemma replies_all_among devs w ms outs devs' w' :
  replies_all s0 devs w ms outs devs' w' -> answered_among devs ms outs devs'.
Proof. induction 1; econstructor; eauto. Qed.

(** What was sent to the client. *)
Definition to_fd (sent : list (Z * list byte)) : list (Z * list byte) :=
  base.filter (fun m => m.1 = fd) sent.

Lemma to_fd_own outs : to_fd (to_client fd outs) = to_client fd outs.
Proof. apply filter_all. intros m Hm. unfold to_client in Hm. by apply list_elem_of_fmap in Hm as (? & -> & _). Qed.

Lemma to_fd_other fd' outs : fd' <> fd -> to_fd (to_client fd' outs) = [].
Proof.
  intros Hne. unfold to_fd, to_client. induction (base.filter _ outs) as [|o os IH]; [done|].
  cbn [map]. by rewrite filter_cons_False.
Qed.

Definition unread h : list byte := bytes_of (default [] (hub_in h !! fd)).

(** From [h] to [h'] the client, if it is connected at the end, was
    connected all the time, and its messages were answered. *)
Definition sees h (sent : list (Z * list byte)) h' : Prop :=
  fd ∉ hub_accept h -> fd ∉ hub_accept h' /\
  forall devs' part' gap', hub_peers h' !! fd = Some (devs', part', gap') ->
  exists devs part gap ms outs, hub_peers h !! fd = Some (devs, part, gap) /\
    part ++ unread h = concat (map enc_message ms) ++ part' ++ unread h' /\
    answered_among devs ms outs devs' /\ to_fd sent = to_client fd outs /\
    (incomplete part -> incomplete part').

Lemma to_client_app outs1 outs2 :
  to_client fd (outs1 ++ outs2) = to_client fd outs1 ++ to_client fd outs2.
Proof. unfold to_client. by rewrite filter_app, map_app. Qed.

Lemma sees_trans h1 out1 h2 out2 h3 : sees h1 out1 h2 -> sees h2 out2 h3 -> sees h1 (out1 ++ out2) h3.
Proof.
  intros H1 H2 Ha. destruct (H1 Ha) as [Ha2 Hs1]. destruct (H2 Ha2) as [Ha3 Hs2]. split; [done|].
  intros devs' part' gap' Hp3.
  destruct (Hs2 _ _ _ Hp3) as (devs2 & part2 & gap2 & ms2 & outs2 & Hp2 & E2 & Haa2 & Ht2 & Hi2).
  destruct (Hs1 _ _ _ Hp2) as (devs & part & gap & ms1 & outs1 & Hp1 & E1 & Haa1 & Ht1 & Hi1).
  exists devs, part, gap, (ms1 ++ ms2), (outs1 ++ outs2). split_and!; [done| | | |by auto].
  - by rewrite E1, E2, map_app, concat_app, <-!app_assoc.
  - by eapply answered_among_app.
  - unfold to_fd in *. by rewrite filter_app, Ht1, Ht2, to_client_app.
Qed.

(** Nothing happened to the client. *)
Lemma sees_quiet h out h' :
  (fd ∉ hub_accept h -> fd ∉ hub_accept h') ->
  (forall p, fd ∉ hub_accept h -> hub_peers h' !! fd = Some p -> hub_peers h !! fd = Some p) ->
  unread h' = unread h -> to_fd out = [] -> sees h out h'.
Proof.
  intros Ha Hp Hu Ht Hacc. split; [by apply Ha|]. intros devs part gap Hp'.
  exists devs, part, gap, [], []. rewrite Hu. split_and!; [by apply Hp|done|constructor|by rewrite Ht|done].
Qed.

Lemma sees_refl h : sees h [] h.
Proof. by apply sees_quiet. Qed.

(** The client left. *)
Lemma sees_left h out h' :
  hub_accept h' = hub_accept h -> hub_peers h' !! fd = None -> sees h out h'.
Proof. intros Ha Hp Hacc. rewrite Ha, Hp. done. Qed.

(** Another client was served, or left. *)
Lemma sees_other fd' h outs h' :
  fd' <> fd -> hub_accept h' = hub_accept h -> hub_peers h' !! fd = hub_peers h !! fd ->
  hub_in h' !! fd = hub_in h !! fd -> sees h (to_client fd' outs) h'.
Proof.
  intros Hne Ha Hp Hin. apply sees_quiet; [by rewrite Ha|by rewrite Hp| |by apply to_fd_other].
  unfold unread. by rewrite Hin.
Qed.

Lemma sees_turn fd' r h out h' : turn s0 master fd' r h out h' -> sees h out h'.
Proof.
  destruct 1 as [fd' h|r h new rest Hr He Hacc H0 Hnm Hnew Hno|fd' r h He H0 Hne'
    |fd' r h devs part gap evs Hr He Hp Hap Hrc
    |fd' r h devs part gap bs evs ms outs devs' w2 part' Hr He Hp Hap Hrc Hbs Hall Hi
    |fd' r h devs part gap bs evs ms outs devs1 w1 m out devs' w2 rest Hr He Hp Hap Hrc Hbs Hall Hbye].
  - apply sees_refl.
  - apply sees_quiet; [|intros p|done|done]; rewrite Hacc, not_elem_of_cons; cbn [joined hub_accept hub_peers].
    + by intros [? ?].
    + intros [? ?]. by rewrite lookup_insert_ne.
  - destruct (decide (fd' = fd)) as [->|Hne].
    + apply sees_left; [done|apply lookup_delete_eq].
    + apply (sees_other fd' h []); try done. by apply lookup_delete_ne.
  - destruct (decide (fd' = fd)) as [->|Hne].
    + apply sees_left; [done|apply lookup_delete_eq].
    + apply (sees_other fd' h []); try done; cbn [without heard hub_peers hub_in].
      * by rewrite lookup_delete_ne, lookup_insert_ne.
      * by apply lookup_insert_ne.
  - destruct (decide (fd' = fd)) as [->|Hne].
    + intros Hacc. split; [done|]. intros devs2 part2 gap2. cbn [heard hub_peers]. rewrite lookup_insert_eq.
      intros [= <- <- <-]. exists devs, part, gap, ms, outs. split_and!; [done| | |apply to_fd_own|done].
      * unfold unread. rewrite (recv_loop_bytes _ _ _ _ Hrc), app_assoc, Hbs, <-app_assoc.
        cbn [heard hub_in]. by rewrite lookup_insert_eq.
      * by eapply replies_all_among.
    + apply sees_other; try done; cbn [heard hub_peers hub_in]; by apply lookup_insert_ne.
  - destruct (decide (fd' = fd)) as [->|Hne].
    + apply sees_left; [done|apply lookup_delete_eq].
    + apply sees_other; try done; cbn [without heard hub_peers hub_in].
      * by rewrite lookup_delete_ne, lookup_insert_ne.
      * by apply lookup_insert_ne.
Qed.

Lemma sees_turns es h out h' : turns s0 master es h out h' -> sees h out h'.
Proof.
  induction 1 as [h|fd' r es h out h1 outs h' Ht _ _ IH]; [apply sees_refl|].
  eapply sees_trans; [by eapply sees_turn|done].
Qed.

Lemma sees_swept h : sees h [] (swept h).
Proof. unfold swept. destruct (hub_removed h); [apply sees_refl|]. by apply sees_quiet. Qed.

Lemma sees_rounds evs h out h' : rounds s0 master evs h out h' -> sees h out h'.
Proof.
  induction 1 as [h|evs h out h' _ IH|evs h out h' _ IH|revents evs h out h1 outs h' Ht _ IH];
    [apply sees_refl|done|done|].
  eapply sees_trans; [by eapply sees_turns|]. by apply (sees_trans _ [] _ _ _ (sees_swept h1)).
Qed.
End view.

(** ** Properties *)

Section properties.
Context {W D B : Type} `{!IDev W D} `{!IBus W D B} {VG : VectorGrowth} {PL : Platform}.
Implicit Types (h : hub (W:=W) (D:=D)).

(** C4: any number of polling rounds of the server, with any number of
    clients, refines the abstract server of all clients ([rounds]).  When the
    protocol says what each descriptor that [ppoll] reports leads to (a client
    accepted, served, refused, gone), the server does that, in the order of
    the descriptors, sends exactly those bytes to each client, and polls the
    descriptors of the abstract server afterwards.  Every message is covered,
    also malformed ones, and however the bytes are cut, as long as no partial
    message is moved onto itself and all bytes are sent.  The descriptors no
    longer polled are those with an error, those whose connection ended, and,
    for a client the protocol disconnects, the value read from its deleted
    object, whatever that is: it need not be the descriptor of the client. *)
Theorem polling_rounds_correct (s0 : HwioServer W D B) master evs out wd h h' polls :
  at_rest s0 master wd h -> net_poll wd.2 = evs ++ polls -> rounds s0 master evs h out h' ->
  exists wd', serve_rounds (length evs) wd = (Ret tt, wd') /\ at_rest s0 master wd' h' /\
    net_sent wd'.2 = net_sent wd.2 ++ out /\ wd'.1.2 = hub_world h' /\
    map pf_fd (poll_fds wd'.1.1) = hub_polled h' /\ server_wf wd'.1.1.
Proof.
  intros Hr Hp Hrs. destruct (rounds_run _ _ _ _ _ _ _ _ Hr Hp Hrs) as (wd' & Hrun & Hr' & Hs & _).
  exists wd'. split_and!; try done; apply Hr'.
Qed.

(** A client that stays connected is answered: when the server has received
    all the bytes the client sent, it has sent the answers to all its messages,
    and nothing is left to be answered. *)
Lemma answered_when_read (s0 : HwioServer W D B) master evs out wd h h' polls fd devs gap ms :
  at_rest s0 master wd h -> net_poll wd.2 = evs ++ polls -> rounds s0 master evs h out h' ->
  fd ∉ net_accept wd.2 -> hub_peers h !! fd = Some (devs, [], gap) -> Forall message_wf ms ->
  bytes_of (default [] (net_in wd.2 !! fd)) = concat (map enc_message ms) ->
  exists wd', serve_rounds (length evs) wd = (Ret tt, wd') /\ at_rest s0 master wd' h' /\
    (is_Some (hub_peers h' !! fd) -> bytes_of (default [] (net_in wd'.2 !! fd)) = [] ->
     exists outs devs' gap', hub_peers h' !! fd = Some (devs', [], gap') /\
       answered_among s0 devs ms outs devs' /\
       to_fd fd (net_sent wd'.2) = to_fd fd (net_sent wd.2) ++ to_client fd outs).
Proof.
  intros Hr Hp Hrs Hacc Hpeer Hms Hbytes.
  destruct (rounds_run _ _ _ _ _ _ _ _ Hr Hp Hrs) as (wd' & Hrun & Hr' & Hs & _).
  exists wd'. split_and!; [done..|]. intros [[[devs' part'] gap'] Hpeer'] Hnone.
  rewrite (sf_in _ _ _ _ (proj1 Hr)) in Hbytes. rewrite (sf_in _ _ _ _ (proj1 Hr')) in Hnone.
  rewrite (sf_accept _ _ _ _ (proj1 Hr)) in Hacc.
  destruct (sees_rounds s0 master fd _ _ _ _ Hrs Hacc) as [_ Hsees].
  destruct (Hsees _ _ _ Hpeer') as (devs0 & part0 & gap0 & ms' & outs & Hp0 & E & Haa & Ht & Hi).
  rewrite Hpeer in Hp0. injection Hp0 as <- <- <-. unfold unread in E. rewrite Hbytes, Hnone, app_nil_r in E.
  cbn [app] in E. rewrite <-(app_nil_r (concat _)) in E.
  assert (incomplete []) as Hi0 by (left; cbn; lia).
  destruct (messages_unique _ _ _ _ Hms (answered_among_wf _ _ _ _ _ Haa) Hi0 (Hi Hi0) E) as [<- <-].
  exists outs, devs', gap'. split_and!; [done..|]. rewrite Hs. unfold to_fd in *. by rewrite filter_app, Ht.
Qed.
End properties.
