(* ===== verification/ServerFairness.v ===== *)
(** * HwioServer: a client whose socket is attended

    [ServerLiveness] says what a client that is still connected has been sent.
    This file says when all is received: a polling round in which the socket
    is reported as readable takes at least one byte from it, so a client whose
    socket is reported often enough is answered, or has left; and it does not
    leave when its bytes are messages that fit in the buffer and that the
    protocol answers without a disconnection. *)

From Stdlib Require Import ZArith Lia Ascii String.
From stdpp Require Import base tactics list numbers strings gmap fin_maps.
From S2P Require Import Prelude CxxString Version CompSpec Device Bus Wire Protocol Server ServerHandlers.
From S2P Require Import ServerFrame ServerSpec ServerQuery ServerSafety ServerLoop ServerLoopSpec.
From S2P Require Import ServerStream ServerFrames ServerRun ServerRounds ServerProgress ServerLiveness.

(** A socket that stays open and works: [recv] gives bytes, or a retry. *)
Definition delivers_data (e : recv_event) : Prop :=
  match e with RecvData bs => bs <> [] | RecvAgain => True | _ => False end.

Lemma recv_loop_data rd evs r evs' :
  (0 < rd)%nat -> Forall delivers_data evs -> recv_loop rd evs = Ret (r, evs') ->
  is_Some r /\ Forall delivers_data evs'.
Proof.
  intros Hrd. induction 1 as [|[d| | |] evs Hd Hevs IH]; cbn [recv_loop delivers_data] in *; try done.
  destruct d as [|b d]; [done|]. destruct rd as [|rd]; [lia|]. cbn [take drop]. intros [= <- <-].
  split; [by eexists|]. destruct (drop rd d) eqn:E; [done|]. by constructor.
Qed.

(** A part of a message that fits in the buffer leaves room in it. *)
Lemma part_has_room part rest ms :
  incomplete part -> part ++ rest = concat (map enc_message ms) -> Forall message_wf ms ->
  Forall (fun m => (3 + length m.2 <= RX_BUFFER_SIZE)%nat) ms -> (length part < RX_BUFFER_SIZE)%nat.
Proof.
  intros Hi E Hwf Hfit. destruct Hwf as [|m ms Hm Hwf]; cbn [map concat] in E.
  - apply app_nil in E as [-> _]. unfold RX_BUFFER_SIZE. cbn. lia.
  - apply Forall_cons in Hfit as [Hfit _]. destruct Hi as [Hi|Hi]; [unfold RX_BUFFER_SIZE; lia|].
    destruct (decide (length (enc_message m) <= length part)%nat) as [Hl|Hl]; [exfalso|rewrite enc_message_length in Hl; lia].
    apply (first_message_not_incomplete m (drop (length (enc_message m)) part) Hm). right.
    assert (part = enc_message m ++ drop (length (enc_message m)) part) as Ep.
    { rewrite <-(take_drop (length (enc_message m)) part) at 1. f_equal.
      apply (f_equal (take (length (enc_message m)))) in E.
      by rewrite take_app_le, take_app_length in E. }
    rewrite <-Ep. exact Hi.
Qed.

Section fair.
Context {W D B : Type} `{!IDev W D} `{!IBus W D B} {VG : VectorGrowth} {PL : Platform}.
Context (s0 : HwioServer W D B) (master fd : Z).
Implicit Types (devs : list (option D)) (h : hub (W:=W) (D:=D)).

(** What [ppoll] said about the client. *)
Definition ready (es : list (Z * Z)) : Prop := Exists (fun e => e.1 = fd /\ e.2 <> 0) es.
Definition calm (es : list (Z * Z)) : Prop := Forall (fun e => e.1 = fd -> poll_error e.2 = false) es.

(** Rounds in which no error is reported for the client and, in [n] of them
    at least, the client is reported as ready when it has something unread and
    is polled. *)
Inductive attended : nat -> list poll_event -> hub (W:=W) (D:=D) -> list (Z * list byte) -> hub (W:=W) (D:=D) -> Prop :=
  | at_nil h : attended 0 [] h [] h
  | at_idle n ev evs h out h' :
      ev = PollTimeout \/ ev = PollInterrupted -> attended n evs h out h' ->
      attended n (ev :: evs) h out h'
  | at_missed n revents evs h out h1 outs h' :
      turns s0 master (reported revents h) h out h1 -> calm (reported revents h) ->
      attended n evs (swept h1) outs h' ->
      attended n (PollEvents revents :: evs) h (out ++ outs) h'
  | at_events n revents evs h out h1 outs h' :
      turns s0 master (reported revents h) h out h1 -> calm (reported revents h) ->
      unread fd h = [] \/ ready (reported revents h) \/ fd ∉ hub_polled h ->
      attended n evs (swept h1) outs h' ->
      attended (S n) (PollEvents revents :: evs) h (out ++ outs) h'.

Lemma attended_rounds n evs h out h' : attended n evs h out h' -> rounds s0 master evs h out h'.
Proof.
  induction 1 as [h|n ev evs h out h' [->| ->] _ IH|n rev evs h out h1 outs h' Ht _ _ IH|n rev evs h out h1 outs h' Ht _ _ _ IH];
    by econstructor.
Qed.

(** ** The bytes that are unread decrease *)

(** The client is connected at the end and was all the time. *)
Definition connected h : Prop := is_Some (hub_peers h !! fd).

Lemma sees_connected h out h' :
  sees s0 fd h out h' -> fd ∉ hub_accept h -> connected h' -> connected h.
Proof.
  intros Hs Ha [[[devs' part'] gap'] Hp]. destruct (Hs Ha) as [_ H].
  destruct (H _ _ _ Hp) as (devs & part & gap & _ & _ & Hp0 & _). by exists (devs, part, gap).
Qed.

Lemma unread_heard devs part gap evs w h : unread fd (heard fd devs part gap evs w h) = bytes_of evs.
Proof. unfold unread. cbn [heard hub_in]. by rewrite lookup_insert_eq. Qed.

Lemma unread_heard_ne fd' devs part gap evs w h :
  fd' <> fd -> unread fd (heard fd' devs part gap evs w h) = unread fd h.
Proof. intros Hne. unfold unread. cbn [heard hub_in]. by rewrite lookup_insert_ne. Qed.

Lemma unread_without fd' x h : unread fd (without fd' x h) = unread fd h.
Proof. done. Qed.

(** A client that is served has fewer bytes to read. *)
Lemma receives_fewer h part bs evs : receives fd h part (Some bs) evs ->
  unread fd h = bs ++ bytes_of evs /\ bs <> [].
Proof.
  intros Hrc. split; [by apply (recv_loop_bytes _ _ _ _ Hrc)|]. by destruct (recv_loop_bound _ _ _ _ Hrc).
Qed.

Lemma turn_reads fd' r h out h' :
  turn s0 master fd' r h out h' -> fd <> master -> connected h' ->
  (length (unread fd h') <= length (unread fd h))%nat /\
  (fd' = fd -> r <> 0 -> (length (unread fd h') < length (unread fd h))%nat).
Proof.
  intros Ht Hm [p Hp].
  destruct Ht as [fd' h|r h new rest Hr He Hacc H0 Hnm Hnew Hno|fd' r h He H0 Hne'
    |fd' r h devs part gap evs Hr He Hp' Hap Hrc
    |fd' r h devs part gap bs evs ms outs devs' w2 part' Hr He Hp' Hap Hrc Hbs Hall Hi
    |fd' r h devs part gap bs evs ms outs devs1 w1 m out devs' w2 rest Hr He Hp' Hap Hrc Hbs Hall Hbye].
  - done.
  - split; [done|]. congruence.
  - cbn [without hub_peers] in Hp. apply lookup_delete_Some in Hp as [Hne _]. by split.
  - cbn [without heard hub_peers] in Hp. apply lookup_delete_Some in Hp as [Hne _].
    split; [|congruence]. by rewrite unread_without, unread_heard_ne.
  - destruct (decide (fd' = fd)) as [->|Hne]; [|rewrite unread_heard_ne by done; split; [done|congruence]].
    destruct (receives_fewer _ _ _ _ Hrc) as [-> Hne]. rewrite unread_heard, length_app.
    destruct bs; [done|]. cbn [length]. split; [lia|]. intros _ _. lia.
  - cbn [without heard hub_peers] in Hp. apply lookup_delete_Some in Hp as [Hne _].
    split; [|congruence]. by rewrite unread_without, unread_heard_ne.
Qed.

Lemma turns_read es h out h' :
  turns s0 master es h out h' -> fd <> master -> fd ∉ hub_accept h -> connected h' ->
  (length (unread fd h') <= length (unread fd h))%nat /\
  (ready es -> length (unread fd h') < length (unread fd h))%nat.
Proof.
  intros Hts Hm. induction Hts as [h|fd' r es h out h1 outs h' Ht _ Hts IH]; intros Ha Hc.
  - split; [done|]. intros H. by apply Exists_nil in H.
  - destruct (sees_turn s0 master fd _ _ _ _ _ Ht Ha) as [Ha1 _].
    destruct (IH Ha1 Hc) as [IH1 IH2].
    pose proof (sees_connected _ _ _ (sees_turns s0 master fd _ _ _ _ Hts) Ha1 Hc) as Hc1.
    destruct (turn_reads _ _ _ _ _ Ht Hm Hc1) as [T1 T2]. split; [lia|].
    intros [[E Hr]|Hr]%Exists_cons; [specialize (T2 E Hr); lia|specialize (IH2 Hr); lia].
Qed.

Lemma unread_swept h : unread fd (swept h) = unread fd h.
Proof. unfold swept. by destruct (hub_removed h). Qed.

Lemma connected_swept h : connected (swept h) -> connected h.
Proof. unfold swept. by destruct (hub_removed h). Qed.

Lemma accept_swept h : hub_accept (swept h) = hub_accept h.
Proof. unfold swept. by destruct (hub_removed h). Qed.

(** ** Is the client polled? *)

Lemma swept_polled h : fd ∈ hub_polled (swept h) <-> fd ∈ hub_polled h /\ fd ∉ hub_removed h.
Proof.
  unfold swept. destruct (hub_removed h) eqn:E; [by split; [split; [|apply not_elem_of_nil]|intros []]|].
  cbn [hub_polled]. rewrite list_elem_of_filter. naive_solver.
Qed.

(** Only a new connection adds a descriptor. *)
Lemma turns_polled es h out h' :
  turns s0 master es h out h' -> fd ∉ hub_accept h -> fd ∈ hub_polled h' -> fd ∈ hub_polled h.
Proof.
  induction 1 as [h|fd' r es h out h1 outs h' Ht _ Hts IH]; [done|]. intros Ha Hp.
  destruct (sees_turn s0 master fd _ _ _ _ _ Ht Ha) as [Ha1 _]. specialize (IH Ha1 Hp).
  assert (hub_polled h1 = hub_polled h \/ exists new rest, hub_accept h = new :: rest /\
    hub_polled h1 = hub_polled h ++ [new]) as [E|(new & rest & E1 & E2)] by (destruct Ht; eauto).
  - by rewrite <-E.
  - rewrite E2 in IH. rewrite E1 in Ha. set_solver.
Qed.

(** The client is polled and stays so, unless the read of another client's
    deleted object gives its descriptor. *)
Definition kept_polled h : Prop :=
  (fd ∈ hub_polled h /\ fd ∉ hub_removed h) \/ exists fd', fd' <> fd /\ freed_fd fd' = fd.

Lemma turn_kept fd' r h out h' :
  turn s0 master fd' r h out h' -> connected h' -> kept_polled h -> kept_polled h'.
Proof.
  intros Ht [p Hp] Hk.
  destruct Ht as [fd' h|r h new rest| fd' r h|fd' r h devs part gap evs
    |fd' r h devs part gap bs evs ms outs devs' w2 part'
    |fd' r h devs part gap bs evs ms outs devs1 w1 m out devs' w2 rest]; try done.
  - destruct Hk as [[? ?]|?]; [left|by right]. split; [|done]. cbn. apply elem_of_app. by left.
  - cbn [without hub_peers] in Hp. apply lookup_delete_Some in Hp as [Hne _]. destruct Hk as [[? ?]|?]; [left|by right].
    split; [done|]. cbn. set_solver.
  - cbn [without hub_peers] in Hp. apply lookup_delete_Some in Hp as [Hne _]. destruct Hk as [[? ?]|?]; [left|by right].
    split; [done|]. cbn. set_solver.
  - cbn [without hub_peers] in Hp. apply lookup_delete_Some in Hp as [Hne _]. destruct Hk as [[? ?]|?]; [|by right].
    destruct (decide (freed_fd fd' = fd)) as [E|E]; [right; by exists fd'|left]. split; [done|]. cbn. set_solver.
Qed.

Lemma turns_kept es h out h' :
  turns s0 master es h out h' -> fd ∉ hub_accept h -> connected h' -> kept_polled h -> kept_polled h'.
Proof.
  induction 1 as [h|fd' r es h out h1 outs h' Ht _ Hts IH]; [done|]. intros Ha Hc Hk.
  destruct (sees_turn s0 master fd _ _ _ _ _ Ht Ha) as [Ha1 _]. apply (IH Ha1 Hc).
  eapply turn_kept; [exact Ht| |done]. by eapply sees_connected; [eapply sees_turns| |].
Qed.

Lemma swept_kept h : kept_polled h -> kept_polled (swept h).
Proof.
  intros [[Hp Hr]|?]; [left|by right]. split; [by apply swept_polled|]. unfold swept.
  destruct (hub_removed h) eqn:E; [by rewrite E|apply not_elem_of_nil].
Qed.

Lemma attended_kept n evs h out h' :
  attended n evs h out h' -> fd ∉ hub_accept h -> connected h' -> kept_polled h -> kept_polled h'.
Proof.
  intros Hat.
  induction Hat as [h|n ev evs h out h' _ _ IH|n rev evs h out h1 outs h' Ht _ Hat IH|n rev evs h out h1 outs h' Ht _ _ Hat IH];
    intros Ha Hc Hk; [done|by apply IH| |];
    destruct (sees_turns s0 master fd _ _ _ _ Ht Ha) as [Ha1 _]; pose proof Ha1 as Ha2; rewrite <-accept_swept in Ha2;
    apply IH; [done|done| |done|done|]; apply swept_kept; (eapply turns_kept; [exact Ht|done| |done]);
    apply connected_swept; (eapply sees_connected; [eapply sees_rounds, attended_rounds, Hat|done|done]).
Qed.

Lemma attended_polled n evs h out h' :
  attended n evs h out h' -> fd ∉ hub_accept h -> fd ∈ hub_polled h' -> fd ∈ hub_polled h.
Proof.
  induction 1 as [h|n ev evs h out h' _ _ IH|n rev evs h out h1 outs h' Ht _ Hat IH|n rev evs h out h1 outs h' Ht _ _ Hat IH];
    intros Ha Hp; [done|by apply IH| |];
    destruct (sees_turns s0 master fd _ _ _ _ Ht Ha) as [Ha1 _]; rewrite <-accept_swept in Ha1;
    eapply turns_polled; try done; by apply swept_polled, IH.
Qed.

Lemma attended_reads n evs h out h' :
  attended n evs h out h' -> fd <> master -> fd ∉ hub_accept h -> connected h' -> fd ∈ hub_polled h' ->
  (length (unread fd h') <= length (unread fd h) - n)%nat.
Proof.
  intros Hat Hm.
  induction Hat as [h|n ev evs h out h' _ _ IH|n rev evs h out h1 outs h' Ht _ Hat IH|n rev evs h out h1 outs h' Ht _ Hrd Hat IH];
    intros Ha Hc Hpl; [lia|by apply IH| |];
    destruct (sees_turns s0 master fd _ _ _ _ Ht Ha) as [Ha1 _]; rewrite <-accept_swept in Ha1;
    specialize (IH Ha1 Hc Hpl); rewrite unread_swept in IH;
    pose proof (sees_rounds s0 master fd _ _ _ _ (attended_rounds _ _ _ _ _ Hat)) as Hs;
    pose proof (connected_swept _ (sees_connected _ _ _ Hs Ha1 Hc)) as Hc1;
    destruct (turns_read _ _ _ _ Ht Hm Ha Hc1) as [T1 T2]; [lia|].
  destruct Hrd as [Hu|[Hrd|Hno]]; [rewrite Hu in *; cbn [length] in *; lia|specialize (T2 Hrd); lia|].
  exfalso. apply Hno. eapply turns_polled; [exact Ht|done|].
  apply swept_polled. by eapply attended_polled.
Qed.

(** ** A client that stays *)

(** No message of [ms] ends the connection, whatever the other clients do in
    between. *)
Definition never_refused devs (ms : list message) : Prop :=
  forall ms1 m ms2 outs devs1 w out devs' w', ms = ms1 ++ m :: ms2 ->
    answered_among s0 devs ms1 outs devs1 -> ~ replies s0 devs1 w m out devs' w' true.

Lemma never_refused_app devs ms1 ms2 outs devs1 :
  never_refused devs (ms1 ++ ms2) -> answered_among s0 devs ms1 outs devs1 -> never_refused devs1 ms2.
Proof.
  intros H H1 ms3 m ms4 outs3 devs3 w out devs' w' -> H3.
  apply (H (ms1 ++ ms3) m ms4 (outs ++ outs3)); [by rewrite <-app_assoc|by eapply answered_among_app].
Qed.

(** The client is connected, has the messages [ms] to send, and a socket that
    works. *)
Record steady h devs part gap ms : Prop := {
  sd_peer : hub_peers h !! fd = Some (devs, part, gap);
  sd_part : incomplete part;
  sd_bytes : part ++ unread fd h = concat (map enc_message ms);
  sd_wf : Forall message_wf ms;
  sd_fit : Forall (fun m => (3 + length m.2 <= RX_BUFFER_SIZE)%nat) ms;
  sd_data : Forall delivers_data (default [] (hub_in h !! fd));
  sd_polite : never_refused devs ms
}.

Definition stays h : Prop := exists devs part gap ms, steady h devs part gap ms.

Lemma stays_connected h : stays h -> connected h.
Proof. intros (devs & part & gap & ms & []). by exists (devs, part, gap). Qed.

(** What happens to others. *)
Lemma stays_same h h' :
  hub_peers h' !! fd = hub_peers h !! fd -> hub_in h' !! fd = hub_in h !! fd -> stays h -> stays h'.
Proof.
  intros Hp Hin (devs & part & gap & ms & []). exists devs, part, gap, ms.
  split; try done; [by rewrite Hp|unfold unread; by rewrite Hin|by rewrite Hin].
Qed.

(** The messages received are the first of those sent. *)
Lemma received_prefix ms ms1 rest :
  Forall message_wf ms -> Forall message_wf ms1 ->
  concat (map enc_message ms) = concat (map enc_message ms1) ++ rest ->
  exists ms2, ms = ms1 ++ ms2 /\ rest = concat (map enc_message ms2).
Proof.
  intros Hms H1 E. destruct (split_messages rest) as (ms2 & p & -> & H2 & Hi).
  assert (incomplete []) as Hi0 by (left; cbn; lia). rewrite app_assoc, <-concat_app, <-map_app in E.
  rewrite <-(app_nil_r (concat (map enc_message ms))) in E.
  destruct (messages_unique ms (ms1 ++ ms2) [] p) as [-> <-]; [done|by apply Forall_app|done..|].
  exists ms2. by rewrite app_nil_r.
Qed.

Lemma stays_served h devs part gap gap' bs evs ms outs devs' w' part' :
  stays h -> hub_peers h !! fd = Some (devs, part, gap) -> receives fd h part (Some bs) evs ->
  part ++ bs = concat (map enc_message ms) ++ part' ->
  replies_all s0 devs (hub_world h) ms outs devs' w' -> incomplete part' ->
  stays (heard fd devs' part' gap' evs w' h).
Proof.
  intros (devs0 & part0 & gap0 & ms0 & [Hp Hi0 E Hwf Hfit Hd Hpol]) Hp' Hrc Hbs Hall Hi.
  rewrite Hp' in Hp. injection Hp as <- <- <-. destruct (receives_fewer _ _ _ _ Hrc) as [Eu _].
  rewrite Eu, app_assoc, Hbs, <-app_assoc in E. symmetry in E.
  pose proof (replies_all_among _ _ _ _ _ _ _ Hall) as Haa.
  destruct (received_prefix ms0 ms (part' ++ bytes_of evs)) as (ms2 & -> & E2);
    [done|by eapply answered_among_wf|done|].
  apply Forall_app in Hwf as [_ Hwf]. apply Forall_app in Hfit as [_ Hfit].
  exists devs', part', gap', ms2. split; try done.
  - cbn [heard hub_peers]. by rewrite lookup_insert_eq.
  - by rewrite unread_heard.
  - cbn [heard hub_in]. rewrite lookup_insert_eq. cbn [default].
    unfold receives in Hrc. eapply recv_loop_data; [|exact Hd|exact Hrc].
    destruct (decide (RX_BUFFER_SIZE - length part = 0)%nat) as [Hz|]; [|lia].
    destruct (recv_loop_bound _ _ _ _ Hrc) as [Hne Hl]. destruct bs; [done|cbn in Hl; lia].
  - by eapply never_refused_app.
Qed.

Lemma turn_stays fd' r h out h' :
  turn s0 master fd' r h out h' -> fd <> master -> fd ∉ hub_accept h ->
  (fd' = fd -> poll_error r = false) -> stays h -> stays h'.
Proof.
  intros Ht Hm Ha He Hs.
  destruct Ht as [fd' h|r h new rest Hr _ Hacc H0 Hnm Hnew Hno|fd' r h He' H0 Hne'
    |fd' r h devs part gap evs Hr _ Hp Hap Hrc
    |fd' r h devs part gap bs evs ms outs devs' w2 part' Hr _ Hp Hap Hrc Hbs Hall Hi
    |fd' r h devs part gap bs evs ms outs devs1 w1 m out devs' w2 rest Hr _ Hp Hap Hrc Hbs Hall Hbye];
    try (destruct (decide (fd' = fd)) as [->|Hne];
      [|apply (stays_same h); [|cbn [heard without hub_in]; by rewrite ?lookup_insert_ne|done];
        cbn [heard without hub_peers]; by rewrite ?lookup_delete_ne, ?lookup_insert_ne]).
  - done.
  - rewrite Hacc, not_elem_of_cons in Ha. destruct Ha as [Hne _].
    apply (stays_same h); [cbn [joined hub_peers]; by rewrite lookup_insert_ne|done|done].
  - by rewrite He in He'.
  - exfalso. destruct Hs as (devs0 & part0 & gap0 & ms0 & [Hp' Hi0 E Hwf Hfit Hd _]).
    rewrite Hp in Hp'. injection Hp' as <- <- <-. pose proof (part_has_room _ _ _ Hi0 E Hwf Hfit) as Hroom.
    destruct (recv_loop_data (RX_BUFFER_SIZE - length part) _ _ _ ltac:(lia) Hd Hrc) as [Hno _]. by apply is_Some_None in Hno.
  - by eapply stays_served.
  - exfalso. destruct Hs as (devs0 & part0 & gap0 & ms0 & [Hp' Hi0 E Hwf Hfit Hd Hpol]).
    rewrite Hp in Hp'. injection Hp' as <- <- <-. destruct (receives_fewer _ _ _ _ Hrc) as [Eu _].
    rewrite Eu, app_assoc, Hbs, <-!app_assoc in E. symmetry in E.
    pose proof (replies_all_among _ _ _ _ _ _ _ Hall) as Haa.
    destruct (received_prefix ms0 ms _ Hwf (answered_among_wf _ _ _ _ _ Haa) E) as (ms2 & -> & E2).
    apply Forall_app in Hwf as [_ Hwf]. symmetry in E2.
    destruct (received_prefix ms2 [m] (rest ++ bytes_of evs)) as (ms3 & -> & _);
      [done|constructor; [by eapply replies_wf|constructor]|by cbn [map concat]; rewrite app_nil_r|].
    by eapply Hpol.
Qed.

Lemma turns_stay es h out h' :
  turns s0 master es h out h' -> fd <> master -> fd ∉ hub_accept h -> calm es -> stays h -> stays h'.
Proof.
  intros Hts Hm. induction Hts as [h|fd' r es h out h1 outs h' Ht _ Hts IH]; intros Ha Hc Hs; [done|].
  apply Forall_cons in Hc as [He Hc]. destruct (sees_turn s0 master fd _ _ _ _ _ Ht Ha) as [Ha1 _].
  apply IH; [done|done|]. by eapply turn_stays.
Qed.

Lemma stays_swept h : stays h -> stays (swept h).
Proof. apply stays_same; unfold swept; by destruct (hub_removed h). Qed.

Lemma attended_stays n evs h out h' :
  attended n evs h out h' -> fd <> master -> fd ∉ hub_accept h -> stays h -> stays h'.
Proof.
  intros Hat Hm.
  induction Hat as [h|n ev evs h out h' _ _ IH|n rev evs h out h1 outs h' Ht Hc _ IH|n rev evs h out h1 outs h' Ht Hc _ _ IH];
    intros Ha Hs; [done|by apply IH| |];
    (apply IH; [|by apply stays_swept, (turns_stay _ _ _ _ Ht)]);
    rewrite accept_swept; by apply (sees_turns s0 master fd _ _ _ _ Ht Ha).
Qed.
End fair.

(** ** What an attended client gets *)

Section answered.
Context {W D B : Type} `{!IDev W D} `{!IBus W D B} {VG : VectorGrowth} {PL : Platform}.
Context (s0 : HwioServer W D B) (master fd : Z).
Implicit Types (h : hub (W:=W) (D:=D)).

(** The client left, or is not polled any more, or [ms] are answered and
    nothing else was sent to it. *)
Definition gone_or_answered devs (ms : list message) (wd wd' : World (W:=W) (D:=D) (B:=B)) h' : Prop :=
  hub_peers h' !! fd = None \/ fd ∉ hub_polled h' \/
  exists outs devs' gap', hub_peers h' !! fd = Some (devs', [], gap') /\ answered_among s0 devs ms outs devs' /\
    to_fd fd (net_sent wd'.2) = to_fd fd (net_sent wd.2) ++ to_client fd outs.

Lemma attended_answered n evs out (wd : World (W:=W) (D:=D) (B:=B)) h h' polls devs gap ms :
  at_rest s0 master wd h -> net_poll wd.2 = evs ++ polls -> attended s0 master fd n evs h out h' ->
  fd ∉ net_accept wd.2 -> hub_peers h !! fd = Some (devs, [], gap) -> Forall message_wf ms ->
  bytes_of (default [] (net_in wd.2 !! fd)) = concat (map enc_message ms) ->
  (length (concat (map enc_message ms)) <= n)%nat ->
  exists wd', serve_rounds (length evs) wd = (Ret tt, wd') /\ at_rest s0 master wd' h' /\
    gone_or_answered devs ms wd wd' h' /\
    (Forall delivers_data (default [] (net_in wd.2 !! fd)) ->
     Forall (fun m => (3 + length m.2 <= RX_BUFFER_SIZE)%nat) ms -> never_refused s0 devs ms ->
     is_Some (hub_peers h' !! fd)) /\
    (fd ∈ hub_polled h -> is_Some (hub_peers h' !! fd) ->
     fd ∈ hub_polled h' \/ exists fd', fd' <> fd /\ freed_fd fd' = fd).
Proof.
  intros Hr Hp Hat Hacc Hpeer Hms Hbytes Hn. pose proof (attended_rounds _ _ _ _ _ _ _ _ Hat) as Hrs.
  destruct (proj1 Hr) as [_ _ _ _ _ _ _ Hin Ha _ (_ & _ & Hmno) _ _].
  assert (fd <> master) as Hm by congruence.
  destruct (answered_when_read _ _ _ _ _ _ _ _ _ _ _ _ Hr Hp Hrs Hacc Hpeer Hms Hbytes) as (wd' & Hrun & Hr' & Hans).
  rewrite Hin in Hbytes |- *. rewrite Ha in Hacc.
  exists wd'. split_and!; [done|done| | |].
  - unfold gone_or_answered. destruct (hub_peers h' !! fd) as [p|] eqn:Ep; [right|by left].
    destruct (decide (fd ∈ hub_polled h')) as [Hpl|]; [right|by left]. apply Hans; [by eexists|].
    assert (length (unread fd h') <= length (unread fd h) - n)%nat as Hl.
    { eapply attended_reads; [done..| |done]. by exists p. }
    unfold unread in Hl. rewrite Hbytes in Hl. rewrite (sf_in _ _ _ _ (proj1 Hr')).
    apply nil_length_inv. lia.
  - intros Hdata Hfit Hpol. apply (stays_connected s0 fd).
    eapply (attended_stays s0 master fd); [done..|].
    exists devs, [], gap, ms. split; try done. left. cbn. lia.
  - intros Hpl Hc. destruct (attended_kept s0 master fd n evs h out h' Hat Hacc Hc) as [[? _]|?]; [|by left|by right].
    left. split; [done|]. rewrite (proj2 Hr). apply not_elem_of_nil.
Qed.

(** A [ppoll] that tells the truth: in [k] rounds it reports only descriptors
    that have something in store ([prepared]), no error for the client, and in
    [n] of them that did not time out the client whenever it has something
    unread and is polled. *)
Section honest.
Context (ok : message -> Prop).

Inductive honest : nat -> nat -> World (W:=W) (D:=D) (B:=B) -> hub (W:=W) (D:=D) -> Prop :=
  | ho_done wd h : honest 0 0 wd h
  | ho_idle k n ev polls wd h :
      net_poll wd.2 = ev :: polls -> ev = PollTimeout \/ ev = PollInterrupted ->
      (forall wd' h', pool_client_msgs wd = (Ret tt, wd') -> at_rest s0 master wd' h' -> honest k n wd' h') ->
      honest (S k) n wd h
  | ho_events k n revents polls wd h :
      net_poll wd.2 = PollEvents revents :: polls ->
      (forall i fd', hub_polled h !! i = Some fd' -> prepared master ok h fd' (default 0 (revents !! i))) ->
      calm fd (reported revents h) -> unread fd h = [] \/ ready fd (reported revents h) \/ fd ∉ hub_polled h ->
      (forall wd' h', pool_client_msgs wd = (Ret tt, wd') -> at_rest s0 master wd' h' -> honest k n wd' h') ->
      honest (S k) (S n) wd h.

(** The next state is the one of the turns. *)
Lemma honest_round k n revents polls wd h out h1 :
  at_rest s0 master wd h -> net_poll wd.2 = PollEvents revents :: polls ->
  (forall i fd', hub_polled h !! i = Some fd' -> prepared master ok h fd' (default 0 (revents !! i))) ->
  calm fd (reported revents h) -> unread fd h = [] \/ ready fd (reported revents h) \/ fd ∉ hub_polled h ->
  turns s0 master (reported revents h) h out h1 ->
  (forall wd', at_rest s0 master wd' (swept h1) -> net_poll wd'.2 = polls -> honest k n wd' (swept h1)) ->
  honest (S k) (S n) wd h.
Proof.
  intros Hr Hp Hprep Hc Hu Ht Hnext. eapply ho_events; [done..|]. intros wd2 h2 Hrun2 Hr2.
  destruct wd as [[s w] nt]. destruct (pool_events _ _ _ _ _ _ _ _ _ _ Hr Hp Ht) as (wd' & Hrun & Hr' & _ & Hp').
  pose proof (eq_trans (eq_sym Hrun) Hrun2) as E. injection E as <-.
  rewrite (stands_for_unique _ _ _ _ _ (proj1 Hr2) (proj1 Hr')). by apply Hnext.
Qed.

Context (sound : W -> Prop) (good : W -> list (option D) -> Prop) `{!Answering s0 sound good ok}.

Lemma honest_attended k n wd h :
  honest k n wd h -> at_rest s0 master wd h -> hub_good sound good h ->
  exists evs polls out h', net_poll wd.2 = evs ++ polls /\ length evs = k /\
    attended s0 master fd n evs h out h' /\ hub_good sound good h'.
Proof.
  intros Hh. induction Hh as [wd h|k n ev polls wd h Hp Hev _ IH|k n revents polls wd h Hp Hprep Hc Hu _ IH]; intros Hr Hg.
  - exists [], (net_poll wd.2), [], h. split; [done|]. split; [done|]. split; [constructor|done].
  - assert (rounds s0 master [ev] h [] h) as Hrs by (destruct Hev as [->| ->]; repeat constructor).
    destruct (rounds_run s0 master [ev] [] wd h h polls Hr Hp Hrs) as (wd1 & Hrun & Hr1 & _ & Hp1).
    destruct (IH wd1 h) as (evs & polls' & out & h' & He & Hl & Hat & Hg'); [|done..|].
    { unfold serve_rounds in Hrun. cbn [length replicate st_iter] in Hrun.
      apply st_bind_inv in Hrun as ([] & wd2 & Hrun & Hret). by apply st_ret_inv in Hret as [_ ->]. }
    exists (ev :: evs), polls', out, h'. split_and!; [by rewrite Hp, <-Hp1, He|cbn; by rewrite Hl|by constructor|done].
  - destruct (round_exists s0 master sound good ok wd h revents polls Hr Hp Hg Hprep)
      as (wd1 & out & h1 & Hrun & Ht & Hr1 & Hg1 & _ & Hp1).
    destruct (IH wd1 (swept h1) Hrun Hr1 Hr1 Hg1) as (evs & polls' & outs & h' & He & Hl & Hat & Hg').
    exists (PollEvents revents :: evs), polls', (out ++ outs), h'.
    split_and!; [by rewrite Hp, <-Hp1, He|cbn; by rewrite Hl|by econstructor|done].
Qed.
End honest.
End answered.

(** ** Properties *)

Section properties.
Context {W D B : Type} `{!IDev W D} `{!IBus W D B} {VG : VectorGrowth} {PL : Platform}.
Context (s0 : HwioServer W D B) (master fd : Z).
Context (sound : W -> Prop) (good : W -> list (option D) -> Prop) (ok : message -> Prop).
Context `{!Answering s0 sound good ok}.

End properties.
