(* ===== verification/MmapServer.v ===== *)
(** * A server of memory mapped devices

    The server of [Server] with the devices of [Mmap], looked up on buses of
    the process: the devices can be attached, and have at least [n] bytes.  Such
    a server has an answer to every message but those that reach beyond the
    devices, and stays so whatever its clients ask. *)

From Stdlib Require Import ZArith Lia Ascii String.
From stdpp Require Import base tactics list numbers strings gmap fin_maps.
From S2P Require Import Prelude CxxString Version CompSpec Device Mmap Bus Devicetree Json OwningBus Wire Protocol Server.
From S2P Require Import ServerHandlers ServerFrame ServerSpec ServerQuery ServerSafety ServerLoop ServerLoopSpec.
From S2P Require Import ServerStream ServerFrames ServerRun ServerRounds ServerProgress.

(** A bus whose lookup only filters devices it has. *)
Class LocalBus (W D B : Type) `{!IBus W D B} := {
  bus_devices : B -> list D;
  local_find b q w : exists ds, find_devices b q w = (Ret ds, w) /\ ds `sublist_of` bus_devices b
}.

Section find.
Context {W D : Type} `{!IDev W D}.

Lemma filter_by_spec_sublist w devices q : filter_device_by_spec (W:=W) (D:=D) w devices q `sublist_of` devices.
Proof. rewrite filter_device_by_spec_filter. apply sublist_filter. Qed.

#[export] Program Instance primitive_local : LocalBus W D (hwio_bus_primitive D) := {| bus_devices := _all_devices |}.
Next Obligation. intros b q w. eexists. split; [done|]. apply filter_by_spec_sublist. Qed.

Lemma composite_find_local {B} `{!IBus W D B} `{!LocalBus W D B} (bs : list B) q w :
  exists ds, composite_find_devices bs q w = (Ret ds, w) /\ ds `sublist_of` concat (map bus_devices bs).
Proof.
  induction bs as [|b bs (ds & E & Hs)]; [by exists []|].
  destruct (local_find b q w) as (ds1 & E1 & Hs1). exists (ds1 ++ ds). split.
  - cbn [composite_find_devices]. rewrite (st_bind_ret _ _ _ _ _ E1). by rewrite (st_bind_ret _ _ _ _ _ E).
  - cbn [map concat]. by apply sublist_app.
Qed.
(** A device that is found is known or among those to be attached. *)
Lemma fresh_devices_complete known (ds : list D) d :
  d ∈ ds -> Some d ∈ known \/ d ∈ fresh_devices (W:=W) known ds.
Proof.
  revert known. induction ds as [|x ds IH]; intros known; [by intros ?%not_elem_of_nil|].
  cbn [fresh_devices]. intros [->|Hd]%elem_of_cons; destruct (decide (Some _ ∈ known)) as [Hk|Hk].
  - by left.
  - right. by left.
  - by apply IH.
  - destruct (IH (Some x :: known) Hd) as [[[= ->]|?]%elem_of_cons|?]; [right; by left|by left|right; by right].
Qed.

Lemma fresh_devices_incl known (ds : list D) d : d ∈ fresh_devices (W:=W) known ds -> d ∈ ds.
Proof.
  revert known. induction ds as [|x ds IH]; intros known; cbn [fresh_devices]; [done|].
  destruct (decide _); [intros H; right; by eapply IH|].
  intros [->|H]%elem_of_cons; [by left|right; by eapply IH].
Qed.
End find.

(** ** Devices *)

Section devices.
Context {OS : Posix} (n : Z) (Hn : 0 <= n <= 2 ^ 32).
Implicit Types (w : MmapWorld) (dev : hwio_device_mmap) (d : nat).

#[export] Program Instance owning_local : LocalBus MmapWorld nat owning_bus := {| bus_devices := ob_devices |}.
Next Obligation. intros b q w. eexists. split; [done|]. apply filter_by_spec_sublist. Qed.

(** The first [n] bytes of the device are in the mapping, and the memory file
    has them. *)
Definition has_window w dev : Prop :=
  0 <= page_offset dev /\ page_offset dev + n <= addr_space_size dev /\
  forall i, 0 <= i < n -> is_Some (mw_mem w !! map_key dev i).

Definition is_open dev : Prop := 0 <= md_fd dev /\ dev_mapped dev = true.

(** [attach] works, or has worked. *)
Definition can_attach dev : Prop :=
  is_open dev \/ (md_fd dev < 0 /\ 0 < os_open (mem_file_name dev) /\
    os_mmap (mem_file_name dev) (addr_space_size dev) (page_addr dev) = true).

Definition usable w d : Prop :=
  exists dev, mw_devs w !! d = Some dev /\ can_attach dev /\ has_window w dev.

Definition opened w d : Prop := exists dev, mw_devs w !! d = Some dev /\ is_open dev.

(** What the operations keep. *)
Definition keeps w w' : Prop :=
  forall d, (usable w d -> usable w' d) /\ (opened w d -> opened w' d).

#[export] Instance keeps_preorder : PreOrder keeps.
Proof. split; [by intros w d|]. intros w1 w2 w3 H1 H2 d. split; intros H; apply H2, H1, H. Qed.

Lemma attach_usable w d : usable w d -> exists w', attach d w = (Ret tt, w') /\ keeps w w' /\ opened w' d.
Proof.
  intros (dev & Hd & Hc & Hw). cbn [attach mmap_dev]. rewrite (mmap_attach_run w d dev Hd). cbv zeta.
  destruct Hc as [[Hfd Hm]|(Hfd & Ho & Hm)].
  - rewrite (proj2 (Z.leb_le _ _)) by done. exists w. split; [done|]. split; [done|]. by exists dev.
  - rewrite (proj2 (Z.leb_gt _ _)), (proj2 (Z.leb_gt _ _)), Hm by done. eexists. split; [done|].
    set (dev' := set_fd (os_open (mem_file_name dev)) true dev). assert (is_open dev') as Ho' by (split; [cbn; lia|done]).
    split; [|exists dev'; split; [apply lookup_insert_eq|done]].
    intros x. cbn. split.
    + intros (devx & Hx & Hcx & Hwx). unfold usable. cbn [mw_devs attached_world].
      destruct (decide (d = x)) as [<-|Hne].
      * rewrite lookup_insert_eq. exists dev'. split; [done|]. split; [by left|].
        replace devx with dev in Hwx by congruence. exact Hwx.
      * rewrite lookup_insert_ne by done. exists devx. by split.
    + intros (devx & Hx & Hox). unfold opened. cbn [mw_devs attached_world].
      destruct (decide (d = x)) as [<-|Hne].
      * rewrite lookup_insert_eq. by exists dev'.
      * rewrite lookup_insert_ne by done. by exists devx.
Qed.

Lemma attach_all ds w : (forall d, d ∈ ds -> usable w d) ->
  exists w', st_iter attach ds w = (Ret tt, w') /\ keeps w w' /\ forall d, d ∈ ds -> opened w' d.
Proof.
  revert w. induction ds as [|d ds IH]; intros w Hds.
  - exists w. split; [done|]. split; [done|]. by intros d ?%not_elem_of_nil.
  - destruct (attach_usable w d (Hds d ltac:(by left))) as (w1 & E1 & K1 & O1).
    destruct (IH w1) as (w2 & E2 & K2 & O2); [intros x Hx; apply K1, Hds; by right|].
    exists w2. split; [cbn [st_iter]; by rewrite (st_bind_ret _ _ _ _ _ E1)|].
    split; [by etransitivity|]. intros x [->|Hx]%elem_of_cons; [by apply K2|by apply O2].
Qed.

(** An open device can be accessed in its first [n] bytes. *)
Lemma open_accessible w d off k :
  usable w d -> opened w d -> 0 <= off -> off + Z.of_nat k <= n -> accessible w d off k.
Proof.
  intros (dev & Hd & _ & Hp & Hsz & Hmem) (dev' & Hd' & _ & Hm) Hoff Hk i Hi.
  replace dev' with dev in Hm by congruence. cbn [peek mmap_byte_device]. unfold mmap_peek.
  rewrite Hd. cbn [mbind option_bind]. rewrite map_byte_mem; [apply Hmem; lia|].
  unfold in_mapping. rewrite Hm, (proj2 (Z.leb_le _ _)), (proj2 (Z.ltb_lt _ _)) by lia. done.
Qed.

Lemma accessible_shows w d off k : accessible w d off k -> exists bs, length bs = k /\ shows w d off bs.
Proof.
  intros Ha. exists (map (fun i => default NUL (peek w d (off + Z.of_nat i))) (seq 0 k)). split.
  - by rewrite length_map, length_seq.
  - intros i b. rewrite list_lookup_fmap. destruct (seq 0 k !! i) as [j|] eqn:E; [|done].
    apply lookup_seq in E as [-> Hi]. change (0 + i)%nat with i. cbn [fmap option_fmap option_map]. intros [= <-]. destruct (Ha i Hi) as [c E].
    cbn [peek mmap_byte_device] in *. by rewrite E.
Qed.

Lemma read_usable w d off k :
  usable w d -> opened w d -> 0 <= off -> off + Z.of_nat k <= n ->
  exists bs, dev_read d off k (w, []) = (Ret tt, (w, bs)) /\ length bs = k.
Proof.
  intros Hu Ho Hoff Hk. destruct (accessible_shows w d off k) as (bs & <- & Hs); [by apply open_accessible|].
  exists bs. split; [|done]. cbn [dev_read mmap_dev]. rewrite ihwio_dev_read_shows by (done || lia). done.
Qed.

Lemma write_usable w d off data :
  usable w d -> opened w d -> 0 <= off -> off + Z.of_nat (length data) <= n ->
  exists w', dev_write d off data w = (Ret tt, w') /\ keeps w w'.
Proof.
  intros Hu Ho Hoff Hk. pose proof (open_accessible w d off _ Hu Ho Hoff Hk) as Ha.
  destruct Hu as (dev & Hd & _). eexists. split; [apply (mmap_block_write w d dev); [done|done|lia|done]|].
  intros x. split; [|done]. intros (devx & Hx & Hc & Hp & Hs & Hm). exists devx. split; [done|].
  split; [done|]. split; [done|]. split; [done|]. intros i Hi. cbn [mw_mem]. unfold map_key.
  rewrite lookup_store_mem. case_decide; [apply lookup_lt_is_Some; lia|by apply Hm].
Qed.

(** A transfer from a mapping does not throw. *)
Definition no_throws {S A} (m : ST S A) : Prop := forall st e st', m st <> (Throw e, st').

Lemma no_throws_bind {S A A'} (m : ST S A) (k : A -> ST S A') :
  no_throws m -> (forall x, no_throws (k x)) -> no_throws (m ≫= k).
Proof.
  intros Hm Hk st e st' H. unfold mbind, ST_bind in H. destruct (m st) as [[x|e'|f] st1] eqn:E.
  - by apply Hk in H.
  - by apply (Hm st e' st1).
  - discriminate.
Qed.

Lemma load_no_throws dev off k : no_throws (load dev off k).
Proof.
  revert off. induction k as [|k IH]; intros off w e st' H; [discriminate|]. cbn [load] in H.
  destruct (map_byte w dev off) as [b|]; [|discriminate]. revert H. apply no_throws_bind; [done|]. by intros x st.
Qed.

Lemma mmap_read_no_throws k d off : no_throws (st_fst (T:=list byte) (mmap_read k d off)).
Proof.
  assert (no_throws (mmap_read k d off)) as H.
  { apply no_throws_bind; [intros w e st'; unfold get_dev; by destruct (mw_devs w !! d)|]. intros dev.
    apply no_throws_bind; [apply load_no_throws|]. by intros x st. }
  intros [w t] e st' E. unfold st_fst in E. cbn [fst snd] in E. destruct (mmap_read k d off w) as [r w'] eqn:Er.
  injection E as -> _. by eapply H.
Qed.

Lemma dev_read_no_throws d off k : no_throws (dev_read d off k : ST (MmapWorld * list byte) unit).
Proof.
  cbn [dev_read mmap_dev]. revert off. induction (lt_wf k) as [k _ IH]. intros off.
  assert (forall i, no_throws (read8_loop d off i k)) as Hloop.
  { clear IH. induction k as [|k IHk]; intros i; [by intros st|]. cbn [read8_loop].
    apply no_throws_bind; [apply (mmap_read_no_throws 1)|]. intros v. apply no_throws_bind; [by intros st|].
    intros _. apply IHk. }
  destruct k as [|[|[|[|k]]]]; try apply Hloop. cbn [ihwio_dev_read].
  apply no_throws_bind; [apply (mmap_read_no_throws 4)|]. intros v. apply no_throws_bind; [by intros st|].
  intros _. apply IH. lia.
Qed.

(** A new device of [n] bytes over memory that can be mapped is usable. *)
Lemma new_device_usable {P : PosixPages} w d spec base file :
  0 <= base < 2 ^ 32 -> n < 2 ^ 32 -> mw_devs w !! d = Some (new_mmap_device spec base n file) ->
  can_attach (new_mmap_device spec base n file) ->
  (forall i, 0 <= i < n -> is_Some (mw_mem w !! (file, base + i))) -> usable w d.
Proof.
  intros Hb Hlt Hd Hc Hm. exists (new_mmap_device spec base n file). split; [done|]. split; [done|].
  destruct (mmap_window_geometry spec base n file Hb) as (_ & Hbase & Hp & Hs); [lia|].
  split; [lia|]. split; [done|]. intros i Hi. unfold map_key. rewrite Hbase. by apply Hm.
Qed.
End devices.

(** ** The server *)

Section server.
Context {OS : Posix} {B : Type} `{!IBus MmapWorld nat B} `{!LocalBus MmapWorld nat B}.
Context (s0 : HwioServer MmapWorld nat B) (n : Z).
Implicit Types (s : HwioServer MmapWorld nat B) (w : MmapWorld) (devs : list (option nat)) (d : nat).

Definition all_devices : list nat := concat (map bus_devices (buses s0)).

Definition devices_ready w : Prop := forall d, d ∈ all_devices -> usable n w d.

(** The devices of a client: found on the buses, and attached. *)
Definition client_ready w devs : Prop :=
  None ∉ devs /\ devs_wf devs /\ forall d, Some d ∈ devs -> d ∈ all_devices /\ opened w d.

(** A function of the server returns what it announces. *)
Definition plugin_ready (p : plugin_info MmapWorld nat) : Prop :=
  plugin_local p /\ (ret_size p <= 2045)%nat /\
  forall d args w, devices_ready w -> d ∈ all_devices -> opened w d -> length args = args_size p ->
    exists ret w', fn p d args w = (Ret ret, w') /\ length ret = ret_size p /\ keeps n w w'.

(** A transfer within the first [n] bytes that fits a message, or a call with
    arguments of the size the function has. *)
Definition fits (rq : request) : Prop :=
  match rq with
  | RqRead r => rq_addr r + rq_size r <= n /\ rq_size r <= 2045
  | RqWrite r data => rq_addr r + rq_size r <= n
  | RqCall _ name args => forall p, plugins s0 !! name = Some p -> length args = args_size p
  | RqFast _ f args => forall p, plugins_fast s0 !! Z.to_nat f = Some p -> length args = args_size p
  | _ => True
  end.

Definition answerable (m : message) : Prop :=
  is_Some (malformed_refusal (Header m.1 (Z.of_nat (length m.2)))) \/
  (m.1 = HWIO_CMD_MSG /\ (4 + MAX_NAME_LEN <= length m.2)%nat) \/
  exists rq, request_wf rq /\ fits rq /\ m = of_request rq.

Record server_ready : Prop := {
  rd_size : 0 <= n <= 2 ^ 32;
  rd_devices : (length all_devices <= 1022)%nat;
  rd_plugins name p : plugins s0 !! name = Some p -> plugin_ready p;
  rd_fast i p : plugins_fast s0 !! i = Some p -> plugin_ready p
}.
Context (Hready : server_ready).

Lemma client_ready_keeps w w' devs : keeps n w w' -> client_ready w devs -> client_ready w' devs.
Proof.
  intros Hk (H1 & H2 & H3). split; [done|]. split; [done|]. intros d Hd. destruct (H3 d Hd).
  split; [done|]. by apply Hk.
Qed.

Lemma devices_ready_keeps w w' : keeps n w w' -> devices_ready w -> devices_ready w'.
Proof. intros Hk H d Hd. by apply Hk, H. Qed.

Lemma owned_Some devs id d : owned devs id = Some d -> Some d ∈ devs.
Proof.
  unfold owned, client_get_dev. cbn [ci_devices]. destruct (_ <? _)%nat; [|done].
  destruct (devs !! Z.to_nat id) as [o|] eqn:E; [|done]. cbn. intros ->. by eapply list_elem_of_lookup_2.
Qed.

(** An answer, after which everything is as ready as before. *)
Definition answered_well devs w (rq : request) : Prop :=
  exists out devs' w' bye, serves s0 devs w rq out devs' w' bye /\ keeps n w w' /\ client_ready w' devs'.

Lemma refused_well devs w rq : client_ready w devs -> is_Some (refusal s0 devs rq) -> answered_well devs w rq.
Proof.
  intros Hg [[code msg] E]. exists (error_bytes code msg), devs, w, true. split; [by apply sv_refused|done].
Qed.

Lemma query_well devs w specs : devices_ready w -> client_ready w devs -> answered_well devs w (RqQuery specs).
Proof.
  intros Hs (Hno & Hwf & Hall). destruct (composite_find_local (D:=nat) (buses s0) specs w) as (ds & Ef & Hsub).
  fold all_devices in Hsub.
  assert (forall d, d ∈ ds -> d ∈ all_devices) as Hds by (intros d Hd; by eapply elem_of_submseteq, sublist_submseteq).
  pose proof (sublist_length _ _ Hsub) as Hl. pose proof (rd_devices Hready) as Hm.
  pose proof (devs_bounded devs all_devices Hno Hwf (fun d Hd => proj1 (Hall d Hd))) as Hb.
  destruct (attach_all n (fresh_devices devs ds) w) as (w2 & Ha & Hk & Ho).
  { intros d Hd%fresh_devices_incl. by apply Hs, Hds. }
  destruct (registers_full devs ds Hno) as (ids & devs' & Hr & Hno' & Helem); [lia|].
  exists (frame HWIO_CMD_QUERY_RESP (enc_ids ids)), devs', w2, false.
  split; [|split; [done|split; [done|split; [by apply (registers_registered _ _ _ _ Hr)|]]]].
  - apply (sv_query _ _ _ specs ds ids devs' w w2); [done|done|lia|lia|done].
  - intros d [Hd|Hd]%Helem.
    + split; [by apply Hall|]. by apply Hk, Hall.
    + split; [by apply Hds|]. destruct (fresh_devices_complete devs ds d Hd) as [Hd'|Hd']; [|by apply Ho].
      by apply Hk, Hall.
Qed.

Lemma call_well devs w rq id args dev p :
  devices_ready w -> client_ready w devs ->
  (exists name, rq = RqCall id name args) \/ (exists f, rq = RqFast id f args) ->
  owned devs id = Some dev -> selected s0 rq = Some p -> plugin_ready p -> length args = args_size p ->
  answered_well devs w rq.
Proof.
  intros Hs Hg Hrq Ho Hp (Hloc & Hret & Hrun) Ha. pose proof Hg as (_ & _ & Hall).
  destruct (Hall dev (owned_Some _ _ _ Ho)) as [Hin Hop].
  destruct (Hrun dev args w Hs Hin Hop Ha) as (ret & w' & Hfn & Hl & Hk).
  exists (answer_of_plugin ret), devs, w', false.
  split; [|split; [done|by eapply client_ready_keeps]].
  apply (sv_call _ _ _ rq id args dev p ret w'); try done. lia.
Qed.

Lemma request_well devs w rq :
  devices_ready w -> client_ready w devs -> request_wf rq -> fits rq -> answered_well devs w rq.
Proof.
  intros Hs Hg [_ Hwf] Hf. pose proof (rd_size Hready) as Hn. pose proof Hg as (_ & _ & Hall).
  destruct (refusal s0 devs rq) as [e|] eqn:Er; [apply refused_well; [done|by eexists]|].
  destruct rq as [|r|r data|specs|id name|id name args|id f args|].
  - exists (frame HWIO_CMD_PING_REPLY []), devs, w, false. split; [constructor|done].
  - cbn [refusal] in Er. destruct (owned devs (rq_devId r)) as [dev|] eqn:Eo; [|done].
    destruct (Hall dev (owned_Some _ _ _ Eo)) as [Hin Hop]. destruct Hf as [Hf1 Hf2].
    destruct Hwf as (_ & Haddr & Hsz). cbn [fits] in *.
    destruct (read_usable n Hn w dev (rq_addr r) (Z.to_nat (rq_size r))) as (bs & Hrun & Hl); [by apply Hs|done|lia|lia|].
    exists (frame HWIO_CMD_READ_RESP bs), devs, w, false.
    split; [apply (sv_read _ _ _ _ dev); [done|done|lia|lia]|done].
  - cbn [refusal] in Er. destruct (Z.leb_spec 256 (rq_devId r)) as [|Hid]; [done|].
    destruct (owned devs (rq_devId r)) as [dev|] eqn:Eo; [|done].
    destruct (Hall dev (owned_Some _ _ _ Eo)) as [Hin Hop].
    destruct Hwf as [(_ & Haddr & Hsz) Hl]. cbn [fits] in *.
    destruct (write_usable n Hn w dev (rq_addr r) data) as (w' & Hrun & Hk); [by apply Hs|done|lia|lia|].
    exists [], devs, w', false. split; [by apply (sv_write _ _ _ _ _ dev)|]. split; [done|by eapply client_ready_keeps].
  - by apply query_well.
  - cbn [refusal] in Er. destruct (owned devs id) as [dev|] eqn:Eo; [|done].
    destruct (find_fn_id (plugins_fast_names s0) name 0) as [i|] eqn:Ei.
    + eexists _, devs, w, false. split; [by eapply sv_fn_id|done].
    + eexists _, devs, w, false. split; [by eapply sv_no_fn_id|done].
  - cbn [refusal] in Er. destruct (owned devs id) as [dev|] eqn:Eo; [|done].
    destruct (plugins s0 !! name) as [p|] eqn:Ep; [|done].
    apply (call_well _ _ _ id args dev p); try done; [left; by eexists|by eapply rd_plugins|by apply Hf].
  - cbn [refusal] in Er. destruct (owned devs id) as [dev|] eqn:Eo; [|done].
    destruct (plugins_fast s0 !! Z.to_nat f) as [p|] eqn:Ep; [|done].
    apply (call_well _ _ _ id args dev p); try done; [right; by eexists|by eapply rd_fast|by apply Hf].
  - exists [], devs, w, true. split; [constructor|done].
Qed.

(** The promise of [ServerProgress] is kept. *)
#[export] Instance mmap_answering : Answering s0 devices_ready client_ready answerable.
Proof.
  split.
  - intros w _. split; [apply not_elem_of_nil|]. split; [split; [cbn; lia|by intros i j d]|].
    by intros d ?%not_elem_of_nil.
  - intros w devs m Hs Hg Hm [[[code msg] E]|[[E Hl]|(rq & Hrq & Hf & ->)]].
    + exists (error_bytes code msg), devs, w, true. split; [|done]. apply rp_refused; [done|].
      unfold frame_refusal. by rewrite E.
    + exists [], devs, w, false. split; [|done]. by apply rp_message.
    + destruct (request_well devs w rq Hs Hg Hrq Hf) as (out & devs' & w' & bye & Hsv & Hk & Hg').
      exists out, devs', w', bye. split; [by constructor|]. split; [by eapply devices_ready_keeps|].
      split; [done|]. intros devs2. by apply client_ready_keeps.
Qed.
End server.

(** ** Properties *)

Section properties.
Context {OS : Posix} {B : Type} `{!IBus MmapWorld nat B} `{!LocalBus MmapWorld nat B}.

End properties.
