(* ===== verification/ServerTest.v ===== *)
(** * A concrete server, and the witnesses of the server's properties

    One client on descriptor 7, the memory-mapped devices of
    [Mmap.TestMachine], one bus with the device 0 and one plugin. *)

From Stdlib Require Import ZArith Lia Ascii String.
From stdpp Require Import base tactics list numbers strings gmap fin_maps.
From S2P Require Import Prelude CxxString Version CompSpec Device Mmap Bus Wire Protocol Server.
From S2P Require Import ServerHandlers ServerFrame ServerSpec ServerQuery ServerSafety ServerLoop.
From S2P Require Import ServerLoopSpec ServerStream ServerFrames ServerRun MmapServer.

Module TestServer.
Import TestMachine.

#[export] Instance mmap_read_exact : DevReadExact MmapWorld nat.
Proof. intros d addr n w w' bs H. by apply ihwio_dev_read_length in H. Defined.

#[export] Instance test_growth : VectorGrowth := {| vec_grow n := (2 * n + 1)%nat |}.

#[export] Program Instance test_platform : Platform := {|
  freed_fd _ := 0;
  fresh_storage _ := replicate RX_BUFFER_SIZE NUL
|}.
Next Obligation. intros l. apply length_replicate. Qed.

(** The plugin returns its first argument byte. *)
Definition echo : plugin_info MmapWorld nat :=
  Plugin (fun _ args w => (Ret [default NUL (head args)], w)) 1 1.

Definition the_bus : hwio_bus_primitive nat := BusPrimitive [0%nat].

(** The server whose client has the devices [devs] and the unprocessed bytes
    [body] at the start of its buffer. *)
Definition the_client (devs : list (option nat)) (body : list byte) : ClientInfo nat :=
  Client 0 7 (Rx (body ++ replicate (RX_BUFFER_SIZE - length body) NUL) 0 (length body)) devs.

Definition server_with (devs : list (option nat)) (body : list byte) :
    HwioServer MmapWorld nat (hwio_bus_primitive nat) :=
  Server (-1) (0, 100000) (0%nat, 0%nat) (replicate BUFFER_SIZE NUL) [PollFd 7 0] 1 []
    {[7 := 0%nat]} [Some 0%nat] [the_bus] {["echo"%string := echo]} [echo] ["echo"%string]
    {[0%nat := the_client devs body]} 1 [].

Lemma test_tx devs body : length (tx_buffer (server_with devs body)) = BUFFER_SIZE.
Proof. apply length_replicate. Qed.

Lemma test_heap devs body : heap (server_with devs body) !! 0%nat = Some (the_client devs body).
Proof. apply lookup_insert_eq. Qed.

Lemma test_rx devs body : rx_holds (server_with devs body) body.
Proof.
  exists (the_client devs body), (replicate (RX_BUFFER_SIZE - length body) NUL).
  split; [apply test_heap|done].
Qed.

Lemma test_devs_wf : devs_wf [Some 0%nat].
Proof. split; [cbn; lia|]. intros [|i] [|j] d H1 H2; done. Qed.

Lemma test_client_wf body :
  (length body <= RX_BUFFER_SIZE)%nat -> client_wf (the_client [Some 0%nat] body).
Proof.
  intros H. split; [|apply test_devs_wf]. split; cbn [rb_buffer curr_ptr curr_len the_client ci_rx].
  - rewrite length_app, length_replicate. lia.
  - lia.
Qed.

Lemma test_wf body :
  (length body <= RX_BUFFER_SIZE)%nat -> server_wf (server_with [Some 0%nat] body).
Proof.
  intros H. split; cbn [fd_to_client heap clients next_loc tx_buffer server_with].
  - intros fd l [<- <-]%lookup_singleton_Some. eexists. by rewrite lookup_singleton_eq.
  - intros [|i] l Hl; cbn in Hl; simplify_eq. eexists. by rewrite lookup_singleton_eq.
  - intros l c [<- <-]%lookup_singleton_Some. split_and!; [done|apply lookup_singleton_eq|lia|].
    by apply test_client_wf.
  - apply length_replicate.
Qed.

Lemma small_body (body : list byte) : (length body <= 2048)%nat -> (length body <= RX_BUFFER_SIZE)%nat.
Proof. unfold RX_BUFFER_SIZE. lia. Qed.

(** The device of the bus is attached and has 16 bytes. *)
Lemma test_devices_ready (s0 : HwioServer MmapWorld nat (hwio_bus_primitive nat)) :
  buses s0 = [the_bus] -> devices_ready s0 16 test_world.
Proof.
  intros Hb d Hd. unfold all_devices in Hd. rewrite Hb in Hd. apply list_elem_of_singleton in Hd as ->.
  exists (set_fd 3 true test_dev).
  split; [reflexivity|]. split; [left; split; [cbn; lia|reflexivity]|]. split; [vm_compute; discriminate|].
  split; [vm_compute; discriminate|]. intros i Hi. replace i with (Z.of_nat (Z.to_nat i)) by lia.
  assert (Z.to_nat i < 16)%nat as Hk by lia. revert Hk. generalize (Z.to_nat i). intros k Hk. by_index k.
Qed.

(** *** The client table *)

Lemma add_new_client_correct_witness :
  exists l s', add_new_client (replicate RX_BUFFER_SIZE NUL) 8 (server_with [Some 0%nat] []) =
    (Ret l, s') /\ server_wf s' /\
    fd_to_client s' = <[8 := l]> (fd_to_client (server_with [Some 0%nat] [])).
Proof.
  destruct (add_new_client_correct (replicate RX_BUFFER_SIZE NUL) 8 (server_with [Some 0%nat] []))
    as (l & s' & H1 & H2 & _ & _ & H3 & _).
  - apply length_replicate.
  - apply test_wf, small_body. cbn. lia.
  - reflexivity.
  - exists l, s'. split; [exact H1|]. split; [exact H2|exact H3].
Defined.

Lemma remove_client_correct_witness :
  exists s', remove_client 7 (server_with [Some 0%nat] []) = (Ret tt, s') /\ server_wf s' /\
    fd_to_client s' = delete 7 (fd_to_client (server_with [Some 0%nat] [])).
Proof.
  destruct (remove_client_correct 7 (server_with [Some 0%nat] [])) as (s' & H1 & H2 & H3 & _).
  - apply test_wf, small_body. cbn. lia.
  - exists s'. split; [exact H1|]. split; [exact H2|exact H3].
Defined.

Definition empty_server : HwioServer MmapWorld nat (hwio_bus_primitive nat) :=
  new_HwioServer (replicate BUFFER_SIZE NUL) [the_bus].

Lemma get_client_cnt_correct_witness :
  get_client_cnt (added_state (replicate RX_BUFFER_SIZE NUL) 7 empty_server) =
  (Ret 1%nat, added_state (replicate RX_BUFFER_SIZE NUL) 7 empty_server).
Proof.
  refine (proj1 (get_client_cnt_correct (replicate BUFFER_SIZE NUL) [the_bus] _ _ _)).
  - apply length_replicate.
  - apply rtc_once. eapply step_add; [apply length_replicate|reflexivity|].
    apply add_new_client_run. reflexivity.
Defined.

Lemma destroy_HwioServer_correct_witness :
  exists s' fds, destroy_HwioServer (server_with [Some 0%nat] []) = (Ret tt, s') /\ heap s' = ∅ /\
    closed s' = closed (server_with [Some 0%nat] []) ++ fds /\ forall fd, fd ∈ fds <-> 0 <= fd /\
      (fd = master_socket (server_with [Some 0%nat] []) \/
       is_Some (fd_to_client (server_with [Some 0%nat] []) !! fd)).
Proof.
  apply (destroy_HwioServer_correct (server_with [Some 0%nat] [])).
  apply test_wf, small_body. cbn. lia.
Defined.

(** *** The handlers *)

Lemma handle_msg_isolated_witness :
  let st := (server_with [Some 0%nat] [], test_world) in
  let st' := (handle_msg 0%nat (Header HWIO_CMD_PING_REQUEST 0) st).2 in
  server_wf st'.1 /\ client_frame 0%nat st.1 st'.1.
Proof.
  apply (handle_msg_isolated 0%nat (Header HWIO_CMD_PING_REQUEST 0)
    (server_with [Some 0%nat] [], test_world)).
  - apply test_wf, small_body. cbn. lia.
  - reflexivity.
Defined.

Definition read_req : RdReq := {| rq_devId := 0; rq_addr := 4; rq_size := 3 |}.

Lemma handle_read_correct_example :
  let s := server_with [Some 0%nat] (enc_RdReq read_req) in
  answered HWIO_CMD_READ_RESP (replicate 3 NUL) (s, test_world)
    (handle_read 0%nat (Header HWIO_CMD_READ 8) (s, test_world)).
Proof.
  intros s.
  refine (proj2 (handle_read_correct 0%nat (Header HWIO_CMD_READ 8)
    (the_client [Some 0%nat] (enc_RdReq read_req)) s test_world (test_tx _ _) (test_heap _ _))
    read_req eq_refl (test_rx _ _) _ (Ret tt) test_world (replicate 3 NUL) _ _).
  - split; [|split]; cbn; lia.
  - vm_compute. reflexivity.
  - reflexivity.
Defined.

Definition write_req : RdReq := {| rq_devId := 0; rq_addr := 4; rq_size := 2 |}.

Lemma handle_write_correct_example :
  let body := enc_RdReq write_req ++ chars "AB" in
  let s := server_with [Some 0%nat] body in
  exists w', dev_write 0%nat 4 (chars "AB") test_world = (Ret tt, w') /\
    handle_write 0%nat (Header HWIO_CMD_WRITE 10) (s, test_world) = (Ret (PRes false 0), (s, w')).
Proof.
  intros body s. exists (dev_write 0%nat 4 (chars "AB") test_world).2.
  assert (dev_write 0%nat 4 (chars "AB") test_world =
    (Ret tt, (dev_write 0%nat 4 (chars "AB") test_world).2)) as E by (vm_compute; reflexivity).
  split; [exact E|].
  refine (eq_trans (proj2 (handle_write_correct 0%nat (Header HWIO_CMD_WRITE 10)
    (the_client [Some 0%nat] body) s test_world (test_tx _ _) (test_heap _ _))
    write_req (chars "AB") _ (test_rx _ _) _ _) _).
  - cbn. lia.
  - split; [|split]; cbn; lia.
  - reflexivity.
  - cbn [write_req rq_addr]. rewrite E. reflexivity.
Defined.

Definition call_body : list byte := enc_RemoteCall 0 "echo" ++ chars "Z".

Lemma echo_name : no_nul "echo".
Proof. apply (bool_decide_unpack _). vm_compute. exact I. Qed.

Lemma echo_short : (String.length "echo" < MAX_NAME_LEN)%nat.
Proof. apply Nat.ltb_lt. reflexivity. Qed.

Lemma handle_remote_call_correct_example :
  let s := server_with [Some 0%nat] call_body in
  plugin_called echo 0%nat (rx_tail s 130) s test_world
    (handle_remote_call 0%nat (Header HWIO_CMD_REMOTE_CALL 131) (s, test_world)).
Proof.
  intros s.
  refine (proj2 (handle_remote_call_correct 0%nat (Header HWIO_CMD_REMOTE_CALL 131)
    (the_client [Some 0%nat] call_body) s test_world (test_tx _ _) (test_heap _ _))
    0 "echo"%string _ (rx_holds_app _ _ _ (test_rx _ _)) _ echo_name echo_short); cbn; lia.
Defined.

Lemma handle_fast_remote_call_correct_example :
  let body := enc_RemoteCallFast 0 0 ++ chars "Z" in
  let s := server_with [Some 0%nat] body in
  plugin_called echo 0%nat (rx_tail s 6) s test_world
    (handle_fast_remote_call 0%nat (Header HWIO_CMD_REMOTE_CALL_FAST 7) (s, test_world)).
Proof.
  intros body s.
  refine (proj2 (handle_fast_remote_call_correct 0%nat (Header HWIO_CMD_REMOTE_CALL_FAST 7)
    (the_client [Some 0%nat] body) s test_world (test_tx _ _) (test_heap _ _))
    0 0 _ (rx_holds_app _ _ _ (test_rx _ _)) _ _); cbn; lia.
Defined.

Lemma handle_get_rpc_fn_id_correct_example :
  let s := server_with [Some 0%nat] (enc_RemoteCall 0 "echo") in
  exists found fn_id,
    answered HWIO_CMD_GET_REMOTE_CALL_ID_RESP (enc_GetRemoteCallIdResp found fn_id) (s, test_world)
      (handle_get_rpc_fn_id 0%nat (Header HWIO_CMD_GET_REMOTE_CALL_ID 130) (s, test_world)) /\
    if found then exists i, fn_id = Z.of_nat i /\ ["echo"%string] !! i = Some "echo"%string /\
      forall j, (j < i)%nat -> ["echo"%string] !! j <> Some "echo"%string
    else fn_id = -1 /\ "echo"%string ∉ ["echo"%string].
Proof.
  intros s.
  refine (proj2 (handle_get_rpc_fn_id_correct 0%nat (Header HWIO_CMD_GET_REMOTE_CALL_ID 130)
    (the_client [Some 0%nat] (enc_RemoteCall 0 "echo")) s test_world (test_tx _ _) (test_heap _ _))
    0 "echo"%string _ (test_rx _ _) _ echo_name echo_short); cbn; lia.
Defined.

Lemma sendable_empty : Forall spec_sendable [empty_spec].
Proof.
  constructor; [|constructor].
  assert (no_nul "") as H by constructor.
  assert (String.length "" < MAX_NAME_LEN)%nat as Hl by (apply Nat.ltb_lt; reflexivity).
  split; [by split|]. split; [by split|]. split; [by split|]. by apply (bool_decide_unpack _); vm_compute.
Qed.

Lemma device_query_correct_witness :
  let s := server_with [Some 0%nat] (enc_query [empty_spec]) in
  exists ids devs',
    answered HWIO_CMD_QUERY_RESP (enc_ids ids)
      (with_devices 0%nat (the_client [Some 0%nat] (enc_query [empty_spec])) devs' s, test_world)
      (handle_msg 0%nat (Header HWIO_CMD_QUERY (Z.of_nat (length (enc_query [empty_spec]))))
        (s, test_world)) /\
    length ids = 1%nat.
Proof.
  intros s.
  destruct (device_query_correct 0%nat (the_client [Some 0%nat] (enc_query [empty_spec])) s test_world
    [empty_spec] [0%nat] test_world test_world) as (ids & devs' & H1 & H2 & _).
  - apply test_tx.
  - apply test_heap.
  - apply test_devs_wf.
  - apply test_rx.
  - apply sendable_empty.
  - cbn. lia.
  - vm_compute. reflexivity.
  - reflexivity.
  - cbn. lia.
  - cbn [length the_client ci_devices]. lia.
  - exists ids, devs'. split; [exact H1|exact H2].
Defined.

(** *** Safety *)

Lemma unowned_device_refused_witness :
  let body := enc_RdReq {| rq_devId := 1; rq_addr := 0; rq_size := 1 |} in
  let s := server_with [Some 0%nat] body in
  refused_any (s, test_world) (handle_msg 0%nat (Header HWIO_CMD_READ 8) (s, test_world)).
Proof.
  intros body s.
  apply (unowned_device_refused 0%nat (the_client [Some 0%nat] body) s test_world
    (Header HWIO_CMD_READ 8) body (test_tx _ _) (test_heap _ _) (test_rx _ _)).
  - reflexivity.
  - left.
  - reflexivity.
Defined.

Lemma malformed_request_refused_witness :
  refused_any (server_with [Some 0%nat] [], test_world)
    (handle_msg 0%nat (Header HWIO_CMD_READ 7) (server_with [Some 0%nat] [], test_world)).
Proof.
  apply (malformed_request_refused 0%nat (server_with [Some 0%nat] []) test_world
    (Header HWIO_CMD_READ 7)).
  - apply test_tx.
  - split; [discriminate|reflexivity].
  - left. split; [reflexivity|discriminate].
Defined.

Lemma ping_run l (s : HwioServer MmapWorld nat (hwio_bus_primitive nat)) w :
  length (tx_buffer s) = BUFFER_SIZE ->
  handle_msg l (Header HWIO_CMD_PING_REQUEST 0) (s, w) =
  (Ret (PRes false 3),
   (set_tx_buffer (enc_header (Header HWIO_CMD_PING_REPLY 0) ++ drop 3 (tx_buffer s)) s, w)).
Proof.
  intros H. change (handle_msg l _ (s, w)) with
    ((tx_store 0 (le_of_Z 1 HWIO_CMD_PING_REPLY) ≫= fun _ => tx_store 1 (le_of_Z 2 0) ≫= fun _ =>
      mret (PRes false sizeof_header) : ST Sys PProcRes) (s, w)).
  by rewrite header_stores.
Qed.

Lemma echo_exact : plugin_exact echo.
Proof. intros d args w ret w' [= <- <-]. done. Qed.

Lemma handle_msg_answers_witness :
  let s := server_with [Some 0%nat] [] in
  let tx := enc_header (Header HWIO_CMD_PING_REPLY 0) ++ drop 3 (tx_buffer s) in
  sys_ok (set_tx_buffer tx s, test_world) /\ good_answer (PRes false 3) tx.
Proof.
  intros s tx.
  apply (handle_msg_answers 0%nat (Header HWIO_CMD_PING_REQUEST 0) (s, test_world) (PRes false 3)
    (set_tx_buffer tx s, test_world)).
  - split; [apply test_tx|]. cbn [fst plugins plugins_fast s server_with]. split.
    + intros name p [_ <-]%lookup_singleton_Some. apply echo_exact.
    + intros [|i] p Hp; cbn in Hp; simplify_eq. apply echo_exact.
  - apply ping_run, test_tx.
Defined.

(** *** The loops *)

Definition quiet_net (evs : list recv_event) : Net := MkNet {[7 := evs]} [] [] [] [].

Lemma parse_msgs_unroll_witness :
  let st := ((server_with [Some 0%nat] [], test_world), quiet_net []) in
  parse_msgs 0%nat st = parse_iter (parse_msgs 0%nat) 0%nat st.
Proof.
  exact (proj1 (parse_msgs_unroll 0%nat (the_client [Some 0%nat] []) (server_with [Some 0%nat] [])
    test_world (quiet_net []) (test_heap _ _))).
Defined.

Lemma read_from_socket_correct_example :
  let s := server_with [Some 0%nat] (chars "AB") in
  let c := the_client [Some 0%nat] (chars "AB") in
  exists rx, read_from_socket 0%nat ((s, test_world), quiet_net [RecvAgain; RecvData (chars "CD")]) =
    (Ret true, ((with_client 0%nat (with_rx c rx) s, test_world),
       set_in 7 [] (quiet_net [RecvAgain; RecvData (chars "CD")]))) /\
    rx_wf rx /\ curr_ptr rx = 0%nat /\ pending (with_rx c rx) = pending c ++ chars "CD".
Proof.
  intros s c.
  pose proof (read_from_socket_correct 0%nat c s test_world
    (quiet_net [RecvAgain; RecvData (chars "CD")]) (test_heap _ _)) as H.
  replace (recv_loop _ _) with (Ret (Some (chars "CD"), @nil recv_event)) in H
    by (vm_compute; reflexivity).
  apply H.
  - apply (test_client_wf (chars "AB")), small_body. cbn. lia.
  - left. reflexivity.
Defined.

(** A round in which a ping and a message with an unknown command arrive: the
    client is answered, refused and removed. *)
Definition round_net : Net :=
  MkNet {[7 := [RecvAgain; RecvData (enc_request RqPing ++ [byte_of_Z 200; NUL; NUL])]]} [] [] []
    [PollEvents [POLLIN]].

Lemma pool_client_msgs_wf_witness :
  exists st', pool_client_msgs ((server_with [Some 0%nat] [], test_world), round_net) = (Ret tt, st') /\
    server_wf st'.1.1 /\ map fst (net_sent st'.2) = [7; 7] /\ fd_to_client st'.1.1 = ∅.
Proof.
  assert (server_wf (server_with [Some 0%nat] [])) as Hw by (apply test_wf, small_body; cbn; lia).
  pose proof (pool_client_msgs_wf (server_with [Some 0%nat] []) test_world round_net Hw) as H.
  destruct (pool_client_msgs ((server_with [Some 0%nat] [], test_world), round_net)) as [o st'] eqn:E.
  assert (o = Ret tt) as ->.
  { change o with (o, st').1. rewrite <-E. vm_compute. reflexivity. }
  exists st'. split; [reflexivity|]. split; [exact H|].
  change st' with (Ret tt, st').2. rewrite <-E. split; vm_compute; reflexivity.
Defined.

Lemma handle_msg_refines_witness :
  let s := server_with [Some 0%nat] [] in
  let res := handle_msg 0%nat (Header HWIO_CMD_PING_REQUEST 0) (s, test_world) in
  delivers (frame HWIO_CMD_PING_REPLY []) (with_devices 0%nat (the_client [Some 0%nat] []) [Some 0%nat] s,
    test_world) false res /\ server_wf res.2.1.
Proof.
  intros s.
  apply (handle_msg_refines 0%nat (the_client [Some 0%nat] []) s test_world RqPing).
  - apply test_wf, small_body. cbn. lia.
  - apply test_heap.
  - reflexivity.
  - apply test_rx.
  - split; [cbn; lia|exact I].
  - apply sv_ping.
Defined.

Definition test_requests : list request := [RqPing; RqRead read_req].

(** The 14 bytes of the requests in two chunks, the second after a retry. *)
Definition test_chunks : list (nat * list byte) :=
  let bs := concat (map enc_request test_requests) in [(0%nat, take 5 bs); (1%nat, drop 5 bs)].

(** The same bytes cut so that seven bytes of the second request arrive behind
    the three of the first. *)
Definition overlapping_chunks : list (nat * list byte) :=
  let bs := concat (map enc_request test_requests) in [(0%nat, take 10 bs); (1%nat, drop 10 bs)].

Lemma test_requests_wf : Forall request_wf test_requests.
Proof.
  constructor; [|constructor; [|constructor]]; (split; [cbn; lia|]); [exact I|].
  split; [|split]; cbn; lia.
Qed.

Lemma test_requests_served (s : HwioServer MmapWorld nat (hwio_bus_primitive nat)) :
  serves_all s [Some 0%nat] test_world test_requests
    [frame HWIO_CMD_PING_REPLY []; frame HWIO_CMD_READ_RESP (replicate 3 NUL)] [Some 0%nat] test_world.
Proof.
  eapply sa_cons; [apply sv_ping|]. eapply sa_cons; [|apply sa_nil].
  eapply (sv_read _ _ _ read_req 0%nat); [reflexivity|vm_compute; reflexivity|reflexivity|].
  cbn. lia.
Qed.

Lemma small_chunks (chunks : list (nat * list byte)) :
  Forall (fun ch => ch.2 <> [] /\ (length ch.2 <= 100)%nat) chunks ->
  forall ch, ch ∈ chunks -> ch.2 <> [] /\
    forall rq, rq ∈ test_requests -> (length (enc_request rq) + length ch.2 <= RX_BUFFER_SIZE)%nat.
Proof.
  intros Hc ch Hch. rewrite Forall_forall in Hc. destruct (Hc ch Hch) as [Hne Hl]. split; [done|].
  intros rq Hrq. repeat (apply elem_of_cons in Hrq as [->|Hrq]); [..|by apply elem_of_nil in Hrq];
    unfold RX_BUFFER_SIZE; cbn; lia.
Qed.

Lemma server_stream_correct_witness :
  let s := server_with [Some 0%nat] [] in
  (let n := quiet_net (concat (map arrival test_chunks)) in
   exists s' n', serve_chunks 7 test_chunks ((s, test_world), n) = (Ret tt, ((s', test_world), n')) /\
     net_sent n' = [(7, frame HWIO_CMD_PING_REPLY []);
                    (7, frame HWIO_CMD_READ_RESP (replicate 3 NUL))]) /\
  (let n := quiet_net (concat (map arrival overlapping_chunks)) in
   exists st', serve_chunks 7 overlapping_chunks ((s, test_world), n) = (Undef OverlappingCopy, st')).
Proof.
  intros s.
  assert (server_wf s) as Hw by (apply test_wf, small_body; cbn; lia).
  split; intros n.
  - pose proof (server_stream_correct 0%nat 7 test_chunks [] (the_client [Some 0%nat] []) s test_world n
      test_requests _ [Some 0%nat] test_world Hw eq_refl (test_heap _ _) eq_refl eq_refl
      test_requests_wf eq_refl (small_chunks test_chunks ltac:(repeat constructor; cbn; (discriminate || lia)))
      ltac:(rewrite app_nil_r; apply lookup_singleton_eq) (test_requests_served s)) as H.
    replace (moves_apart 0 [] test_chunks.*2) with true in H by (vm_compute; reflexivity).
    destruct H as (c' & s' & n' & H1 & H2 & _). exists s', n'. split; [exact H1|]. rewrite H2. reflexivity.
  - pose proof (server_stream_correct 0%nat 7 overlapping_chunks [] (the_client [Some 0%nat] []) s test_world n
      test_requests _ [Some 0%nat] test_world Hw eq_refl (test_heap _ _) eq_refl eq_refl
      test_requests_wf eq_refl (small_chunks overlapping_chunks ltac:(repeat constructor; cbn; (discriminate || lia)))
      ltac:(rewrite app_nil_r; apply lookup_singleton_eq) (test_requests_served s)) as H.
    replace (moves_apart 0 [] overlapping_chunks.*2) with false in H by (vm_compute; reflexivity).
    exact H.
Defined.

Lemma test_conn body : (length body <= 2048)%nat ->
  conn 0%nat (the_client [Some 0%nat] body) (server_with [Some 0%nat] body) (quiet_net []) [Some 0%nat] body.
Proof.
  intros H. split; [apply test_heap|apply test_client_wf, small_body, H|done|apply test_devs_wf| |apply test_tx|done].
  unfold pending. cbn [the_client ci_rx curr_ptr curr_len rb_buffer].
  rewrite slice_0_take. apply take_app_length.
Qed.

Lemma disconnecting_request_witness :
  let s := server_with [Some 0%nat] (enc_request RqBye ++ chars "x") in
  exists s', parse_msgs 0%nat ((s, test_world), quiet_net []) =
    (Ret tt, ((s', test_world), sent 7 [[]] (quiet_net []))) /\
    server_wf s' /\ heap s' !! 0%nat = None.
Proof.
  intros s.
  destruct (disconnecting_request 0%nat (the_client [Some 0%nat] (enc_request RqBye ++ chars "x")) s
    test_world (quiet_net []) [Some 0%nat] RqBye (chars "x") [] [Some 0%nat] test_world)
    as (s' & H1 & H2 & H3 & _).
  - apply test_wf, small_body. cbn. lia.
  - reflexivity.
  - cbn. lia.
  - apply test_conn. cbn. lia.
  - split; [cbn; lia|exact I].
  - apply sv_bye.
  - exists s'. split; [exact H1|]. split; [exact H2|exact H3].
Defined.

Lemma full_buffer_disconnects_witness :
  let s := server_with [Some 0%nat] (replicate RX_BUFFER_SIZE NUL) in
  exists s' n', handle_multiple_client_requests 7 ((s, test_world), quiet_net [RecvData (chars "x")]) =
    (Ret tt, ((s', test_world), n')) /\ server_wf s' /\ heap s' !! 0%nat = None.
Proof.
  intros s.
  destruct (full_buffer_disconnects 0%nat (the_client [Some 0%nat] (replicate RX_BUFFER_SIZE NUL)) s
    test_world (quiet_net [RecvData (chars "x")]) 7 (chars "x") []) as (s' & n' & H1 & H2 & H3 & _).
  - apply test_wf. rewrite length_replicate. lia.
  - reflexivity.
  - apply test_heap.
  - reflexivity.
  - apply length_replicate.
  - reflexivity.
  - exists s', n'. split; [exact H1|]. split; [exact H2|exact H3].
Defined.
End TestServer.
