(* ===== verification/ServerLivenessTest.v ===== *)
(** * Two clients of a concrete server, and the witnesses of its rounds

    The server of [TestServer] listens on descriptor 3 and serves the client
    7.  In the first round a client joins on descriptor 8; in the third the
    client 7 sends a part of its messages and the client 8 a message with an
    unknown command, for which it is disconnected; in the last the client 7
    sends the rest.  The deleted object of the client 8 reads as 0, so its
    descriptor is polled until the last round reports it as invalid. *)

From Stdlib Require Import ZArith Lia Ascii String.
From stdpp Require Import base tactics list numbers strings gmap fin_maps.
From S2P Require Import Prelude CxxString Version CompSpec Device Mmap Bus Wire Protocol Server.
From S2P Require Import ServerHandlers ServerFrame ServerSpec ServerQuery ServerSafety ServerLoop.
From S2P Require Import ServerLoopSpec ServerStream ServerFrames ServerRun ServerSingle ServerRounds ServerProgress ServerLiveness ServerFairness MmapServer ServerTest.

Module TestRounds.
Import TestMachine TestServer.

Definition server0 : HwioServer MmapWorld nat (hwio_bus_primitive nat) :=
  Server 3 (0, 100000) (0%nat, 0%nat) (replicate BUFFER_SIZE NUL) [PollFd 3 0; PollFd 7 0] 4 []
    {[7 := 0%nat]} [Some 0%nat] [the_bus] {["echo"%string := echo]} [echo] ["echo"%string]
    {[0%nat := the_client [Some 0%nat] []]} 1 [].

Definition test_messages : list message := map of_request test_requests.
Definition test_bytes : list byte := concat (map enc_message test_messages).

(** A command the protocol does not have, and no body. *)
Definition unknown : message := (200, []).

Definition evs7 : list recv_event := [RecvData (take 5 test_bytes); RecvAgain; RecvData (drop 5 test_bytes)].

Definition net0 : Net :=
  MkNet {[7 := evs7; 8 := [RecvData (enc_message unknown)]]} [] [] [8]
    [PollEvents [1; 0]; PollTimeout; PollEvents [0; 1; 1]; PollEvents [0; 1; POLLNVAL]].

Definition hub0 : hub (W:=MmapWorld) (D:=nat) :=
  Hub {[7 := ([Some 0%nat], [], 0%nat)]} [3; 7] 4 [] (net_in net0) [8] test_world.

Definition hub1 := joined 8 [] hub0.
Definition hub2 := heard 7 [Some 0%nat] (drop 3 (take 5 test_bytes)) 3 (drop 1 evs7) test_world hub1.
Definition hub3 := without 8 0 (heard 8 [] [] 0 [] test_world hub2).
Definition hub4 := heard 7 [Some 0%nat] [] 11 [] test_world (swept hub3).
Definition hub5 := without 8 8 hub4.

Definition pong : list byte := frame HWIO_CMD_PING_REPLY [].
Definition zeros : list byte := frame HWIO_CMD_READ_RESP (replicate 3 NUL).

Definition test_sent : list (Z * list byte) :=
  [(7, pong); (8, error_bytes UNKNOWN_COMMAND ""); (7, zeros)].

Lemma server0_wf : server_wf server0.
Proof.
  destruct (test_wf []) as [H1 H2 H3 H4]; [cbn; lia|]. by split.
Qed.

Lemma hub0_stands : at_rest server0 3 ((server0, test_world), net0) hub0.
Proof.
  split; [|reflexivity]. split; cbn [fst snd]; try done.
  - apply server0_wf.
  - intros fd devs part gap Hp. cbn [hub0 hub_peers] in Hp.
    apply lookup_singleton_Some in Hp as [<- [= <- <- <-]]. split; [lia|].
    exists 0%nat, (the_client [Some 0%nat] []). split; [reflexivity|]. split; [|by split].
    destruct (test_conn []) as []; [cbn; lia|]. by split.
  - intros fd [l Hl]. cbn [server0 fd_to_client] in Hl.
    apply lookup_singleton_Some in Hl as [<- _]. by exists ([Some 0%nat], [], 0%nat).
  - repeat constructor; set_solver.
Qed.

(** The round in which the client 8 joins. *)
Lemma join_round : turns server0 3 (reported [1; 0] hub0) hub0 [] hub1.
Proof.
  apply (tns_cons _ _ 3 1 [(7, 0)] hub0 [] hub1 [] hub1).
  - by apply (tn_accept server0 3 1 hub0 8 []); [done|done|done|lia|lia|set_solver|].
  - right; right. cbn. lia.
  - apply (tns_cons _ _ 7 0 [] hub1 [] hub1 [] hub1); [constructor|by left|constructor].
Qed.

(** The round in which the client 7 is answered and the client 8 refused. *)
Lemma both_round :
  turns server0 3 (reported [0; 1; 1] hub1) hub1 [(7, pong); (8, error_bytes UNKNOWN_COMMAND "")] hub3.
Proof.
  apply (tns_cons _ _ 3 0 [(7, 1); (8, 1)] hub1 [] hub1
    [(7, pong); (8, error_bytes UNKNOWN_COMMAND "")] hub3); [constructor|by right; left|].
  apply (tns_cons _ _ 7 1 [(8, 1)] hub1 [(7, pong)] hub2 [(8, error_bytes UNKNOWN_COMMAND "")] hub3);
    [|by right; left|].
  - apply (tn_serve server0 3 7 1 hub1 [Some 0%nat] [] 0 (take 5 test_bytes) (drop 1 evs7)
      [of_request RqPing] [pong] [Some 0%nat] test_world (drop 3 (take 5 test_bytes))).
    + done.
    + done.
    + reflexivity.
    + by left.
    + vm_compute. reflexivity.
    + vm_compute. reflexivity.
    + eapply ra_cons; [|apply ra_nil]. constructor; [|apply sv_ping].
      exact (Forall_inv test_requests_wf).
    + apply (bool_decide_unpack _). vm_compute. exact I.
  - apply (tns_cons _ _ 8 1 [] hub2 [(8, error_bytes UNKNOWN_COMMAND "")] hub3 [] hub3);
      [|by left|constructor].
    change hub3 with (without 8 (freed_fd 8) (heard 8 [] [] 0 [] test_world hub2)).
    apply (tn_bye server0 3 8 1 hub2 [] [] 0 (enc_message unknown) [] [] [] [] test_world unknown
      (error_bytes UNKNOWN_COMMAND "") [] test_world []).
    + done.
    + done.
    + reflexivity.
    + by left.
    + vm_compute. reflexivity.
    + vm_compute. reflexivity.
    + apply ra_nil.
    + apply rp_refused; [split; cbn; lia|reflexivity].
Qed.

Lemma last_round : turns server0 3 (reported [0; 1; POLLNVAL] (swept hub3)) (swept hub3) [(7, zeros)] hub5.
Proof.
  apply (tns_cons _ _ 3 0 [(7, 1); (8, POLLNVAL)] (swept hub3) [] (swept hub3) [(7, zeros)] hub5);
    [constructor|by right; left|].
  apply (tns_cons _ _ 7 1 [(8, POLLNVAL)] (swept hub3) [(7, zeros)] hub4 [] hub5); [|by right; left|].
  2: { apply (tns_cons _ _ 8 POLLNVAL [] hub4 [] hub5 [] hub5); [|by left|constructor].
       apply tn_error; [reflexivity|lia|discriminate]. }
  apply (tn_serve server0 3 7 1 (swept hub3) [Some 0%nat] (drop 3 (take 5 test_bytes)) 3
    (drop 5 test_bytes) [] [of_request (RqRead read_req)] [zeros] [Some 0%nat] test_world []).
  - done.
  - done.
  - reflexivity.
  - right. vm_compute. lia.
  - vm_compute. reflexivity.
  - vm_compute. reflexivity.
  - eapply ra_cons; [|apply ra_nil].
    constructor; [exact (Forall_inv (Forall_inv_tail test_requests_wf))|].
    eapply (sv_read _ _ _ read_req 0%nat); [reflexivity|vm_compute; reflexivity|reflexivity|]. cbn. lia.
  - left. cbn. lia.
Qed.

Lemma test_rounds : rounds server0 3 (net_poll net0) hub0 test_sent (swept hub5).
Proof.
  apply (rds_events _ _ [1; 0] _ hub0 [] hub1 test_sent (swept hub5) join_round), rds_timeout.
  apply (rds_events _ _ [0; 1; 1] _ hub1 [(7, pong); (8, error_bytes UNKNOWN_COMMAND "")] hub3
    [(7, zeros)] (swept hub5) both_round).
  exact (rds_events _ _ [0; 1; POLLNVAL] [] (swept hub3) [(7, zeros)] hub5 [] _ last_round (rds_nil _ _ _)).
Qed.

Lemma polling_rounds_correct_witness :
  exists wd', serve_rounds 4 ((server0, test_world), net0) = (Ret tt, wd') /\
    net_sent wd'.2 = test_sent /\ wd'.1.2 = test_world /\
    map pf_fd (poll_fds wd'.1.1) = [3; 7] /\ server_wf wd'.1.1.
Proof.
  destruct (polling_rounds_correct server0 3 (net_poll net0) test_sent ((server0, test_world), net0)
    hub0 (swept hub5) []) as (wd' & H1 & H2 & H3 & H4 & H5 & H6).
  - exact hub0_stands.
  - reflexivity.
  - exact test_rounds.
  - exists wd'. split; [exact H1|]. split; [exact H3|]. split; [exact H4|]. split; [exact H5|exact H6].
Defined.

(** ** What the messages lead to *)

(** A ping has one answer; a read of a device the client owns has no refusal
    and the device does not throw. *)
Lemma ping_polite devs w out devs' w' bye :
  replies server0 devs w (of_request RqPing) out devs' w' bye -> devs' = devs /\ bye = false.
Proof.
  intros H. inversion H as [rq out1 devs1 w1 bye1 Hwf Hs E|m code msg Hm Hf|m _ Hm _]; subst; [|by vm_compute in Hf|discriminate].
  destruct rq; try discriminate. inversion Hs as [| |rq code msg Hf| | | | | | |rq d args dev p ret w2 Hrq]; subst.
  - done.
  - by vm_compute in Hf.
  - by destruct Hrq as [[? ?]|[? ?]].
Qed.

Lemma read_polite w out devs' w' :
  ~ replies server0 [Some 0%nat] w (of_request (RqRead read_req)) out devs' w' true.
Proof.
  intros H. inversion H as [rq out1 devs1 w1 bye1 Hwf Hs Ec|m code msg Hm Hf|m _ Hm _]; subst; [|by vm_compute in Hf].
  destruct rq as [|r| | | | | |]; try discriminate. destruct Hwf as [_ Hwf].
  assert (r = read_req) as ->.
  { assert (enc_RdReq r = enc_RdReq read_req) as Eb by done.
    rewrite <-(dec_enc_RdReq r [] Hwf), <-(dec_enc_RdReq read_req []) by (by vm_compute).
    by rewrite !app_nil_r, Eb. }
  inversion Hs as [| |rq code msg Hf| |r dev bs w2 e Ho Hrun| | | | |]; subst.
  - by vm_compute in Hf.
  - by apply dev_read_no_throws in Hrun.
Qed.

Lemma test_never_refused : never_refused server0 [Some 0%nat] test_messages.
Proof.
  intros ms1 m ms2 outs devs1 w out devs' w' E Ha Hr. unfold test_messages, test_requests in E.
  destruct ms1 as [|m1 [|m2 ms1]]; cbn in E.
  - injection E as <- _. by apply ping_polite in Hr as [_ ?].
  - injection E as <- <- _. inversion Ha as [|? w1 ? ? devs2 w2 ? ? ? H1 H2]; subst. inversion H2; subst.
    apply ping_polite in H1 as [-> _]. by apply read_polite in Hr.
  - injection E as _ _ E. by destruct ms1.
Qed.

(** ** A round that returns *)

(** The device 0 has 16 bytes and is attached; the function of the server
    works. *)
Lemma test_server_ready : server_ready server0 16.
Proof.
  assert (plugin_ready server0 16 echo) as He.
  { split; [|split; [cbn; lia|]].
    - intros d [|b args] tail w Hl; [discriminate|reflexivity].
    - intros d args w _ _ _ _. exists [default NUL (head args)], w. split; [reflexivity|]. split; [reflexivity|].
      intros x. split; intros H; exact H. }
  split; [lia|cbn; lia| |].
  - intros name p Hp. change (plugins server0) with ({["echo"%string := echo]} : gmap string (plugin_info MmapWorld nat)) in Hp.
    apply lookup_singleton_Some in Hp as [_ <-]. exact He.
  - intros [|i] p Hp; [injection Hp as <-; exact He|discriminate].
Qed.

Lemma test_client_ready : client_ready server0 test_world [Some 0%nat].
Proof.
  split; [apply (bool_decide_unpack _); vm_compute; exact I|]. split; [apply test_devs_wf|].
  intros d Hd. apply list_elem_of_singleton in Hd as [= ->]. split; [by left|].
  exists (set_fd 3 true test_dev). split; [reflexivity|]. split; [cbn; lia|reflexivity].
Qed.

#[local] Instance test_answering :
  Answering server0 (devices_ready server0 16) (client_ready server0) (answerable server0 16) :=
  mmap_answering server0 16 test_server_ready.

Lemma test_messages_answerable : Forall (answerable server0 16) test_messages.
Proof.
  constructor; [|constructor; [|constructor]]; right; right.
  - exists RqPing. split; [exact (Forall_inv test_requests_wf)|by split].
  - exists (RqRead read_req). split; [exact (Forall_inv (Forall_inv_tail test_requests_wf))|].
    split; [|reflexivity]. split; cbn; lia.
Qed.


Definition busy_net : Net :=
  MkNet {[7 := [RecvData test_bytes]]} [] [] [8]
    (PollEvents [1; 1] :: replicate 20 (PollEvents [])).

Definition busy_hub : hub (W:=MmapWorld) (D:=nat) :=
  Hub {[7 := ([Some 0%nat], [], 0%nat)]} [3; 7] 4 [] (net_in busy_net) [8] test_world.

Lemma busy_stands : at_rest server0 3 ((server0, test_world), busy_net) busy_hub.
Proof.
  destruct hub0_stands as [[H1 H2 H3 H4 H5 H6 H7 H8 H9 H10 H11 H12 H13] _].
  split; [|reflexivity]. split; try done. intros fd devs part gap Hp.
  destruct (H4 fd devs part gap Hp) as (? & l & c & ? & Hc & ?).
  split; [done|]. exists l, c. split; [done|]. split; [|done]. destruct Hc. by split.
Qed.

Lemma busy_good : hub_good (devices_ready server0 16) (client_ready server0) busy_hub.
Proof.
  split; [by apply test_devices_ready|]. intros fd devs part gap Hp. cbn [hub_peers busy_hub] in Hp.
  apply lookup_singleton_Some in Hp as [_ [= <- <- <-]]. exact test_client_ready.
Qed.

Lemma busy_prepared i fd : hub_polled busy_hub !! i = Some fd ->
  prepared 3 (answerable server0 16) busy_hub fd (default 0 ([1; 1] !! i)).
Proof.
  destruct i as [|[|i]]; intros Hi; [| |discriminate]; injection Hi as <-.
  - right; right; left. split; [discriminate|]. split; [reflexivity|]. split; [reflexivity|].
    exists 8, []. split; [reflexivity|]. split; [lia|]. split; [lia|]. split; [cbn; set_solver|].
    split; [reflexivity|cbn; lia].
  - right; right; right. split; [discriminate|]. split; [reflexivity|].
    exists [Some 0%nat], [], 0%nat, (Some test_bytes), []. split; [reflexivity|]. split; [by left|].
    split; [vm_compute; reflexivity|].
    intros bs ms part' [= <-] E Hms Hi. cbn [app] in E. unfold test_bytes in E.
    rewrite <-(app_nil_r (concat _)) in E.
    destruct (messages_unique test_messages ms [] part') as [<- _]; [|exact Hms| |exact Hi|exact E|exact test_messages_answerable].
    + apply Forall_map, (Forall_impl _ _ _ test_requests_wf), of_request_wf.
    + left. cbn. lia.
Qed.

Lemma polling_round_returns_witness :
  exists wd' h', pool_client_msgs ((server0, test_world), busy_net) = (Ret tt, wd') /\ at_rest server0 3 wd' h'.
Proof.
  destruct (polling_round_returns server0 3 (devices_ready server0 16) (client_ready server0) (answerable server0 16)
    ((server0, test_world), busy_net) busy_hub [1; 1] (replicate 20 (PollEvents []))) as (wd' & out & h' & H1 & _ & H2 & _).
  - exact busy_stands.
  - reflexivity.
  - exact busy_good.
  - exact busy_prepared.
  - exists wd', h'. split; [exact H1|exact H2].
Defined.

(** ** A client that is served *)

(** Rounds in which nothing is reported. *)
Lemma quiet_turns (es : list (Z * Z)) h : Forall (fun e => e.2 = 0) es -> turns server0 3 es h [] h.
Proof.
  induction 1 as [|[fd r] es Hr _ IH]; [constructor|]. cbn in Hr. subst r.
  apply (tns_cons server0 3 fd 0 es h [] h [] h); [constructor|by right; left|done].
Qed.

Lemma reported_nothing (h : hub (W:=MmapWorld) (D:=nat)) : Forall (fun e => e.2 = 0) (reported [] h).
Proof. apply Forall_forall. intros [fd r] [i Hi]%list_elem_of_lookup. unfold reported in Hi.
  rewrite list_lookup_imap in Hi. destruct (hub_polled h !! i); [|done]. by injection Hi as <- <-.
Qed.

(** A client joins on descriptor 8, and the client 7 is answered twice. *)
Definition busy_after : hub (W:=MmapWorld) (D:=nat) := heard 7 [Some 0%nat] [] 14 [] test_world (joined 8 [] busy_hub).

Lemma busy_round : turns server0 3 (reported [1; 1] busy_hub) busy_hub [(7, pong); (7, zeros)] busy_after.
Proof.
  apply (tns_cons _ _ 3 1 [(7, 1)] busy_hub [] (joined 8 [] busy_hub) [(7, pong); (7, zeros)] busy_after).
  - by apply (tn_accept server0 3 1 busy_hub 8 []); [done|done|done|lia|lia|set_solver|].
  - right; right. cbn. lia.
  - apply (tns_cons _ _ 7 1 [] (joined 8 [] busy_hub) [(7, pong); (7, zeros)] busy_after [] busy_after);
      [|by left|constructor].
    apply (tn_serve server0 3 7 1 (joined 8 [] busy_hub) [Some 0%nat] [] 0 test_bytes []
      test_messages [pong; zeros] [Some 0%nat] test_world []).
    + done.
    + done.
    + reflexivity.
    + by left.
    + vm_compute. reflexivity.
    + symmetry. apply app_nil_r.
    + eapply ra_cons; [constructor; [exact (Forall_inv test_requests_wf)|apply sv_ping]|].
      eapply ra_cons; [|apply ra_nil]. constructor; [exact (Forall_inv (Forall_inv_tail test_requests_wf))|].
      eapply (sv_read _ _ _ read_req 0%nat); [reflexivity|vm_compute; reflexivity|reflexivity|]. cbn. lia.
    + left. cbn. lia.
Qed.

Lemma quiet_honest k (wd : World (W:=MmapWorld) (D:=nat) (B:=hwio_bus_primitive nat)) :
  at_rest server0 3 wd busy_after -> net_poll wd.2 = replicate k (PollEvents []) ->
  honest server0 3 7 (answerable server0 16) k k wd busy_after.
Proof.
  revert wd. induction k as [|k IH]; intros wd Hr Hp; [constructor|].
  apply (honest_round server0 3 7 _ k k [] (replicate k (PollEvents [])) wd busy_after [] busy_after); try done.
  - intros i fd _. left. reflexivity.
  - eapply Forall_impl; [apply reported_nothing|]. intros e -> _. reflexivity.
  - left. reflexivity.
  - apply quiet_turns, reported_nothing.
Qed.

Lemma busy_honest :
  honest server0 3 7 (answerable server0 16) 21 21 ((server0, test_world), busy_net) busy_hub.
Proof.
  apply (honest_round server0 3 7 _ 20 20 [1; 1] (replicate 20 (PollEvents [])) _ busy_hub
    [(7, pong); (7, zeros)] busy_after).
  - exact busy_stands.
  - reflexivity.
  - exact busy_prepared.
  - by repeat constructor.
  - right. left. by repeat constructor.
  - exact busy_round.
  - apply quiet_honest.
Qed.


(** ** The handler of a single request *)

(** A pointer is what its bytes say; here it does not change. *)
#[export] Instance test_pointer : PointerBytes := { overwrite_pointer p _ := p }.

Definition ping_chunks : list (nat * list byte) := [(1%nat, take 2 (enc_header (Header HWIO_CMD_PING_REQUEST 0)));
  (0%nat, drop 2 (enc_header (Header HWIO_CMD_PING_REQUEST 0)))].
Definition write_chunks : list (nat * list byte) := [(0%nat, enc_header (Header HWIO_CMD_WRITE 12))].
Definition write_body : list (nat * list byte) := [(0%nat, replicate 12 NUL)].

Definition single_net (evs : list recv_event) : Net := MkNet {[7 := evs]} [] [] [] [].

Lemma single_request_handler_witness :
  (exists s', handle_client_requests 7 ((server0, test_world), single_net (concat (map arrival ping_chunks))) =
     (Ret tt, ((s', test_world), sent 7 [pong] (single_net []))) /\
     fd_to_client s' = {[7 := 0%nat]}) /\
  exists st', handle_client_requests 7 ((server0, test_world),
     single_net (concat (map arrival (write_chunks ++ write_body)))) = (Undef OutOfBounds, st').
Proof.
  split.
  - destruct (single_request_handler 0%nat 7 (the_client [Some 0%nat] []) server0 test_world
      (single_net (concat (map arrival ping_chunks))) ping_chunks [] HWIO_CMD_PING_REQUEST 0) as [H _].
    + apply server0_wf.
    + reflexivity.
    + reflexivity.
    + reflexivity.
    + split; cbn; unfold HWIO_CMD_PING_REQUEST, HWIO_CMD_WRITE; lia.
    + repeat constructor; discriminate.
    + reflexivity.
    + reflexivity.
    + destruct (H pong [Some 0%nat] test_world false) as (s' & H1 & _ & _ & _ & H2); [reflexivity| |].
      * apply (rp_request server0 _ _ RqPing); [split; [cbn; lia|exact I]|apply sv_ping].
      * exists s'. split; [exact H1|exact H2].
  - destruct (single_request_handler 0%nat 7 (the_client [Some 0%nat] []) server0 test_world
      (single_net (concat (map arrival (write_chunks ++ write_body)))) write_chunks
      (concat (map arrival write_body)) HWIO_CMD_WRITE 12) as [_ H].
    + apply server0_wf.
    + reflexivity.
    + reflexivity.
    + reflexivity.
    + split; cbn; unfold HWIO_CMD_PING_REQUEST, HWIO_CMD_WRITE; lia.
    + repeat constructor; discriminate.
    + reflexivity.
    + reflexivity.
    + apply (H write_body []); [unfold sizeof_pointer; lia|repeat constructor; discriminate|reflexivity|symmetry; apply app_nil_r].
Defined.
End TestRounds.
