(* ===== verification/EndToEnd.v ===== *)
(** * Client and server together

    The server as the peer of a client: bytes sent to its socket make one
    round of [pool_client_msgs] with an event on that socket, and what the
    server sends on it arrives at the client.  The server keeps the promise
    [Served] that the client's operations rely on, so a device on the server
    behaves for the client as it does for a local program. *)

From Stdlib Require Import ZArith Lia Ascii String.
From stdpp Require Import base tactics list numbers strings gmap fin_maps.
From S2P Require Import Prelude CxxString Version CompSpec Device Bus Wire Protocol Client.
From S2P Require Import DeviceRemote ClientSpec RemoteSpec Server ServerHandlers ServerFrame.
From S2P Require Import ServerSpec ServerQuery ServerSafety ServerLoop ServerLoopSpec ServerStream.
From S2P Require Import ServerFrames ServerRun.

Section peer.
Context {W D B : Type} `{!IDev W D} `{!IBus W D B} {VG : VectorGrowth} {PL : Platform}.
Implicit Types (l : loc) (s : HwioServer W D B) (w : W) (n : Net) (devs : list (option D)) (fd : Z).

(** ** One client's event in a round of polling *)

(** Bytes arrive on the socket [fd], and the next [ppoll] reports it. *)
Definition deliver fd (bytes : list byte) (wd : World (W:=W) (D:=D) (B:=B)) : World :=
  let n := wd.2 in
  (wd.1, MkNet (<[fd := default [] (net_in n !! fd) ++ [RecvData bytes]]> (net_in n))
    (net_send n) (net_sent n) (net_accept n)
    [PollEvents (map (fun p => if pf_fd p =? fd then POLLIN else 0) (poll_fds wd.1.1))]).

(** The server as a peer: what it sends on [fd] arrives at the client in the
    pieces [cut] makes of it, and the end of the stream when the server has
    closed the descriptor or has died of an exception. *)
Definition server_takes fd (cut : list byte -> list con_event) (bytes : list byte) :
    ST World (list con_event) := fun wd =>
  match pool_client_msgs (deliver fd bytes wd) with
  | (Ret _, wd') =>
      let out := base.filter (fun m => m.1 = fd) (drop (length (net_sent wd.2)) (net_sent wd'.2)) in
      (Ret (cut (concat (map snd out)) ++
            match fd_to_client wd'.1.1 !! fd with Some _ => [] | None => [ConEof] end), wd')
  | (Throw _, wd') => (Ret [ConEof], wd')
  | (Undef f, wd') => (Undef f, wd')
  end.

(** The entry of [fd] is the only one for it. *)
Definition polled fd s : Prop :=
  exists pre r post, poll_fds s = pre ++ PollFd fd r :: post /\
    Forall (fun p => pf_fd p <> fd) pre /\ Forall (fun p => pf_fd p <> fd) post.

Lemma poll_entries_quiet fds s w n :
  Forall (fun p => pf_revents p = 0) fds -> poll_entries fds ((s, w), n) = (Ret tt, ((s, w), n)).
Proof.
  induction 1 as [|p fds Hp _ IH]; [done|]. cbn [poll_entries].
  erewrite (st_bind_ret (in_server st_get)) by done. cbn [fst snd].
  erewrite st_bind_ret.
  2:{ unfold poll_entry. rewrite Hp. by rewrite orb_true_r. }
  erewrite (st_bind_ret (in_server st_get)) by done. cbn [fst snd].
  rewrite Nat.ltb_irrefl, andb_false_r. done.
Qed.

Lemma poll_entries_app pre fds s w n :
  Forall (fun p => pf_revents p = 0) pre ->
  poll_entries (pre ++ fds) ((s, w), n) = poll_entries fds ((s, w), n).
Proof.
  induction 1 as [|p pre Hp _ IH]; [done|]. cbn [app poll_entries].
  erewrite (st_bind_ret (in_server st_get)) by done. cbn [fst snd].
  erewrite st_bind_ret.
  2:{ unfold poll_entry. rewrite Hp. by rewrite orb_true_r. }
  erewrite (st_bind_ret (in_server st_get)) by done. cbn [fst snd].
  by rewrite Nat.ltb_irrefl, andb_false_r.
Qed.

(** The events of [deliver]. *)
Lemma set_revents_one fd fds :
  set_revents (map (fun p => if pf_fd p =? fd then POLLIN else 0) fds) fds =
  map (fun p => PollFd (pf_fd p) (if pf_fd p =? fd then POLLIN else 0)) fds.
Proof.
  unfold set_revents. apply list_eq. intros i. rewrite list_lookup_imap, !list_lookup_fmap.
  by destruct (fds !! i).
Qed.

Lemma quiet_others fd fds :
  Forall (fun p => pf_fd p <> fd) fds ->
  Forall (fun p => pf_revents p = 0)
    (map (fun p => PollFd (pf_fd p) (if pf_fd p =? fd then POLLIN else 0)) fds).
Proof.
  intros H. apply Forall_map. eapply Forall_impl; [exact H|]. intros p Hp. cbn.
  by rewrite (proj2 (Z.eqb_neq _ _)).
Qed.

(** The server when the round on [fd] starts. *)
Definition noted fd s : HwioServer W D B :=
  set_poll_fds (map (fun p => PollFd (pf_fd p) (if pf_fd p =? fd then POLLIN else 0)) (poll_fds s))
    (poll_cap s) s.

Definition inbound fd (bytes : list byte) n : Net :=
  MkNet (<[fd := default [] (net_in n !! fd) ++ [RecvData bytes]]> (net_in n))
    (net_send n) (net_sent n) (net_accept n) [].

(** A round with one event is the handler of that client and the clean up. *)
Lemma pool_one fd bytes s w n s2 w2 n2 :
  polled fd s -> 0 <= fd -> master_socket s <> fd ->
  handle_multiple_client_requests fd ((noted fd s, w), inbound fd bytes n) =
    (Ret tt, ((s2, w2), n2)) ->
  length (poll_fds s2) = length (poll_fds s) ->
  pool_client_msgs (deliver fd bytes ((s, w), n)) =
    (Ret tt, (((clean_poll_fds s2).2, w2), n2)).
Proof.
  intros (pre & r & post & Hfds & Hpre & Hpost) H0 Hm Hrun Hlen.
  unfold pool_client_msgs. erewrite (st_bind_ret (in_net next_poll)) by done. cbv beta iota.
  erewrite (st_bind_ret (in_server (st_modify _))) by done.
  erewrite (st_bind_ret (in_server st_get)) by done. cbn [fst snd poll_fds set_poll_fds deliver].
  rewrite set_revents_one.
  change (set_poll_fds _ _ s) with (noted fd s). fold (inbound fd bytes n).
  assert (length (poll_fds (noted fd s)) = length (poll_fds s)) as Hn by (cbn; by rewrite length_map).
  assert (poll_entries (map (fun p => PollFd (pf_fd p) (if pf_fd p =? fd then POLLIN else 0)) (poll_fds s))
    ((noted fd s, w), inbound fd bytes n) = (Ret tt, ((s2, w2), n2))) as Hent.
  { rewrite Hfds, map_app. cbn [map pf_fd]. rewrite Z.eqb_refl.
    rewrite poll_entries_app by by apply quiet_others. cbn [poll_entries].
    erewrite (st_bind_ret (in_server st_get)) by done. cbn [fst snd].
    erewrite st_bind_ret.
    2:{ unfold poll_entry. cbn [pf_fd pf_revents]. rewrite (proj2 (Z.ltb_ge _ _)) by done.
        change (POLLIN =? 0) with false. cbn [orb].
        erewrite (st_bind_ret (in_server st_get)) by done. cbn [fst snd].
        change (negb _) with false at 1. cbv iota.
        change (master_socket (noted fd s)) with (master_socket s).
        rewrite (proj2 (Z.eqb_neq fd _)) by done. exact Hrun. }
    erewrite (st_bind_ret (in_server st_get)) by done. cbn [fst snd].
    rewrite Hlen, Hn, Nat.ltb_irrefl, andb_false_r. cbn [andb].
    by apply poll_entries_quiet, quiet_others. }
  rewrite (st_bind_ret _ _ _ _ _ Hent). done.
Qed.

(** ** The state of a session *)

(** The client [l] on [fd] has the devices [devs] and has sent [pend] of its
    next request; the tables of the server are those of [s0]. *)
Record session l fd s0 (wd : World (W:=W) (D:=D) (B:=B)) devs w (pend : list byte) : Prop := {
  se_world : wd.1.2 = w;
  se_tables : same_tables s0 wd.1.1;
  se_wf : server_wf wd.1.1;
  se_conn : exists c, conn l c wd.1.1 wd.2 devs pend /\ ci_fd c = fd /\
    (pend = [] \/ curr_ptr (ci_rx c) = 0%nat);
  se_fd : fd_to_client wd.1.1 !! fd = Some l;
  se_in : default [] (net_in wd.2 !! fd) = [];
  se_polled : polled fd wd.1.1;
  se_nonneg : 0 <= fd;
  se_master : master_socket wd.1.1 <> fd;
  se_removed : removed_poll_fds wd.1.1 = []
}.

Lemma noted_tables fd s : same_tables s (noted fd s).
Proof. by split. Qed.

Lemma noted_fds fd s : fd_to_client (noted fd s) = fd_to_client s.
Proof. done. Qed.

Lemma noted_wf fd s : server_wf s -> server_wf (noted fd s).
Proof. intros []. by split. Qed.

Lemma noted_polled fd s : polled fd s -> polled fd (noted fd s).
Proof.
  intros (pre & r & post & E & H1 & H2). unfold polled, noted. cbn. rewrite E, map_app. cbn [map pf_fd].
  eexists _, _, _. split; [done|]. split; apply Forall_map; eapply Forall_impl; [done| |done|]; done.
Qed.

(** After a round that kept the client, the session goes on. *)
Lemma session_next l fd s0 s s1 w1 n1 c1 devs1 pend1 :
  same_tables s0 s -> polled fd s -> 0 <= fd -> master_socket s <> fd -> removed_poll_fds s = [] ->
  same_server l (noted fd s) s1 -> server_wf s1 -> conn l c1 s1 n1 devs1 pend1 -> ci_fd c1 = fd ->
  pend1 = [] \/ curr_ptr (ci_rx c1) = 0%nat ->
  fd_to_client s !! fd = Some l -> default [] (net_in n1 !! fd) = [] ->
  (clean_poll_fds s1).2 = s1 /\ length (poll_fds s1) = length (poll_fds s) /\
  session l fd s0 ((s1, w1), n1) devs1 w1 pend1.
Proof.
  intros Ht Hp H0 Hm Hr Hss Hw Hc Hcf Hptr Hfd Hin.
  assert (removed_poll_fds s1 = []) as Hr1 by by rewrite (ss_removed _ _ _ Hss).
  split_and!.
  - cbn. by rewrite Hr1.
  - rewrite (ss_poll _ _ _ Hss). cbn. by rewrite length_map.
  - split; try done; cbn [fst snd].
    + etransitivity; [exact Ht|]. etransitivity; [apply noted_tables|]. by eapply same_server_tables.
    + by exists c1.
    + by rewrite (ss_fds _ _ _ Hss).
    + destruct (noted_polled _ _ Hp) as (pre & r & post & E & ?).
      exists pre, r, post. by rewrite (ss_poll _ _ _ Hss).
    + by rewrite (ss_master _ _ _ Hss).
Qed.

Lemma sent_bytes fd outs :
  concat (map snd (base.filter (fun m : Z * list byte => m.1 = fd)
    (map (pair fd) (base.filter (fun out => out <> []) outs)))) = concat outs.
Proof.
  induction outs as [|o outs IH]; [done|]. cbn [concat].
  destruct (decide (o = [])) as [->|Ho]; [by rewrite filter_cons_False by (by intros [])|].
  rewrite (filter_cons_True _ o) by done. cbn [map]. rewrite filter_cons_True by done.
  cbn [map concat snd]. by rewrite IH.
Qed.

(** What arrives at the client after a round. *)
Lemma server_takes_run fd cut bytes s w n s2 w2 n2 outs more :
  pool_client_msgs (deliver fd bytes ((s, w), n)) = (Ret tt, ((s2, w2), n2)) ->
  net_sent n2 = net_sent n ++ map (pair fd) (base.filter (fun out => out <> []) outs) ->
  match fd_to_client s2 !! fd with Some _ => [] | None => [ConEof] end = more ->
  server_takes fd cut bytes ((s, w), n) = (Ret (cut (concat outs) ++ more), ((s2, w2), n2)).
Proof.
  intros Hrun Hsent Hmore. unfold server_takes. rewrite Hrun. cbn [fst snd]. rewrite Hsent.
  by rewrite drop_app_length, Hmore, sent_bytes.
Qed.

(** ** One piece of a message *)

Section pieces.
Context (l : loc) (fd : Z) (s0 : HwioServer W D B) (cut : list byte -> list con_event).

(** The round receives the piece. *)
Lemma start_round s w n devs part bs :
  session l fd s0 ((s, w), n) devs w part -> bs <> [] ->
  (length part + length bs <= RX_BUFFER_SIZE)%nat ->
  exists c1 s1 n1, conn l c1 s1 n1 devs (part ++ bs) /\ ci_fd c1 = fd /\
    same_server l (noted fd s) s1 /\ server_wf s1 /\ curr_ptr (ci_rx c1) = 0%nat /\
    net_sent n1 = net_sent n /\ default [] (net_in n1 !! fd) = [] /\
    handle_multiple_client_requests fd ((noted fd s, w), inbound fd bs n) = parse_msgs l ((s1, w), n1).
Proof.
  intros [_ _ Hw (c & Hc & Hcf & Hptr) Hfd Hin _ _ _ _] Hne Hl. cbn [fst snd] in *.
  destruct (round_run l c (noted fd s) w (inbound fd bs n) devs part fd 0 bs [])
    as (c1 & s1 & Hc1 & Hf1 & Hss & Hw1 & Hg1 & Hrun); try done.
  - destruct Hc. by split.
  - destruct Hptr as [->|?]; [apply apart_nil|by left].
  - cbn. by rewrite lookup_insert_eq, Hin.
  - exists c1, s1, (set_in fd [] (inbound fd bs n)). split_and!; try done.
    + by apply Hw1, noted_wf.
    + cbn. by rewrite lookup_insert_eq.
Qed.

(** A piece that does not complete the message. *)
Lemma piece_part s w n devs part bs :
  session l fd s0 ((s, w), n) devs w part -> bs <> [] ->
  (length part + length bs <= RX_BUFFER_SIZE)%nat -> incomplete (part ++ bs) ->
  exists wd', server_takes fd cut bs ((s, w), n) = (Ret (cut []), wd') /\
    session l fd s0 wd' devs w (part ++ bs).
Proof.
  intros Hs Hne Hl Hi.
  destruct (start_round s w n devs part bs Hs Hne Hl) as (c1 & s1 & n1 & Hc1 & Hf1 & Hss & Hw1 & Hg1 & Hsent & Hin & Hrun).
  rewrite (parse_incomplete _ _ _ _ _ _ _ Hc1 Hi) in Hrun.
  destruct Hs as [_ Ht _ _ Hfd _ Hp H0 Hm Hr]. cbn [fst snd] in *.
  destruct (session_next l fd s0 s s1 w n1 c1 devs (part ++ bs)) as (Hcl & Hlen & Hs'); try done; [by right|].
  exists ((s1, w), n1). split; [|done].
  erewrite (server_takes_run fd cut bs s w n s1 w n1 [] []); [by rewrite app_nil_r| | |].
  - rewrite (pool_one fd bs s w n s1 w n1) by done. by rewrite Hcl.
  - by rewrite Hsent, app_nil_r.
  - rewrite (ss_fds _ _ _ Hss), noted_fds. by rewrite Hfd.
Qed.

(** The piece that completes a request the server answers. *)
Lemma piece_last s w n devs part bs rq out devs' w' :
  session l fd s0 ((s, w), n) devs w part -> bs <> [] ->
  (length part + length bs <= RX_BUFFER_SIZE)%nat ->
  part ++ bs = enc_request rq -> request_wf rq -> serves s0 devs w rq out devs' w' false ->
  exists wd', server_takes fd cut bs ((s, w), n) = (Ret (cut out), wd') /\
    session l fd s0 wd' devs' w' [].
Proof.
  intros Hs Hne Hl He Hwf Hsv.
  destruct (start_round s w n devs part bs Hs Hne Hl) as (c1 & s1 & n1 & Hc1 & Hf1 & Hss & Hw1 & Hg1 & Hsent & Hin & Hrun).
  destruct Hs as [_ Ht _ _ Hfd _ Hp H0 Hm Hr]. cbn [fst snd] in *.
  assert (same_tables s0 s1) as Ht1.
  { etransitivity; [exact Ht|]. etransitivity; [apply (noted_tables fd)|]. by eapply same_server_tables. }
  rewrite He in Hc1.
  destruct (parse_all l c1 s1 w n1 devs [rq] [] [out] devs' w') as (c2 & s2 & Hc2 & Hf2 & Hss2 & Hw2 & _ & Hrun2).
  - cbn. by rewrite !app_nil_r.
  - by constructor.
  - econstructor; [by eapply serves_tables|constructor].
  - left. cbn. lia.
  - rewrite Hf1 in *. rewrite Hrun2 in Hrun.
    destruct (session_next l fd s0 s s2 w' (sent fd [out] n1) c2 devs' []) as (Hcl & Hlen & Hs'); try done;
      [by etransitivity|by auto|by left|].
    exists ((s2, w'), sent fd [out] n1). split; [|done].
    erewrite (server_takes_run fd cut bs s w n s2 w' _ [out] []); [by rewrite concat_cons, !app_nil_r| | |].
    + rewrite (pool_one fd bs s w n s2 w' (sent fd [out] n1)) by done. by rewrite Hcl.
    + unfold sent. cbn [net_sent]. by rewrite Hsent.
    + rewrite (ss_fds _ _ _ Hss2), (ss_fds _ _ _ Hss), noted_fds. by rewrite Hfd.
Qed.

(** The piece that completes a request that ends the connection. *)
Lemma piece_bye s w n devs part bs rq out devs' w' :
  session l fd s0 ((s, w), n) devs w part -> bs <> [] ->
  (length part + length bs <= RX_BUFFER_SIZE)%nat ->
  part ++ bs = enc_request rq -> request_wf rq -> serves s0 devs w rq out devs' w' true ->
  exists wd', server_takes fd cut bs ((s, w), n) = (Ret (cut out ++ [ConEof]), wd') /\
    fd_to_client wd'.1.1 !! fd = None /\ wd'.1.2 = w'.
Proof.
  intros Hs Hne Hl He Hwf Hsv.
  destruct (start_round s w n devs part bs Hs Hne Hl) as (c1 & s1 & n1 & Hc1 & Hf1 & Hss & Hw1 & Hg1 & Hsent & Hin & Hrun).
  destruct Hs as [_ Ht _ _ Hfd _ Hp H0 Hm Hr]. cbn [fst snd] in *.
  assert (same_tables s0 s1) as Ht1.
  { etransitivity; [exact Ht|]. etransitivity; [apply (noted_tables fd)|]. by eapply same_server_tables. }
  rewrite He in Hc1.
  destruct (disconnect_run l c1 s1 w n1 devs rq [] out devs' w') as (s2 & Hrun2 & _ & _ & Hfds & _ & _ & Hpoll).
  - done.
  - by rewrite Hf1, (ss_fds _ _ _ Hss).
  - by rewrite Hf1.
  - by rewrite app_nil_r.
  - done.
  - by eapply serves_tables.
  - rewrite Hf1 in *. rewrite Hrun2 in Hrun.
    assert (fd_to_client (clean_poll_fds s2).2 = fd_to_client s2) as Hclean.
    { unfold clean_poll_fds, st_modify. cbn [snd]. by case_match. }
    exists (((clean_poll_fds s2).2, w'), sent fd [out] n1). cbn [fst snd].
    rewrite Hclean, Hfds, lookup_delete_eq. split_and!; [|done|done].
    rewrite <-(app_nil_r out) at 1. apply (server_takes_run fd cut bs s w n _ w' _ [out] [ConEof]).
    + apply pool_one; [done..|]. rewrite Hpoll, (ss_poll _ _ _ Hss). cbn. by rewrite length_map.
    + unfold sent. cbn [net_sent]. by rewrite Hsent.
    + by rewrite Hclean, Hfds, lookup_delete_eq.
Qed.

(** ** The server keeps the promise *)

Context (Hcut : forall bs, arrives [] (cut bs) bs).

#[local] Instance server_peer : Peer (World (W:=W) (D:=D) (B:=B)) := {| peer_takes := server_takes fd cut |}.

(** A message in pieces: [last] is what the final round does. *)
Lemma takes_message rq out tail (Q : World -> Prop) devs w :
  request_wf rq -> (length (enc_request rq) <= BUFFER_SIZE)%nat ->
  (forall wd part bs, session l fd s0 wd devs w part -> bs <> [] -> part ++ bs = enc_request rq ->
    exists evs wd', server_takes fd cut bs wd = (Ret evs, wd') /\ arrives tail evs out /\ Q wd') ->
  forall pieces part wd, session l fd s0 wd devs w part ->
  part ++ concat pieces = enc_request rq -> Forall (fun p => p <> []) pieces ->
  (length part < length (enc_request rq))%nat ->
  exists evs wd', takes_all wd pieces evs wd' /\ arrives tail evs out /\ Q wd'.
Proof.
  intros Hwf Hfit Hlast pieces. induction pieces as [|p ps IH]; intros part wd Hs He Hne Hlt.
  - cbn [concat] in He. rewrite app_nil_r in He. rewrite He in Hlt. lia.
  - apply Forall_cons in Hne as [Hp Hne]. cbn [concat] in He. rewrite app_assoc in He.
    destruct ps as [|p2 ps].
    + cbn [concat] in He. rewrite app_nil_r in He.
      destruct (Hlast wd part p Hs Hp He) as (evs & wd' & Hrun & Ha & HQ).
      exists (evs ++ []), wd'. split_and!; [|by rewrite app_nil_r|done].
      econstructor; [exact Hrun|constructor].
    + assert (length (part ++ p) < length (enc_request rq))%nat as Hlt'.
      { rewrite <-He, (length_app (part ++ p)). apply Forall_cons in Hne as [Hp2 _].
        destruct p2; [done|]. cbn. lia. }
      destruct wd as [[s w0] n]. pose proof (se_world _ _ _ _ _ _ _ Hs) as Hw. cbn in Hw. subst w0.
      destruct (piece_part s w n devs part p Hs Hp) as (wd1 & Hrun & Hs1).
      * rewrite length_app in Hlt'. unfold BUFFER_SIZE in Hfit. unfold RX_BUFFER_SIZE. lia.
      * eapply (incomplete_prefix rq _ (concat (p2 :: ps)) []); [done|rewrite app_nil_r; exact He|done].
      * destruct (IH _ wd1 Hs1 He Hne Hlt') as (evs & wd' & Ht & Ha & HQ).
        exists (cut [] ++ evs), wd'. split_and!; [by econstructor| |done].
        by apply (arrives_app tail (cut []) evs []).
Qed.

#[local] Program Instance server_served : Served World (list (option D) * W) := {|
  serving wd a := session l fd s0 wd a.1 a.2 [];
  gone wd a := fd_to_client wd.1.1 !! fd = None /\ wd.1.2 = a.2;
  answers a rq out a' := serves s0 a.1 a.2 rq out a'.1 a'.2 false;
  rejects a rq out a' := serves s0 a.1 a.2 rq out a'.1 a'.2 true
|}.
Next Obligation.
  intros wd [devs w] rq out [devs' w'] Hs Hwf Hfit Ha pieces Hc Hne. cbn [fst snd] in *.
  eapply (takes_message rq out [] _ devs w Hwf Hfit); [|exact Hs|done|done|].
  - intros wd1 part bs Hs1 Hbs He. destruct wd1 as [[s w0] n].
    pose proof (se_world _ _ _ _ _ _ _ Hs1) as Hw. cbn in Hw. subst w0.
    destruct (piece_last s w n devs part bs rq out devs' w' Hs1 Hbs) as (wd' & Hrun & Hs'); try done.
    + rewrite <-length_app, He. unfold BUFFER_SIZE, RX_BUFFER_SIZE in *. lia.
    + by exists (cut out), wd'.
  - rewrite enc_request_length. cbn [length]. lia.
Qed.
Next Obligation.
  intros wd [devs w] rq out [devs' w'] Hs Hwf Hfit Ha pieces Hc Hne. cbn [fst snd] in *.
  eapply (takes_message rq out [ConEof] _ devs w Hwf Hfit); [|exact Hs|done|done|].
  - intros wd1 part bs Hs1 Hbs He. destruct wd1 as [[s w0] n].
    pose proof (se_world _ _ _ _ _ _ _ Hs1) as Hw. cbn in Hw. subst w0.
    destruct (piece_bye s w n devs part bs rq out devs' w' Hs1 Hbs) as (wd' & Hrun & Hfd & Hw'); try done.
    + rewrite <-length_app, He. unfold BUFFER_SIZE, RX_BUFFER_SIZE in *. lia.
    + exists (cut out ++ [ConEof]), wd'. split_and!; [done| |done..].
      pose proof (arrives_app [ConEof] _ _ _ _ (Hcut out) (ar_nil _)) as Har. by rewrite app_nil_r in Har.
  - rewrite enc_request_length. cbn [length]. lia.
Qed.
End pieces.
End peer.
