(* ===== verification/RemoteProgram.v ===== *)
(** * Programs on local and on remote devices

    A [program] looks devices up, transfers blocks and calls functions
    through handles.  It runs on the devices of a server ([local_machine]) or on
    a remote bus that is connected to it ([remote_machine]).  The two runs
    agree: the client library and the server between them are transparent. *)

From Stdlib Require Import ZArith Lia Ascii String.
From stdpp Require Import base tactics list numbers strings gmap fin_maps.
From S2P Require Import Prelude CxxString Version CompSpec Device Bus Wire Protocol Client.
From S2P Require Import DeviceRemote ClientSpec RemoteSpec Server ServerHandlers ServerFrame.
From S2P Require Import ServerSpec ServerQuery ServerSafety ServerLoop ServerLoopSpec ServerStream.
From S2P Require Import ServerFrames ServerRun EndToEnd.

(** ** Programs and machines *)

(** The devices a [PFind] finds are appended to the handles; its
    continuation is told how many they are. *)
Inductive program (A : Type) :=
  | PDone (a : A)
  | PFind (spec : list hwio_comp_spec) (k : nat -> program A)
  | PRead (h : nat) (off : Z) (n : nat) (k : list byte -> program A)
  | PWrite (h : nat) (off : Z) (data : list byte) (k : program A)
  | PCall (h : nat) (name : string) (args : list byte) (n : nat) (k : list byte -> program A).
Arguments PDone {A}.
Arguments PFind {A}.
Arguments PRead {A}.
Arguments PWrite {A}.
Arguments PCall {A}.

(** What a program uses of its environment. *)
Record machine (S X : Type) := Machine {
  mc_find : list hwio_comp_spec -> ST S (list X);
  mc_read : X -> Z -> nat -> ST S (list byte);
  mc_write : X -> Z -> list byte -> ST S unit;
  mc_call : X -> string -> list byte -> nat -> ST S (list byte)
}.
Arguments Machine {S X}.
Arguments mc_find {S X}.
Arguments mc_read {S X}.
Arguments mc_write {S X}.
Arguments mc_call {S X}.

Definition handle {S X} (env : list X) (h : nat) : ST S X :=
  match env !! h with
  | Some x => mret x
  | None => st_throw (Exn EX_out_of_range "vector::_M_range_check")
  end.

Fixpoint run_program {S X A} (m : machine S X) (p : program A) (env : list X) : ST S A :=
  match p with
  | PDone a => mret a
  | PFind spec k => mc_find m spec ≫= fun xs => run_program m (k (length xs)) (env ++ xs)
  | PRead h off n k =>
      handle env h ≫= fun x => mc_read m x off n ≫= fun bs => run_program m (k bs) env
  | PWrite h off data k =>
      handle env h ≫= fun x => mc_write m x off data ≫= fun _ => run_program m k env
  | PCall h name args n k =>
      handle env h ≫= fun x => mc_call m x name args n ≫= fun bs => run_program m (k bs) env
  end.

(** The operations fit the buffers of the connection. *)
Inductive program_fits {A} : program A -> Prop :=
  | pf_done a : program_fits (PDone a)
  | pf_find spec k :
      Forall spec_sendable spec -> (1 <= length spec <= 5)%nat ->
      (forall n, program_fits (k n)) -> program_fits (PFind spec k)
  | pf_read h off n k :
      0 <= off < 2 ^ 32 -> (n <= 2045)%nat -> (forall bs, program_fits (k bs)) ->
      program_fits (PRead h off n k)
  | pf_write h off data k :
      0 <= off < 2 ^ 32 -> (length data <= 2037)%nat -> program_fits k ->
      program_fits (PWrite h off data k)
  | pf_call h name args n k :
      name_ok name -> (length args <= 2039)%nat -> (n <= 2045)%nat ->
      (forall bs, program_fits (k bs)) -> program_fits (PCall h name args n k).

(** ** Simulation of machines *)

(** [R t xs s ys]: the state [t] with the handles [xs] shows what [s] with
    [ys] does.  A machine simulates another when each operation that returns
    there returns the same here. *)
Class Simulates {S X T Y} (impl : machine T Y) (spec : machine S X)
    (R : T -> list Y -> S -> list X -> Prop) : Prop := {
  sim_handles t ys s xs : R t ys s xs -> length ys = length xs;
  sim_find t ys s xs q new s' :
    R t ys s xs -> Forall spec_sendable q -> (1 <= length q <= 5)%nat ->
    mc_find spec q s = (Ret new, s') ->
    exists new' t', mc_find impl q t = (Ret new', t') /\ length new' = length new /\
      R t' (ys ++ new') s' (xs ++ new);
  sim_read t ys s xs h x y off n bs s' :
    R t ys s xs -> xs !! h = Some x -> ys !! h = Some y -> 0 <= off < 2 ^ 32 -> (n <= 2045)%nat ->
    mc_read spec x off n s = (Ret bs, s') ->
    exists t', mc_read impl y off n t = (Ret bs, t') /\ R t' ys s' xs;
  sim_write t ys s xs h x y off data s' :
    R t ys s xs -> xs !! h = Some x -> ys !! h = Some y -> 0 <= off < 2 ^ 32 ->
    (length data <= 2037)%nat -> mc_write spec x off data s = (Ret tt, s') ->
    exists t', mc_write impl y off data t = (Ret tt, t') /\ R t' ys s' xs;
  sim_call t ys s xs h x y name args n bs s' :
    R t ys s xs -> xs !! h = Some x -> ys !! h = Some y -> name_ok name ->
    (length args <= 2039)%nat -> (n <= 2045)%nat -> mc_call spec x name args n s = (Ret bs, s') ->
    exists t', mc_call impl y name args n t = (Ret bs, t') /\ R t' ys s' xs
}.

Section simulation.
Context {S X T Y : Type} (impl : machine T Y) (spec : machine S X).
Context (R : T -> list Y -> S -> list X -> Prop) `{!Simulates impl spec R}.

Lemma handle_inv {A} (env : list X) h (k : X -> ST S A) s a s' :
  (handle env h ≫= k) s = (Ret a, s') -> exists x, env !! h = Some x /\ k x s = (Ret a, s').
Proof.
  unfold handle. destruct (env !! h) as [x|]; intros H; [by exists x|discriminate].
Qed.

Lemma handle_run {A} (env : list Y) h y (k : Y -> ST T A) t :
  env !! h = Some y -> (handle env h ≫= k) t = k y t.
Proof. unfold handle. by intros ->. Qed.

Lemma same_handle t ys s xs h x :
  R t ys s xs -> xs !! h = Some x -> exists y, ys !! h = Some y.
Proof.
  intros HR Hx. apply lookup_lt_is_Some. rewrite (sim_handles _ _ _ _ HR). by eapply lookup_lt_Some.
Qed.

Lemma run_simulated {A} (p : program A) t ys s xs a s' :
  program_fits p -> R t ys s xs -> run_program spec p xs s = (Ret a, s') ->
  exists t' ys' xs', run_program impl p ys t = (Ret a, t') /\ R t' ys' s' xs'.
Proof.
  intros Hp. revert t ys s xs. induction Hp as [a0|q k Hq Hn _ IH|h off n k Hoff Hn _ IH
    |h off data k Hoff Hn _ IH|h name args n k Hname Hargs Hn _ IH];
    intros t ys s xs HR H; cbn [run_program] in *.
  - apply st_ret_inv in H as [-> ->]. by exists t, ys, xs.
  - apply st_bind_inv in H as (new & s1 & H1 & H).
    destruct (sim_find _ _ _ _ _ _ _ HR Hq Hn H1) as (new' & t1 & Ht1 & Hl & HR1).
    rewrite (st_bind_ret _ _ _ _ _ Ht1), Hl. by eapply IH.
  - apply handle_inv in H as (x & Hx & H). destruct (same_handle _ _ _ _ _ _ HR Hx) as [y Hy].
    rewrite (handle_run _ _ _ _ _ Hy). apply st_bind_inv in H as (bs & s1 & H1 & H).
    destruct (sim_read _ _ _ _ _ _ _ _ _ _ _ HR Hx Hy Hoff Hn H1) as (t1 & Ht1 & HR1).
    rewrite (st_bind_ret _ _ _ _ _ Ht1). by eapply IH.
  - apply handle_inv in H as (x & Hx & H). destruct (same_handle _ _ _ _ _ _ HR Hx) as [y Hy].
    rewrite (handle_run _ _ _ _ _ Hy). apply st_bind_inv in H as ([] & s1 & H1 & H).
    destruct (sim_write _ _ _ _ _ _ _ _ _ _ HR Hx Hy Hoff Hn H1) as (t1 & Ht1 & HR1).
    rewrite (st_bind_ret _ _ _ _ _ Ht1). by eapply IH.
  - apply handle_inv in H as (x & Hx & H). destruct (same_handle _ _ _ _ _ _ HR Hx) as [y Hy].
    rewrite (handle_run _ _ _ _ _ Hy). apply st_bind_inv in H as (bs & s1 & H1 & H).
    destruct (sim_call _ _ _ _ _ _ _ _ _ _ _ _ HR Hx Hy Hname Hargs Hn H1) as (t1 & Ht1 & HR1).
    rewrite (st_bind_ret _ _ _ _ _ Ht1). by eapply IH.
Qed.
End simulation.

(** ** The two machines *)

Section local.
Context {W D B : Type} `{!IDev W D} `{!IBus W D B}.

(** The devices of the buses of a server, used in the process itself; each is
    attached when it is first found.  The first half of the state is what was
    found so far. *)
Definition local_find (s : HwioServer W D B) (q : list hwio_comp_spec) :
    ST (list (option D) * W) (list D) := fun st =>
  match (composite_find_devices (buses s) q ≫= fun ds =>
         st_iter attach (fresh_devices st.1 ds) ≫= fun _ => mret ds) st.2 with
  | (Ret ds, w') => (Ret ds, (st.1 ++ map Some ds, w'))
  | (r, w') => (r, (st.1, w'))
  end.

(** A call of a registered function with arguments and a result of the sizes
    it was registered with. *)
Definition local_call (s : HwioServer W D B) (d : D) (name : string) (args : list byte) (n : nat) :
    ST W (list byte) :=
  match find_fn_id (plugins_fast_names s) name 0 ≫= fun i => plugins_fast s !! i with
  | Some p =>
      if (length args =? args_size p)%nat && (n =? ret_size p)%nat then fn p d args
      else st_undef OutOfBounds
  | None => st_throw (Exn EX_runtime_error name)
  end.

Definition local_machine (s : HwioServer W D B) : machine (list (option D) * W) D := {|
  mc_find := local_find s;
  mc_read d off n := st_snd (read_block d off n);
  mc_write d off data := st_snd (dev_write d off data);
  mc_call d name args n := st_snd (local_call s d name args n)
|}.
End local.

Section remote.
Context {N : Type} `{!Peer N} {CA : ConApi}.

(** A call by name as the client library offers it: the id is looked up, the
    call is made with the id. *)
Definition call_looked_up (d : hwio_device_remote) (name : string) (args : list byte) (n : nat) :
    ST (Link N) (list byte) :=
  get_rpc_fn_id d name ≫= fun fn_id =>
  if fn_id <? 0 then st_throw (Exn EX_runtime_error name)
  else if (n =? 0)%nat then remote_call_fast_void d fn_id args ≫= fun _ => mret []
  else remote_call_fast d fn_id args n.

Definition remote_machine : machine (hwio_bus_remote N) nat := {|
  mc_find := find_devices tt;
  mc_read := read_block;
  mc_write := dev_write;
  mc_call i name args n := on_seen i (fun d => call_looked_up d name args n)
|}.

Lemma on_seen_run {A} i d (m : hwio_device_remote -> ST (Link N) A) b r k :
  seen_devices b !! i = Some d -> m d (rb_link b) = (r, k) ->
  on_seen i m b = (r, BusRemote k (seen_devices b)).
Proof.
  intros Hd Hm. unfold on_seen. erewrite st_bind_ret.
  2:{ unfold seen_device. by rewrite Hd. }
  unfold on_link. by rewrite Hm.
Qed.

Lemma remote_read_block i d off n b r k :
  seen_devices b !! i = Some d -> remote_read d off n (rb_link b) = (Ret r, k) ->
  read_block i off n b = (Ret r, BusRemote k (seen_devices b)).
Proof.
  intros Hd Hm. unfold read_block. cbn [dev_read remote_dev].
  erewrite st_bind_ret.
  2:{ unfold st_fst. cbn [fst snd]. rewrite (on_seen_run i d _ b _ _ Hd Hm). done. }
  done.
Qed.
End remote.

(** ** A remote bus connected to the server *)

Section transparent.
Context {W D B : Type} `{!IDev W D} `{!IBus W D B} {VG : VectorGrowth} {PL : Platform}.
Context {CA : ConApi} `{!DevReadExact W D}.
Context (l : loc) (fd : Z) (s0 : HwioServer W D B) (cut : list byte -> list con_event).
Context (Hcut : forall bs, arrives [] (cut bs) bs).
Implicit Types (devs known : list (option D)) (w : W).

#[local] Instance peer_here : Peer (World (W:=W) (D:=D) (B:=B)) := server_peer fd cut.
#[local] Instance served_here : Served World (list (option D) * W) := server_served l fd s0 cut Hcut.

Implicit Types (b : hwio_bus_remote (World (W:=W) (D:=D) (B:=B))).

(** The object [y] of the bus stands for the device [x] of the server. *)
Definition mirror b devs (y : nat) (x : D) : Prop :=
  exists i, stands_for b y (Z.of_nat i) /\ devs !! i = Some (Some x).

(** The connection serves the devices a local program would have found, and
    the handles name the same devices. *)
Record mirrors (all : list D) b (ys : list nat) (st : list (option D) * W) (xs : list D) devs : Prop := {
  mi_linked : linked (rb_link b) (devs, st.2);
  mi_seen : seen_wf b;
  mi_full : None ∉ devs;
  mi_wf : devs_wf devs;
  mi_known d : Some d ∈ devs <-> Some d ∈ st.1;
  mi_all d : Some d ∈ devs -> d ∈ all;
  mi_handles : Forall2 (mirror b devs) ys xs
}.

Lemma owned_lookup devs i d : devs !! i = Some (Some d) -> owned devs (Z.of_nat i) = Some d.
Proof.
  intros H. unfold owned, client_get_dev. cbn [ci_devices]. rewrite Nat2Z.id, H.
  apply lookup_lt_Some in H. by rewrite (proj2 (Nat.ltb_lt _ _)).
Qed.

(** The ids of a client that has found at most 256 devices fit the byte the
    server tests in a write. *)
Definition few (all : list D) : Prop :=
  (length all <= 256)%nat /\
  forall q w ds w', composite_find_devices (buses s0) q w = (Ret ds, w') ->
    (forall d, d ∈ ds -> d ∈ all) /\ (length ds <= 1022)%nat.

(** The functions of the server: they read their arguments only, and store
    the result they announce, which fits a message. *)
Definition plugins_ok : Prop :=
  Z.of_nat (length (plugins_fast_names s0)) < 2 ^ 31 /\
  forall i p, plugins_fast s0 !! i = Some p -> plugin_local p /\ plugin_exact p.

Section machines.
Context (all : list D) (Hfew : few all) (Hplugins : plugins_ok).

Lemma mirror_kept b b' devs devs' y x :
  seen_devices b `prefix_of` seen_devices b' ->
  (forall i d, devs !! i = Some (Some d) -> devs' !! i = Some (Some d)) ->
  mirror b devs y x -> mirror b' devs' y x.
Proof.
  intros Hp Hd (i & (d & Hl & Hi) & Hx). exists i. split; [|by apply Hd].
  exists d. split; [by eapply prefix_lookup_Some|done].
Qed.

(** The object behind a handle. *)
Lemma mirror_of b ys st xs devs h x y :
  mirrors all b ys st xs devs -> xs !! h = Some x -> ys !! h = Some y ->
  exists d, seen_devices b !! y = Some d /\ 0 <= rd_id d < 256 /\ owned devs (rd_id d) = Some x.
Proof.
  intros Hm Hx Hy.
  destruct (Forall2_lookup_lr _ _ _ _ _ _ (mi_handles _ _ _ _ _ _ Hm) Hy Hx) as (i & (d & Hd & E) & Hi).
  exists d. rewrite E. split_and!; [done|lia| |by apply owned_lookup].
  apply lookup_lt_Some in Hi.
  pose proof (devs_bounded _ _ (mi_full _ _ _ _ _ _ Hm) (mi_wf _ _ _ _ _ _ Hm) (mi_all _ _ _ _ _ _ Hm)).
  destruct Hfew as [Hle _]. lia.
Qed.

(** An operation on the connection keeps the relation. *)
Lemma mirrors_next b ys st xs devs k w' :
  mirrors all b ys st xs devs -> linked k (devs, w') ->
  mirrors all (BusRemote k (seen_devices b)) ys (st.1, w') xs devs.
Proof. intros [] Hk. by split. Qed.

Lemma mirrors_read b ys known w xs devs h x y off n bs w' :
  mirrors all b ys (known, w) xs devs -> xs !! h = Some x -> ys !! h = Some y ->
  0 <= off < 2 ^ 32 -> (n <= 2045)%nat -> read_block x off n w = (Ret bs, w') ->
  exists b', read_block y off n b = (Ret bs, b') /\ mirrors all b' ys (known, w') xs devs.
Proof.
  intros Hm Hx Hy Hoff Hn Hrun0. destruct (mirror_of _ _ _ _ _ _ _ _ Hm Hx Hy) as (d & Hd & Hid & Ho).
  unfold read_block in Hrun0. destruct (dev_read x off n (w, [])) as [[[]| |] [w1 bs1]] eqn:E; try discriminate.
  injection Hrun0 as -> ->. pose proof (dev_read_exact _ _ _ _ _ _ E) as Hl. subst n.
  destruct (remote_read_ok d off bs (rb_link b) (devs, w) (devs, w')) as (k & Hrun & Hk).
  - apply (mi_linked _ _ _ _ _ _ Hm).
  - lia.
  - done.
  - unfold BUFFER_SIZE. lia.
  - cbn. apply (sv_read _ _ _ _ x); cbn; [done|by rewrite Nat2Z.id|done|done].
  - exists (BusRemote k (seen_devices b)). split; [by eapply remote_read_block|].
    by apply (mirrors_next b ys (known, w)).
Qed.

Lemma mirrors_write b ys known w xs devs h x y off data w' :
  mirrors all b ys (known, w) xs devs -> xs !! h = Some x -> ys !! h = Some y ->
  0 <= off < 2 ^ 32 -> (length data <= 2037)%nat -> dev_write x off data w = (Ret tt, w') ->
  exists b', dev_write y off data b = (Ret tt, b') /\ mirrors all b' ys (known, w') xs devs.
Proof.
  intros Hm Hx Hy Hoff Hn Hrun0. destruct (mirror_of _ _ _ _ _ _ _ _ Hm Hx Hy) as (d & Hd & Hid & Ho).
  destruct (remote_write_ok d off data (rb_link b) (devs, w) (devs, w')) as (k & Hrun & Hk).
  - apply (mi_linked _ _ _ _ _ _ Hm).
  - lia.
  - done.
  - unfold BUFFER_SIZE. lia.
  - cbn. apply (sv_write _ _ _ _ _ x); cbn; [lia|done|done].
  - exists (BusRemote k (seen_devices b)). split; [|by apply (mirrors_next b ys (known, w))].
    by apply (on_seen_run y d _ b).
Qed.

(** A call: the function is looked up by name and called by id. *)
Lemma mirrors_call b ys known w xs devs h x y name args n bs w' :
  mirrors all b ys (known, w) xs devs -> xs !! h = Some x -> ys !! h = Some y ->
  name_ok name -> (length args <= 2039)%nat -> (n <= 2045)%nat ->
  local_call s0 x name args n w = (Ret bs, w') ->
  exists b', on_seen y (fun d => call_looked_up d name args n) b = (Ret bs, b') /\
    mirrors all b' ys (known, w') xs devs.
Proof.
  intros Hm Hx Hy Hname Hargs Hn Hrun0. destruct (mirror_of _ _ _ _ _ _ _ _ Hm Hx Hy) as (d & Hd & Hid & Ho).
  unfold local_call in Hrun0. destruct (find_fn_id _ name 0) as [i|] eqn:Ei; [|discriminate].
  cbn [mbind option_bind] in Hrun0. destruct (plugins_fast s0 !! i) as [p|] eqn:Ep; [|discriminate].
  destruct (Nat.eqb_spec (length args) (args_size p)) as [Ha|]; [|discriminate].
  destruct (Nat.eqb_spec n (ret_size p)) as [Hr|]; [|discriminate].
  cbn [andb] in Hrun0. destruct Hplugins as [Hmany Hp]. destruct (Hp i p Ep) as [Hloc Hex].
  pose proof (Hex _ _ _ _ _ Hrun0) as Hlen.
  pose proof (find_fn_id_spec (plugins_fast_names s0) name 0) as Hi. rewrite Ei in Hi.
  destruct Hi as (_ & Hi%lookup_lt_Some & _). rewrite Nat.sub_0_r in Hi.
  destruct (ask_rpc_fn_id_ok d name true (Z.of_nat i) (rb_link b) (devs, w) (devs, w))
    as (k1 & Hrun1 & Hk1); [apply (mi_linked _ _ _ _ _ _ Hm)|lia|done|by eapply sv_fn_id|].
  assert (u32 (Z.of_nat i) = Z.of_nat i) as Hu by (unfold u32; rewrite Z.mod_small; lia).
  assert (get_rpc_fn_id d name (rb_link b) = (Ret (Z.of_nat i), k1)) as Hid1.
  { unfold get_rpc_fn_id. rewrite (st_bind_ret _ _ _ _ _ Hrun1).
    rewrite (proj2 (fn_id_fields true (Z.of_nat i))), s32_u32, s32_small; [done|unfold INT_MIN, INT_MAX; lia]. }
  assert (serves s0 devs w (RqFast (rd_id d) (Z.of_nat i) args) (answer_of_plugin bs) devs w' false) as Hsv.
  { eapply (sv_call _ _ _ _ (rd_id d) args x p bs); try done; [by right; eexists| |lia].
    cbn [selected]. by rewrite Nat2Z.id. }
  assert (exists k, call_looked_up d name args n (rb_link b) = (Ret bs, k) /\ linked k (devs, w')) as (k & Hrun & Hk).
  { unfold call_looked_up. rewrite (st_bind_ret _ _ _ _ _ Hid1). rewrite (proj2 (Z.ltb_ge _ _)) by lia.
    destruct (Nat.eqb_spec n 0) as [E0|E0].
    - destruct bs; [|cbn in Hlen; lia].
      destruct (remote_call_fast_void_ok d (Z.of_nat i) args k1 (devs, w) (devs, w')) as (k & Hrun & Hk);
        [done|lia|lia|unfold BUFFER_SIZE; lia|exact Hsv|].
      exists k. split; [|done]. by rewrite (st_bind_ret _ _ _ _ _ Hrun).
    - rewrite Hr, <-Hlen. apply (remote_call_fast_ok d (Z.of_nat i) args bs k1 (devs, w) (devs, w'));
        [done|lia|lia|unfold BUFFER_SIZE; lia|unfold BUFFER_SIZE; lia|].
      by destruct bs; [cbn in Hlen; lia|]. }
  exists (BusRemote k (seen_devices b)). split; [|by apply (mirrors_next b ys (known, w))].
  by apply (on_seen_run y d _ b).
Qed.

Lemma enc_ids_range ds ids devs devs' :
  registers devs ds ids devs' -> forall id, id ∈ ids -> 0 <= id < 65536.
Proof.
  induction 1 as [|devs d i devs1 ds ids devs' _ Hi _ IH]; intros id Hid; [by apply not_elem_of_nil in Hid|].
  apply elem_of_cons in Hid as [->|Hid]; [lia|by apply IH].
Qed.

Lemma mirrors_find b ys known w xs devs q ds st' :
  mirrors all b ys (known, w) xs devs -> Forall spec_sendable q -> (1 <= length q <= 5)%nat ->
  local_find s0 q (known, w) = (Ret ds, st') ->
  exists new b' devs', find_devices tt q b = (Ret new, b') /\ length new = length ds /\
    mirrors all b' (ys ++ new) st' (xs ++ ds) devs'.
Proof.
  intros Hm Hq Hn Hrun0. unfold local_find in Hrun0. cbn [fst snd] in Hrun0.
  destruct ((composite_find_devices (buses s0) q ≫= _) w) as [[ds0| |] w2] eqn:E; try discriminate.
  injection Hrun0 as -> <-.
  apply st_bind_inv in E as (ds1 & w1 & Hfind & E). apply st_bind_inv in E as ([] & w3 & Hat & E).
  apply st_ret_inv in E as [-> ->]. destruct Hfew as [Hall Hfound].
  destruct (Hfound _ _ _ _ Hfind) as [Hds Hlen].
  destruct Hm as [Hk Hseen Hfull Hwf Hknown Hin Hh].
  pose proof (devs_bounded _ _ Hfull Hwf Hin) as Hbound.
  destruct (registers_full devs ds Hfull) as (ids & devs' & Hreg & Hfull' & Helem); [lia|].
  destruct (registers_registered _ _ _ _ Hreg) as (Hl & Hids & Hkept & _ & Hwf').
  destruct (remote_find_devices_ok q ids b (devs, w) (devs', w2)) as (new & b' & Hrun & Hk' & Hseen' & Hp & Hst);
    [done|done|done|done| |by eapply enc_ids_range|lia|].
  { apply (sv_query _ _ _ q ds ids devs' w1 w2); [done| |lia|cbn [fst]; lia|exact Hreg]. rewrite <-Hat. f_equal. by apply fresh_devices_equiv. }
  exists new, b', devs'. split_and!; [exact Hrun|by rewrite (Forall2_length _ _ _ Hst)|].
  split; cbn [fst snd]; [done..|by apply Hwf'| | |].
  - intros d. rewrite Helem, elem_of_app, Hknown, list_elem_of_fmap. naive_solver.
  - intros d [Hd|Hd]%Helem; [by apply Hin|by apply Hds].
  - apply Forall2_app.
    + eapply Forall2_impl; [exact Hh|]. intros y x. by apply mirror_kept.
    + apply Forall2_same_length_lookup. split; [by rewrite (Forall2_length _ _ _ Hst)|].
      intros i y x Hy Hx. destruct (Hids _ _ Hx) as (j & Hj & Hdj). exists j. split; [|done].
      apply (Forall2_lookup_lr _ _ _ _ _ _ Hst Hy Hj).
Qed.

(** The remote machine simulates the local one. *)
#[local] Instance remote_simulates :
  Simulates remote_machine (local_machine s0) (fun b ys st xs => exists devs, mirrors all b ys st xs devs).
Proof.
  split.
  - intros b ys st xs [devs Hm]. apply (Forall2_length _ _ _ (mi_handles _ _ _ _ _ _ Hm)).
  - intros b ys [known w] xs q ds st' [devs Hm] Hq Hn Hrun.
    destruct (mirrors_find _ _ _ _ _ _ _ _ _ Hm Hq Hn Hrun) as (new & b' & devs' & ? & ? & ?).
    exists new, b'. by eauto.
  - intros b ys [known w] xs h x y off n bs st' [devs Hm] Hx Hy Hoff Hn Hrun.
    cbn [mc_read local_machine] in Hrun. unfold st_snd in Hrun. cbn [fst snd] in Hrun.
    destruct (read_block x off n w) as [r w'] eqn:E. injection Hrun as -> <-.
    destruct (mirrors_read _ _ _ _ _ _ _ _ _ _ _ _ _ Hm Hx Hy Hoff Hn E) as (b' & ? & ?).
    exists b'. by eauto.
  - intros b ys [known w] xs h x y off data st' [devs Hm] Hx Hy Hoff Hn Hrun.
    cbn [mc_write local_machine] in Hrun. unfold st_snd in Hrun. cbn [fst snd] in Hrun.
    destruct (dev_write x off data w) as [r w'] eqn:E. injection Hrun as -> <-.
    destruct (mirrors_write _ _ _ _ _ _ _ _ _ _ _ _ Hm Hx Hy Hoff Hn E) as (b' & ? & ?).
    exists b'. by eauto.
  - intros b ys [known w] xs h x y name args n bs st' [devs Hm] Hx Hy Hname Hargs Hn Hrun.
    cbn [mc_call local_machine] in Hrun. unfold st_snd in Hrun. cbn [fst snd] in Hrun.
    destruct (local_call s0 x name args n w) as [r w'] eqn:E. injection Hrun as -> <-.
    destruct (mirrors_call _ _ _ _ _ _ _ _ _ _ _ _ _ _ Hm Hx Hy Hname Hargs Hn E) as (b' & ? & ?).
    exists b'. by eauto.
Qed.
End machines.

(** The run of a program, for a client that has just connected. *)
Lemma program_transparent {A} (p : program A) all b w a known w' :
  few all -> plugins_ok -> linked (rb_link b) ([], w) -> seen_devices b = [] -> program_fits p ->
  run_program (local_machine s0) p [] ([], w) = (Ret a, (known, w')) ->
  exists b' devs', run_program remote_machine p [] b = (Ret a, b') /\
    linked (rb_link b') (devs', w') /\ forall d, Some d ∈ devs' <-> Some d ∈ known.
Proof.
  intros Hfew Hplugins Hk Hseen Hfits Hrun.
  destruct (run_simulated remote_machine (local_machine s0) _ (Simulates0 := remote_simulates all Hfew Hplugins)
    p b [] ([], w) [] a (known, w') Hfits) as (b' & ys & xs & Hrun' & devs' & Hm); [|exact Hrun|].
  - exists []. split; [done| |by apply not_elem_of_nil| |done| |constructor].
    + unfold seen_wf. rewrite Hseen. constructor.
    + split; [cbn; lia|]. intros i j d Hi. by rewrite lookup_nil in Hi.
    + intros d Hd. by apply not_elem_of_nil in Hd.
  - exists b', devs'. split_and!; [done|apply (mi_linked _ _ _ _ _ _ Hm)|apply (mi_known _ _ _ _ _ _ Hm)].
Qed.
End transparent.
