(* ===== verification/RemoteSession.v ===== *)
(** * A client session from connection to goodbye

    The whole life of a client of the library: the bus connects, a program
    runs on its devices, the destructor of the connection says goodbye.  No
    operation changes the descriptor the connection holds, so the destructor
    ends the session that the constructor began. *)

From Stdlib Require Import ZArith Lia Ascii String.
From stdpp Require Import base tactics list numbers strings gmap fin_maps.
From S2P Require Import Prelude CxxString Version CompSpec Device Bus Wire Protocol Client.
From S2P Require Import DeviceRemote ClientSpec RemoteSpec Server ServerHandlers ServerFrame.
From S2P Require Import ServerSpec ServerQuery ServerSafety ServerLoop ServerLoopSpec ServerStream.
From S2P Require Import ServerFrames ServerRun EndToEnd RemoteProgram Address.

(** ** The descriptor of a connection *)

Section socket.
Context {N : Type} `{!Peer N} {CA : ConApi}.
Implicit Types (k : Link N) (b : hwio_bus_remote N).

Definition same_socket k k' : Prop := sockfd (ln_con k') = sockfd (ln_con k).
Definition same_bus_socket b b' : Prop := same_socket (rb_link b) (rb_link b').

#[local] Instance same_socket_preorder : PreOrder same_socket.
Proof. unfold same_socket. split; [by intros ?|]. intros k1 k2 k3 H1 H2. by rewrite H2. Qed.

#[local] Instance same_bus_socket_preorder : PreOrder same_bus_socket.
Proof. unfold same_bus_socket, same_socket. split; [by intros ?|]. intros k1 k2 k3 H1 H2. by rewrite H2. Qed.

Lemma socket_store off bs : within same_socket (con_store off bs).
Proof. intros k. unfold con_store. by case_match. Qed.
Lemma socket_load off n : within same_socket (con_load off n).
Proof. intros k. unfold con_load. by case_match. Qed.
Lemma socket_cstr off : within same_socket (con_cstr off).
Proof. intros k. unfold con_cstr. by case_match. Qed.
Lemma socket_rx_bytes n : within same_socket (rx_bytes n).
Proof. intros k. unfold rx_bytes. case_match; [done|]. by destruct (rx_loop n (ln_in k)) as [[r g] e]. Qed.
Lemma socket_give bs : within same_socket (give bs).
Proof. intros k. unfold give. by destruct (peer_takes bs (ln_peer k)) as [[|e|f] n]. Qed.
Lemma socket_outs evs : within same_socket (st_modify (set_ln_out evs)).
Proof. by intros k. Qed.
#[local] Hint Resolve socket_store socket_load socket_cstr socket_rx_bytes socket_give socket_outs : frame.

Lemma socket_tx_loop evs bytes : within same_socket (tx_loop evs bytes).
Proof. revert bytes. induction evs as [|[n| |e] evs IH]; intros [|b0 bs]; cbn [tx_loop]; frame. Qed.

Lemma socket_tx_pckt : within same_socket tx_pckt.
Proof. intros k. unfold tx_pckt. case_match; [apply socket_tx_loop|done]. Qed.

Lemma socket_rx_pckt : within same_socket rx_pckt.
Proof. unfold rx_pckt. frame. Qed.
#[local] Hint Resolve socket_tx_pckt socket_rx_pckt : frame.

Lemma socket_transact e : within same_socket (transact e).
Proof. unfold transact, assert_response. frame. Qed.
#[local] Hint Resolve socket_transact : frame.

Lemma socket_remote_read d off n : within same_socket (remote_read d off n).
Proof. unfold remote_read. frame. Qed.
Lemma socket_remote_write d off data : within same_socket (remote_write d off data).
Proof. unfold remote_write. frame. Qed.
Lemma socket_call_looked_up d name args n : within same_socket (call_looked_up d name args n).
Proof.
  unfold call_looked_up, get_rpc_fn_id, ask_rpc_fn_id, remote_call_fast_void, remote_call_fast, call_by_id.
  frame.
Qed.

Lemma socket_store_items i q : within same_socket (store_items i q).
Proof. revert i. induction q as [|x q IH]; intros i; cbn [store_items]; unfold copy_str_to_resp; frame. Qed.

Lemma socket_ping : within same_socket ping.
Proof. unfold ping, tx_command. frame. Qed.

Lemma bus_on_link {A} (m : ST (Link N) A) : within same_socket m -> within same_bus_socket (on_link m).
Proof.
  intros H b. specialize (H (rb_link b)). unfold on_link. by destruct (m (rb_link b)) as [r k].
Qed.

Lemma bus_on_seen {A} i (m : hwio_device_remote -> ST (Link N) A) :
  (forall d, within same_socket (m d)) -> within same_bus_socket (on_seen i m).
Proof.
  intros H. unfold on_seen. frame; [|by apply bus_on_link]. intros b. unfold seen_device. by case_match.
Qed.

Lemma bus_mapM {A C} (f : A -> ST (hwio_bus_remote N) C) xs :
  (forall x, within same_bus_socket (f x)) -> within same_bus_socket (st_mapM f xs).
Proof. intros H. induction xs as [|x xs IH]; cbn [st_mapM]; frame. Qed.

Lemma bus_find q : within same_bus_socket (remote_find_devices q).
Proof.
  unfold remote_find_devices.
  frame; [apply bus_on_link; unfold spec_list_to_query; frame; apply socket_store_items|
          apply bus_on_link, socket_tx_pckt|apply bus_on_link, socket_rx_pckt|].
  apply bus_mapM. intros x. frame; [apply bus_on_link, socket_load|].
  intros b. unfold hwio_dev_from_id. by case_match.
Qed.

Lemma bus_read_block i off n : within same_bus_socket (read_block i off n).
Proof.
  intros b. unfold read_block. cbn [dev_read remote_dev].
  pose proof (bus_on_seen i (fun d => remote_read d off n) (fun d => socket_remote_read d off n) b) as H.
  unfold mbind at 1, ST_bind. unfold st_fst at 1. cbn [fst snd].
  by destruct (on_seen i _ b) as [[bs|e|f] b'].
Qed.

Lemma bus_program {A} (p : program A) ys : within same_bus_socket (run_program remote_machine p ys).
Proof.
  revert ys. induction p as [a|q k IH|h off n k IH|h off data k IH|h name args n k IH]; intros ys;
    cbn [run_program]; unfold handle; frame.
  - apply bus_find.
  - apply bus_read_block.
  - apply bus_on_seen. intros d. apply socket_remote_write.
  - apply bus_on_seen. intros d. apply socket_call_looked_up.
Qed.
End socket.

(** A connection that fails: the destructor of the member [server] says
    goodbye on the socket that was never connected, and the exception of
    [send] leaves the destructor. *)
Lemma failed_connect_terminates {N} `{!Peer N} {CA : ConApi} (b : hwio_bus_remote N) errno evs :
  0 <= con_socket -> con_connect con_socket < 0 -> length (con_tx (ln_con (rb_link b))) = BUFFER_SIZE ->
  ln_out (rb_link b) = TxError errno :: evs ->
  exists b', connect_bus b = (Undef Terminated, b').
Proof.
  intros Hs Hc Htx Hout. unfold connect_bus, on_link, connect_to_server.
  erewrite (st_bind_ret (st_modify _)) by done. rewrite (proj2 (Z.ltb_ge _ _)) by done.
  rewrite (proj2 (Z.ltb_lt _ _)) by done. erewrite (st_bind_ret st_get) by done. cbn [st_throw].
  unfold mbind at 1, ST_bind. cbn [rb_link seen_devices]. set (k := set_con _ _).
  unfold destroy_con. erewrite (st_bind_ret st_get) by done.
  change (sockfd (ln_con k)) with con_socket. rewrite (proj2 (Z.leb_le _ _)) by done.
  unfold no_throw, bye. rewrite tx_command_built by exact Htx. set (tx := enc_header _ ++ _).
  assert (tx_pckt (set_tx tx k) = tx_loop (TxError errno :: evs) (enc_header (Header HWIO_CMD_BYE 0)) (set_tx tx k)) as E.
  { unfold tx_pckt. change (ln_out (set_tx tx k)) with (ln_out (rb_link b)). rewrite Hout.
    change (con_tx (ln_con (set_tx tx k))) with tx. unfold tx.
    rewrite (dec_enc_header (Header HWIO_CMD_BYE 0)) by by split. cbn [body_len]. change (Z.to_nat 0 + sizeof_header)%nat with 3%nat.
    rewrite (proj2 (Nat.leb_le 3 _)) by (rewrite length_app, enc_header_length; lia).
    by rewrite take_app_length' by apply (enc_header_length (Header HWIO_CMD_BYE 0)). }
  rewrite E. by eexists.
Qed.

(** ** Sessions *)

(** The bus is constructed, a program runs, the connection is destroyed. *)
Definition remote_session {N A} `{!Peer N} {CA : ConApi} (p : program A) : ST (hwio_bus_remote N) A :=
  connect_bus ≫= fun _ => run_program remote_machine p [] ≫= fun a =>
  destroy_bus ≫= fun _ => mret a.

Section session.
Context {W D B : Type} `{!IDev W D} `{!IBus W D B} {VG : VectorGrowth} {PL : Platform}.
Context {CA : ConApi} {RS : Resolver}.
Context (l : loc) (fd : Z) (s0 : HwioServer W D B) (cut : list byte -> list con_event).
Implicit Types (w : W) (n : World (W:=W) (D:=D) (B:=B)).

#[local] Instance peer_of_server : Peer (World (W:=W) (D:=D) (B:=B)) := server_peer fd cut.

(** A bus that was just constructed, and the server that has accepted its
    connection as the client [l] on [fd]. *)
Definition fresh_bus (b : hwio_bus_remote (World (W:=W) (D:=D) (B:=B))) w : Prop :=
  exists rx tx host c n, new_con rx tx host = Ret c /\ b = BusRemote (MkLink c [] [] n) [] /\
    length rx = BUFFER_SIZE /\ length tx = BUFFER_SIZE /\ session l fd s0 n [] w [].

Context (Hcut : forall bs, arrives [] (cut bs) bs).
#[local] Instance served_by_server : Served World (list (option D) * W) := server_served l fd s0 cut Hcut.

Lemma connected b w :
  0 <= con_socket -> 0 <= con_connect con_socket -> fresh_bus b w ->
  exists b', connect_bus b = (Ret tt, b') /\ linked (rb_link b') ([], w) /\ seen_devices b' = [] /\
    sockfd (ln_con (rb_link b')) = con_socket.
Proof.
  intros Hs Hc (rx & tx & host & c & n & Hnew & -> & Hrx & Htx & Hn).
  unfold new_con in Hnew. destruct (resolve_host host); try discriminate. injection Hnew as <-.
  set (k := MkLink (Con con_socket host rx tx) [] [] n).
  destruct (ping_ok k ([], w) ([], w)) as (k' & Hping & Hk').
  - split; [exact Hrx|exact Htx|constructor|constructor|exact Hn].
  - apply sv_ping.
  - exists (BusRemote k' []). split_and!; [|done|done|].
    + unfold connect_bus, on_link, connect_to_server. cbn [rb_link seen_devices].
      erewrite (st_bind_ret (st_modify _)) by done.
      change (set_con _ _) with k. rewrite (proj2 (Z.ltb_ge _ _)) by done.
      rewrite (proj2 (Z.ltb_ge (con_connect _) _)) by done. by rewrite (st_bind_ret _ _ _ _ _ Hping).
    + pose proof (socket_ping k) as E. unfold same_socket in E. by rewrite Hping in E.
Qed.

Lemma session_run `{!DevReadExact W D} {A} (p : program A) all b w a known w' :
  0 <= con_socket -> 0 <= con_connect con_socket -> fresh_bus b w ->
  few s0 all -> plugins_ok s0 -> program_fits p ->
  run_program (local_machine s0) p [] ([], w) = (Ret a, (known, w')) ->
  exists b', remote_session p b = (Ret a, b') /\
    let served := ln_peer (rb_link b') in
    fd_to_client served.1.1 !! fd = None /\ served.1.2 = w'.
Proof.
  intros Hs Hc Hb Hfew Hplugins Hfits Hrun.
  destruct (connected b w Hs Hc Hb) as (b1 & Hrun1 & Hl1 & Hseen & Hsock).
  destruct (program_transparent l fd s0 cut Hcut p all b1 w a known w')
    as (b2 & devs2 & Hrun2 & Hl2 & _); [done..|].
  destruct (@destroy_ok _ _ peer_of_server _ served_by_server (rb_link b2) (devs2, w') [] (devs2, w') Hl2) as (k3 & Hrun3 & Hgone); [apply sv_bye|].
  assert (sockfd (ln_con (rb_link b2)) = con_socket) as Hsock2.
  { pose proof (bus_program p [] b1) as E. unfold same_bus_socket, same_socket in E.
    rewrite <-Hsock, <-E. f_equal. f_equal. f_equal. symmetry. exact (f_equal snd Hrun2). }
  rewrite Hsock2, (proj2 (Z.leb_le _ _)) in Hgone by done.
  exists (BusRemote k3 []). split; [|exact Hgone].
  unfold remote_session. rewrite (st_bind_ret _ _ _ _ _ Hrun1).
  erewrite st_bind_ret by exact Hrun2. erewrite st_bind_ret.
  2:{ unfold destroy_bus. erewrite (st_bind_ret (st_modify _)) by done.
      unfold on_link. cbn [rb_link seen_devices]. by rewrite Hrun3. }
  done.
Qed.

(** C2: the client library, the wire and the server together are transparent:
    a program that looks devices up, reads, writes and calls functions gives
    the same result in a session on a remote bus (connect, run, destructor)
    as on the devices of the server themselves, and leaves the devices in the
    same state; afterwards the server has removed the client.  The pieces in
    which the messages travel do not matter.  Needed: the operations fit the
    buffers, the server has at most 256 devices, its functions keep their
    contract, and the local run returns. *)
Theorem remote_session_correct `{!DevReadExact W D} {A} (p : program A) all b w a known w' :
  0 <= con_socket -> 0 <= con_connect con_socket -> fresh_bus b w ->
  few s0 all -> plugins_ok s0 -> program_fits p ->
  run_program (local_machine s0) p [] ([], w) = (Ret a, (known, w')) ->
  exists b', remote_session p b = (Ret a, b') /\
    let served := ln_peer (rb_link b') in
    fd_to_client served.1.1 !! fd = None /\ served.1.2 = w'.
Proof. apply session_run. Qed.

(** C24: a read of a device the client does not hold on the server fails with
    an [hwio_error_rw] that shows the server's code and text, followed by
    what an earlier answer left in the receive buffer, because the text is
    sent without its terminator.  The devices are as before and the server has
    dropped the client. *)
Theorem remote_read_not_allocated d off len k devs w stale :
  linked k (devs, w) -> owned devs (rd_id d) = None -> 0 <= rd_id d < 65536 -> 0 <= off < 2 ^ 32 ->
  (len <= UINT16_MAX)%nat -> cstr (drop 33 (con_rx (ln_con k))) = Some stale ->
  exists k', remote_read d off len k =
    (Throw (Exn EX_error_rw ("Wrong response from server on read request 94: READ: device is not allocated"
       +:+ of_chars stale)), k') /\
    let served := ln_peer k' in fd_to_client served.1.1 !! fd = None /\ served.1.2 = w.
Proof.
  intros Hk Ho Hid Hoff Hlen Hst.
  edestruct (remote_read_refused d off len k (devs, w) ACCESS_DENIED "READ: device is not allocated"
    (devs, w) stale Hk Hid Hoff Hlen) as (k' & Hrun & Hgone);
    [|by cbv|apply Nat.leb_le; reflexivity|exact Hst|].
  - apply sv_refused. cbn [refusal rq_devId fst]. by rewrite Ho.
  - exists k'. split; [|exact Hgone]. exact Hrun.
Qed.
End session.
