(* ===== verification/RemoteMmap.v ===== *)
(** * Memory mapped devices through the network

    The whole stack at once: a program finds a device on a remote bus, writes a
    block and reads it back.  The client library, the wire, the server, its
    buses and the mapped memory are all the definitions of their files; the
    memory file of the server has the bytes afterwards. *)

From Stdlib Require Import ZArith Lia Ascii String.
From stdpp Require Import base tactics list numbers strings gmap fin_maps.
From S2P Require Import Prelude CxxString Version CompSpec Device Mmap Bus Wire Protocol Client.
From S2P Require Import DeviceRemote ClientSpec RemoteSpec Server ServerHandlers ServerFrame.
From S2P Require Import ServerSpec ServerQuery ServerSafety ServerLoop ServerLoopSpec ServerStream.
From S2P Require Import ServerFrames ServerRun MmapServer EndToEnd RemoteProgram Address RemoteSession.

Section memory.
Context {OS : Posix}.
Implicit Types (w : MmapWorld) (d : nat).

(** The same memory, seen through the same windows. *)
Definition same_memory w w' : Prop :=
  mw_mem w' = mw_mem w /\
  forall d dev, mw_devs w !! d = Some dev -> exists dev', mw_devs w' !! d = Some dev' /\
    mem_file_name dev' = mem_file_name dev /\ dev_base dev' = dev_base dev.

#[export] Instance same_memory_preorder : PreOrder same_memory.
Proof.
  split; [intros w; split; [done|by eauto]|]. intros w1 w2 w3 [E1 H1] [E2 H2]. split; [congruence|].
  intros d dev Hd. destruct (H1 d dev Hd) as (dev2 & Hd2 & F2 & B2).
  destruct (H2 d dev2 Hd2) as (dev3 & Hd3 & F3 & B3). exists dev3. split; [done|]. split; congruence.
Qed.

Lemma attach_memory d : within same_memory (attach d : ST MmapWorld unit).
Proof.
  intros w. cbn [attach mmap_dev]. destruct (mw_devs w !! d) as [dev|] eqn:Hd.
  - rewrite (mmap_attach_run w d dev Hd). cbv zeta.
    assert (forall fd m, same_memory w (attached_world w d dev fd m)) as H.
    { intros fd m. split; [done|]. intros x devx Hx. cbn [attached_world mw_devs].
      destruct (decide (d = x)) as [<-|Hne].
      - rewrite lookup_insert_eq. eexists. split; [done|]. replace devx with dev by congruence. done.
      - rewrite lookup_insert_ne by done. by exists devx. }
    repeat case_match; try apply H. done.
  - unfold mmap_attach, get_dev. unfold mbind at 1, ST_bind. by rewrite Hd.
Qed.

Lemma attach_all_memory ds w w' :
  st_iter (attach : nat -> ST MmapWorld unit) ds w = (Ret tt, w') -> same_memory w w'.
Proof.
  revert w. induction ds as [|d ds IH]; intros w H; cbn [st_iter] in H; [by apply st_ret_inv in H as [_ ->]|].
  apply st_bind_inv in H as ([] & w1 & H1 & H). etransitivity; [|by apply IH].
  pose proof (attach_memory d w) as Hm. by rewrite H1 in Hm.
Qed.
End memory.

(** Find, write, read back. *)
Definition write_read (q : list hwio_comp_spec) (off : Z) (data : list byte) : program (list byte) :=
  PFind q (fun _ => PWrite 0 off data (PRead 0 off (length data) PDone)).

Lemma write_read_fits q off data :
  Forall spec_sendable q -> (1 <= length q <= 5)%nat -> 0 <= off < 2 ^ 32 -> (length data <= 2037)%nat ->
  program_fits (write_read q off data).
Proof.
  intros Hq Hl Ho Hd. apply pf_find; [done..|]. intros _. apply pf_write; [done..|].
  apply pf_read; [done|lia|]. intros bs. apply pf_done.
Qed.

Section local.
Context {OS : Posix} {B : Type} `{!IBus MmapWorld nat B} `{!LocalBus MmapWorld nat B}.
Context (s0 : HwioServer MmapWorld nat B) (n : Z).
Implicit Types (w : MmapWorld) (d : nat).

Lemma local_few : (length (all_devices s0) <= 256)%nat -> few s0 (all_devices s0).
Proof.
  intros Hl. split; [done|]. intros q w ds w' H.
  destruct (composite_find_local (D:=nat) (buses s0) q w) as (ds' & E & Hs). rewrite E in H. injection H as <- _.
  split; [intros d Hd; by eapply elem_of_submseteq, sublist_submseteq|].
  pose proof (sublist_length _ _ Hs) as H. fold (all_devices s0) in H. lia.
Qed.

(** The memory after a block is stored through the device. *)
Definition stored_in (dev : hwio_device_mmap) (off : Z) (data : list byte) w w' : Prop :=
  forall f a, mw_mem w' !! (f, a) =
    if decide (f = mem_file_name dev /\ dev_base dev + off <= a < dev_base dev + off + Z.of_nat (length data))
    then data !! Z.to_nat (a - (dev_base dev + off)) else mw_mem w !! (f, a).

(** The program in the process of the server. *)
Lemma write_read_run q off data d dev ds w :
  0 <= n <= 2 ^ 32 -> devices_ready s0 n w ->
  composite_find_devices (buses s0) q w = (Ret (d :: ds), w) -> mw_devs w !! d = Some dev ->
  0 <= off -> off + Z.of_nat (length data) <= n ->
  exists known w', run_program (local_machine s0) (write_read q off data) [] ([], w) = (Ret data, (known, w')) /\
    stored_in dev off data w w'.
Proof.
  intros Hn Hs Hfind Hd Hoff Hfit.
  assert (forall x, x ∈ d :: ds -> usable n w x) as Hus.
  { intros x Hx. apply Hs. destruct (composite_find_local (D:=nat) (buses s0) q w) as (ds' & E & Hsub).
    rewrite Hfind in E. injection E as <-. by eapply elem_of_submseteq, sublist_submseteq. }
  destruct (attach_all n (fresh_devices [] (d :: ds)) w) as (w1 & Ha & Hk & Ho).
  { intros x Hx%fresh_devices_incl. by apply Hus. }
  destruct (attach_all_memory _ _ _ Ha) as [Hm1 Hsame].
  destruct (Hsame d dev Hd) as (dev1 & Hd1 & Hfile & Hbase).
  assert (usable n w1 d) as Hu1 by (apply Hk, Hus; by left).
  assert (opened w1 d) as Ho1.
  { destruct (fresh_devices_complete (W:=MmapWorld) [] (d :: ds) d) as [Hin|Hin]; [by left|by apply not_elem_of_nil in Hin|by apply Ho]. }
  pose proof (open_accessible n w1 d off _ Hu1 Ho1 Hoff Hfit) as Hacc.
  pose proof (mmap_block_write w1 d dev1 off data Hd1 Hoff ltac:(lia) Hacc) as Hw.
  set (w2 := MWorld _ _) in Hw.
  assert (shows w2 d off data) as Hshows.
  { intros i b Hi. cbn [peek mmap_byte_device]. unfold w2. rewrite mmap_peek_store by done.
    apply lookup_lt_Some in Hi as Hlt. rewrite decide_True by lia.
    by replace (Z.to_nat (off + Z.of_nat i - off)) with i by lia. }
  exists (map Some (d :: ds)), w2. split.
  - unfold write_read. cbn [run_program].
    erewrite st_bind_ret.
    2:{ cbn [mc_find local_machine]. unfold local_find. cbn [fst snd].
        rewrite (st_bind_ret _ _ _ _ _ Hfind). by rewrite (st_bind_ret _ _ _ _ _ Ha). }
    cbn [app]. erewrite (st_bind_ret (handle _ 0)) by done.
    erewrite (st_bind_ret (mc_write _ _ _ _)).
    2:{ cbn [mc_write local_machine]. unfold st_snd. cbn [fst snd dev_write mmap_dev]. by rewrite Hw. }
    erewrite (st_bind_ret (handle _ 0)) by done.
    erewrite (st_bind_ret (mc_read _ _ _ _)).
    2:{ cbn [mc_read local_machine]. unfold st_snd, read_block. cbn [fst snd dev_read mmap_dev].
        rewrite ihwio_dev_read_shows by (done || lia). done. }
    done.
  - intros f a. unfold w2. cbn [mw_mem]. rewrite lookup_store_mem, Hfile, Hbase, Hm1. done.
Qed.
End local.

(** ** Properties *)

Section properties.
Context {OS : Posix} {B : Type} `{!IBus MmapWorld nat B} `{!LocalBus MmapWorld nat B}.
Context {VG : VectorGrowth} {PL : Platform} {CA : ConApi} {RS : Resolver}.
Context (l : loc) (fd : Z) (s0 : HwioServer MmapWorld nat B) (cut : list byte -> list con_event).
Context (Hcut : forall bs, arrives [] (cut bs) bs).

#[local] Instance mapped_read_exact : DevReadExact MmapWorld nat.
Proof. intros d addr k w w' bs H. by apply ihwio_dev_read_length in H. Qed.
#[local] Instance peer_of_mmap_server : Peer (World (W:=MmapWorld) (D:=nat) (B:=B)) := server_peer fd cut.

(** C3: a block written through a remote bus arrives in the memory of the
    server and is read back unchanged.  A client connects, finds a device,
    writes [data] at [off], reads as many bytes back and disconnects: it gets
    [data], the memory file of the device has [data] at the base of the device
    plus [off] and is otherwise as before, and the server has removed the
    client.  Needed: the devices of the server, at most 256, can be attached
    and have [n] bytes, the block lies in them and fits a message. *)
Theorem remote_block_roundtrip n q off data d dev ds b w :
  0 <= con_socket -> 0 <= con_connect con_socket -> fresh_bus l fd s0 b w ->
  0 <= n <= 2 ^ 32 -> (length (all_devices s0) <= 256)%nat -> plugins_ok s0 -> devices_ready s0 n w ->
  Forall spec_sendable q -> (1 <= length q <= 5)%nat ->
  composite_find_devices (buses s0) q w = (Ret (d :: ds), w) -> mw_devs w !! d = Some dev ->
  0 <= off < 2 ^ 32 -> off + Z.of_nat (length data) <= n -> (length data <= 2037)%nat ->
  exists b', remote_session (write_read q off data) b = (Ret data, b') /\
    let served := ln_peer (rb_link b') in
    fd_to_client served.1.1 !! fd = None /\ stored_in dev off data w served.1.2.
Proof.
  intros Hs Hc Hb Hn Hall Hpl Hready Hq Hql Hfind Hd Hoff Hfit Hlen.
  destruct (write_read_run s0 n q off data d dev ds w) as (known & w' & Hrun & Hst); [done..|lia|done|].
  destruct (session_run l fd s0 cut Hcut (write_read q off data) (all_devices s0) b w data known w')
    as (b' & Hrun' & Hgone & Hw); [done..|by apply local_few|done|by apply write_read_fits|done|].
  exists b'. split; [done|]. cbv zeta in *. by rewrite Hw.
Qed.
End properties.
