(* ===== verification/RemoteTest.v ===== *)
(** * A concrete session, and the witnesses of the client's properties

    A client connected to the server of [ServerTest], which has the device 0
    and the function ["echo"]. *)

From Stdlib Require Import ZArith Lia Ascii String.
From stdpp Require Import base tactics list numbers strings gmap fin_maps.
From S2P Require Import Prelude CxxString Version CompSpec Device Mmap Bus Wire Protocol Client.
From S2P Require Import DeviceRemote ClientSpec RemoteSpec Server ServerHandlers ServerFrame.
From S2P Require Import ServerSpec ServerQuery ServerSafety ServerLoop ServerLoopSpec ServerStream.
From S2P Require Import ServerFrames ServerRun MmapServer ServerTest EndToEnd RemoteProgram RemoteSession RemoteMmap Address.

Module TestSession.
Import TestMachine TestServer.

#[export] Instance test_con_api : ConApi :=
  {| strerror _ := "error"; con_socket := 5; con_connect _ := 0 |}.

#[export] Instance test_resolver : Resolver := {|
  getaddrinfo ip port :=
    if bool_decide (port = "8896"%string) then (0, Some (AddrInfo (chars ip) 8896)) else (-8, None);
  gai_strerror _ := "Servname not supported";
  inet_ntop bytes := Some (of_chars bytes)
|}.

(** What the server sends arrives in two pieces. *)
Definition halves (bs : list byte) : list con_event :=
  [ConData (take 3 bs); ConIntr; ConData (drop 3 bs)].

Lemma halves_arrive bs : arrives [] (halves bs) bs.
Proof.
  assert (bs = take 3 bs ++ drop 3 bs ++ []) as E by by rewrite app_nil_r, take_drop.
  rewrite E at 2. unfold halves. repeat constructor.
Qed.

Definition test_server : HwioServer MmapWorld nat (hwio_bus_primitive nat) := server_with [] [].

Definition test_peer : World (W:=MmapWorld) (D:=nat) (B:=hwio_bus_primitive nat) :=
  ((test_server, test_world), quiet_net []).

Definition no_devices_wf : devs_wf (@nil (option nat)).
Proof. split; [cbn; lia|]. intros i j d Hi. by rewrite lookup_nil in Hi. Defined.

Lemma no_client_wf : client_wf (the_client [] []).
Proof.
  split; [|apply no_devices_wf]. split; cbn [rb_buffer curr_ptr curr_len the_client ci_rx].
  - rewrite length_app, length_replicate. cbn [length]. lia.
  - cbn [length]. lia.
Qed.

Lemma no_server_wf : server_wf test_server.
Proof.
  split; cbn [fd_to_client heap clients next_loc tx_buffer test_server server_with].
  - intros fd l [<- <-]%lookup_singleton_Some. eexists. by rewrite lookup_singleton_eq.
  - intros [|i] l Hl; cbn in Hl; simplify_eq. eexists. by rewrite lookup_singleton_eq.
  - intros l c [<- <-]%lookup_singleton_Some. split_and!; [done|apply lookup_singleton_eq|lia|].
    apply no_client_wf.
  - apply length_replicate.
Qed.

Lemma test_session : session 0%nat 7 test_server test_peer [] test_world [].
Proof.
  split; cbn [fst snd test_peer]; [done|done|apply no_server_wf| |done|done| |lia|done|done].
  - exists (the_client [] []). split; [|by split; [|left]].
    split; [apply test_heap|apply no_client_wf|done|apply no_devices_wf|done|apply test_tx|done].
  - exists [], 0, []. split_and!; [done|constructor|constructor].
Qed.

Definition test_bus : hwio_bus_remote World :=
  BusRemote (MkLink (Con (-1) "localhost:8896" (replicate BUFFER_SIZE NUL) (replicate BUFFER_SIZE NUL))
    [] [] test_peer) [].

Lemma test_fresh : fresh_bus 0%nat 7 test_server test_bus test_world.
Proof.
  eexists (replicate BUFFER_SIZE NUL), (replicate BUFFER_SIZE NUL), "localhost:8896"%string, _, test_peer.
  split_and!; [reflexivity|reflexivity|apply length_replicate|apply length_replicate|apply test_session].
Qed.

(** Write, read back, call: the bytes read and the result of the call. *)
Definition test_program : program (list byte * list byte) :=
  PFind [empty_spec] (fun _ =>
  PWrite 0 4 (chars "AB") (
  PRead 0 3 4 (fun bs =>
  PCall 0 "echo" (chars "Z") 1 (fun r => PDone (bs, r))))).

Lemma test_program_fits : program_fits test_program.
Proof.
  constructor; [apply sendable_empty|cbn; lia|]. intros _.
  constructor; [lia|apply Nat.leb_le; reflexivity|]. constructor; [lia|lia|]. intros bs.
  constructor; [split; [apply echo_name|apply echo_short]|cbn; lia|lia|]. intros r. constructor.
Qed.

Lemma test_few : few test_server [0%nat].
Proof.
  split; [cbn; lia|]. intros q w ds w' H. cbn [composite_find_devices test_server server_with buses] in H.
  apply st_bind_inv in H as (ds1 & w1 & [= <- <-] & H).
  apply st_bind_inv in H as (ds2 & w2 & [= <- <-] & H). apply st_ret_inv in H as [<- <-].
  cbn [the_bus _all_devices filter_device_by_spec]. destruct (device_selected _ _ _); cbn; (split; [|lia]).
  - done.
  - intros d Hd. by apply elem_of_nil in Hd.
Qed.

Lemma echo_local : plugin_local echo.
Proof. intros d args tail w Hl. destruct args as [|x [|]]; cbn in Hl; [lia|done|lia]. Qed.

Lemma test_plugins : plugins_ok test_server.
Proof.
  split; [cbn; lia|]. intros [|i] p Hp; cbn in Hp; simplify_eq. split; [apply echo_local|apply echo_exact].
Qed.

Definition test_local := run_program (local_machine test_server) test_program [] ([], test_world).

Lemma test_local_result : test_local = (Ret ([NUL] ++ chars "AB" ++ [NUL], chars "Z"), test_local.2).
Proof. rewrite (surjective_pairing test_local) at 1. f_equal; vm_compute; reflexivity. Qed.

Lemma remote_session_correct_witness :
  exists b', remote_session (Peer0 := server_peer 7 halves) test_program test_bus =
    (Ret ([NUL] ++ chars "AB" ++ [NUL], chars "Z"), b') /\
    fd_to_client (ln_peer (rb_link b')).1.1 !! 7 = None /\ (ln_peer (rb_link b')).1.2 = test_local.2.2.
Proof.
  apply (remote_session_correct 0%nat 7 test_server halves halves_arrive test_program [0%nat] test_bus
    test_world ([NUL] ++ chars "AB" ++ [NUL], chars "Z") test_local.2.1 test_local.2.2).
  - cbn. lia.
  - cbn. lia.
  - exact test_fresh.
  - exact test_few.
  - exact test_plugins.
  - exact test_program_fits.
  - rewrite <-(surjective_pairing test_local.2). exact test_local_result.
Defined.

Lemma remote_block_roundtrip_witness :
  exists b', remote_session (Peer0 := server_peer 7 halves) (write_read [empty_spec] 4 (chars "HELLO")) test_bus =
    (Ret (chars "HELLO"), b') /\
    mw_mem (ln_peer (rb_link b')).1.2 !! ("mem0.dat"%string, 4112) = Some (byte_of_Z 79).
Proof.
  destruct (remote_block_roundtrip 0%nat 7 test_server halves halves_arrive 16 [empty_spec] 4 (chars "HELLO")
    0%nat (set_fd 3 true test_dev) [] test_bus test_world) as (b' & H1 & _ & H2).
  - cbn. lia.
  - cbn. lia.
  - exact test_fresh.
  - lia.
  - cbn. lia.
  - exact test_plugins.
  - by apply test_devices_ready.
  - apply sendable_empty.
  - cbn. lia.
  - vm_compute. reflexivity.
  - reflexivity.
  - lia.
  - cbn. lia.
  - cbn. lia.
  - exists b'. split; [exact H1|]. rewrite H2. reflexivity.
Defined.

Definition test_link : Link World :=
  MkLink (Con 5 "localhost:8896" (replicate BUFFER_SIZE NUL) (replicate BUFFER_SIZE NUL)) [] [] test_peer.

Lemma test_linked :
  linked (Peer0 := server_peer 7 halves) (Served0 := server_served 0%nat 7 test_server halves halves_arrive)
    test_link ([], test_world).
Proof.
  split; cbn [ln_con con_rx con_tx ln_in ln_out ln_peer test_link];
    [apply length_replicate|apply length_replicate|constructor|constructor|apply test_session].
Qed.

Lemma remote_read_not_allocated_witness :
  exists k', remote_read (Peer0 := server_peer 7 halves) (new_remote [] 3) 0 4 test_link =
    (Throw (Exn EX_error_rw ("Wrong response from server on read request 94: READ: device is not allocated"
       +:+ of_chars [])), k') /\
    fd_to_client (ln_peer k').1.1 !! 7 = None /\ (ln_peer k').1.2 = test_world.
Proof.
  apply (remote_read_not_allocated 0%nat 7 test_server halves halves_arrive (new_remote [] 3) 0 4
    test_link [] test_world []).
  - exact test_linked.
  - reflexivity.
  - cbn. lia.
  - lia.
  - apply Nat.leb_le. reflexivity.
  - vm_compute. reflexivity.
Defined.

Lemma remote_call_last_byte_lost_witness :
  let res1 := remote_call (Peer0 := server_peer 7 halves) (new_remote [] 0) "echo" (chars "Z" ++ [NUL]) 1 test_link in
  let res2 := remote_call (Peer0 := server_peer 7 halves) (new_remote [] 0) "echo" (chars "Z" ++ chars "x") 1 test_link in
  res1.1 = res2.1 /\ ln_in res1.2 = ln_in res2.2 /\ ln_peer res1.2 = ln_peer res2.2.
Proof.
  apply (remote_call_last_byte_lost (Peer0 := server_peer 7 halves) (new_remote [] 0) "echo" (chars "Z") NUL
    "x"%char 1 test_link).
  - apply length_replicate.
  - apply Nat.leb_le. reflexivity.
  - cbn. lia.
  - split; [apply echo_name|apply echo_short].
Defined.
End TestSession.
