(* ===== verification/RemoteInit.v ===== *)
(** * From the command line to a server

    [hwio_init] with a configuration of one remote bus, a program that uses
    the bus and its devices through the interfaces [ihwio_bus] and [ihwio_dev],
    and the deletion of the bus: the session of [RemoteSession] inside a
    process. *)

From Stdlib Require Import ZArith Lia Ascii String.
From stdpp Require Import base tactics list numbers strings gmap fin_maps fin_map_dom.
From S2P Require Import Prelude CxxString Version CompSpec Device Mmap Bus Devicetree Json OwningBus Cli.
From S2P Require Import Wire Protocol Address Client DeviceRemote Objects ObjectsSpec HwioInit.
From S2P Require Import ClientSpec RemoteSpec Server ServerHandlers ServerFrame ServerSpec ServerQuery ServerSafety.
From S2P Require Import ServerLoop ServerLoopSpec ServerStream ServerFrames ServerRun EndToEnd RemoteProgram RemoteSession.

Definition remote_bus_entry (host : string) : ptree :=
  PTree "" [("type"%string, leaf "remote"); ("host"%string, leaf host)].

(** ** A program on one bus of a process *)

Section lift.
Context {N : Type} `{!Peer N} {CA : ConApi} {OS : Posix}.
Implicit Types (w : process N) (b : hwio_bus_remote N) (bus : nat).

(** The operations of a program through the interfaces; functions are called
    through [hwio_device_remote], which only a remote device is. *)
Definition object_machine bus : machine (process N) any_dev := {|
  mc_find := find_devices bus;
  mc_read := read_block;
  mc_write := dev_write;
  mc_call d name args n := dispatch d (fun _ => st_undef OutOfBounds)
    (fun i => on_seen i (fun d => call_looked_up d name args n))
|}.

(** [m'] does in the process what [m] does on the object [bus]. *)
Definition follows {A C} bus (f : A -> C) (m' : ST (process N) C) (m : ST (hwio_bus_remote N) A) : Prop :=
  forall w b, pr_buses w !! bus = Some (ORemote b) ->
    m' w = let '(r, b') := m b in (f <$> r, set_bus bus (ORemote b') w).

Lemma follows_ret {A C} bus (f : A -> C) a : follows bus f (mret (f a)) (mret a).
Proof. intros w b Hb. unfold mret, ST_ret, set_bus. rewrite insert_id by done. by destruct w. Qed.

Lemma follows_bind {A C A' C'} bus (f : A -> C) (g : A' -> C') m' m k' k :
  follows bus f m' m -> (forall a, follows bus g (k' (f a)) (k a)) ->
  follows bus g (m' ≫= k') (m ≫= k).
Proof.
  intros Hm Hk w b Hb. unfold mbind, ST_bind. rewrite (Hm w b Hb).
  destruct (m b) as [[a|e|x] b1]; cbn [fmap outcome_fmap mbind outcome_bind mret outcome_ret]; [|done..].
  rewrite (Hk a _ b1) by apply lookup_insert_eq.
  destruct (k a b1) as [r b2]. unfold set_bus. cbn. by rewrite insert_insert_eq.
Qed.

Lemma fmap_id_outcome {A} (r : outcome A) : id <$> r = r.
Proof. by destruct r. Qed.

Lemma follows_on_remote {A} bus (m : ST (hwio_bus_remote N) A) : follows bus id (on_remote bus m) m.
Proof. intros w b Hb. unfold on_remote. rewrite Hb. destruct (m b). by rewrite fmap_id_outcome. Qed.

Lemma follows_find bus q : follows bus (map (DevRemote bus)) (find_devices bus q) (find_devices tt q).
Proof.
  intros w b Hb. cbn [find_devices object_bus remote_bus]. unfold bus_lookup. cbn [object_find].
  rewrite (st_bind_ret _ _ _ _ _ (get_bus_run _ _ _ Hb)). unfold mbind at 1, ST_bind, on_remote. rewrite Hb.
  by destruct (remote_find_devices q b) as [[a|e|f] b'].
Qed.

Lemma follows_read bus i off n : follows bus id (read_block (DevRemote bus i) off n) (read_block i off n).
Proof.
  intros w b Hb. unfold read_block. cbn [dev_read any_idev dispatch_read fst snd]. rewrite Hb.
  destruct (dev_read i off n (b, [])) as [r [b' dst]]. by destruct r.
Qed.

Lemma follows_handle bus ys h : follows bus (DevRemote bus) (handle (map (DevRemote bus) ys) h) (handle ys h).
Proof.
  unfold handle. rewrite list_lookup_fmap. destruct (ys !! h); cbn; [apply follows_ret|].
  intros w b Hb. unfold st_throw, set_bus. cbn. rewrite insert_id by done. by destruct w.
Qed.

Lemma follows_program {A} bus (p : program A) ys :
  follows bus id (run_program (object_machine bus) p (map (DevRemote bus) ys)) (run_program remote_machine p ys).
Proof.
  revert ys. induction p as [a|q k IH|h off n k IH|h off data k IH|h name args n k IH]; intros ys; cbn [run_program].
  - apply (follows_ret bus id a).
  - apply (follows_bind bus (map (DevRemote bus))); [apply follows_find|]. intros xs.
    rewrite length_map. change (map (DevRemote bus) ys ++ map (DevRemote bus) xs) with
      (fmap (DevRemote bus) ys ++ fmap (DevRemote bus) xs). rewrite <-fmap_app. apply IH.
  - eapply follows_bind; [apply follows_handle|]. intros i.
    eapply (follows_bind bus id); [apply follows_read|]. intros bs. apply IH.
  - eapply follows_bind; [apply follows_handle|]. intros i.
    eapply (follows_bind bus id); [apply follows_on_remote|]. intros []. apply IH.
  - eapply follows_bind; [apply follows_handle|]. intros i.
    eapply (follows_bind bus id); [apply follows_on_remote|]. intros bs. apply IH.
Qed.

(** Deleting a remote bus ends its session. *)
Lemma follows_delete bus b b' w :
  pr_buses w !! bus = Some (ORemote b) -> destroy_bus b = (Ret tt, b') ->
  bus_delete bus w = (Ret tt, Process (pr_local w) (delete bus (pr_buses w))).
Proof.
  intros Hb Hd. unfold bus_delete. cbn [object_delete]. rewrite (st_bind_ret _ _ _ _ _ (get_bus_run _ _ _ Hb)).
  erewrite (st_bind_ret (on_remote _ _)) by (unfold on_remote; by rewrite Hb, Hd).
  unfold free_bus. erewrite st_bind_ret by (apply get_bus_run, lookup_insert_eq).
  unfold st_modify, set_bus. cbn. by rewrite delete_insert_eq.
Qed.
End lift.

(** ** Properties *)

Section init.
Context {W D B : Type} `{!IDev W D} `{!IBus W D B} {VG : VectorGrowth} {PL : Platform}.
Context {CA : ConApi} {RS : Resolver} {OS : Posix} {FS : FileSystem} {SO : StdSort} {JF : JsonFiles}.
Context {UF : UserFiles} {GO : Getopt} {DL : Dial (World (W:=W) (D:=D) (B:=B))} (walk_fuel : nat).
Context (l : loc) (fd : Z) (s0 : HwioServer W D B) (cut : list byte -> list con_event).
Context (Hcut : forall bs, arrives [] (cut bs) bs).
Implicit Types (w : W) (n : World (W:=W) (D:=D) (B:=B)).

#[local] Instance server_behind : Peer (World (W:=W) (D:=D) (B:=B)) := server_peer fd cut.
#[local] Instance factory : BusFactory (process (World (W:=W) (D:=D) (B:=B))) nat := process_factory walk_fuel.

(** The server behind a new connection to [host] has accepted it as [l]. *)
Definition dials (host : string) w : Prop :=
  (exists addr, resolve_host host = Ret addr) /\ length (dial_rx host) = BUFFER_SIZE /\
  length (dial_tx host) = BUFFER_SIZE /\ dial_in host = [] /\ dial_out host = [] /\
  session l fd s0 (dial_peer host) [] w [].

(** C1: the whole client: a program that starts with a configuration of one
    remote bus, looks devices up, reads, writes and calls functions through
    the interfaces of bus and device, and deletes the bus, gets the results it
    would get on the devices of the server and leaves them in the same state;
    the server has removed the client, and the process is as before. *)
Theorem hwio_init_remote_correct `{!DevReadExact W D} {A} (p : program A) argc argv name host
    (pr : process (World (W:=W) (D:=D) (B:=B))) w all a known w' :
  config_name (getopt_long long_opts (copy_argv argc argv)) = Some name ->
  read_json name = Some (Ret (config_document [remote_bus_entry host])) -> host <> ""%string ->
  0 <= con_socket -> 0 <= con_connect con_socket -> dials host w ->
  few s0 all -> plugins_ok s0 -> program_fits p ->
  run_program (local_machine s0) p [] ([], w) = (Ret a, (known, w')) ->
  exists bus pr1 pr2 b b', hwio_init argc argv pr = (Ret (bus, rm_comsumed_args argc argv), pr1) /\
    run_program (object_machine bus) p [] pr1 = (Ret a, pr2) /\
    pr_buses pr2 !! bus = Some (ORemote b) /\ destroy_bus b = (Ret tt, b') /\
    bus_delete bus pr2 = (Ret tt, pr) /\
    let served := ln_peer (rb_link b') in fd_to_client served.1.1 !! fd = None /\ served.1.2 = w'.
Proof.
  intros Hn Hcfg Hhost Hs Hc (Haddr & Hrx & Htx & Hin & Hout & Hsess) Hfew Hplugins Hfits Hrun.
  set (c := Con (-1) host (dial_rx host) (dial_tx host)).
  assert (new_con (dial_rx host) (dial_tx host) host = Ret c) as Hnew.
  { unfold new_con. by destruct Haddr as [addr ->]. }
  set (b0 := BusRemote (MkLink c [] [] (dial_peer host)) []).
  destruct (session_run l fd s0 cut Hcut p all b0 w a known w') as (b3 & Hsession & Hgone); [done|done| |done..|].
  { by exists (dial_rx host), (dial_tx host), host, c, (dial_peer host). }
  unfold remote_session in Hsession. apply st_bind_inv in Hsession as ([] & b1 & Hcon & Hsession).
  apply st_bind_inv in Hsession as (a1 & b2 & Hprog & Hsession).
  apply st_bind_inv in Hsession as ([] & b4 & Hdel & Hsession). apply st_ret_inv in Hsession as [<- <-].
  change (connect_bus b0 = (Ret tt, b1)) in Hcon. change (destroy_bus b2 = (Ret tt, b4)) in Hdel.
  change (run_program remote_machine p [] b1 = (Ret a1, b2)) in Hprog.
  set (bus := fresh (dom (pr_buses pr))).
  assert (pr_buses pr !! bus = None) as Hbus by apply not_elem_of_dom, is_fresh.
  set (pr1 := set_bus bus (ORemote b1) pr). set (pr2 := set_bus bus (ORemote b2) pr1).
  assert (pr_buses pr2 !! bus = Some (ORemote b2)) as Hpr2 by apply lookup_insert_eq.
  exists bus, pr1, pr2, b2, b4. split; [|split; [|split; [done|split; [done|split; [|exact Hgone]]]]].
  - eapply hwio_init_config; [done|done|]. unfold hwio_bus_from_ptree.
    erewrite (st_bind_ret (st_lift _)) by done. change (pt_get (remote_bus_entry host) "host" "") with host.
    rewrite bool_decide_eq_true_2, bool_decide_eq_false_2 by done.
    cbn [new_hwio_bus_remote factory process_factory]. unfold new_bus_remote. rewrite Hnew, Hin, Hout.
    assert (st_lift (match connect_bus b0 with (Ret _, rb) => Ret rb | (Throw e, _) => Throw e | (Undef f, _) => Undef f end)
      pr = (Ret b1, pr)) as E by (unfold st_lift; by rewrite Hcon).
    rewrite (st_bind_ret _ _ _ _ _ E). reflexivity.
  - rewrite (follows_program bus p [] pr1 b1 (lookup_insert_eq _ _ _)), Hprog. by rewrite fmap_id_outcome.
  - rewrite (follows_delete bus b2 b4 pr2 Hpr2 Hdel). destruct pr as [local buses].
    unfold pr2, pr1, set_bus. cbn in *. by rewrite insert_insert_eq, delete_insert_id.
Qed.
End init.
