(* ===== verification/RemoteInitTest.v ===== *)
(** * A concrete client from its command line on

    The session of [TestSession] for a program whose configuration names the
    server. *)

From Stdlib Require Import ZArith Lia Ascii String.
From stdpp Require Import base tactics list numbers strings gmap fin_maps.
From S2P Require Import Prelude CxxString Version CompSpec Device Mmap Bus Devicetree DevicetreeTest Json OwningBus Cli.
From S2P Require Import Wire Protocol Address Client DeviceRemote Objects ObjectsSpec HwioInit.
From S2P Require Import ClientSpec RemoteSpec Server ServerHandlers ServerFrame ServerSpec ServerQuery ServerSafety.
From S2P Require Import ServerLoop ServerLoopSpec ServerStream ServerFrames ServerRun ServerTest.
From S2P Require Import EndToEnd RemoteProgram RemoteSession RemoteTest RemoteInit.

Module TestRemoteInit.
Import TestMachine TestServer TestTree TestSession.

#[export] Instance remote_config : JsonFiles := {|
  read_json f :=
    if bool_decide (f = "cfg.json"%string) then Some (Ret (config_document [remote_bus_entry "localhost:8896"]))
    else None
|}.

#[export] Instance dial_server : Dial (World (W:=MmapWorld) (D:=nat) (B:=hwio_bus_primitive nat)) := {|
  dial_rx _ := replicate BUFFER_SIZE NUL; dial_tx _ := replicate BUFFER_SIZE NUL;
  dial_in _ := []; dial_out _ := []; dial_peer _ := test_peer
|}.

#[local] Existing Instances TestCli.scanning TestCli.no_user_files.
#[local] Instance peer_behind : Peer (World (W:=MmapWorld) (D:=nat) (B:=hwio_bus_primitive nat)) := server_peer 7 halves.
#[local] Instance test_factory : BusFactory (process (World (W:=MmapWorld) (D:=nat) (B:=hwio_bus_primitive nat))) nat :=
  process_factory 10.

Definition empty_process : process (World (W:=MmapWorld) (D:=nat) (B:=hwio_bus_primitive nat)) :=
  Process (MWorld ∅ ∅) ∅.

Lemma server_dialled : dials 0%nat 7 test_server "localhost:8896" test_world.
Proof.
  split; [eexists; reflexivity|]. split; [apply length_replicate|]. split; [apply length_replicate|].
  split; [reflexivity|]. split; [reflexivity|]. exact test_session.
Qed.

Lemma hwio_init_remote_correct_witness :
  exists bus pr1 pr2 (b' : hwio_bus_remote (World (W:=MmapWorld) (D:=nat) (B:=hwio_bus_primitive nat))), hwio_init 4 TestCli.test_argv empty_process =
      (Ret (bus, (2, ["--hwio_config"; "cfg.json"; "cfg.json"; "x"]%string)), pr1) /\
    run_program (object_machine bus) test_program [] pr1 = (Ret ([NUL] ++ chars "AB" ++ [NUL], chars "Z"), pr2) /\
    bus_delete bus pr2 = (Ret tt, empty_process) /\
    fd_to_client (ln_peer (rb_link b')).1.1 !! 7 = None /\ (ln_peer (rb_link b')).1.2 = test_local.2.2.
Proof.
  destruct (hwio_init_remote_correct 10 0%nat 7 test_server halves halves_arrive test_program 4 TestCli.test_argv
    "cfg.json" "localhost:8896" empty_process test_world [0%nat] ([NUL] ++ chars "AB" ++ [NUL], chars "Z")
    test_local.2.1 test_local.2.2) as (bus & pr1 & pr2 & b & b' & H1 & H2 & _ & _ & H3 & H4 & H5).
  - reflexivity.
  - reflexivity.
  - discriminate.
  - cbn. lia.
  - cbn. lia.
  - exact server_dialled.
  - exact test_few.
  - exact test_plugins.
  - exact test_program_fits.
  - rewrite <-(surjective_pairing test_local.2). exact test_local_result.
  - exists bus, pr1, pr2, b'. split; [exact H1|]. split; [exact H2|]. split; [exact H3|]. split; [exact H4|exact H5].
Defined.
End TestRemoteInit.
